(* ===== verification/_CoqProject ===== *)
-Q . S2P
Prelude.v
SortValues.v
DataFrame.v
Datetime.v
Float.v
FloatText.v
Latest.v
Breakdown.v
Conditional.v
Evacuate.v
Summary.v
Csv.v
Plots.v
Effects.v
SummaryMain.v
BreakdownMain.v
Download.v
Report.v
Args.v
