(* ===== verification/Prelude.v ===== *)
(** * Evacuation-Analysis: a verification development

    The repository is a set of independent Python scripts over one CSV
    export of a hurricane-evacuation survey (one row per answer of a user
    to a question or game step, with [user_id] or [hashed_user_id],
    [session_id], [question] or [step_name], [answer] and [created_at]).
    Each script reads the export with pandas, filters and aggregates it,
    and prints CSV or writes charts and an HTML page.  There is no shared
    state between the scripts; what they share is the aggregation
    pattern: latest answer per user, percentage breakdowns, conditional
    breakdowns and time windows.  This development models that pattern
    as pure functions over lists of rows, one file per part.

    ** Files, in dependency order

    - [Prelude.v] (this file): cells ([option string], [NaN] = [None]),
      the [Result] type of a run that aborts ([KeyError],
      [MissingColumns], [DateParseError], [TypeError], [EmptyDataError])
      with its [let*] notation in [evac_scope], pandas' [Series.unique]
      ([pd_unique]), counting ([count_if]), percentages as exact
      rationals ([percentage c n = c / n * 100] in [Q]) and the list,
      filter and sum lemmas every component uses; hint database [evac].
    - [SortValues.v]: what [sort_values], [value_counts] and sorted
      [groupby] keys rely on.  The class [SortAlg] states what any sort
      promises (a sorted permutation); [StableSortAlg] adds stability.
      pandas' default [kind='quicksort'] promises no stability, so the
      components are written against [SortAlg] and only the tie-breaking
      theorems assume [StableSortAlg].  The stable [insertion_sort]
      discharges both, and [stable_sort_insertion_sort] shows every
      stable sort computes what it computes.  Key orders: timestamps with
      NaT last ([ts_le], pandas' [na_position='last']), counts and
      percentages descending, strings by code point, pairs
      lexicographically.
    - [DataFrame.v]: the row record [RowT] (its [created_at] is the raw cell
      before [pd.to_datetime] and [option Z] seconds, [None] = NaT,
      after), the frame (header + rows), the column checks
      ([check_required], [get_col]), the answer normalisation
      ([replace_answers]: "Petowner" -> "Pet Owner"), [pd.to_datetime] in
      its raising and coercing modes over a [DatetimeParser] interface
      (which also tells whether a string carries a UTC offset, making the
      parsed value tz-aware), and [drop_duplicates(keep='last')].
    - [Datetime.v]: the ISO-8601 [DatetimeParser] instance used by the
      concrete runs (a model of the library, not of repository code).
    - [Float.v]: the scripts' percentages as Python floats.  A binary64
      value [F64] is [m * 2^e] ([normal]: [2^52 <= m < 2^53], or zero);
      [round_q] rounds a rational to nearest, ties to even, exactly
      (through [floor_log2_q], [scale2] and [round_half_even]);
      [py_percentage p] is [(count / total) * 100] evaluated as Python
      does, [mul100 (round_q (p / 100))].  Their text: [repr_float] is
      [repr] (what [to_csv] writes for a float column): the shortest
      decimal that reads back ([repr_digits], a search over 1 to 17
      significant digits, [try_digits] testing the two neighbours of
      [x * 10^s] against the rounding interval [in_interval]) in
      Python's fixed or exponent layout; [format_fixed k] is
      ["{:.kf}"].  The model was checked against CPython on 414 values.
      The text functions model the Python library, not repository
      code, and the manifest does not map them.
    - [FloatText.v]: what a reader of the output does with that text:
      [read_float] is [float(s)] on the unsigned decimal literals the
      scripts write (digits, an optional fraction, an optional exponent
      part), giving the exact rational the text denotes.  It models the
      Python builtin, not repository code; the digit strings of
      [pretty] (stdpp's decimal printing, which [digits_of] uses) and
      the four forms of [layout] are read back by lemmas on [is_digits]
      and [dval].
    - [Latest.v]: [process_data] of processEvacuate.py and of
      firstworkingprocessEvacuate.py after loading: select a step, sort
      by [created_at], keep each user's last row, project, and
      inner-join player types with evacuation choices ([merge_latest]).
    - [Breakdown.v]: [calculate_aggregated_answer_percentages]
      (genetedatefilterprocess.py) and
      [calculate_drought_answer_percentages] (geneteprocess.py).
    - [Conditional.v]: [process_and_output_percentages]
      (genetedatefilterprocess.py): date filter (with the [TypeError] of
      comparing a tz-aware column with a naive date), the three printed
      sections, and the condition set of sessions answering "2009".
    - [Evacuate.v]: the whole [process_data] of processEvacuate.py
      (lines 12-46) and of firstworkingprocessEvacuate.py (lines 7-34):
      the column accesses in code order, [pd.to_datetime] raising, the
      [--today] filter (UTC date in processEvacuate.py, local date in
      the first version; the clock is an explicit [Clock] argument), the inclusive
      [--start]/[--end] bounds, [None] on an empty window, the answer
      normalisation and [merge_latest].
    - [Summary.v]: summarize_noki.py: [--filter-question]
      ([get_unique_answers_for_question]), [generate_full_summary]
      (groupby on (hashed_user_id, created_at, question) with NaN keys
      dropped, [', '.join(x.unique())] raising [TypeError] on a NaN
      answer, the final sort) and the [__main__] dispatch
      ([summarize_main]).  A fallible map over a list is [res_map]
      (below), which stops at the first error as a Python loop does; the
      join's [TypeError] names the position of the NaN ([join_items]).
    - [Csv.v]: [DataFrame.to_csv] as CPython 3.11's csv writer writes it
      ([QUOTE_MINIMAL]: a field is quoted when it holds the delimiter,
      the quote or ['\n'], a bare ['\r'] is not; doubled quotes; a lone
      empty field quoted) and an RFC 4180 reader written as a character-level state
      machine ([step], [run_reader]), the reference for the round trip.
    - [Plots.v]: [generate_plots] of both evacuation scripts as what it
      computes: the bars of chart 1 ([player_breakdown], from
      [value_counts]), chart 2 ([evacuation_overall]: reindexed to
      [EVAC_ORDER], coloured from [COLOR_MAP]; the first version's
      [evacuation_overall_first] colours by rank), the table of chart 3
      ([crosstab], [reindex_columns]) and the labels its loop writes by
      reading patch [i] back at row [i mod n] and column [i / n]
      ([by_type_labels]), and the text written on each bar ([bar_text],
      [label_text]: the count and the binary64 share with one decimal,
      [nan] for 0/0).  The order of [ax.patches] (column by column)
      is matplotlib's and is modelled by [patches].
    - [Effects.v]: the effects of a run: a trace of [Event]s (prints,
      HTTP requests, file opens and writes, [savefig]) and Python
      exceptions ([Exc]), in the monad [Eff] (a state-and-exception
      monad given to stdpp's [MRet]/[MBind], written with [x ← m; k]);
      [catch] is [try/except], [for_each] a [for] loop, [sys_exit]
      raises [SystemExit], which [except Exception] does not catch
      ([is_exception]); [file_after], [printed], [stdout_text] and
      [stderr_text] read the files and the output off a trace, and
      [exit_status] the status off the result (1 for an uncaught
      exception).
    - [SummaryMain.v]: summarize_noki.py as a process: [read_csv] of
      stdin ([CsvInput]: empty, a parser error, or the frame),
      [process_data_from_stdin], [get_unique_answers_io] and
      [generate_full_summary_io] with their [except] clauses and
      messages ([str] of a [KeyError] quotes its message), the
      [__main__] dispatch [summarize_noki], and its case table
      [summarize_noki_outcome].
    - [BreakdownMain.v]: geneteprocess.py and genetedatefilterprocess.py
      as processes over the pure models of [Breakdown.v] and
      [Conditional.v], with the [sys.exit(1)] inside their [try] blocks,
      the inner [except ValueError] of the start date, and the section
      writes; the text of a float is the class [FloatFormat], whose
      instance [py_float_format] writes the binary64 percentage of
      Float.v with [repr] or ["{:.2f}"].
    - [Download.v]: downloadStorms.py against an explicit [Server]
      record (what [requests.post]/[requests.get] answer or raise), with
      [raise_for_status], the JSON token and the streamed write; the
      credentials are a Section variable.  [download_outcome] is the case
      table of every run.
    - [Report.v]: [create_html_report] of both versions (the exact page
      text, with the title's [time_info]) and the [__main__] blocks of
      both evacuation scripts as [Eff] runs composing [pd.read_csv] of
      the input file ([read_csv] of SummaryMain.v, whose errors are not
      caught), [process_data],
      [generate_plots] (as its [savefig] calls) and the report.
      [Datetime.v] also prints dates ([date_str], with
      [civil_from_days] proved inverse to [days_from_civil]).
    - [Args.v]: the command lines.  Each script's [ArgumentParser] and
      [add_argument] calls are a [Parser] value ([evac_parser],
      [first_parser], [datefilter_parser], [summarize_parser]);
      [parser.parse_args()] is [parse_args], a model of CPython 3.11's
      argparse (library code, used by the theorems but not mapped)
      algorithm for those declarations (classification of each argument
      as [_parse_optional] does it, with abbreviations of long options,
      [--opt=value], [-hX] tails, negative numbers and the [--]
      separator, then [consume_optional]'s left-to-right loop and the
      "unrecognized arguments" check), differentially tested against
      CPython on 11000 random argument lists; [parse_args_io] prints the
      help (exit 0) or the usage and error (exit 2).  [evac_cli],
      [evac_first_cli], [datefilter_cli] and [summarize_cli] are the whole
      [__main__] blocks: the parse, then the modelled body.

    ** What the theorems show

    - Latest answers: at most one row per user, it is the user's latest
      selected row, every user with a selected row keeps one; with a
      stable sort ties go to the last row in input order and extraction
      is idempotent; since NaT sorts last, a row with a missing
      timestamp is the one kept ([latest_rows_max], a finding).  The merged frame pairs each user's latest player type
      with the latest evacuation choice, has one row per user, and keeps
      exactly the users who answered both.
    - Breakdowns: the exact percentages add up to 100
      ([aggregated_exact_sum_100], a step towards the float bound), each answer appears
      once with its share, rows are in decreasing order; with a stable
      sort the final [sort_values] is a no-op; the per-user breakdown
      restricted to any user is the global breakdown over that user's
      rows (a refinement between the two scripts), so per-user
      percentages add up to 100.  The floats the scripts compute add up
      to 100 within [100 * 2^-51] ([aggregated_float_sum],
      [drought_user_float_sum]): the specification's "within floating
      rounding" made exact.  With a stable sort and fewer than [2^50]
      answers, the breakdown computed with floats and sorted by them
      ([calculate_aggregated_float]) is the exact one with its
      percentages rounded ([aggregated_float_refines]), and likewise
      per user ([drought_float_refines]): the exact model orders the
      rows as the scripts do.
    - Floats: [round_q] has relative error at most [2^-53]
      ([round_q_error]), so a percentage is within [2^-51] of the exact
      one ([py_percentage_error]) and is zero or normal
      ([py_percentage_wf]); [round_q] depends only on the value
      ([round_q_proper], a [Proper] instance) and every rational of a
      float's rounding interval rounds to it ([round_q_in_interval]).
      [repr]'s search always finds digits within its 17 rounds
      ([repr_search_terminates]) and the digits read back to the float
      ([py_repr_roundtrip]); on text, [float(repr(x))] is [x] for every
      normal [x] ([repr_text_roundtrip]), and the text of ["{:.kf}"]
      reads back within half a unit of its last decimal
      ([format_fixed_text_error]).  A run of genetedatefilterprocess.py prints
      66.66666666666666 and 33.33% as Python does
      ([datefilter_stdout_scenario]).  These are facts of the library
      models that the float theorems above rest on.
    - Command lines: processEvacuate.py run as [--today], [--start=S],
      [--end=E] runs its [__main__] body with exactly these values
      ([evac_cli_refines]), summarize_noki.py run as
      [--filter-question=Q] summarizes [Q] ([summarize_cli_refines]),
      and genetedatefilterprocess.py takes [--start D] (any prefix of
      [--start-date] from [--s]) as [--start-date D]
      ([datefilter_start_abbrev]).  They rest on a lemma of the argparse
      model: the canonical command line of any namespace a well-formed
      parser can produce parses back to it ([parse_args_unparse]).
    - Conditional breakdown: the restricted rows are exactly those of the
      sessions with a "2009" answer; an empty condition set is reported
      by its message and never by an empty table; the run fails exactly
      on empty input, missing columns and an unparsable start date; with
      a start date the sections see exactly the rows at or after it.
    - Time windows: the rows [process_data] merges are exactly the
      rows, in file order, on today's UTC date (with [--today]), at or
      after [--start] and at or before [--end], both bounds included; a
      NaT row only when no filter is given ([process_data_kept_rows]);
      [process_data] succeeds exactly when the columns it touches exist
      and every timestamp and bound parses, and then returns the merged
      latest answers of the normalised rows of the window; every error
      names its cause; no merged row says "Petowner".  With [--today]
      the first version is processEvacuate.py on a clock moved to local
      time ([first_version_today_local]): the two disagree near
      midnight (a finding).
    - Summary: each summary row is a group key with the join of the
      group's distinct answers, one row per key, in key order under a
      stable sort; the summary fails on missing columns, or at the first
      group in key order holding a NaN answer with the [TypeError] naming
      its position (a finding); [--filter-question] lists the distinct
      answers in order of first appearance ([pd_unique_snoc]).
    - Processes: summarize_noki.py, geneteprocess.py and
      genetedatefilterprocess.py each compute exactly a case table read
      from their pure model ([summarize_noki_refines],
      [drought_main_refines_core], [datefilter_main_refines]); each exits
      with 0 exactly on the inputs the specification accepts (plus, for
      the date filter, a start date of the column's tz kind: a finding)
      and otherwise with 1, nothing on stdout and a message on stderr;
      what summarize_noki.py prints reads back as the summary
      ([summarize_noki_csv_output]), since whatever [to_csv] writes the
      reader reads back ([to_csv_roundtrip]).  Concrete runs show the
      quoted "A, B", the [TypeError] message, the quoted [KeyError] and
      the header-only input exiting with 0 (findings).
    - Charts: the patch-index arithmetic of chart 3 is a bijection that
      reads back each patch's own height; each label shows the count of
      its player type and choice with its share among the type's
      [EVAC_ORDER] answers, and one type's shares add up to 100; chart 2
      is "Yep, evacuate!" in light green then "Heck no! dont evacuate"
      in coral with their counts; chart 1 has one bar per type with
      shares adding up to 100; [generate_plots] never raises.  The first
      version colours and orders chart 2 by rank (a finding).
    - Runs: processEvacuate.py ends in an exception exactly on a
      missing, empty or malformed input file or a [process_data] error,
      with nothing printed or written ([evac_main_Err]); the download's
      monadic code equals its case table
      ([download_refines]); a complete download leaves exactly the
      chunks in the file, a broken stream leaves a truncated partial file
      (a finding), the file is touched only after both requests were
      accepted, and only an [AttributeError] escapes (a finding).  The
      evacuation [__main__] saves the charts unless the merged frame is
      empty, yet always writes the report and prints SUCCESS (a finding).
    - Concrete runs ([Example]s and the [_witness] lemmas, closed by
      [vm_compute]) replay the specification's scenarios.

    ** Bounds and fuel

    Every function is structurally recursive over finite lists or
    numbers.  Two have fuel, each proved sufficient: [repr]'s search
    ([shortest_from]) runs 17 rounds, and 17 significant digits always
    identify a binary64 value ([try_digits_found]: the decimal unit is
    then below half an ulp, as [10^16 > 2^53]); [num_digits] divides by
    10 at most [Z.log2 n + 1] times, the bit length, which is at least
    the number of decimal digits ([ndigits_spec]).  Floats have an
    unbounded exponent: the percentages lie in [[0, 100]], far from
    binary64's overflow and subnormal ranges.  [civil_from_days] is checked on the 146097 days of one
    400-year era by [vm_compute] and carried to every day by the era
    shift lemmas.  Percentages are exact rationals, so "sum to 100" holds
    exactly where the scripts are within float rounding.  Timestamps are
    integers of seconds ([Z]), unbounded: pandas' nanosecond [int64]
    range covers years 1677-2262, far beyond the survey's dates, and no
    script does arithmetic on them beyond comparison and day division.

    ** Not modelled, and why

    Chart drawing (figure sizes, titles, fonts, the PNG contents) is
    matplotlib's; HTTP is the [Server] record; argparse is modelled for
    the actions the scripts declare only (no positionals, [nargs],
    [choices] or subparsers), its help text taken as the 80-column
    formatter output and its messages for ASCII arguments (Python's
    [\d] also matches non-ASCII digits); a file that cannot be opened for
    writing (OSError) is not modelled.  pd.read_csv is library code: its
    result is the frame given to each function, an empty stream being
    [EmptyDataError] and a malformed one a parser error with its
    message; CSV type inference (a column of numbers read as integers) is
    not modelled, so cells are strings or NaN.  [pd.to_datetime] is
    applied cell by cell: pandas 2 infers one format from the first
    cell and applies it to the column, which is not modelled.  The values
    of the token response's JSON object are strings or nulls: a number,
    boolean or nested value (which [f"Bearer {token}"] would format with
    [str], and whose falsiness differs) is not modelled.  A created_at column
    mixing offsets and naive times is taken not to occur (pandas raises
    or coerces depending on its version).  Floats are modelled where the
    scripts print or draw them (the breakdown tables, the share of
    2009, the text on the bars).  [float(s)] is modelled only on the
    literals the scripts write: no sign, spaces, underscores, [inf] or
    [nan] (a NaN percentage is never written by [repr] here: the
    breakdowns have no empty group).

    ** Remaining

    Every function of the six scripts is modelled; what is left is
    library behaviour listed above and module-level constants (imports,
    the download credentials, which are a parameter of [Download.v]). *)

From stdpp Require Export base list strings sets sorting.
From Stdlib Require Export QArith Lqa ZArith.
From Stdlib Require String.
Close Scope Q_scope.

Declare Scope evac_scope.
Delimit Scope evac_scope with evac.
Open Scope evac_scope.

Create HintDb evac discriminated.

(** ** Cells of a data frame

    A cell of a pandas frame read from CSV is a string or a missing
    value ([NaN]). *)
Abbreviation Cell := (option string).
Abbreviation NaN := (@None string).

(** The newline character, ["\n"] of Python's strings. *)
Definition nl : string := String.String (Ascii.ascii_of_nat 10) String.EmptyString.

(** ** Results of a script: success, or the error that aborts it *)
Inductive Fail :=
  | KeyError (col : string)            (* a column accessed by name is absent *)
  | MissingColumns (cols : list string) (* explicit required-column check *)
  | DateParseError (s : string)        (* pd.to_datetime without coercion *)
  | TypeError (what : string)          (* e.g. ', '.join over a NaN *)
  | EmptyDataError.                    (* pd.read_csv on an empty stream *)

Inductive Result (A : Type) :=
  | Ok (a : A)
  | Err (e : Fail).
Arguments Ok {A} a.
Arguments Err {A} e.

Notation "'let*' x := c 'in' k" :=
  (match c with Ok x => k | Err e => Err e end)
  (at level 10, x name, c at level 100, k at level 200) : evac_scope.

(** ** pandas [Series.unique]: distinct values, in order of first appearance *)
Section Unique.
  Context {A : Type} `{EqDecision A}.

Fixpoint pd_unique_aux (seen : list A) (l : list A) : list A :=
    match l with
    | [] => []
    | x :: t => if bool_decide (x ∈ seen) then pd_unique_aux seen t
                else x :: pd_unique_aux (x :: seen) t
    end.

Definition pd_unique (l : list A) : list A := pd_unique_aux [] l.

Lemma elem_of_pd_unique_aux seen l x :
    x ∈ pd_unique_aux seen l ↔ x ∈ l ∧ x ∉ seen.
  Proof.
    revert seen. induction l as [|y l IH]; intros seen; simpl.
    - split; [intros Hx; inversion Hx | intros [Hx _]; inversion Hx].
    - case_bool_decide as Hy.
      + rewrite IH, elem_of_cons. split; [tauto|].
        intros [[->|Hx] Hs]; [contradiction|tauto].
      + rewrite elem_of_cons, IH, !elem_of_cons. split.
        * intros [->|[Hx Hs]]; [tauto|]. split; [tauto|]. intros Hs'. apply Hs. tauto.
        * intros [[->|Hx] Hs]; [tauto|]. destruct (decide (x = y)); [tauto|]. right. split; [done|].
          intros [?|?]; auto.
  Qed.

Lemma elem_of_pd_unique l x : x ∈ pd_unique l ↔ x ∈ l.
  Proof. unfold pd_unique. rewrite elem_of_pd_unique_aux. set_solver. Qed.

Lemma In_pd_unique l x : In x (pd_unique l) ↔ In x l.
  Proof. by rewrite <- !list_elem_of_In, elem_of_pd_unique. Qed.

Lemma NoDup_pd_unique_aux seen l : NoDup (pd_unique_aux seen l).
  Proof.
    revert seen. induction l as [|y l IH]; intros seen; simpl.
    - constructor.
    - case_bool_decide; [done|]. constructor; [|done].
      rewrite elem_of_pd_unique_aux. set_solver.
  Qed.

Lemma NoDup_pd_unique l : NoDup (pd_unique l).
  Proof. apply NoDup_pd_unique_aux. Qed.

Lemma pd_unique_aux_filter (p : A → bool) l seen1 seen2 :
    (∀ y, p y = true → y ∈ seen1 ↔ y ∈ seen2) →
    pd_unique_aux seen1 (List.filter p l) = List.filter p (pd_unique_aux seen2 l).
  Proof.
    induction l as [|x t IH] in seen1, seen2 |- *; intros Hs; simpl; [done|].
    destruct (p x) eqn:Hp; simpl.
    - rewrite (bool_decide_ext _ _ (Hs x Hp)). case_bool_decide; simpl; rewrite ?Hp; f_equal; apply IH.
      + done.
      + intros y Hy. rewrite !elem_of_cons. by rewrite (Hs y Hy).
    - case_bool_decide; simpl; rewrite ?Hp; apply IH; [done|]. intros y Hy. rewrite elem_of_cons, (Hs y Hy).
      split; [by right|]. intros [->|?]; [congruence|done].
  Qed.

  (** Keeping the first occurrences commutes with a row filter. *)
Lemma pd_unique_filter (p : A → bool) l :
    pd_unique (List.filter p l) = List.filter p (pd_unique l).
  Proof. by apply pd_unique_aux_filter. Qed.

  (** [unique] looks at the values already seen only through membership. *)
Lemma pd_unique_aux_ext seen1 seen2 l :
    (∀ y, y ∈ seen1 ↔ y ∈ seen2) → pd_unique_aux seen1 l = pd_unique_aux seen2 l.
  Proof.
    induction l as [|x t IH] in seen1, seen2 |- *; intros Hs; simpl; [done|].
    rewrite (bool_decide_ext _ _ (Hs x)). case_bool_decide; [by apply IH|].
    f_equal. apply IH. intros y. rewrite !elem_of_cons, Hs. done.
  Qed.

Lemma pd_unique_aux_app seen l1 l2 :
    pd_unique_aux seen (l1 ++ l2) = pd_unique_aux seen l1 ++ pd_unique_aux (seen ++ l1) l2.
  Proof.
    induction l1 as [|x t IH] in seen |- *; simpl.
    - by rewrite app_nil_r.
    - case_bool_decide as Hx; simpl; rewrite IH; f_equal; [|f_equal];
        apply pd_unique_aux_ext; intros y; set_solver.
  Qed.

  (** [unique] scans left to right: a value is appended at its first
      appearance and ignored afterwards. *)
Lemma pd_unique_snoc l x :
    pd_unique (l ++ [x]) = if bool_decide (x ∈ l) then pd_unique l else pd_unique l ++ [x].
  Proof.
    unfold pd_unique. rewrite pd_unique_aux_app. simpl.
    case_bool_decide; by rewrite ?app_nil_r.
  Qed.
End Unique.

Section UniqueMap.
  Context {A B : Type} `{EqDecision A, EqDecision B} (f : A → B).

Lemma pd_unique_aux_map seen l :
    (∀ x y, In x (seen ++ l) → In y (seen ++ l) → f x = f y → x = y) →
    pd_unique_aux (map f seen) (map f l) = map f (pd_unique_aux seen l).
  Proof.
    induction l as [|x t IH] in seen |- *; intros Hinj; simpl; [done|].
    assert (f x ∈ map f seen ↔ x ∈ seen) as Hx.
    { rewrite !list_elem_of_In, in_map_iff. split; [|eauto].
      intros (y & Hy & Hys). enough (y = x) as <- by done.
      apply Hinj; [apply in_or_app; by left|apply in_or_app; right; by left|done]. }
    rewrite (bool_decide_ext _ _ Hx). case_bool_decide; simpl.
    - apply IH. intros a b Ha Hb. apply Hinj; apply in_app_or in Ha, Hb; apply in_or_app;
        [destruct Ha|destruct Hb]; auto with datatypes.
    - f_equal. apply (IH (x :: seen)). intros a b Ha Hb. apply Hinj;
        simpl in Ha, Hb; apply in_or_app; [destruct Ha as [<-|Ha]|destruct Hb as [<-|Hb]];
        try (by right; left); apply in_app_or in Ha || apply in_app_or in Hb;
        [destruct Ha|destruct Hb]; auto with datatypes.
  Qed.

  (** An injective map commutes with [unique]. *)
Lemma pd_unique_map l :
    (∀ x y, In x l → In y l → f x = f y → x = y) →
    pd_unique (map f l) = map f (pd_unique l).
  Proof. intros Hinj. by apply (pd_unique_aux_map []). Qed.
End UniqueMap.

#[export] Hint Resolve NoDup_pd_unique : evac.

(** ** Strings *)
(** stdpp makes [String.append] opaque to [simpl]; these are its
    defining steps. *)
Lemma string_app_cons c (s1 s2 : string) :
  String.append (String.String c s1) s2 = String.String c (String.append s1 s2).
Proof. reflexivity. Qed.

Lemma string_app_nil_r (s : string) : String.append s "" = s.
Proof. induction s as [|c s IH]; [done|]. by rewrite string_app_cons, IH. Qed.

Lemma string_app_assoc (s1 s2 s3 : string) :
  String.append s1 (String.append s2 s3) = String.append (String.append s1 s2) s3.
Proof. induction s1 as [|c s1 IH]; [done|]. by rewrite !string_app_cons, IH. Qed.

(** ** Mapping a fallible function over a list, stopping at the first error *)
Section ResultMap.
  Context {A B : Type} (f : A → Result B).

Fixpoint res_map (l : list A) : Result (list B) :=
    match l with
    | [] => Ok []
    | x :: t => match f x with
                | Ok y => match res_map t with Ok ys => Ok (y :: ys) | Err e => Err e end
                | Err e => Err e
                end
    end.

Lemma res_map_Ok l ys : res_map l = Ok ys ↔ Forall2 (λ x y, f x = Ok y) l ys.
  Proof.
    induction l as [|x t IH] in ys |- *; simpl.
    - split; [intros [= <-]; constructor | intros H; inversion H; done].
    - split.
      + destruct (f x) eqn:Hx; [|done]. destruct (res_map t) eqn:Ht; [|done].
        intros [= <-]. constructor; [done|]. by apply IH.
      + intros H. inversion H as [|? y ? ys' Hy Hys]; subst.
        rewrite Hy. apply IH in Hys. by rewrite Hys.
  Qed.

Lemma res_map_Err l e : res_map l = Err e → ∃ x, In x l ∧ f x = Err e.
  Proof.
    induction l as [|x t IH]; simpl; [done|].
    destruct (f x) eqn:Hx; [|intros [= ->]; eauto].
    destruct (res_map t); [done|]. intros [= ->]. destruct IH as (y & ? & ?); eauto.
  Qed.

  (** [res_map] fails with the error of the first element that fails. *)
Lemma res_map_Err_first l e :
    res_map l = Err e ↔
    ∃ pre x post, l = pre ++ x :: post ∧ (∀ y, In y pre → ∃ v, f y = Ok v) ∧ f x = Err e.
  Proof.
    induction l as [|x t IH]; simpl.
    - split; [done|]. intros ([|] & ? & ? & ? & _); done.
    - destruct (f x) as [v|e'] eqn:Hx.
      + transitivity (res_map t = Err e); [by destruct (res_map t)|]. rewrite IH. split.
        * intros (pre & y & post & -> & Hpre & Hy). exists (x :: pre), y, post.
          split_and!; [done| |done]. intros z [<-|Hz]; eauto.
        * intros ([|z pre] & y & post & Hl & Hpre & Hy); simplify_eq/=; [congruence|].
          exists pre, y, post. split_and!; [done| |done]. intros; apply Hpre; by right.
      + split.
        * intros [= <-]. exists [], x, t. split_and!; [done| |done]. intros ? [].
        * intros ([|z pre] & y & post & Hl & Hpre & Hy); simplify_eq/=; [congruence|].
          destruct (Hpre z (or_introl eq_refl)). congruence.
  Qed.

  (** [res_map] fails exactly when some element fails. *)
Lemma res_map_total l : (∀ x, In x l → ∃ y, f x = Ok y) → ∃ ys, res_map l = Ok ys.
  Proof.
    induction l as [|x t IH]; simpl; intros H; [eauto|].
    destruct (H x (or_introl eq_refl)) as [y ->].
    destruct IH as [ys ->]; [intros; apply H; auto|]. eauto.
  Qed.
Lemma res_map_In l ys y :
    res_map l = Ok ys → In y ys ↔ ∃ x, In x l ∧ f x = Ok y.
  Proof.
    rewrite res_map_Ok. induction 1 as [|x y' l ys Hx Hys IH]; simpl; [naive_solver|].
    rewrite IH. split; [intros [<-|?]; naive_solver|].
    intros (x' & [<-|Hx'] & Hf); [left; congruence|eauto].
  Qed.

Lemma res_map_Ok_elem l ys x : res_map l = Ok ys → In x l → ∃ y, f x = Ok y.
  Proof.
    intros Hr Hx. destruct (f x) as [y|e] eqn:Hf; [eauto|].
    rewrite res_map_Ok in Hr. induction Hr as [|x' y' l ys' Hy _ IH]; [done|].
    destruct Hx as [->|Hx]; [congruence|auto].
  Qed.
End ResultMap.

Lemma sum_list_perm (l1 l2 : list nat) : l1 ≡ₚ l2 → sum_list l1 = sum_list l2.
Proof. induction 1; simpl; lia. Qed.

(** ** Counting with a boolean predicate *)
Definition count_if {A} (p : A → bool) (l : list A) : nat := length (List.filter p l).

Lemma count_if_cons {A} (p : A → bool) x xs :
  count_if p (x :: xs) = (if p x then 1 else 0) + count_if p xs.
Proof. unfold count_if. simpl. by destruct (p x). Qed.

Lemma sum_list_map_add {A} (f g : A → nat) (l : list A) :
  sum_list (map (λ k, f k + g k) l) = sum_list (map f l) + sum_list (map g l).
Proof. induction l; simpl; lia. Qed.

Section Indicator.
  Context {A : Type} `{EqDecision A}.

Lemma sum_indicator_notin (x : A) ks :
    ¬ In x ks → sum_list (map (λ k, if bool_decide (x = k) then 1 else 0) ks) = 0.
  Proof.
    induction ks as [|k ks IH]; simpl; [done|]. intros Hn.
    rewrite bool_decide_eq_false_2 by naive_solver. rewrite IH; naive_solver.
  Qed.

Lemma sum_indicator_NoDup (x : A) ks :
    NoDup ks → In x ks → sum_list (map (λ k, if bool_decide (x = k) then 1 else 0) ks) = 1.
  Proof.
    induction ks as [|k ks IH]; simpl; [done|]. intros Hnd Hx. apply NoDup_cons in Hnd as [Hn Hnd].
    case_bool_decide as Hxk.
    - subst. rewrite sum_indicator_notin; [done|]. by rewrite <- list_elem_of_In.
    - destruct Hx as [->|Hx]; [done|]. by rewrite IH.
  Qed.

  (** Counting every value of [xs] over a duplicate-free list of keys
      that covers them counts each element of [xs] once. *)
Lemma sum_counts_partition (ks xs : list A) :
    NoDup ks → (∀ x, In x xs → In x ks) →
    sum_list (map (λ k, count_if (λ b, bool_decide (b = k)) xs) ks) = length xs.
  Proof.
    intros Hnd. induction xs as [|x xs IH]; intros Hcov; simpl.
    - clear Hcov. induction ks; simpl; [done|]. apply NoDup_cons in Hnd as [_ Hnd]. auto.
    - erewrite map_ext by (intros k; apply count_if_cons).
      rewrite sum_list_map_add, sum_indicator_NoDup, IH;
        try done; first [apply Hcov; by left | intros y Hy; apply Hcov; by right].
  Qed.
End Indicator.

(** Counting the copies of [k] ignores rows a mask that keeps [k] drops. *)
Lemma count_if_eq_filter {A} `{EqDecision A} (q : A → bool) (k : A) (l : list A) :
  q k = true →
  count_if (λ b, bool_decide (b = k)) l = count_if (λ b, bool_decide (b = k)) (List.filter q l).
Proof.
  intros Hk. induction l as [|x t IH]; [done|]. simpl.
  destruct (q x) eqn:Hx; rewrite !count_if_cons, IH; [done|].
  rewrite bool_decide_eq_false_2; [done|]. intros ->. congruence.
Qed.

Lemma count_if_le {A} (p : A → bool) (l : list A) : count_if p l ≤ length l.
Proof. induction l as [|x t IH]; [done|]. rewrite count_if_cons. simpl. destruct (p x); lia. Qed.

Lemma count_if_app {A} (p : A → bool) l1 l2 :
  count_if p (l1 ++ l2) = count_if p l1 + count_if p l2.
Proof. unfold count_if. by rewrite List.filter_app, length_app. Qed.

(** ** Percentages as exact rationals

    pandas computes [count / total * 100] in floating point; the model
    computes the same expression in [Q], so sums are exact. *)
Section Percentages.
Local Open Scope Q_scope.

Definition Qsum (l : list Q) : Q := foldr Qplus 0 l.

Definition Qnat (n : nat) : Q := inject_Z (Z.of_nat n).

Definition percentage (count total : nat) : Q := (Qnat count / Qnat total) * 100.

Lemma Qnat_add (m n : nat) : Qnat (m + n)%nat == Qnat m + Qnat n.
Proof. unfold Qnat. by rewrite Nat2Z.inj_add, inject_Z_plus. Qed.

Lemma Qnat_nonzero (n : nat) : n ≠ 0%nat → ~ Qnat n == 0.
Proof. intros Hn. unfold Qnat, Qeq. simpl. lia. Qed.

Lemma Qnat_le (m n : nat) : (m ≤ n)%nat → Qnat m <= Qnat n.
Proof. intros. unfold Qnat. rewrite <- Zle_Qle. lia. Qed.

Lemma Qsum_percentage (cs : list nat) (total : nat) :
  total ≠ 0%nat →
  Qsum (map (λ c, percentage c total) cs) == percentage (sum_list cs) total.
Proof.
  intros Ht. induction cs as [|c cs IH]; simpl.
  - unfold percentage, Qnat. simpl. field. by apply Qnat_nonzero.
  - rewrite IH. unfold percentage. rewrite Qnat_add. field. by apply Qnat_nonzero.
Qed.

Lemma percentage_total (total : nat) : total ≠ 0%nat → percentage total total == 100.
Proof. intros Ht. unfold percentage. field. by apply Qnat_nonzero. Qed.

Lemma Qnat_le_iff (m n : nat) : Qnat m <= Qnat n ↔ (m ≤ n)%nat.
Proof. unfold Qnat. rewrite <- Zle_Qle. lia. Qed.

Lemma Qnat_pos (n : nat) : n ≠ 0%nat → 0 < Qnat n.
Proof. intros. unfold Qnat, Qlt. simpl. lia. Qed.

(** Over a fixed non-zero total, percentages are ordered as the counts. *)
Lemma percentage_le_iff (c1 c2 total : nat) :
  total ≠ 0%nat → percentage c1 total <= percentage c2 total ↔ (c1 ≤ c2)%nat.
Proof.
  intros Ht. pose proof (Qnat_pos total Ht). unfold percentage.
  rewrite <- Qnat_le_iff.
  assert (0 < 100 / Qnat total) by (apply Qlt_shift_div_l; lra).
  setoid_replace (Qnat c1 / Qnat total * 100) with (Qnat c1 * (100 / Qnat total))
    using relation Qeq by (field; lra).
  setoid_replace (Qnat c2 / Qnat total * 100) with (Qnat c2 * (100 / Qnat total))
    using relation Qeq by (field; lra).
  by apply Qmult_le_r.
Qed.
Lemma percentage_bounds (c total : nat) :
  (c ≤ total)%nat → total ≠ 0%nat → 0 <= percentage c total <= 100.
Proof.
  intros Hc Ht. rewrite <- (percentage_total total Ht).
  setoid_replace 0 with (percentage 0 total)
    using relation Qeq by (unfold percentage, Qnat; simpl; field; by apply Qnat_nonzero).
  split; apply percentage_le_iff; lia.
Qed.
Lemma percentage_pos (c total : nat) : (0 < c)%nat → total ≠ 0%nat → 0 < percentage c total.
Proof.
  intros Hc Ht. unfold percentage, Qdiv. apply Qmult_lt_0_compat; [|done].
  apply Qmult_lt_0_compat; [apply Qnat_pos; lia|apply Qinv_lt_0_compat, Qnat_pos, Ht].
Qed.
Lemma Qsum_perm (l1 l2 : list Q) : l1 ≡ₚ l2 → Qsum l1 == Qsum l2.
Proof.
  induction 1 as [| |x y l|l1 l2 l3 _ IH1 _ IH2]; simpl.
  - reflexivity.
  - by rewrite IHPermutation.
  - ring.
  - by rewrite IH1, IH2.
Qed.
End Percentages.

(** ** Boolean filters (pandas masks) *)
Section Filters.
  Context {A : Type}.

Lemma filter_true_id (p : A → bool) (l : list A) :
    (∀ x, In x l → p x = true) → List.filter p l = l.
  Proof.
    induction l as [|a t IH]; intros H; simpl; [done|].
    rewrite (H a (or_introl eq_refl)), IH; [done|]. intros x Hx. apply H. by right.
  Qed.

Lemma filter_nil_false (p : A → bool) (l : list A) :
    List.filter p l = [] ↔ ∀ x, In x l → p x = false.
  Proof.
    induction l as [|a t IH]; simpl; [done|].
    destruct (p a) eqn:Ha; [split; [discriminate|intros H; by rewrite H in Ha by auto]|].
    rewrite IH. split; [intros H x [<-|Hx]; auto | intros H x Hx; apply H; auto].
  Qed.

Lemma filter_filter_andb (p q : A → bool) (l : list A) :
    List.filter q (List.filter p l) = List.filter (λ x, p x && q x) l.
  Proof. induction l as [|a t IH]; simpl; [done|]. destruct (p a) eqn:Hp, (q a) eqn:Hq; simpl; rewrite ?Hp, ?Hq, ?IH; done. Qed.

Lemma filter_sublist (p : A → bool) (l : list A) : List.filter p l `sublist_of` l.
  Proof. induction l as [|a t IH]; simpl; [done|]. destruct (p a); by constructor. Qed.

Lemma filter_map_comm {B} (p : B → bool) (f : A → B) (l : list A) :
    List.filter p (map f l) = map f (List.filter (λ x, p (f x)) l).
  Proof. induction l as [|a t IH]; simpl; [done|]. destruct (p (f a)); simpl; by rewrite IH. Qed.

Lemma filter_perm (p : A → bool) (l1 l2 : list A) :
    l1 ≡ₚ l2 → List.filter p l1 ≡ₚ List.filter p l2.
  Proof.
    induction 1 as [| |x y l|]; simpl; try by econstructor.
    - by destruct (p x); [constructor|].
    - destruct (p x), (p y); by try constructor.
  Qed.

Lemma filter_comm (p q : A → bool) (l : list A) :
    List.filter q (List.filter p l) = List.filter p (List.filter q l).
  Proof. rewrite !filter_filter_andb. apply List.filter_ext. intros. apply andb_comm. Qed.

  (** If [x] is the last row the mask keeps, no row after it is kept. *)
Lemma filter_last_split (p : A → bool) (l : list A) (f : list A) (x : A) :
    List.filter p l = f ++ [x] →
    ∃ l1 l2, l = l1 ++ x :: l2 ∧ ∀ y, In y l2 → p y = false.
  Proof.
    induction l as [|a t IH] in f |- *; simpl; [by destruct f|].
    destruct (p a) eqn:Ha; intros Hf.
    - destruct f as [|b f]; simpl in Hf; injection Hf as -> Ht.
      + exists [], t. split; [done|]. by apply filter_nil_false.
      + destruct (IH f Ht) as (l1 & l2 & -> & Hl2). by exists (b :: l1), l2.
    - destruct (IH f Hf) as (l1 & l2 & -> & Hl2). by exists (a :: l1), l2.
  Qed.
End Filters.

#[export] Instance filter_perm_proper {A} (p : A → bool) :
  Proper (Permutation ==> Permutation) (List.filter p).
Proof. intros l1 l2 H. by apply filter_perm. Qed.
