(* ===== verification/SortValues.v ===== *)
(** * SortValues: the orderings pandas applies to frames

    [DataFrame.sort_values], [Series.value_counts] and the sorted keys of
    [groupby] all reorder rows by a key.  This file states what a sort
    promises (the interface [SortAlg]: a permutation that is sorted, and
    [StableSortAlg]: rows with equivalent keys keep their input order),
    gives the stable insertion sort that discharges both, and the total
    preorders on keys the scripts sort by: timestamps with NaT last,
    percentages descending, strings lexicographically, and pairs of keys. *)
From S2P Require Import Prelude.

(** ** Boolean total preorders *)
Section Order.
  Context {A : Type} (le : A → A → bool).

Definition sorted_b (l : list A) : Prop := StronglySorted (λ a b, le a b = true) l.

  (** Two values are equivalent when each is below the other. *)
Definition equiv_b (a b : A) : bool := le a b && le b a.
End Order.

Class TotalPreB {A : Type} (le : A → A → bool) := {
  tp_total : ∀ a b, le a b = true ∨ le b a = true;
  tp_trans : ∀ a b c, le a b = true → le b c = true → le a c = true
}.

Lemma tp_refl {A} (le : A → A → bool) `{!TotalPreB le} a : le a a = true.
Proof. by destruct (tp_total a a). Qed.

Lemma tp_not_le {A} (le : A → A → bool) `{!TotalPreB le} a b :
  le a b = false → le b a = true.
Proof. intros H. destruct (tp_total a b); congruence. Qed.

#[export] Hint Resolve tp_refl tp_not_le : evac.

(** A list whose elements are pairwise ordered is sorted. *)
Lemma sorted_b_pairwise {A} (le : A → A → bool) (l : list A) :
  (∀ a b, In a l → In b l → le a b = true) → sorted_b le l.
Proof.
  induction l as [|x l IH]; intros H; constructor.
  - apply IH. intros a b Ha Hb. apply H; by right.
  - apply Forall_forall. intros b Hb. apply list_elem_of_In in Hb. apply H; simpl; auto.
Qed.

Lemma Forall_perm {A} (P : A → Prop) (l1 l2 : list A) :
  l1 ≡ₚ l2 → Forall P l2 → Forall P l1.
Proof.
  intros Hp. rewrite !Forall_forall. intros H x Hx.
  apply H. by rewrite <- Hp.
Qed.

(** ** Stable insertion sort *)
Section Insertion.
  Context {A : Type} (le : A → A → bool).

  (** [x] goes before the first element it is below: it was earlier in
      the input than every element already placed, so ties keep order. *)
Fixpoint insert_stable (x : A) (l : list A) : list A :=
    match l with
    | [] => [x]
    | y :: t => if le x y then x :: y :: t else y :: insert_stable x t
    end.

Fixpoint insertion_sort (l : list A) : list A :=
    match l with
    | [] => []
    | x :: t => insert_stable x (insertion_sort t)
    end.

Lemma insert_stable_perm x l : insert_stable x l ≡ₚ x :: l.
  Proof.
    induction l as [|y t IH]; simpl; [done|].
    destruct (le x y); [done|]. rewrite IH. apply perm_swap.
  Qed.

Lemma insertion_sort_perm l : insertion_sort l ≡ₚ l.
  Proof.
    induction l as [|x t IH]; simpl; [done|].
    by rewrite insert_stable_perm, IH.
  Qed.

Lemma insert_stable_head x l :
    Forall (λ y, le x y = true) l → insert_stable x l = x :: l.
  Proof.
    destruct l as [|y t]; simpl; [done|]. intros Hf.
    apply Forall_cons in Hf as [Hy _]. by rewrite Hy.
  Qed.

  Context `{!TotalPreB le}.

Lemma insert_stable_sorted x l : sorted_b le l → sorted_b le (insert_stable x l).
  Proof.
    induction l as [|y t IH]; intros Hs; simpl.
    - repeat constructor.
    - apply StronglySorted_inv in Hs as [Hst Hy].
      destruct (le x y) eqn:Hxy.
      + constructor; [by constructor|]. constructor; [done|].
        eapply Forall_impl; [exact Hy|]. intros z Hz. eapply tp_trans; eauto.
      + constructor; [by apply IH|].
        eapply Forall_perm; [apply insert_stable_perm|]. constructor; [|done].
        by apply tp_not_le.
  Qed.

Lemma insertion_sort_sorted l : sorted_b le (insertion_sort l).
  Proof.
    induction l as [|x t IH]; simpl; [constructor|]. by apply insert_stable_sorted.
  Qed.

  (** Sorting an already sorted list changes nothing. *)
Lemma insertion_sort_sorted_id l : sorted_b le l → insertion_sort l = l.
  Proof.
    induction l as [|x t IH]; intros Hs; simpl; [done|].
    apply StronglySorted_inv in Hs as [Hst Hx].
    rewrite IH by done. by apply insert_stable_head.
  Qed.

Lemma insert_stable_filter (q : A → bool) x s :
    sorted_b le s →
    List.filter q (insert_stable x s) =
      if q x then insert_stable x (List.filter q s) else List.filter q s.
  Proof.
    induction s as [|y t IH]; intros Hs; [simpl; by destruct (q x)|].
    apply StronglySorted_inv in Hs as [Hst Hy].
    cbn [insert_stable]. destruct (le x y) eqn:Hxy.
    - assert (Hall : ∀ z, In z (y :: t) → le x z = true).
      { intros z [<-|Hz]; [done|]. eapply tp_trans; [exact Hxy|].
        by apply (proj1 (List.Forall_forall _ _) Hy). }
      change (List.filter q (x :: y :: t))
        with (if q x then x :: List.filter q (y :: t) else List.filter q (y :: t)).
      destruct (q x); [|done].
      rewrite insert_stable_head; [done|].
      apply List.Forall_forall. intros z Hz. apply Hall.
      apply filter_In in Hz. tauto.
    - simpl. rewrite IH by done. destruct (q x), (q y); simpl; rewrite ?Hxy; done.
  Qed.

  (** Sorting commutes with any row filter. *)
Lemma insertion_sort_filter (q : A → bool) l :
    List.filter q (insertion_sort l) = insertion_sort (List.filter q l).
  Proof.
    induction l as [|x t IH]; simpl; [done|].
    rewrite insert_stable_filter by apply insertion_sort_sorted.
    rewrite IH. by destruct (q x).
  Qed.

  (** Stability: the rows equivalent to a given key keep their order. *)
Lemma insertion_sort_stable x l :
    List.filter (equiv_b le x) (insertion_sort l) = List.filter (equiv_b le x) l.
  Proof.
    rewrite insertion_sort_filter. apply insertion_sort_sorted_id, sorted_b_pairwise.
    intros a b Ha Hb. apply filter_In in Ha as [_ Ha], Hb as [_ Hb].
    unfold equiv_b in *. apply andb_prop in Ha as [_ Ha], Hb as [Hb _].
    eapply tp_trans; eauto.
  Qed.
End Insertion.

(** ** What a sort promises *)
Class SortAlg := {
  sort_with : ∀ {A : Type}, (A → A → bool) → list A → list A;
  sort_with_perm : ∀ {A} (le : A → A → bool) l, sort_with le l ≡ₚ l;
  sort_with_sorted : ∀ {A} (le : A → A → bool) `{!TotalPreB le} l, sorted_b le (sort_with le l)
}.

Class StableSortAlg (SA : SortAlg) :=
  sort_with_stable : ∀ {A} (le : A → A → bool) `{!TotalPreB le} x l,
    List.filter (equiv_b le x) (@sort_with SA A le l) = List.filter (equiv_b le x) l.

#[export] Instance insertion_sort_alg : SortAlg := {|
  sort_with := @insertion_sort;
  sort_with_perm := @insertion_sort_perm;
  sort_with_sorted := @insertion_sort_sorted
|}.

#[export] Instance insertion_sort_stable_alg : StableSortAlg insertion_sort_alg :=
  @insertion_sort_stable.

(** ** The key orders the scripts sort by *)

(** Sorting rows by a key of theirs. *)
Definition key_le {A K} (key : A → K) (le : K → K → bool) (a b : A) : bool :=
  le (key a) (key b).

#[export] Instance key_le_total {A K} (key : A → K) (le : K → K → bool) `{!TotalPreB le} :
  TotalPreB (key_le key le).
Proof. split; unfold key_le; [intros; apply tp_total | intros ???; apply tp_trans]. Qed.

(** Timestamps, with pandas' [na_position='last']: NaT after every time. *)
Definition ts_le (a b : option Z) : bool :=
  match a, b with
  | Some x, Some y => Z.leb x y
  | Some _, None => true
  | None, Some _ => false
  | None, None => true
  end.

#[export] Instance ts_le_total : TotalPreB ts_le.
Proof.
  split.
  - intros [x|] [y|]; simpl; auto. destruct (Z.leb_spec x y); [auto|]. right. apply Z.leb_le. lia.
  - intros [x|] [y|] [z|]; simpl; try done. rewrite !Z.leb_le. lia.
Qed.

(** Percentages in descending order ([ascending=False]). *)
Definition Qge_b (p q : Q) : bool := Qle_bool q p.

#[export] Instance Qge_b_total : TotalPreB Qge_b.
Proof.
  split; unfold Qge_b.
  - intros a b. rewrite !Qle_bool_iff. destruct (Qlt_le_dec a b) as [H|H]; [right|left]; [apply Qlt_le_weak|]; done.
  - intros a b c. rewrite !Qle_bool_iff. lra.
Qed.

(** Counts in descending order ([value_counts]). *)
Definition nat_ge_b (m n : nat) : bool := Nat.leb n m.

#[export] Instance nat_ge_b_total : TotalPreB nat_ge_b.
Proof.
  split; unfold nat_ge_b; intros *; rewrite ?Nat.leb_le; lia.
Qed.

(** Python compares strings by code point; on the ASCII strings of the
    model this is [String.compare]. *)
Lemma string_compare_trans s1 s2 s3 :
  String.compare s1 s2 ≠ Gt → String.compare s2 s3 ≠ Gt → String.compare s1 s3 ≠ Gt.
Proof.
  revert s2 s3. induction s1 as [|a s1 IH]; intros [|b s2] [|c s3]; simpl; try congruence.
  unfold Ascii.compare.
  destruct (N.compare_spec (Ascii.N_of_ascii a) (Ascii.N_of_ascii b)),
           (N.compare_spec (Ascii.N_of_ascii b) (Ascii.N_of_ascii c)),
           (N.compare_spec (Ascii.N_of_ascii a) (Ascii.N_of_ascii c)); try congruence; try lia.
  intros. by apply (IH s2).
Qed.

#[export] Instance string_leb_total : TotalPreB String.leb.
Proof.
  split; [apply String.leb_total|].
  unfold String.leb. intros a b c.
  destruct (String.compare a b) eqn:Hab, (String.compare b c) eqn:Hbc; try done;
    destruct (String.compare a c) eqn:Hac; try done;
    exfalso; eapply (string_compare_trans a b c); congruence.
Qed.

(** Lexicographic order on pairs of keys ([sort_values(by=[k1, k2])]). *)
Definition lex_le {K1 K2} (le1 : K1 → K1 → bool) (le2 : K2 → K2 → bool)
    (a b : K1 * K2) : bool :=
  le1 a.1 b.1 && (negb (le1 b.1 a.1) || le2 a.2 b.2).

#[export] Instance lex_le_total {K1 K2} (le1 : K1 → K1 → bool) (le2 : K2 → K2 → bool)
  `{!TotalPreB le1, !TotalPreB le2} : TotalPreB (lex_le le1 le2).
Proof.
  split; unfold lex_le.
  - intros [a1 a2] [b1 b2]; simpl.
    destruct (le1 a1 b1) eqn:H1, (le1 b1 a1) eqn:H2; simpl; auto.
    + apply tp_total.
    + destruct (tp_total a1 b1); congruence.
  - intros [a1 a2] [b1 b2] [c1 c2]; simpl. rewrite !andb_true_iff, !orb_true_iff, !negb_true_iff.
    intros [Hab Hab'] [Hbc Hbc']. split; [eapply tp_trans; eauto|].
    destruct (le1 c1 a1) eqn:Hca; [|by left]. right.
    assert (le1 b1 a1 = true) by (eapply tp_trans; eauto).
    assert (le1 c1 b1 = true) by (eapply tp_trans; eauto).
    destruct Hab' as [?|Hab']; [congruence|]. destruct Hbc' as [?|Hbc']; [congruence|].
    eapply tp_trans; eauto.
Qed.

(** ** A stable sort is determined by its input *)
Section StableUnique.
  Context {A : Type} (le : A → A → bool) `{!TotalPreB le}.

Lemma equiv_b_refl a : equiv_b le a a = true.
  Proof. unfold equiv_b. by rewrite (tp_refl le a). Qed.

Lemma sorted_b_head a t b : sorted_b le (a :: t) → In b (a :: t) → le a b = true.
  Proof.
    intros Hs [<-|Hb]; [apply (tp_refl le)|].
    apply StronglySorted_inv in Hs as [_ Hf]. by apply (proj1 (List.Forall_forall _ _) Hf).
  Qed.

  (** Two sorted permutations of each other that order every class of
      equivalent keys alike are equal. *)
Lemma sorted_stable_unique l1 l2 :
    sorted_b le l1 → sorted_b le l2 → l1 ≡ₚ l2 →
    (∀ x, List.filter (equiv_b le x) l1 = List.filter (equiv_b le x) l2) → l1 = l2.
  Proof.
    induction l1 as [|a t1 IH] in l2 |- *; intros Hs1 Hs2 Hp Hf.
    - by apply Permutation_nil in Hp.
    - destruct l2 as [|b t2]; [by apply Permutation_sym, Permutation_nil in Hp|].
      assert (equiv_b le a b = true) as Hab.
      { unfold equiv_b. rewrite (sorted_b_head a t1 b), (sorted_b_head b t2 a); try done.
        - apply (Permutation_in _ Hp). by left.
        - apply (Permutation_in _ (Permutation_sym Hp)). by left. }
      pose proof (Hf a) as Ha. simpl in Ha. rewrite equiv_b_refl, Hab in Ha.
      injection Ha as <- _. f_equal.
      apply IH.
      + by apply StronglySorted_inv in Hs1 as [? _].
      + by apply StronglySorted_inv in Hs2 as [? _].
      + by apply Permutation_cons_inv in Hp.
      + intros x. specialize (Hf x). simpl in Hf. destruct (equiv_b le x a); [by injection Hf|done].
  Qed.
End StableUnique.

(** Every stable sort computes what insertion sort computes, so the
    model may use [insertion_sort] for any of them. *)
Lemma stable_sort_insertion_sort {SA : SortAlg} `{!StableSortAlg SA} {A} (le : A → A → bool) `{!TotalPreB le} l :
  sort_with le l = insertion_sort le l.
Proof.
  apply (sorted_stable_unique le).
  - apply (sort_with_sorted le).
  - apply (insertion_sort_sorted le).
  - by rewrite sort_with_perm, insertion_sort_perm.
  - intros x. by rewrite sort_with_stable, insertion_sort_stable.
Qed.

(** A stable sort leaves a sorted list as it is. *)
Lemma stable_sort_sorted_id {SA : SortAlg} `{!StableSortAlg SA} {A} (le : A → A → bool) `{!TotalPreB le} l :
  sorted_b le l → sort_with le l = l.
Proof.
  intros Hs. rewrite (stable_sort_insertion_sort le). by apply (insertion_sort_sorted_id le).
Qed.

Lemma sorted_b_sublist {A} (le : A → A → bool) (l1 l2 : list A) :
  sublist l1 l2 → sorted_b le l2 → sorted_b le l1.
Proof.
  induction 1 as [|x l1 l2 Hs IH|x l1 l2 Hs IH]; intros H2; [constructor| |].
  - apply StronglySorted_inv in H2 as [H2 Hf]. constructor; [by apply IH|].
    apply List.Forall_forall. intros y Hy. apply (proj1 (List.Forall_forall _ _) Hf).
    apply list_elem_of_In. eapply elem_of_sublist; [|exact Hs]. by apply list_elem_of_In.
  - apply StronglySorted_inv in H2 as [H2 _]. by apply IH.
Qed.

Lemma sorted_b_map {A B} (le1 : A → A → bool) (le2 : B → B → bool) (f : A → B) (l : list A) :
  (∀ a b, In a l → In b l → le1 a b = true → le2 (f a) (f b) = true) →
  sorted_b le1 l → sorted_b le2 (map f l).
Proof.
  induction l as [|x l IH]; intros Hf Hs; simpl; [constructor|].
  apply StronglySorted_inv in Hs as [Hs Hx]. constructor.
  - apply IH; [|done]. intros a b Ha Hb. apply Hf; by right.
  - apply List.Forall_forall. intros y Hy. apply in_map_iff in Hy as (b & <- & Hb).
    apply Hf; [by left|by right|]. by apply (proj1 (List.Forall_forall _ _) Hx).
Qed.

(** Conversely, an order read through a key: a list whose keys are sorted
    is sorted by any order the key order implies. *)
Lemma sorted_b_comap {A B} (le1 : A → A → bool) (le2 : B → B → bool) (f : A → B) (l : list A) :
  (∀ a b, In a l → In b l → le2 (f a) (f b) = true → le1 a b = true) →
  sorted_b le2 (map f l) → sorted_b le1 l.
Proof.
  induction l as [|x l IH]; intros Hf Hs; simpl in Hs; [constructor|].
  apply StronglySorted_inv in Hs as [Hs Hx]. constructor.
  - apply IH; [|done]. intros a b Ha Hb. apply Hf; by right.
  - apply List.Forall_forall. intros y Hy. apply Hf; [by left|by right|].
    apply (proj1 (List.Forall_forall _ _) Hx). by apply in_map.
Qed.

(** ** Sorting through a map

    Sorting the images [map f l] by [le2] is sorting [l] by [le1] when the
    two orders agree on the elements of [l]: a sort by a computed key
    (a float) is the sort by the key it approximates (a rational). *)
Section SortMap.
  Context {A B : Type} (le1 : A → A → bool) (le2 : B → B → bool) (f : A → B).

Lemma insert_stable_map x l :
    (∀ y, In y l → le2 (f x) (f y) = le1 x y) →
    insert_stable le2 (f x) (map f l) = map f (insert_stable le1 x l).
  Proof.
    induction l as [|y l IH]; intros Hl; simpl; [done|].
    rewrite Hl by (by left). destruct (le1 x y); [done|].
    simpl. f_equal. apply IH. intros z Hz. apply Hl. by right.
  Qed.

Lemma insertion_sort_map l :
    (∀ a b, In a l → In b l → le2 (f a) (f b) = le1 a b) →
    insertion_sort le2 (map f l) = map f (insertion_sort le1 l).
  Proof.
    induction l as [|x l IH]; intros Hl; simpl; [done|].
    rewrite IH by (intros a b Ha Hb; apply Hl; by right).
    apply insert_stable_map. intros y Hy. apply Hl; [by left|right].
    by apply (Permutation_in _ (insertion_sort_perm le1 l)).
  Qed.

Lemma stable_sort_map {SA : SortAlg} `{!StableSortAlg SA} `{!TotalPreB le1} `{!TotalPreB le2} l :
    (∀ a b, In a l → In b l → le2 (f a) (f b) = le1 a b) →
    sort_with le2 (map f l) = map f (sort_with le1 l).
  Proof.
    intros Hl. rewrite !(stable_sort_insertion_sort _). by apply insertion_sort_map.
  Qed.
End SortMap.
