(* ===== verification/DataFrame.v ===== *)
(** * DataFrame: the survey export as a pandas data frame

    A row of the CSV export (one user response to one question or step),
    the frame (its header and rows), the column checks the scripts make,
    the answer normalisation, timestamp parsing, and pandas'
    [drop_duplicates(keep='last')], with the lemmas the components share. *)
From S2P Require Import Prelude SortValues.

(** ** Rows

    The columns the scripts read, each a string or [NaN].  [created_at]
    has type [T]: the raw CSV cell ([Cell]) before [pd.to_datetime], and
    a timestamp in seconds since the epoch afterwards ([option Z], where
    [None] is pandas' NaT). *)
Record RowT (T : Type) := mkRow {
  user_id : Cell;
  hashed_user_id : Cell;
  session_id : Cell;
  question : Cell;
  step_name : Cell;
  answer : Cell;
  created_at : T
}.
Arguments mkRow {T} _ _ _ _ _ _ _.
Arguments user_id {T} _.
Arguments hashed_user_id {T} _.
Arguments session_id {T} _.
Arguments question {T} _.
Arguments step_name {T} _.
Arguments answer {T} _.
Arguments created_at {T} _.

Abbreviation Row := (RowT Cell).
Abbreviation TRow := (RowT (option Z)).

Definition with_answer {T} (r : RowT T) (a : Cell) : RowT T :=
  mkRow (user_id r) (hashed_user_id r) (session_id r) (question r) (step_name r) a (created_at r).

Definition with_created_at {T U} (r : RowT T) (t : U) : RowT U :=
  mkRow (user_id r) (hashed_user_id r) (session_id r) (question r) (step_name r) (answer r) t.

(** A frame: the header of the CSV and its rows. *)
Record Frame (T : Type) := mkFrame { columns : list string; rows : list (RowT T) }.
Arguments mkFrame {T} _ _.
Arguments columns {T} _.
Arguments rows {T} _.

(** ** Column checks *)

(** [df[c]] on a column that is absent raises [KeyError]. *)
Definition get_col {T} (c : string) (f : Frame T) : Result unit :=
  if bool_decide (c ∈ columns f) then Ok tt else Err (KeyError c).

(** [missing = [col for col in required_cols if col not in df.columns]] *)
Definition missing_columns (required cols : list string) : list string :=
  List.filter (λ c, negb (bool_decide (c ∈ cols))) required.

(** [if not all(col in df.columns for col in required_cols): ... exit(1)] *)
Definition check_required {T} (required : list string) (f : Frame T) : Result unit :=
  match missing_columns required (columns f) with
  | [] => Ok tt
  | m => Err (MissingColumns m)
  end.

(** ** Answer normalisation: [df['answer'].replace({'Petowner': 'Pet Owner'})] *)
Definition normalize_answer (c : Cell) : Cell :=
  if bool_decide (c = Some "Petowner") then Some "Pet Owner" else c.

Definition replace_answers {T} (rs : list (RowT T)) : list (RowT T) :=
  map (λ r, with_answer r (normalize_answer (answer r))) rs.

(** ** Timestamps

    [pd.to_datetime] is library code; the scripts rely only on it being a
    partial map from strings to instants, so it is a parameter here, and
    [Datetime.v] gives the ISO-8601 instance used by the examples.  A
    string that carries a UTC offset parses to a tz-aware timestamp, one
    without to a naive one ([has_offset]); pandas refuses to compare the
    two kinds. *)
Class DatetimeParser := {
  parse_datetime : string → option Z;
  has_offset : string → bool
}.

Section ToDatetime.
  Context `{DatetimeParser}.

  (** Default mode: a missing cell becomes NaT, an unparsable one raises. *)
Definition parse_cell_raise (c : Cell) : Result (option Z) :=
    match c with
    | None => Ok None
    | Some s => match parse_datetime s with Some t => Ok (Some t) | None => Err (DateParseError s) end
    end.

Fixpoint to_datetime_raise (rs : list Row) : Result (list TRow) :=
    match rs with
    | [] => Ok []
    | r :: t =>
        let* ts := parse_cell_raise (created_at r) in
        let* t' := to_datetime_raise t in
        Ok (with_created_at r ts :: t')
    end.

  (** [errors='coerce'] then [dropna(subset=['created_at'])]. *)
Definition parse_cell_coerce (c : Cell) : option Z :=
    match c with None => None | Some s => parse_datetime s end.

Definition to_datetime_coerce_dropna (rs : list Row) : list (RowT Z) :=
    omap (λ r, with_created_at r <$> parse_cell_coerce (created_at r)) rs.
End ToDatetime.

(** ** [drop_duplicates(key, keep='last')]

    A row is kept when no later row has the same key; kept rows stay in
    their input order. *)
Fixpoint drop_duplicates_last {A K} `{EqDecision K} (key : A → K) (l : list A) : list A :=
  match l with
  | [] => []
  | x :: t =>
      if existsb (λ y, bool_decide (key y = key x)) t
      then drop_duplicates_last key t
      else x :: drop_duplicates_last key t
  end.

Section DropDuplicates.
  Context {A K : Type} `{EqDecision K} (key : A → K).

Lemma existsb_key_false (x : A) (t : list A) :
    existsb (λ y, bool_decide (key y = key x)) t = false ↔ Forall (λ y, key y ≠ key x) t.
  Proof.
    rewrite List.Forall_forall, <- not_true_iff_false, existsb_exists.
    split; [intros Hn y Hy Heq | intros Hall [y [Hy Heq]]].
    - apply Hn. exists y. split; [done|]. by apply bool_decide_eq_true.
    - apply bool_decide_eq_true in Heq. by apply (Hall y).
  Qed.

Lemma drop_duplicates_last_incl l x : In x (drop_duplicates_last key l) → In x l.
  Proof.
    induction l as [|a t IH]; simpl; [done|].
    destruct existsb; simpl; [|intros [?|?]]; auto.
  Qed.

  (** A row is kept exactly when no later row has its key. *)
Lemma drop_duplicates_last_In l x :
    In x (drop_duplicates_last key l) ↔
      ∃ l1 l2, l = l1 ++ x :: l2 ∧ Forall (λ y, key y ≠ key x) l2.
  Proof.
    induction l as [|a t IH]; simpl.
    - split; [done|]. intros ([|??] & ? & Heq & ?); simpl in Heq; discriminate Heq.
    - destruct (existsb (λ y, bool_decide (key y = key a)) t) eqn:He; [|pose proof (proj1 (existsb_key_false a t) He)].
      + rewrite IH. split.
        * intros (l1 & l2 & -> & Hl2). by exists (a :: l1), l2.
        * intros ([|b l1] & l2 & Heq & Hl2); simplify_eq/=.
          -- apply existsb_key_false in Hl2. congruence.
          -- by exists l1, l2.
      + simpl. rewrite IH. split.
        * intros [<-|(l1 & l2 & -> & Hl2)]; [by exists [], t|]. by exists (a :: l1), l2.
        * intros ([|b l1] & l2 & Heq & Hl2); simplify_eq/=; [by left|]. right. by exists l1, l2.
  Qed.

  (** At most one kept row per key. *)
Lemma drop_duplicates_last_NoDup l : NoDup (map key (drop_duplicates_last key l)).
  Proof.
    induction l as [|a t IH]; simpl; [constructor|].
    destruct (existsb (λ y, bool_decide (key y = key a)) t) eqn:He; [done|]. simpl. constructor; [|done].
    apply existsb_key_false in He. rewrite list_elem_of_In, in_map_iff.
    intros (y & Hy & Hyin). apply drop_duplicates_last_incl in Hyin.
    by apply (proj1 (List.Forall_forall _ _) He y).
  Qed.

  (** Every key of the input keeps a row. *)
Lemma drop_duplicates_last_complete l y :
    In y l → ∃ x, In x (drop_duplicates_last key l) ∧ key x = key y.
  Proof.
    induction l as [|a t IH] in y |- *; simpl; [done|]. intros Hy.
    destruct (existsb (λ y, bool_decide (key y = key a)) t) eqn:He.
    - destruct Hy as [<-|Hy]; [|by apply IH].
      apply existsb_exists in He as (z & Hz & Hzk). apply bool_decide_eq_true in Hzk.
      destruct (IH z Hz) as (x & Hx & Hxk). exists x. split; [done|congruence].
    - destruct Hy as [<-|Hy]; [exists a; simpl; auto|].
      destruct (IH y Hy) as (x & Hx & Hxk). exists x. simpl. auto.
  Qed.

  (** On rows whose keys are already distinct it is the identity. *)
Lemma drop_duplicates_last_id l : NoDup (map key l) → drop_duplicates_last key l = l.
  Proof.
    induction l as [|a t IH]; simpl; [done|]. intros Hnd. apply NoDup_cons in Hnd as [Hn Hnd].
    destruct (existsb (λ y, bool_decide (key y = key a)) t) eqn:He.
    - exfalso. apply existsb_exists in He as (z & Hz & Hzk). apply bool_decide_eq_true in Hzk.
      apply Hn. rewrite list_elem_of_In, in_map_iff. eauto.
    - by rewrite IH.
  Qed.

  (** Kept rows keep their relative order. *)
Lemma drop_duplicates_last_sublist l : sublist (drop_duplicates_last key l) l.
  Proof.
    induction l as [|a t IH]; simpl; [constructor|].
    destruct existsb; [by apply sublist_cons|by apply sublist_skip].
  Qed.
End DropDuplicates.

(** ** Required columns *)
Lemma missing_columns_spec required cols c :
  In c (missing_columns required cols) ↔ In c required ∧ c ∉ cols.
Proof.
  unfold missing_columns. rewrite filter_In, negb_true_iff, bool_decide_eq_false. done.
Qed.

(** The required-column check passes exactly when every required column is in the header. *)
Lemma check_required_ok {T} required (f : Frame T) :
  check_required required f = Ok tt ↔ ∀ c, In c required → c ∈ columns f.
Proof.
  unfold check_required. destruct (missing_columns required (columns f)) as [|m ms] eqn:Hm.
  - split; [|done]. intros _ c Hc. destruct (decide (c ∈ columns f)); [done|].
    assert (In c (missing_columns required (columns f))) by (by apply missing_columns_spec).
    by rewrite Hm in *.
  - split; [discriminate|]. intros Hall.
    assert (In m (missing_columns required (columns f))) as Hin by (rewrite Hm; left; done).
    apply missing_columns_spec in Hin as [Hr Hn]. by destruct (Hn (Hall m Hr)).
Qed.

(** ** Column accesses and parsing *)
Lemma get_col_Ok {T} c (f : Frame T) u : get_col c f = Ok u ↔ c ∈ columns f.
Proof. unfold get_col. destruct u. case_bool_decide; split; done. Qed.

Lemma get_col_Err {T} c (f : Frame T) e : get_col c f = Err e → e = KeyError c ∧ c ∉ columns f.
Proof. unfold get_col. case_bool_decide; intros [=]; auto. Qed.

Lemma to_datetime_raise_Err `{DatetimeParser} rs e :
  to_datetime_raise rs = Err e →
  ∃ s, e = DateParseError s ∧ parse_datetime s = None ∧ In (Some s) (map created_at rs).
Proof.
  induction rs as [|r t IH] in e |- *; simpl; [discriminate|].
  unfold parse_cell_raise. destruct (created_at r) as [s|] eqn:Hc.
  - destruct (parse_datetime s) eqn:Hp.
    + destruct (to_datetime_raise t) as [|e']; [discriminate|]. intros [= <-].
      destruct (IH e' eq_refl) as (s' & -> & ? & ?). eauto.
    + intros [= <-]. exists s. auto.
  - destruct (to_datetime_raise t) as [|e']; [discriminate|]. intros [= <-].
    destruct (IH e' eq_refl) as (s' & -> & ? & ?). eauto.
Qed.

(** After the replacement no answer is "Petowner". *)
Lemma replace_answers_no_petowner {T} (rs : list (RowT T)) r :
  In r (replace_answers rs) → answer r ≠ Some "Petowner".
Proof.
  unfold replace_answers. rewrite in_map_iff. intros (r0 & <- & _). simpl.
  unfold normalize_answer. case_bool_decide; congruence.
Qed.
