(* ===== verification/Datetime.v ===== *)
(** * Datetime: an ISO-8601 reading of [pd.to_datetime]

    The scripts parse [created_at] cells and the [--start], [--end] and
    [--start-date] arguments with [pd.to_datetime].  This file gives the
    [DatetimeParser] instance the concrete runs use: "YYYY-MM-DD",
    optionally followed by " HH:MM:SS" or "THH:MM:SS" and an optional
    "Z", read as seconds since 1970-01-01T00:00:00 UTC (a date alone is
    midnight).  Invalid calendar dates are rejected, as pandas does. *)
From S2P Require Import Prelude DataFrame.
From Stdlib Require Import Ascii.

Local Open Scope Z_scope.

Definition digit (c : ascii) : option Z :=
  let n := Z.of_nat (nat_of_ascii c) - 48 in
  if (0 <=? n) && (n <=? 9) then Some n else None.

(** Exactly [k] decimal digits. *)
Fixpoint read_digits (k : nat) (acc : Z) (s : string) : option (Z * string) :=
  match k with
  | O => Some (acc, s)
  | S k' =>
      match s with
      | String.String c s' =>
          match digit c with Some d => read_digits k' (10 * acc + d) s' | None => None end
      | String.EmptyString => None
      end
  end.

Definition read_char (c : ascii) (s : string) : option string :=
  match s with
  | String.String c' s' => if Ascii.eqb c c' then Some s' else None
  | String.EmptyString => None
  end.

Definition leap_year (y : Z) : bool :=
  ((y mod 4 =? 0) && negb (y mod 100 =? 0)) || (y mod 400 =? 0).

Definition days_in_month (y m : Z) : Z :=
  if m =? 2 then (if leap_year y then 29 else 28)
  else if (m =? 4) || (m =? 6) || (m =? 9) || (m =? 11) then 30 else 31.

(** Days from 1970-01-01 to a proleptic Gregorian date. *)
Definition days_from_civil (y m d : Z) : Z :=
  let y' := if m <=? 2 then y - 1 else y in
  let era := y' / 400 in
  let yoe := y' - era * 400 in
  let mp := if m >? 2 then m - 3 else m + 9 in
  let doy := (153 * mp + 2) / 5 + d - 1 in
  let doe := yoe * 365 + yoe / 4 - yoe / 100 + doy in
  era * 146097 + doe - 719468.

Definition valid_date (y m d : Z) : bool :=
  (1 <=? m) && (m <=? 12) && (1 <=? d) && (d <=? days_in_month y m).

Definition read_time (s : string) : option Z :=
  match read_digits 2 0 s with
  | Some (hh, s1) =>
    match read_char ":" s1 with
    | Some s2 =>
      match read_digits 2 0 s2 with
      | Some (mi, s3) =>
        match read_char ":" s3 with
        | Some s4 =>
          match read_digits 2 0 s4 with
          | Some (ss, s5) =>
              if (hh <=? 23) && (mi <=? 59) && (ss <=? 59)
                 && (String.eqb s5 "" || String.eqb s5 "Z")
              then Some (hh * 3600 + mi * 60 + ss) else None
          | None => None
          end
        | None => None
        end
      | None => None
      end
    | None => None
    end
  | None => None
  end.

Definition parse_iso (s : string) : option Z :=
  match read_digits 4 0 s with
  | Some (y, s1) =>
    match read_char "-" s1 with
    | Some s2 =>
      match read_digits 2 0 s2 with
      | Some (m, s3) =>
        match read_char "-" s3 with
        | Some s4 =>
          match read_digits 2 0 s4 with
          | Some (d, s5) =>
              if valid_date y m d then
                let base := days_from_civil y m d * 86400 in
                match s5 with
                | String.EmptyString => Some base
                | String.String c rest =>
                    if Ascii.eqb c " " || Ascii.eqb c "T"
                    then (λ t, base + t) <$> read_time rest
                    else None
                end
              else None
          | None => None
          end
        | None => None
        end
      | None => None
      end
    | None => None
    end
  | None => None
  end.

(** The only offset the reading accepts is the final "Z". *)
Definition iso_has_offset (s : string) : bool :=
  bool_decide (last (String.list_ascii_of_string s) = Some "Z"%char).

#[export] Instance iso_parser : DatetimeParser :=
  {| parse_datetime := parse_iso; has_offset := iso_has_offset |}.

Example parse_iso_epoch : parse_iso "1970-01-01" = Some 0.
Proof. reflexivity. Qed.

Example parse_iso_2026 : parse_iso "2026-01-02" = Some 1767312000.
Proof. reflexivity. Qed.

Example parse_iso_last_second : parse_iso "2026-01-01T23:59:59Z" = Some 1767311999.
Proof. reflexivity. Qed.

Example parse_iso_invalid : parse_iso "2026-02-30" = None.
Proof. reflexivity. Qed.

(** ** Printing a date: [str(datetime.date)] *)

(** The civil date of a day number (days since 1970-01-01), the inverse
    of [days_from_civil]. *)
Definition civil_from_days (z : Z) : Z * Z * Z :=
  let z := z + 719468 in
  let era := z / 146097 in
  let doe := z - era * 146097 in
  let yoe := (doe - doe / 1460 + doe / 36524 - doe / 146096) / 365 in
  let y := yoe + era * 400 in
  let doy := doe - (365 * yoe + yoe / 4 - yoe / 100) in
  let mp := (5 * doy + 2) / 153 in
  let d := doy - (153 * mp + 2) / 5 + 1 in
  let m := if mp <? 10 then mp + 3 else mp - 9 in
  (if m <=? 2 then y + 1 else y, m, d).

(** The last [k] decimal digits of [n], zero-padded: ['%0kd'] for
    [0 <= n < 10^k]. *)
Fixpoint pad (k : nat) (n : Z) : string :=
  match k with
  | O => ""
  | S k => pad k (n / 10) +:+ String.String (ascii_of_nat (48 + Z.to_nat (n mod 10))) ""
  end.

(** ['%04d-%02d-%02d'], the format of [date.__str__]. *)
Definition date_str (day : Z) : string :=
  let '(y, m, d) := civil_from_days day in
  pad 4 y +:+ "-" +:+ pad 2 m +:+ "-" +:+ pad 2 d.

Example date_str_2026 : date_str 20455 = "2026-01-02".
Proof. reflexivity. Qed.

(** *** [civil_from_days] inverts [days_from_civil]

    Both functions work on 400-year eras of 146097 days.  The property is
    checked exhaustively on the days of one era and carried to every
    era by the shift lemmas. *)

Lemma leap_year_shift y k : leap_year (y + k * 400) = leap_year y.
Proof.
  unfold leap_year.
  replace (y + k * 400) with (y + (k * 100) * 4) by lia. rewrite Z_mod_plus_full.
  replace (y + k * 100 * 4) with (y + (k * 4) * 100) by lia. rewrite Z_mod_plus_full.
  replace (y + k * 4 * 100) with (y + k * 400) by lia. by rewrite Z_mod_plus_full.
Qed.

Lemma valid_date_shift y m d k : valid_date (y + k * 400) m d = valid_date y m d.
Proof. unfold valid_date, days_in_month. by rewrite leap_year_shift. Qed.

Lemma days_from_civil_shift y m d k :
  days_from_civil (y + k * 400) m d = days_from_civil y m d + k * 146097.
Proof.
  unfold days_from_civil.
  replace (if m <=? 2 then y + k * 400 - 1 else y + k * 400)
    with ((if m <=? 2 then y - 1 else y) + k * 400) by (destruct (m <=? 2); lia).
  cbv zeta. set (y' := if m <=? 2 then y - 1 else y). rewrite Z.div_add by lia.
  replace (y' + k * 400 - (y' / 400 + k) * 400) with (y' - y' / 400 * 400) by lia. lia.
Qed.

Lemma civil_from_days_shift z k :
  civil_from_days (z + k * 146097) =
    let '(y, m, d) := civil_from_days z in (y + k * 400, m, d).
Proof.
  unfold civil_from_days. cbv zeta.
  replace (z + k * 146097 + 719468) with ((z + 719468) + k * 146097) by lia.
  rewrite Z.div_add by lia.
  replace (z + 719468 + k * 146097 - ((z + 719468) / 146097 + k) * 146097)
    with (z + 719468 - (z + 719468) / 146097 * 146097) by lia.
  set (doe := z + 719468 - (z + 719468) / 146097 * 146097).
  set (yoe := (doe - doe / 1460 + doe / 36524 - doe / 146096) / 365).
  destruct (_ <=? 2); cbv beta iota; f_equal; f_equal; lia.
Qed.

(** The property on one era, checked day by day. *)
Definition civil_ok (z : Z) : bool :=
  let '(y, m, d) := civil_from_days z in valid_date y m d && (days_from_civil y m d =? z).

(** [civil_ok] on the [n] days from [z]. *)
Fixpoint civil_ok_from (n : nat) (z : Z) : bool :=
  match n with O => true | S n => civil_ok z && civil_ok_from n (z + 1) end.

Lemma civil_ok_from_spec n z i : civil_ok_from n z = true → 0 <= i < Z.of_nat n → civil_ok (z + i) = true.
Proof.
  induction n as [|n IH] in z, i |- *; simpl; [lia|]. intros [Hz Hn]%andb_true_iff Hi.
  destruct (Z.eq_dec i 0) as [->|Hne]; [by rewrite Z.add_0_r|].
  replace (z + i) with ((z + 1) + (i - 1)) by lia. apply IH; [done|lia].
Qed.

Lemma civil_ok_era : civil_ok_from (Z.to_nat 146097) (-719468) = true.
Proof. vm_compute. reflexivity. Qed.

(** [civil_from_days] gives a valid date that [days_from_civil] maps
    back to the day. *)
Theorem civil_from_days_roundtrip z :
  let '(y, m, d) := civil_from_days z in valid_date y m d = true ∧ days_from_civil y m d = z.
Proof.
  set (doe := (z + 719468) mod 146097). set (k := (z + 719468) / 146097).
  assert (z = (doe - 719468) + k * 146097) as Hz.
  { pose proof (Z.div_mod (z + 719468) 146097). subst doe k. lia. }
  assert (0 <= doe < 146097) as Hdoe by (apply Z.mod_pos_bound; lia).
  assert (civil_ok (doe - 719468) = true) as Hok.
  { replace (doe - 719468) with (-719468 + doe) by lia.
    apply (civil_ok_from_spec _ _ _ civil_ok_era). lia. }
  rewrite Hz, civil_from_days_shift. unfold civil_ok in Hok.
  destruct (civil_from_days (doe - 719468)) as [[y m] d].
  apply andb_true_iff in Hok as [Hv Hd]. apply Z.eqb_eq in Hd.
  rewrite valid_date_shift, days_from_civil_shift, Hd. done.
Qed.
