(* ===== verification/Float.v ===== *)
(** * Float: Python's binary64 percentages and their text

    The scripts compute their percentages as Python floats,
    [count / total * 100] (geneteprocess.py line 44,
    genetedatefilterprocess.py lines 34 and 108), and print them through
    [to_csv] (the shortest text that reads back to the same float,
    [repr]) or with a fixed number of decimals (["{:.2f}"]).  This file
    models binary64 for these values: a non-negative finite float is
    [m * 2^e] with [2^52 <= m < 2^53] (or zero), rounding is to nearest
    with ties to even, computed exactly on rationals; the exponent range
    is not bounded (the percentages stay far inside it).  It proves the
    rounding error bounds, that [round_q] depends only on the value,
    that the digits of [repr] are always found within 17 digits and
    read back to the float. *)
From S2P Require Import Prelude.
From stdpp Require Import pretty.
From Stdlib Require Import Qpower Qabs.

Local Open Scope Z_scope.

(** ** Values *)

Record F64 := mkF64 { fm : Z; fe : Z }.

Definition F64_val (x : F64) : Q := inject_Z (fm x) * Qpower (2 # 1) (fe x).

(** [n / d] rounded to the nearest integer, ties to even ([d > 0]). *)
Definition round_half_even (n d : Z) : Z :=
  let '(q, r) := Z.div_eucl n d in
  if 2 * r <? d then q
  else if d <? 2 * r then q + 1
  else if Z.even q then q else q + 1.

(** [a / b * 2^k] as a fraction of integers, for any sign of [k]. *)
Definition scale2 (a b k : Z) : Z * Z :=
  if 0 <=? k then (a * 2 ^ k, b) else (a, b * 2 ^ (- k)).

(** [floor (log2 (a / b))] for [a, b > 0]: [Z.log2 a - Z.log2 b] or one less. *)
Definition floor_log2_q (a b : Z) : Z :=
  let l := Z.log2 a - Z.log2 b in
  let '(n, d) := scale2 b 1 l in
  if n <=? a * d then l else l - 1.

(** The binary64 value nearest to a non-negative rational, ties to even. *)
Definition round_q (q : Q) : F64 :=
  let a := Qnum q in
  let b := Zpos (Qden q) in
  if a <=? 0 then mkF64 0 0
  else
    let e := floor_log2_q a b - 52 in
    let '(n, d) := scale2 a b (- e) in
    let m := round_half_even n d in
    if m =? 2 ^ 53 then mkF64 (2 ^ 52) (e + 1) else mkF64 m e.

(** [x * 100] in binary64. *)
Definition mul100 (x : F64) : F64 := round_q (F64_val x * 100).

(** Python's [count / total * 100]: the quotient rounded, then the product
    rounded.  It depends only on the value of the exact percentage. *)
Definition py_percentage (p : Q) : F64 := mul100 (round_q (p / 100)).

(** ** Decimal text *)

Definition digits_of (n : Z) : string := pretty (Z.to_N n).

Fixpoint zeros (k : nat) : string :=
  match k with O => "" | S k => "0" +:+ zeros k end.

(** [n] written with at least [k] digits. *)
Definition pad_left (k : nat) (n : Z) : string :=
  let s := digits_of n in zeros (k - String.length s) +:+ s.

(** ["{:.{k}f}".format(x)]: the exact value of [x] rounded to [k]
    decimals, ties to even. *)
Definition format_fixed (k : nat) (x : F64) : string :=
  let '(n, d) := scale2 (fm x * 10 ^ Z.of_nat k) 1 (fe x) in
  let r := round_half_even n d in
  match k with
  | O => digits_of r
  | _ => digits_of (r / 10 ^ Z.of_nat k) +:+ "." +:+ pad_left k (r mod 10 ^ Z.of_nat k)
  end.

(** *** The shortest text that reads back ([repr]) *)

(** Number of decimal digits of [n > 0]; [fuel] bounds the divisions. *)
Fixpoint num_digits (fuel : nat) (n : Z) : Z :=
  match fuel with
  | O => 1
  | S f => if n <? 10 then 1 else 1 + num_digits f (n / 10)
  end.

Definition ndigits (n : Z) : Z := num_digits (Z.to_nat (Z.log2 n + 1)) n.

(** [floor (log10 (a / b))] for [a, b > 0]. *)
Definition floor_log10_q (a b : Z) : Z :=
  if b <=? a then ndigits (a / b) - 1
  else - ndigits ((b + a - 1) / a - 1).

(** The rounding interval of [x = m * 2^e]: the rationals that round to
    [x].  Its half-width is half an ulp above and, when [m = 2^52], a
    quarter of the ulp above below it; its ends belong to it when [m]
    is even (ties to even).  [in_interval x n d] tests [n / d]. *)
Definition in_interval (x : F64) (n d : Z) : bool :=
  (* 4 * 2^(-e) * n/d compared with 4m - lo and 4m + 2 *)
  let lo := if fm x =? 2 ^ 52 then 1 else 2 in
  let '(n', d') := scale2 (4 * n) d (- fe x) in
  if Z.even (fm x) then ((4 * fm x - lo) * d' <=? n') && (n' <=? (4 * fm x + 2) * d')
  else ((4 * fm x - lo) * d' <? n') && (n' <? (4 * fm x + 2) * d').

(** A candidate: the integer [c] of significant digits, the value being
    [c * 10^(-s)]. *)
Definition cand_in (x : F64) (c s : Z) : bool :=
  if 0 <=? s then in_interval x c (10 ^ s) else in_interval x (c * 10 ^ (- s)) 1.

(** Distance test: is [c1 * 10^-s] at least as close to [x] as [c2 * 10^-s]? *)
Definition closer_eq (x : F64) (c1 c2 s : Z) : bool :=
  let '(xn, xd) := scale2 (fm x) 1 (fe x) in
  let '(xn', xd') := if 0 <=? s then (xn * 10 ^ s, xd) else (xn, xd * 10 ^ (- s)) in
  (* compare |c1 - x'| and |c2 - x'| with x' = xn'/xd' *)
  Z.abs (c1 * xd' - xn') <=? Z.abs (c2 * xd' - xn').

(** The digits [c] of [n] significant digits nearest to [x] that read back
    to [x], if any: the two neighbours of [x * 10^s] are tried. *)
Definition try_digits (x : F64) (p n : Z) : option (Z * Z) :=
  let s := n - 1 - p in
  let '(num, den) := scale2 (fm x) 1 (fe x) in
  let '(num', den') := if 0 <=? s then (num * 10 ^ s, den) else (num, den * 10 ^ (- s)) in
  let lo := num' / den' in
  let hi := if lo * den' =? num' then lo else lo + 1 in
  match cand_in x lo s, cand_in x hi s with
  | true, true =>
      if lo =? hi then Some (lo, s)
      else if closer_eq x lo hi s then
             (if closer_eq x hi lo s then (if Z.even lo then Some (lo, s) else Some (hi, s)) else Some (lo, s))
           else Some (hi, s)
  | true, false => Some (lo, s)
  | false, true => Some (hi, s)
  | false, false => None
  end.

(** The search over 1, 2, ..., 17 significant digits. *)
Fixpoint shortest_from (x : F64) (p n : Z) (fuel : nat) : option (Z * Z) :=
  match fuel with
  | O => None
  | S f => match try_digits x p n with
           | Some r => Some r
           | None => shortest_from x p (n + 1) f
           end
  end.

Definition shortest_digits (x : F64) : option (Z * Z) :=
  let '(num, den) := scale2 (fm x) 1 (fe x) in
  shortest_from x (floor_log10_q num den) 1 17.

(** Trailing zeros of the digits are dropped (a carry to [10^n] gives
    fewer digits). *)
Fixpoint strip_zeros (fuel : nat) (c s : Z) : Z * Z :=
  match fuel with
  | O => (c, s)
  | S f => if (0 <? c) && (c mod 10 =? 0) then strip_zeros f (c / 10) (s - 1) else (c, s)
  end.

Definition substring_from (k : nat) (s : string) : string := String.substring k (String.length s - k) s.

(** Python's layout of the digits [ds] with the decimal point after
    [decpt] digits: fixed notation for [-4 < decpt <= 16], with ".0"
    after an integer, and exponent notation otherwise. *)
Definition layout (ds : string) (decpt : Z) : string :=
  let n := Z.of_nat (String.length ds) in
  if (decpt <=? -4) || (16 <? decpt) then
    let exp := decpt - 1 in
    String.substring 0 1 ds +:+
    (if 1 <? n then "." +:+ substring_from 1 ds else "") +:+
    "e" +:+ (if exp <? 0 then "-" else "+") +:+ pad_left 2 (Z.abs exp)
  else if decpt <=? 0 then "0." +:+ zeros (Z.to_nat (- decpt)) +:+ ds
  else if n <=? decpt then ds +:+ zeros (Z.to_nat (decpt - n)) +:+ ".0"
  else String.substring 0 (Z.to_nat decpt) ds +:+ "." +:+ substring_from (Z.to_nat decpt) ds.

(** The digits [repr] writes for a non-zero [x]: [c * 10^(-s)]. *)
Definition repr_digits (x : F64) : option (Z * Z) :=
  match shortest_digits x with
  | Some (c, s) => Some (strip_zeros 17 c s)
  | None => None
  end.

(** [repr(x)]. *)
Definition repr_float (x : F64) : string :=
  if fm x =? 0 then "0.0"
  else match repr_digits x with
       | Some (c', s') =>
           let ds := digits_of c' in
           layout ds (Z.of_nat (String.length ds) - s')
       | None => ""
       end.

(** The value of the decimal [c * 10^(-s)]. *)
Definition dec_val (c s : Z) : Q := inject_Z c * Qpower (10 # 1) (- s).

(** ** Rounding error *)

Section RoundingError.
  Local Open Scope Q_scope.

Lemma round_half_even_spec (n d : Z) :
    (0 < d)%Z → (2 * Z.abs (n - round_half_even n d * d) <= d)%Z.
  Proof.
    intros Hd. unfold round_half_even.
    pose proof (Z.div_eucl_eq n d ltac:(lia)) as Heq.
    pose proof (Z.mod_pos_bound n d Hd) as Hm.
    destruct (Z.div_eucl n d) as [q r] eqn:E.
    unfold Z.modulo in Hm. rewrite E in Hm. simpl in Heq.
    destruct (Z.ltb_spec (2 * r) d); [lia|].
    destruct (Z.ltb_spec d (2 * r)); [lia|].
    destruct (Z.even q); lia.
  Qed.

Lemma Qpow2_pos (k : Z) : 0 < Qpower (2 # 1) k.
  Proof. apply Qpower_0_lt. reflexivity. Qed.

Lemma Qpow2_Z (k : Z) : (0 <= k)%Z → inject_Z (2 ^ k) == Qpower (2 # 1) k.
  Proof. apply Zpower_Qpower. Qed.

Lemma Qpow2_plus (j k : Z) : Qpower (2 # 1) (j + k) == Qpower (2 # 1) j * Qpower (2 # 1) k.
  Proof. by apply Qpower_plus. Qed.

Lemma Qpow2_opp (k : Z) : Qpower (2 # 1) (- k) * Qpower (2 # 1) k == 1.
  Proof. rewrite Qpower_opp, Qmult_comm. apply Qmult_inv_r. pose proof (Qpow2_pos k). lra. Qed.

Lemma scale2_spec a b k n d :
    (0 < b)%Z → scale2 a b k = (n, d) →
    (0 < d)%Z ∧ inject_Z n * inject_Z b == inject_Z a * inject_Z d * Qpower (2 # 1) k.
  Proof.
    intros Hb. unfold scale2. destruct (Z.leb_spec 0 k); intros [= <- <-].
    - split; [done|]. rewrite inject_Z_mult, Qpow2_Z by done. ring.
    - split; [apply Z.mul_pos_pos; [done|apply Z.pow_pos_nonneg; lia]|].
      rewrite inject_Z_mult, Qpow2_Z by lia.
      pose proof (Qpow2_opp (- k)) as H1. rewrite Z.opp_involutive in H1.
      set (X := Qpower _ (- k)) in *. set (Y := Qpower _ k) in *.
      assert (H2 : X * Y == 1) by (rewrite <- H1; ring).
      transitivity (inject_Z a * inject_Z b * (X * Y)); [rewrite H2|]; ring.
  Qed.

Lemma Qinj_pos (z : Z) : (0 < z)%Z → 0 < inject_Z z.
  Proof. intros H. rewrite Zlt_Qlt in H. exact H. Qed.

Lemma Qpow2_Z_le (k : Z) (x : Z) : (0 <= k)%Z → (2 ^ k <= x)%Z → Qpower (2 # 1) k <= inject_Z x.
  Proof. intros. rewrite <- Qpow2_Z by done. by rewrite <- Zle_Qle. Qed.

Lemma floor_log2_q_spec a b :
    (0 < a)%Z → (0 < b)%Z →
    inject_Z b * Qpower (2 # 1) (floor_log2_q a b) <= inject_Z a ∧
    inject_Z a < inject_Z b * Qpower (2 # 1) (floor_log2_q a b + 1).
  Proof.
    intros Ha Hb. unfold floor_log2_q.
    pose proof (Z.log2_spec a Ha) as [Ha1 Ha2]. pose proof (Z.log2_spec b Hb) as [Hb1 Hb2].
    pose proof (Z.log2_nonneg a). pose proof (Z.log2_nonneg b).
    set (la := Z.log2 a) in *. set (lb := Z.log2 b) in *. set (l := (la - lb)%Z).
    destruct (scale2 b 1 l) as [n d] eqn:E.
    apply scale2_spec in E as [Hd E]; [|lia].
    assert (Hla : Qpower (2 # 1) (l + lb) == Qpower (2 # 1) la) by (f_equiv; lia).
    rewrite Qpow2_plus in Hla.
    assert (Hla1 : Qpower (2 # 1) (l + 1 + lb) == Qpower (2 # 1) (la + 1)) by (f_equiv; lia).
    rewrite !Qpow2_plus in Hla1.
    assert (A1 : Qpower (2 # 1) la <= inject_Z a) by (apply Qpow2_Z_le; lia).
    assert (A2 : inject_Z a < Qpower (2 # 1) (la + 1)).
    { rewrite <- Qpow2_Z by lia. rewrite <- Zlt_Qlt. lia. }
    assert (B1 : Qpower (2 # 1) lb <= inject_Z b) by (apply Qpow2_Z_le; lia).
    assert (B2 : inject_Z b < Qpower (2 # 1) (lb + 1)).
    { rewrite <- Qpow2_Z by lia. rewrite <- Zlt_Qlt. lia. }
    rewrite Qpow2_plus in A2, B2. simpl in A2, B2.
    pose proof (Qinj_pos d Hd).
    pose proof (Qpow2_pos l). pose proof (Qpow2_pos la). pose proof (Qpow2_pos lb).
    rewrite Qmult_1_r in E.
    destruct (Z.leb_spec n (a * d)) as [Hn|Hn].
    - rewrite Zle_Qle, inject_Z_mult in Hn. split; [nra|].
      rewrite Qpow2_plus. simpl. nra.
    - rewrite Zlt_Qlt, inject_Z_mult in Hn.
      replace (l - 1 + 1)%Z with l by lia. split; [|nra].
      assert (Qpower (2 # 1) l == Qpower (2 # 1) (l - 1) * 2) by (rewrite <- (Qpow2_plus (l - 1) 1); f_equiv; lia).
      pose proof (Qpow2_pos (l - 1)). nra.
  Qed.

Lemma round_half_even_Q (n d : Z) :
    (0 < d)%Z →
    Qabs (inject_Z (round_half_even n d) - inject_Z n / inject_Z d) <= 1 # 2.
  Proof.
    intros Hd. pose proof (round_half_even_spec n d Hd) as H.
    set (r := round_half_even n d) in *.
    assert (H1 : (- d <= 2 * (n - r * d) <= d)%Z) by lia. destruct H1 as [H1 H2].
    rewrite Zle_Qle, <- Z.add_opp_r, <- Z.mul_opp_l, !inject_Z_mult, inject_Z_plus,
      !inject_Z_mult, !inject_Z_opp in H1, H2.
    pose proof (Qinj_pos d Hd).
    set (t := inject_Z n / inject_Z d).
    assert (Hn : inject_Z n == t * inject_Z d) by (unfold t; field; lra).
    rewrite Hn in H1, H2. rewrite inject_Z_opp in H1. clearbody t.
    change (inject_Z 2) with (2 # 1) in H1, H2.
    apply Qabs_Qle_condition. clear H Hn. clearbody r. split; nra.
  Qed.

Lemma F64_val_renorm (e : Z) :
    F64_val (mkF64 (2 ^ 52) (e + 1)) == inject_Z (2 ^ 53) * Qpower (2 # 1) e.
  Proof. unfold F64_val; cbn [fm fe]. rewrite Qpow2_plus. replace (2 ^ 53)%Z with (2 ^ 52 * 2)%Z by reflexivity. rewrite inject_Z_mult. simpl. ring. Qed.

(** [round_q] is exact up to half an ulp: a relative error of at most
    [2^-53]. *)
Lemma round_q_error (q : Q) :
    0 <= q → Qabs (F64_val (round_q q) - q) <= q * (1 # 2 ^ 53).
  Proof.
    destruct q as [a b]. intros Hq. unfold round_q; cbn [Qnum Qden].
    destruct (Z.leb_spec a 0).
    { assert (a = 0)%Z by (unfold Qle in Hq; simpl in Hq; lia). subst a.
      apply Qabs_Qle_condition. unfold F64_val, Qle. simpl. lia. }
    rewrite Qmake_Qdiv. pose proof (floor_log2_q_spec a (Zpos b) ltac:(lia) ltac:(lia)) as [Hl _].
    set (l := floor_log2_q a (Zpos b)) in *.
    destruct (scale2 a (Zpos b) (- (l - 52))) as [n d] eqn:E.
    apply scale2_spec in E as [Hd E]; [|lia].
    set (P := Qpower (2 # 1) (l - 52)).
    assert (HV : F64_val (let m := round_half_even n d in
                          if m =? 2 ^ 53 then mkF64 (2 ^ 52) (l - 52 + 1) else mkF64 m (l - 52))
                 == inject_Z (round_half_even n d) * P).
    { simpl. destruct (Z.eqb_spec (round_half_even n d) (2 ^ 53)) as [->|]; [apply F64_val_renorm|done]. }
    rewrite HV. clear HV.
    pose proof (round_half_even_Q n d Hd) as HR. apply Qabs_Qle_condition in HR as [HR1 HR2].
    set (r := inject_Z (round_half_even n d)) in *.
    set (t := inject_Z n / inject_Z d) in *.
    pose proof (Qinj_pos d Hd). pose proof (Qinj_pos (Zpos b) ltac:(lia)).
    pose proof (Qpow2_pos (l - 52)). pose proof (Qpow2_opp (l - 52)) as HPQ.
    set (u := inject_Z a / inject_Z (Zpos b)).
    assert (Hu : u == t * P).
    { unfold u, t, P. rewrite <- (Qmult_1_r (inject_Z a)), <- HPQ.
      field_simplify_eq; [|split; intros Hc; lra].
      transitivity (Qpower (2 # 1) (l - 52) * (inject_Z n * inject_Z (Zpos b))); [rewrite E|]; ring. }
    assert (Hl' : Qpower (2 # 1) l == P * inject_Z (2 ^ 52)).
    { unfold P. rewrite Qpow2_Z by lia. rewrite <- Qpow2_plus. f_equiv; lia. }
    assert (Hlo : P * inject_Z (2 ^ 52) <= u).
    { rewrite <- Hl'. unfold u. apply Qle_shift_div_l; [done|]. lra. }
    assert (HC : (1 # 2) * P <= u * (1 # 2 ^ 53)).
    { apply (Qmult_le_compat_r _ _ (1 # 2 ^ 53)) in Hlo; [|done].
      assert (HK : inject_Z (2 ^ 52) * (1 # 2 ^ 53) == 1 # 2) by reflexivity.
      rewrite <- Qmult_assoc, HK in Hlo. lra. }
    assert (HB : r * P - u == (r - t) * P) by (rewrite Hu; ring).
    assert (HA1 : - (1 # 2) * P <= (r - t) * P) by (apply Qmult_le_compat_r; [lra | apply Qlt_le_weak, Qpow2_pos]).
    assert (HA2 : (r - t) * P <= (1 # 2) * P) by (apply Qmult_le_compat_r; [lra | apply Qlt_le_weak, Qpow2_pos]).
    apply Qabs_Qle_condition. rewrite HB. split; lra.
  Qed.

Lemma round_q_nonneg (q : Q) : 0 <= q → 0 <= F64_val (round_q q).
  Proof.
    intros Hq. pose proof (round_q_error q Hq) as H.
    apply Qabs_Qle_condition in H as [H _].
    change (1 # 2 ^ 53) with (1 # 9007199254740992) in H. lra.
  Qed.

(** Python's [count / total * 100] is within [2^-51] (relative) of the
    exact percentage: two roundings, each of relative error [2^-53]. *)
Lemma py_percentage_error_core (p : Q) :
    0 <= p → Qabs (F64_val (py_percentage p) - p) <= p * (1 # 2 ^ 51).
  Proof.
    intros Hp. unfold py_percentage, mul100.
    assert (H1 : 0 <= p / 100) by (apply Qle_shift_div_l; lra).
    pose proof (round_q_error _ H1) as E1. pose proof (round_q_nonneg _ H1) as N1.
    set (y := F64_val (round_q (p / 100))) in *.
    assert (H2 : 0 <= y * 100) by lra.
    pose proof (round_q_error _ H2) as E2.
    set (z := F64_val (round_q (y * 100))) in *.
    apply Qabs_Qle_condition in E1 as [E1 E1'], E2 as [E2 E2'].
    change (1 # 2 ^ 53) with (1 # 9007199254740992) in E1, E1', E2, E2'.
    change (1 # 2 ^ 51) with (1 # 2251799813685248).
    assert (Hq : p / 100 * 100 == p) by (field; discriminate).
    apply Qabs_Qle_condition. split; nra.
  Qed.

(** The float percentages of a list of non-negative exact ones add up, as
    exact rationals, to their sum within the same relative error. *)
Lemma Qsum_py_percentage_error (ps : list Q) :
    Forall (λ p, 0 <= p) ps →
    Qabs (Qsum (map (λ p, F64_val (py_percentage p)) ps) - Qsum ps) <= Qsum ps * (1 # 2 ^ 51).
  Proof.
    induction 1 as [|p ps Hp _ IH]; cbn [map Qsum foldr]; [by apply Qabs_Qle_condition|].
    pose proof (py_percentage_error_core p Hp) as E.
    apply Qabs_Qle_condition in E as [E1 E2]. apply Qabs_Qle_condition in IH as [I1 I2].
    apply Qabs_Qle_condition. unfold Qsum in *. change (1 # 2 ^ 51) with (1 # 2251799813685248) in *. split; lra.
  Qed.
End RoundingError.

(** ** Reading back: the rounding interval *)

Section ReadBack.
  Local Open Scope Q_scope.

(** A normal binary64 significand. *)
Definition normal (x : F64) : Prop := (2 ^ 52 <= fm x < 2 ^ 53)%Z.

Lemma round_half_even_near (n d m : Z) :
    (0 < d)%Z →
    (2 * Z.abs (n - m * d) < d ∨ 2 * Z.abs (n - m * d) = d ∧ Z.even m = true)%Z →
    round_half_even n d = m.
  Proof.
    intros Hd Hm. unfold round_half_even.
    pose proof (Z.div_eucl_eq n d ltac:(lia)) as Heq.
    pose proof (Z.mod_pos_bound n d Hd) as Hr.
    destruct (Z.div_eucl n d) as [q r] eqn:E.
    unfold Z.modulo in Hr. rewrite E in Hr. simpl in Heq. subst n.
    assert (Hq : (m = q ∨ m = q + 1)%Z).
    { destruct (Z.lt_total m q) as [Hlt|[?|Hgt]]; [|by left|].
      - assert ((q - m) * d >= d)%Z by nia. lia.
      - assert ((m - q) * d >= 2 * d ∨ m = q + 1)%Z as [?|?] by nia; [lia|by right]. }
    destruct Hq as [->| ->].
    - destruct (Z.ltb_spec (2 * r) d); [done|].
      destruct (Z.ltb_spec d (2 * r)); [lia|].
      destruct Hm as [|[_ ->]]; [lia|done].
    - destruct (Z.ltb_spec (2 * r) d); [lia|].
      destruct (Z.ltb_spec d (2 * r)); [done|].
      destruct Hm as [|[_ Hm]]; [lia|]. rewrite Z.even_add in Hm.
      by destruct (Z.even q).
  Qed.

Lemma Qpow2_le_mono (j k : Z) : (j <= k)%Z → Qpower (2 # 1) j <= Qpower (2 # 1) k.
  Proof.
    intros H. destruct (Z.eq_dec j k) as [->|]; [apply Qle_refl|].
    apply Qlt_le_weak, Qpower_lt_compat_l; [lia|reflexivity].
  Qed.

(** The binary exponent of a positive rational is unique. *)
Lemma Qpow2_floor_unique (q : Q) (j k : Z) :
    Qpower (2 # 1) j <= q → q < Qpower (2 # 1) (j + 1) →
    Qpower (2 # 1) k <= q → q < Qpower (2 # 1) (k + 1) → j = k.
  Proof.
    intros H1 H2 H3 H4.
    destruct (Z.lt_total j k) as [Hlt|[?|Hlt]]; [|done|].
    - pose proof (Qpow2_le_mono (j + 1) k ltac:(lia)). lra.
    - pose proof (Qpow2_le_mono (k + 1) j ltac:(lia)). lra.
  Qed.

(** [round_q] on a rational of binary exponent [k + 52]. *)
Lemma round_q_exp (q : Q) (k : Z) :
    Qpower (2 # 1) (k + 52) <= q → q < Qpower (2 # 1) (k + 53) →
    round_q q =
      let '(n, d) := scale2 (Qnum q) (Zpos (Qden q)) (- k) in
      let m := round_half_even n d in
      if (m =? 2 ^ 53)%Z then mkF64 (2 ^ 52) (k + 1) else mkF64 m k.
  Proof.
    destruct q as [a b]. intros H1 H2. unfold round_q; cbn [Qnum Qden].
    assert (Ha : (0 < a)%Z).
    { pose proof (Qpow2_pos (k + 52)). unfold Qlt, Qle in *. simpl in *. nia. }
    destruct (Z.leb_spec a 0); [lia|].
    pose proof (floor_log2_q_spec a (Zpos b) Ha ltac:(lia)) as [Hl1 Hl2].
    rewrite (Qmake_Qdiv a b) in H1, H2. pose proof (Qinj_pos (Zpos b) ltac:(lia)).
    assert (Hk : floor_log2_q a (Zpos b) = (k + 52)%Z).
    { apply (Qpow2_floor_unique (inject_Z a / inject_Z (Zpos b))).
      - apply Qle_shift_div_l; [done|]. lra.
      - apply Qlt_shift_div_r; [done|]. lra.
      - done.
      - by replace (k + 52 + 1)%Z with (k + 53)%Z by lia. }
    rewrite Hk. by replace (k + 52 - 52)%Z with k by lia.
  Qed.

(** Integer (in)equalities read as rational ones. *)
Ltac qify :=
  rewrite ?Zle_Qle, ?Zlt_Qlt; rewrite <- ?Z.add_opp_r, <- ?Z.mul_opp_l;
  rewrite ?inject_Z_plus, ?inject_Z_mult, ?inject_Z_opp, ?inject_Z_plus, ?inject_Z_mult, ?inject_Z_opp.

Ltac qify_in H :=
  rewrite ?Zle_Qle, ?Zlt_Qlt in H; rewrite <- ?Z.add_opp_r, <- ?Z.mul_opp_l in H;
  rewrite ?inject_Z_plus, ?inject_Z_mult, ?inject_Z_opp, ?inject_Z_plus, ?inject_Z_mult, ?inject_Z_opp in H.

(** [N / D] within half a unit of [m], as [round_half_even_near] wants it. *)
Lemma near_of_Q (N D m : Z) (y : Q) :
    (0 < D)%Z → inject_Z N == y * inject_Z D →
    (- (1 # 2) <= y - inject_Z m → y - inject_Z m <= 1 # 2 → (2 * Z.abs (N - m * D) <= D)%Z) ∧
    (- (1 # 2) < y - inject_Z m → y - inject_Z m < 1 # 2 → (2 * Z.abs (N - m * D) < D)%Z).
  Proof.
    intros HD HN. pose proof (Qinj_pos D HD) as HD'. split; intros H1 H2.
    - cut (- D <= 2 * (N - m * D) <= D)%Z; [lia|].
      apply (Qmult_le_compat_r _ _ (inject_Z D)) in H1, H2; [|lra|lra].
      split; qify; rewrite HN; change (inject_Z 2) with (2 # 1); clear - H1 H2; lra.
    - cut (- D < 2 * (N - m * D) < D)%Z; [lia|].
      apply (Qmult_lt_compat_r _ _ (inject_Z D)) in H1, H2; [|lra|lra].
      split; qify; rewrite HN; change (inject_Z 2) with (2 # 1); clear - H1 H2; lra.
  Qed.

(** What [in_interval] tests, on the rationals: [y = n / d * 2^-e] lies
    between [m - 1/4] (when [m = 2^52]) or [m - 1/2] and [m + 1/2], the
    ends included only for an even [m]. *)
Lemma in_interval_spec (x : F64) (n d : Z) :
    (0 < d)%Z → in_interval x n d = true →
    let y := inject_Z n / inject_Z d * Qpower (2 # 1) (- fe x) in
    let lo := if (fm x =? 2 ^ 52)%Z then 1 # 4 else 1 # 2 in
    (inject_Z (fm x) - lo <= y ∧ y <= inject_Z (fm x) + (1 # 2)) ∧
    (Z.even (fm x) = false → inject_Z (fm x) - lo < y ∧ y < inject_Z (fm x) + (1 # 2)).
  Proof.
    intros Hd H y lo. unfold in_interval in H. cbv zeta in H.
    set (lz := if (fm x =? 2 ^ 52)%Z then 1%Z else 2%Z) in H.
    destruct (scale2 (4 * n) d (- fe x)) as [n' d'] eqn:E.
    apply scale2_spec in E as [Hd' E]; [|done].
    pose proof (Qinj_pos d Hd) as Hq. pose proof (Qinj_pos d' Hd') as Hq'.
    assert (Hn' : inject_Z n' == 4 * y * inject_Z d').
    { apply (Qmult_inj_r _ _ (inject_Z d)); [intros Hc; lra|].
      rewrite E, inject_Z_mult. unfold y. field. intros Hc; lra. }
    assert (Hlo : inject_Z lz == 4 * lo) by (unfold lz, lo; by destruct (fm x =? 2 ^ 52)%Z).
    clearbody lo y lz.
    destruct (Z.even (fm x)); apply andb_true_iff in H as [H1 H2];
      [apply Z.leb_le in H1, H2|apply Z.ltb_lt in H1, H2];
      qify_in H1; qify_in H2; rewrite Hn', Hlo in H1; rewrite Hn' in H2;
      change (inject_Z 4) with (4 # 1) in H1, H2; change (inject_Z 2) with (2 # 1) in H2.
    - apply Qmult_le_r in H1, H2; [|done|done]. split; [split; lra|done].
    - apply Qmult_lt_r in H1, H2; [|done|done]. split; [split; lra|intros _; split; lra].
  Qed.

(** Conversely, a rational strictly inside the interval passes the test. *)
Lemma in_interval_intro (x : F64) (n d : Z) :
    (0 < d)%Z →
    let y := inject_Z n / inject_Z d * Qpower (2 # 1) (- fe x) in
    let lo := if (fm x =? 2 ^ 52)%Z then 1 # 4 else 1 # 2 in
    inject_Z (fm x) - lo < y → y < inject_Z (fm x) + (1 # 2) →
    in_interval x n d = true.
  Proof.
    intros Hd y lo H1 H2. unfold in_interval. cbv zeta.
    set (lz := if (fm x =? 2 ^ 52)%Z then 1%Z else 2%Z).
    destruct (scale2 (4 * n) d (- fe x)) as [n' d'] eqn:E.
    apply scale2_spec in E as [Hd' E]; [|done].
    pose proof (Qinj_pos d Hd) as Hq. pose proof (Qinj_pos d' Hd') as Hq'.
    assert (Hn' : inject_Z n' == 4 * y * inject_Z d').
    { apply (Qmult_inj_r _ _ (inject_Z d)); [intros Hc; lra|].
      rewrite E, inject_Z_mult. unfold y. field. intros Hc; lra. }
    assert (Hlo : inject_Z lz == 4 * lo) by (unfold lz, lo; by destruct (fm x =? 2 ^ 52)%Z).
    clearbody lo y lz.
    assert (L1 : ((4 * fm x - lz) * d' < n')%Z).
    { qify. rewrite Hn', Hlo. change (inject_Z 4) with (4 # 1).
      apply Qmult_lt_r; [done|lra]. }
    assert (L2 : (n' < (4 * fm x + 2) * d')%Z).
    { qify. rewrite Hn'. change (inject_Z 4) with (4 # 1). change (inject_Z 2) with (2 # 1).
      apply Qmult_lt_r; [done|lra]. }
    destruct (Z.even (fm x)); apply andb_true_iff;
      [rewrite !Z.leb_le|rewrite !Z.ltb_lt]; lia.
  Qed.

Lemma Qpow2_shift (e j : Z) : (0 <= j)%Z → Qpower (2 # 1) (e + j) == inject_Z (2 ^ j) * Qpower (2 # 1) e.
  Proof. intros. rewrite Qpow2_plus, Qpow2_Z by done. ring. Qed.

(** [scale2] on the fraction of a rational [q]. *)
Lemma scale2_Q (q : Q) (k N D : Z) :
    scale2 (Qnum q) (Zpos (Qden q)) k = (N, D) →
    (0 < D)%Z ∧ inject_Z N == q * Qpower (2 # 1) k * inject_Z D.
  Proof.
    destruct q as [a b]; cbn [Qnum Qden]. rewrite (Qmake_Qdiv a b).
    intros E. apply scale2_spec in E as [HD E]; [|lia]. split; [done|].
    pose proof (Qinj_pos (Zpos b) ltac:(lia)).
    apply (Qmult_inj_r _ _ (inject_Z (Zpos b))); [intros Hc; lra|].
    rewrite E. field. intros Hc; lra.
  Qed.

(** [round_half_even] of [N / D = y] is [m] when [y] is within half a
    unit of [m], the tie going to an even [m]. *)
Lemma round_half_even_of_Q (N D m : Z) (y : Q) :
    (0 < D)%Z → inject_Z N == y * inject_Z D →
    - (1 # 2) <= y - inject_Z m → y - inject_Z m <= 1 # 2 →
    Z.even m = true ∨ (- (1 # 2) < y - inject_Z m ∧ y - inject_Z m < 1 # 2) →
    round_half_even N D = m.
  Proof.
    intros HD HN H1 H2 Hm. apply round_half_even_near; [done|].
    destruct (near_of_Q N D m y HD HN) as [Hle Hlt].
    destruct Hm as [Hm|[H3 H4]]; [|left; by apply Hlt].
    specialize (Hle H1 H2). apply Z.le_lteq in Hle as [?|?]; [by left|by right].
  Qed.

(** Any rational in the rounding interval of a normal [x] rounds to [x]. *)
Lemma round_q_in_interval (x : F64) (n d : Z) :
    normal x → (0 < d)%Z → in_interval x n d = true →
    round_q (inject_Z n / inject_Z d) = x.
  Proof.
    intros Hx Hd Hi. pose proof (in_interval_spec x n d Hd Hi) as [[Hl Hh] Hodd].
    destruct x as [m e]; unfold normal in Hx; cbn [fm fe] in *.
    set (q := inject_Z n / inject_Z d) in *.
    set (y := q * Qpower (2 # 1) (- e)) in *.
    set (lo := if (m =? 2 ^ 52)%Z then 1 # 4 else 1 # 2) in *.
    pose proof (Qpow2_pos e) as HP. pose proof (Qpow2_opp e) as HPe.
    set (P := Qpower (2 # 1) e) in *. set (Pi := Qpower (2 # 1) (- e)) in *.
    assert (Hq : q == y * P) by (unfold y; rewrite <- Qmult_assoc, HPe; ring).
    set (K := inject_Z (2 ^ 52)).
    assert (HK : K <= inject_Z m ∧ inject_Z m + 1 <= 2 * K).
    { unfold K. destruct Hx as [Hx1 Hx2]. rewrite Zle_Qle in Hx1.
      apply Zlt_le_succ in Hx2. rewrite Zle_Qle in Hx2. unfold Z.succ in Hx2.
      rewrite inject_Z_plus in Hx2. change (2 ^ 53)%Z with (2 * 2 ^ 52)%Z in Hx2.
      rewrite inject_Z_mult in Hx2. split; [done|exact Hx2]. }
    assert (HloQ : (1 # 4) <= lo <= 1 # 2) by (unfold lo; destruct (m =? 2 ^ 52)%Z; split; discriminate).
    destruct (Qlt_le_dec q (K * P)) as [HB|HA].
    - (* below [2^(e+52)]: only [m = 2^52], rounding up to the next binade *)
      assert (Hm : m = (2 ^ 52)%Z).
      { destruct (Z.eq_dec m (2 ^ 52)) as [|Hne]; [done|exfalso].
        assert (Hm1 : (2 ^ 52 + 1 <= m)%Z) by lia. qify_in Hm1. change (inject_Z 1) with 1 in Hm1. fold K in Hm1.
        assert (K * P <= y * P) by (apply Qmult_le_compat_r; lra). lra. }
      subst m. fold K in Hl, Hh, Hodd, HK. assert (Hlo : lo = 1 # 4) by done. rewrite Hlo in Hl.
      assert (Hy : y < K) by (apply (Qmult_lt_r _ _ P); [done|lra]).
      assert (H51 : inject_Z (2 ^ 51) * 2 == K) by reflexivity.
      assert (HK1 : 1 <= K) by (unfold K; discriminate).
      rewrite (round_q_exp q (e - 1)).
      2:{ replace (e - 1 + 52)%Z with (e + 51)%Z by lia. rewrite Qpow2_shift, Hq by lia.
          apply Qmult_le_compat_r; lra. }
      2:{ by replace (e - 1 + 53)%Z with (e + 52)%Z by lia; rewrite Qpow2_shift by lia. }
      destruct (scale2 (Qnum q) (Zpos (Qden q)) (- (e - 1))) as [N D] eqn:E.
      apply scale2_Q in E as [HD HN].
      assert (H2 : Qpower (2 # 1) (- (e - 1)) == 2 * Pi).
      { replace (- (e - 1))%Z with (- e + 1)%Z by lia. rewrite Qpow2_plus. unfold Pi. simpl. ring. }
      rewrite H2 in HN. assert (HN' : inject_Z N == (2 * y) * inject_Z D) by (rewrite HN; unfold y; ring).
      assert (H53 : inject_Z (2 ^ 53) == 2 * K) by reflexivity.
      rewrite (round_half_even_of_Q N D (2 ^ 53) (2 * y)); [|done|done|lra|lra|by left].
      simpl. f_equal. lia.
    - (* in the binade of [x] *)
      assert (HA' : q < 2 * K * P).
      { rewrite Hq. apply Qmult_lt_compat_r; [done|]. lra. }
      rewrite (round_q_exp q e).
      2:{ by rewrite Qpow2_shift by lia. }
      2:{ rewrite Qpow2_shift by lia. change (2 ^ 53)%Z with (2 * 2 ^ 52)%Z. rewrite inject_Z_mult. exact HA'. }
      destruct (scale2 (Qnum q) (Zpos (Qden q)) (- e)) as [N D] eqn:E.
      apply scale2_Q in E as [HD HN]. fold Pi in HN.
      assert (HN' : inject_Z N == y * inject_Z D) by (rewrite HN; unfold y; ring).
      rewrite (round_half_even_of_Q N D m y); [|done|done|lra|lra|].
      + cbv zeta. destruct (Z.eqb_spec m (2 ^ 53)); [lia|done].
      + destruct (Z.even m) eqn:Ev; [by left|right].
        destruct (Hodd eq_refl). split; lra.
  Qed.

(** The tie of [round_half_even] goes to an even integer. *)
Lemma round_half_even_tie (n d : Z) :
    (0 < d)%Z → (2 * Z.abs (n - round_half_even n d * d) = d)%Z → Z.even (round_half_even n d) = true.
  Proof.
    intros Hd. unfold round_half_even.
    pose proof (Z.div_eucl_eq n d ltac:(lia)) as Heq.
    pose proof (Z.mod_pos_bound n d Hd) as Hm.
    destruct (Z.div_eucl n d) as [q r] eqn:E.
    unfold Z.modulo in Hm. rewrite E in Hm. simpl in Heq. subst n.
    destruct (Z.ltb_spec (2 * r) d); [intros; nia|].
    destruct (Z.ltb_spec d (2 * r)); [intros; nia|].
    destruct (Z.even q) eqn:Ev; [done|]. rewrite Z.even_add, Ev. done.
  Qed.

(** [round_half_even] depends only on the value of [n / d]. *)
Lemma round_half_even_scale (n d n' d' : Z) :
    (0 < d)%Z → (0 < d')%Z → (n * d' = n' * d)%Z → round_half_even n d = round_half_even n' d'.
  Proof.
    intros Hd Hd' Hnd. pose proof (round_half_even_spec n d Hd) as Hs.
    pose proof (round_half_even_tie n d Hd) as Ht.
    set (m := round_half_even n d) in *. symmetry. apply round_half_even_near; [done|].
    assert (Hk : (d * Z.abs (n' - m * d') = d' * Z.abs (n - m * d))%Z).
    { rewrite <- (Z.abs_eq d), <- (Z.abs_eq d'), <- !Z.abs_mul by lia. f_equal. nia. }
    apply Z.le_lteq in Hs as [Hs|Hs]; [left; nia|right; split; [nia|by apply Ht]].
  Qed.

Lemma floor_log2_q_scale (a b a' b' : Z) :
    (0 < a)%Z → (0 < b)%Z → (0 < a')%Z → (0 < b')%Z → (a * b' = a' * b)%Z →
    floor_log2_q a b = floor_log2_q a' b'.
  Proof.
    intros Ha Hb Ha' Hb' E.
    pose proof (floor_log2_q_spec a b Ha Hb) as [H1 H2].
    pose proof (floor_log2_q_spec a' b' Ha' Hb') as [H3 H4].
    pose proof (Qinj_pos b Hb). pose proof (Qinj_pos b' Hb').
    assert (Hq : inject_Z a / inject_Z b == inject_Z a' / inject_Z b').
    { destruct b as [|pb|], b' as [|pb'|]; try lia.
      rewrite <- !Qmake_Qdiv. exact E. }
    apply (Qpow2_floor_unique (inject_Z a / inject_Z b)).
    - apply Qle_shift_div_l; [done|]. lra.
    - apply Qlt_shift_div_r; [done|]. lra.
    - rewrite Hq. apply Qle_shift_div_l; [done|]. lra.
    - rewrite Hq. apply Qlt_shift_div_r; [done|]. lra.
  Qed.

Lemma scale2_cross (a b a' b' k : Z) :
    (a * b' = a' * b)%Z →
    let '(n, d) := scale2 a b k in let '(n', d') := scale2 a' b' k in (n * d' = n' * d)%Z.
  Proof. intros E. unfold scale2. destruct (0 <=? k)%Z; simpl; nia. Qed.

(** [round_q] depends only on the value of its argument. *)
#[export] Instance round_q_proper : Proper (Qeq ==> eq) round_q.
  Proof.
    intros [a b] [a' b'] E. unfold Qeq in E; cbn [Qnum Qden] in E. unfold round_q; cbn [Qnum Qden].
    destruct (Z.leb_spec a 0), (Z.leb_spec a' 0); try done; [nia|nia|].
    rewrite (floor_log2_q_scale a (Zpos b) a' (Zpos b')) by lia.
    set (e := (floor_log2_q a' (Zpos b') - 52)%Z).
    pose proof (scale2_cross a (Zpos b) a' (Zpos b') (- e) E) as Hc.
    pose proof (scale2_spec a (Zpos b) (- e)) as S1. pose proof (scale2_spec a' (Zpos b') (- e)) as S2.
    destruct (scale2 a (Zpos b) (- e)) as [n d], (scale2 a' (Zpos b') (- e)) as [n' d'].
    destruct (S1 n d) as [Hd _]; [lia|done|]. destruct (S2 n' d') as [Hd' _]; [lia|done|].
    by rewrite (round_half_even_scale n d n' d').
  Qed.

Lemma Qpow10_pos (k : Z) : 0 < Qpower (10 # 1) k.
  Proof. apply Qpower_0_lt. reflexivity. Qed.

Lemma Qpow10_opp (k : Z) : Qpower (10 # 1) (- k) * Qpower (10 # 1) k == 1.
  Proof. rewrite Qpower_opp, Qmult_comm. apply Qmult_inv_r. pose proof (Qpow10_pos k). lra. Qed.

Lemma Qpow10_Z (k : Z) : (0 <= k)%Z → inject_Z (10 ^ k) == Qpower (10 # 1) k.
  Proof. apply Zpower_Qpower. Qed.

Lemma Qpow10_neg (k : Z) : (0 <= k)%Z → Qpower (10 # 1) (- k) * inject_Z (10 ^ k) == 1.
  Proof. intros. rewrite Qpow10_Z by done. apply Qpow10_opp. Qed.

Lemma dec_val_frac (c s : Z) :
    dec_val c s == if (0 <=? s)%Z then inject_Z c / inject_Z (10 ^ s) else inject_Z (c * 10 ^ (- s)) / inject_Z 1.
  Proof.
    unfold dec_val. destruct (Z.leb_spec 0 s).
    - rewrite Zpower_Qpower by done. rewrite Qpower_opp. reflexivity.
    - rewrite inject_Z_mult, Zpower_Qpower by lia. change (inject_Z 10) with (10 # 1).
      unfold Qdiv. change (/ inject_Z 1) with 1. ring.
  Qed.

(** A candidate accepted by [cand_in] reads back to [x]. *)
Lemma cand_in_round (x : F64) (c s : Z) :
    normal x → cand_in x c s = true → round_q (dec_val c s) = x.
  Proof.
    intros Hx. rewrite dec_val_frac. unfold cand_in.
    destruct (Z.leb_spec 0 s); intros Hc; apply round_q_in_interval; try done.
    by apply Z.pow_pos_nonneg.
  Qed.

Lemma try_digits_cand (x : F64) (p n c s : Z) :
    try_digits x p n = Some (c, s) → cand_in x c s = true.
  Proof.
    unfold try_digits. destruct (scale2 _ _ _) as [num den].
    destruct (if (0 <=? _)%Z then _ else _) as [num' den'].
    set (lo := (num' / den')%Z). set (hi := if (lo * den' =? num')%Z then lo else (lo + 1)%Z).
    destruct (cand_in x lo _) eqn:Hlo, (cand_in x hi _) eqn:Hhi; try done;
      repeat (case_match || intros [= <- <-]); done.
  Qed.

Lemma shortest_from_cand (x : F64) (p n : Z) (fuel : nat) (c s : Z) :
    shortest_from x p n fuel = Some (c, s) → cand_in x c s = true.
  Proof.
    revert n. induction fuel as [|f IH]; intros n; simpl; [done|].
    destruct (try_digits x p n) as [[c' s']|] eqn:E; [intros [= <- <-]|apply IH].
    by eapply try_digits_cand.
  Qed.

(** The binary exponent [floor_log2_q] finds for a positive rational. *)
Lemma floor_log2_q_Q (q : Q) :
    0 < q →
    Qpower (2 # 1) (floor_log2_q (Qnum q) (Zpos (Qden q))) <= q ∧
    q < Qpower (2 # 1) (floor_log2_q (Qnum q) (Zpos (Qden q)) + 1).
  Proof.
    destruct q as [a b]. intros Hq. cbn [Qnum Qden].
    assert (Ha : (0 < a)%Z) by (unfold Qlt in Hq; simpl in Hq; lia).
    pose proof (floor_log2_q_spec a (Zpos b) Ha ltac:(lia)) as [Hl1 Hl2].
    pose proof (Qinj_pos (Zpos b) ltac:(lia)). rewrite (Qmake_Qdiv a b).
    split; [apply Qle_shift_div_l|apply Qlt_shift_div_r]; (done || lra).
  Qed.

(** [round_q] of a positive rational is a normal float. *)
Lemma round_q_normal (q : Q) : 0 < q → normal (round_q q).
  Proof.
    intros Hq. pose proof (floor_log2_q_Q q Hq) as [Hl1 Hl2].
    set (k := (floor_log2_q (Qnum q) (Zpos (Qden q)) - 52)%Z).
    replace (floor_log2_q (Qnum q) (Zpos (Qden q))) with (k + 52)%Z in Hl1, Hl2 by lia.
    replace (k + 52 + 1)%Z with (k + 53)%Z in Hl2 by lia.
    rewrite (round_q_exp q k) by done.
    destruct (scale2 _ _ _) as [N D] eqn:E. apply scale2_Q in E as [HD HN].
    set (y := q * Qpower (2 # 1) (- k)) in *.
    pose proof (Qpow2_pos k) as Hk. pose proof (Qpow2_opp k) as Hkk.
    assert (Hyq : y * Qpower (2 # 1) k == q) by (unfold y; rewrite <- Qmult_assoc, Hkk; ring).
    rewrite Qpow2_shift in Hl1, Hl2 by lia. rewrite <- Hyq in Hl1, Hl2.
    apply Qmult_le_r in Hl1; [|done]. apply Qmult_lt_r in Hl2; [|done].
    pose proof (round_half_even_Q N D HD) as HR. apply Qabs_Qle_condition in HR as [HR1 HR2].
    set (r := round_half_even N D) in *.
    assert (Ht : inject_Z N / inject_Z D == y).
    { pose proof (Qinj_pos D HD). rewrite HN. field. intros Hc; lra. }
    rewrite Ht in HR1, HR2.
    assert (R1 : (2 ^ 52 - 1 < r)%Z).
    { rewrite Zlt_Qlt. qify. change (inject_Z 1) with 1. lra. }
    assert (R2 : (r < 2 ^ 53 + 1)%Z).
    { rewrite Zlt_Qlt. qify. change (inject_Z 1) with 1. lra. }
    cbv zeta. destruct (Z.eqb_spec r (2 ^ 53)); unfold normal; simpl; lia.
  Qed.

(** A decimal [t * 10^(-s)] within half a unit of its last digit of [x]
    passes [cand_in], when the unit is small enough against the ulp:
    [W = 10^s * 2^e] above 2 ([m = 2^52]) or above 1. *)
Lemma cand_in_near (x : F64) (t s : Z) :
    let W := Qpower (10 # 1) s * Qpower (2 # 1) (fe x) in
    (if (fm x =? 2 ^ 52)%Z then 2 < W else 1 < W) →
    Qabs (inject_Z t - inject_Z (fm x) * W) <= 1 # 2 →
    cand_in x t s = true.
  Proof.
    intros W HW Ht. apply Qabs_Qle_condition in Ht as [Ht1 Ht2].
    set (Iv := Qpower (10 # 1) (- s) * Qpower (2 # 1) (- fe x)).
    assert (HWI : W * Iv == 1).
    { unfold W, Iv. pose proof (Qpow10_opp s). pose proof (Qpow2_opp (fe x)).
      transitivity ((Qpower (10 # 1) (- s) * Qpower (10 # 1) s) * (Qpower (2 # 1) (- fe x) * Qpower (2 # 1) (fe x)));
        [ring|]. rewrite H, H0. ring. }
    assert (HI : 0 < Iv) by (apply Qmult_lt_0_compat; [apply Qpow10_pos|apply Qpow2_pos]).
    assert (Hy : ∀ n d, (0 < d)%Z → inject_Z n / inject_Z d == dec_val t s → in_interval x n d = true).
    { intros n d Hd Hv. apply in_interval_intro; [done| |]; rewrite Hv; unfold dec_val.
      all: setoid_replace (inject_Z t * Qpower (10 # 1) (- s) * Qpower (2 # 1) (- fe x))
             with (inject_Z t * Iv) using relation Qeq by (unfold Iv; ring).
      all: assert (Hm : inject_Z (fm x) == inject_Z (fm x) * W * Iv) by (rewrite <- Qmult_assoc, HWI; ring).
      all: destruct (fm x =? 2 ^ 52)%Z.
      all: pose proof (Qmult_le_compat_r _ _ Iv Ht1 ltac:(lra)); pose proof (Qmult_le_compat_r _ _ Iv Ht2 ltac:(lra)).
      all: try (assert (Iv < 1 # 2) by nra); try (assert (Iv < 1) by nra).
      all: rewrite Hm; clear Hm; lra. }
    pose proof (dec_val_frac t s) as Hf. unfold cand_in.
    destruct (0 <=? s)%Z eqn:Es; apply Hy; try (by rewrite Hf); [|lia].
    apply Z.pow_pos_nonneg; [lia|by apply Z.leb_le].
  Qed.

(** The value of [x] as the fraction [scale2] makes of it, scaled by [10^s]. *)
Lemma scaled_value (x : F64) (s num den : Z) :
    scale2 (fm x) 1 (fe x) = (num, den) →
    let '(num', den') := if (0 <=? s)%Z then ((num * 10 ^ s)%Z, den) else (num, (den * 10 ^ (- s))%Z) in
    (0 < den')%Z ∧ inject_Z num' == F64_val x * Qpower (10 # 1) s * inject_Z den'.
  Proof.
    intros E. apply scale2_spec in E as [Hd E]; [|lia]. rewrite Qmult_1_r in E.
    unfold F64_val. destruct (Z.leb_spec 0 s).
    - split; [done|]. rewrite inject_Z_mult, E, Qpow10_Z by done. ring.
    - split; [apply Z.mul_pos_pos; [done|apply Z.pow_pos_nonneg; lia]|].
      rewrite inject_Z_mult, E. pose proof (Qpow10_neg (- s) ltac:(lia)) as H10.
      rewrite Z.opp_involutive in H10.
      transitivity (inject_Z (fm x) * inject_Z den * Qpower (2 # 1) (fe x) * (Qpower (10 # 1) s * inject_Z (10 ^ (- s))));
        [rewrite H10|]; ring.
  Qed.

(** With 17 significant digits one of the two neighbours of [x * 10^s]
    reads back to [x]: the decimal unit is below the ulp of [x]. *)
Lemma try_digits_found (x : F64) (p : Z) :
    normal x → Qpower (10 # 1) p <= F64_val x → try_digits x p 17 ≠ None.
  Proof.
    intros Hx Hp. unfold try_digits.
    set (s := (17 - 1 - p)%Z).
    destruct (scale2 (fm x) 1 (fe x)) as [num den] eqn:E.
    pose proof (scaled_value x s num den E) as Hs.
    destruct (if (0 <=? s)%Z then _ else _) as [num' den'].
    destruct Hs as [Hd Hv].
    set (W := Qpower (10 # 1) s * Qpower (2 # 1) (fe x)).
    assert (HY : F64_val x * Qpower (10 # 1) s == inject_Z (fm x) * W) by (unfold F64_val, W; ring).
    assert (H16 : inject_Z (10 ^ 16) <= F64_val x * Qpower (10 # 1) s).
    { rewrite Qpow10_Z by lia.
      replace 16%Z with (p + s)%Z by lia. rewrite Qpower_plus by discriminate.
      apply Qmult_le_compat_r; [done|]. apply Qlt_le_weak, Qpow10_pos. }
    rewrite HY in Hv, H16. set (Y := inject_Z (fm x) * W) in *.
    assert (HW : if (fm x =? 2 ^ 52)%Z then 2 < W else 1 < W).
    { unfold normal in Hx. unfold Y in H16.
      destruct (Z.eqb_spec (fm x) (2 ^ 52)) as [Hm|Hm].
      - rewrite Hm in H16. change (inject_Z (2 ^ 52)) with (4503599627370496 # 1) in H16.
        change (inject_Z (10 ^ 16)) with (10000000000000000 # 1) in H16. lra.
      - destruct (Qlt_le_dec 1 W) as [|HW1]; [done|exfalso].
        assert (Hm0 : 0 < inject_Z (fm x)) by (apply Qinj_pos; lia).
        assert (Hm1 : inject_Z (fm x) <= inject_Z (2 ^ 53)) by (rewrite <- Zle_Qle; lia).
        apply (Qmult_le_l _ _ (inject_Z (fm x))) in HW1; [|done].
        change (inject_Z (2 ^ 53)) with (9007199254740992 # 1) in Hm1.
        change (inject_Z (10 ^ 16)) with (10000000000000000 # 1) in H16. lra. }
    cbv zeta. set (lo := (num' / den')%Z).
    pose proof (Z.div_mod num' den' ltac:(lia)) as Hdm. pose proof (Z.mod_pos_bound num' den' Hd) as Hmb.
    fold lo in Hdm.
    assert (L1 : (lo * den' <= num')%Z) by lia. assert (L2 : (num' < (lo + 1) * den')%Z) by lia.
    pose proof (Qinj_pos den' Hd) as Hd'.
    qify_in L1. qify_in L2. rewrite Hv in L1, L2. change (inject_Z 1) with 1 in L2.
    apply Qmult_le_r in L1; [|done]. apply Qmult_lt_r in L2; [|done].
    destruct (Qlt_le_dec (1 # 2) (Y - inject_Z lo)) as [Hup|Hdown].
    - (* the upper neighbour is nearer *)
      assert (Hne : (lo * den' =? num')%Z = false).
      { apply Z.eqb_neq. intros Heq. rewrite <- Heq, inject_Z_mult in Hv.
        apply Qmult_inj_r in Hv; [lra|intros Hc; lra]. }
      rewrite Hne.
      assert (Hhi : cand_in x (lo + 1) s = true).
      { apply cand_in_near; [done|]. apply Qabs_Qle_condition. rewrite inject_Z_plus.
        change (inject_Z 1) with 1. fold W Y. split; lra. }
      rewrite Hhi. destruct (cand_in x lo s); repeat case_match; discriminate.
    - assert (Hlo : cand_in x lo s = true).
      { apply cand_in_near; [done|]. apply Qabs_Qle_condition. fold W Y. split; lra. }
      rewrite Hlo. repeat case_match; discriminate.
  Qed.

(** Dropping trailing zeros keeps the value. *)
Lemma strip_zeros_val (fuel : nat) (c s : Z) :
    dec_val (strip_zeros fuel c s).1 (strip_zeros fuel c s).2 == dec_val c s.
  Proof.
    revert c s. induction fuel as [|f IH]; intros c s; simpl; [reflexivity|].
    destruct ((0 <? c)%Z && (c mod 10 =? 0)%Z) eqn:E; [|reflexivity].
    rewrite IH. apply andb_true_iff in E as [_ E%Z.eqb_eq].
    pose proof (Z.div_mod c 10 ltac:(lia)) as Hc. rewrite E, Z.add_0_r in Hc.
    unfold dec_val. rewrite Hc at 2. rewrite inject_Z_mult.
    replace (- (s - 1))%Z with (- s + 1)%Z by lia. rewrite Qpower_plus by discriminate.
    simpl. ring.
  Qed.

(** The digits of [repr] read back to [x] (soundness of the search). *)
Lemma repr_digits_sound (x : F64) (c s : Z) :
    normal x → repr_digits x = Some (c, s) → round_q (dec_val c s) = x.
  Proof.
    intros Hx. unfold repr_digits, shortest_digits.
    destruct (scale2 _ _ _) as [num den].
    destruct (shortest_from _ _ _ _) as [[c0 s0]|] eqn:E; [|done].
    pose proof (strip_zeros_val 17 c0 s0) as Hv.
    destruct (strip_zeros 17 c0 s0) as [c1 s1]. intros [= <- <-].
    apply shortest_from_cand, cand_in_round in E; [|done].
    rewrite <- E. by f_equiv.
  Qed.
End ReadBack.

(** ** The search terminates: 17 digits always suffice *)

Section Digits.
  Local Open Scope Z_scope.

Lemma num_digits_spec (fuel : nat) (n : Z) :
    0 < n → n < 10 ^ Z.of_nat fuel →
    1 <= num_digits fuel n ∧ 10 ^ (num_digits fuel n - 1) <= n < 10 ^ num_digits fuel n.
  Proof.
    revert n. induction fuel as [|f IH]; intros n Hn Hf; [simpl in Hf; lia|].
    simpl. destruct (Z.ltb_spec n 10); [simpl; lia|].
    pose proof (Z.div_mod n 10 ltac:(lia)). pose proof (Z.mod_pos_bound n 10 ltac:(lia)).
    rewrite Nat2Z.inj_succ, Z.pow_succ_r in Hf by lia.
    destruct (IH (n / 10)) as (D1 & D2 & D3); [lia|apply Z.div_lt_upper_bound; lia|].
    set (k := num_digits f (n / 10)) in *.
    replace (1 + k - 1) with (k - 1 + 1) by lia.
    rewrite !Z.pow_add_r by lia. simpl. lia.
  Qed.

Lemma pow2_le_pow10 (k : Z) : 0 <= k → 2 ^ k <= 10 ^ k.
  Proof. intros. apply Z.pow_le_mono_l. lia. Qed.

(** [ndigits n] is the number of decimal digits of [n > 0]: its fuel, the
    bit length, is at least that number. *)
Lemma ndigits_spec (n : Z) :
    0 < n → 1 <= ndigits n ∧ 10 ^ (ndigits n - 1) <= n < 10 ^ ndigits n.
  Proof.
    intros Hn. apply num_digits_spec; [done|].
    pose proof (Z.log2_spec n Hn) as [_ H]. pose proof (Z.log2_nonneg n).
    rewrite Z2Nat.id by lia. pose proof (pow2_le_pow10 (Z.log2 n + 1) ltac:(lia)). lia.
  Qed.

(** [floor_log10_q a b] is the decimal exponent of [a / b]. *)
Lemma floor_log10_q_spec (a b : Z) :
    0 < a → 0 < b →
    (Qpower (10 # 1) (floor_log10_q a b) * inject_Z b <= inject_Z a ∧
     inject_Z a < Qpower (10 # 1) (floor_log10_q a b + 1) * inject_Z b)%Q.
  Proof.
    intros Ha Hb. unfold floor_log10_q. destruct (Z.leb_spec b a).
    - pose proof (Z.div_mod a b ltac:(lia)). pose proof (Z.mod_pos_bound a b Hb).
      destruct (ndigits_spec (a / b)) as (D1 & D2 & D3); [apply Z.div_str_pos; lia|].
      rewrite Z.sub_add, <- !Qpow10_Z by lia. rewrite <- !inject_Z_mult, <- Zle_Qle, <- Zlt_Qlt.
      split; nia.
    - set (c := (b + a - 1) / a - 1).
      assert (Hc : c * a < b <= (c + 1) * a).
      { unfold c. pose proof (Z.div_mod (b + a - 1) a ltac:(lia)).
        pose proof (Z.mod_pos_bound (b + a - 1) a Ha). nia. }
      assert (1 <= c) by nia.
      destruct (ndigits_spec c) as (D1 & D2 & D3); [lia|]. set (k := ndigits c) in *.
      pose proof (Qpow10_neg k ltac:(lia)) as E1. pose proof (Qpow10_neg (k - 1) ltac:(lia)) as E2.
      replace (- k + 1) with (- (k - 1)) by lia.
      pose proof (Qpow10_pos (- k)). pose proof (Qpow10_pos (- (k - 1))).
      assert (F1 : b <= a * 10 ^ k) by nia. assert (F2 : a * 10 ^ (k - 1) < b) by nia.
      rewrite Zle_Qle, inject_Z_mult in F1. rewrite Zlt_Qlt, inject_Z_mult in F2.
      split.
      + apply (Qmult_le_l _ _ (inject_Z (10 ^ k))); [apply Qinj_pos; lia|].
        setoid_replace (inject_Z (10 ^ k) * (Qpower (10 # 1) (- k) * inject_Z b))%Q with
          (Qpower (10 # 1) (- k) * inject_Z (10 ^ k) * inject_Z b)%Q using relation Qeq by ring. rewrite E1. lra.
      + apply (Qmult_lt_l _ _ (inject_Z (10 ^ (k - 1)))); [apply Qinj_pos; lia|].
        setoid_replace (inject_Z (10 ^ (k - 1)) * (Qpower (10 # 1) (- (k - 1)) * inject_Z b))%Q with
          (Qpower (10 # 1) (- (k - 1)) * inject_Z (10 ^ (k - 1)) * inject_Z b)%Q using relation Qeq by ring. rewrite E2. lra.
  Qed.

(** The search of [shortest_from] reaches [n + f] with [S f] of fuel. *)
Lemma shortest_from_reach (x : F64) (p n : Z) (f : nat) :
    try_digits x p (n + Z.of_nat f) ≠ None → shortest_from x p n (S f) ≠ None.
  Proof.
    revert n. induction f as [|f IH]; intros n H; simpl.
    - rewrite Z.add_0_r in H. by destruct (try_digits x p n).
    - destruct (try_digits x p n); [done|]. apply IH.
      by replace (n + 1 + Z.of_nat f) with (n + Z.of_nat (S f)) by lia.
  Qed.

(** For a normal [x] the search of [repr] always finds digits. *)
Lemma repr_digits_total (x : F64) : normal x → ∃ c s, repr_digits x = Some (c, s).
  Proof.
    intros Hx. unfold repr_digits, shortest_digits.
    destruct (scale2 (fm x) 1 (fe x)) as [num den] eqn:E.
    pose proof E as E'. apply scale2_spec in E' as [Hd Hv]; [|lia]. rewrite Qmult_1_r in Hv.
    assert (Hn : 0 < num).
    { pose proof (Qinj_pos den Hd). pose proof (Qpow2_pos (fe x)).
      assert (0 < inject_Z (fm x))%Q by (apply Qinj_pos; unfold normal in Hx; lia).
      rewrite Zlt_Qlt, Hv. apply Qmult_lt_0_compat; [|done]. by apply Qmult_lt_0_compat. }
    destruct (floor_log10_q_spec num den Hn Hd) as [Hlo _].
    assert (Hp : (Qpower (10 # 1) (floor_log10_q num den) <= F64_val x)%Q).
    { pose proof (Qinj_pos den Hd). apply (Qmult_le_r _ _ (inject_Z den)); [done|].
      unfold F64_val. setoid_replace (inject_Z (fm x) * Qpower (2 # 1) (fe x) * inject_Z den)%Q
        with (inject_Z (fm x) * inject_Z den * Qpower (2 # 1) (fe x))%Q using relation Qeq by ring.
      by rewrite <- Hv. }
    pose proof (shortest_from_reach x (floor_log10_q num den) 1 16) as Hr.
    destruct (shortest_from x (floor_log10_q num den) 1 17) as [[c s]|].
    - destruct (strip_zeros 17 c s) as [c' s']. by exists c', s'.
    - exfalso. apply Hr; [|done]. by apply try_digits_found.
  Qed.
End Digits.

(** ** The properties *)

Section Properties.
  Local Open Scope Q_scope.

(** [round_q] of zero is the float zero. *)
Lemma round_q_zero (q : Q) : q == 0 → round_q q = mkF64 0 0.
  Proof. intros ->. reflexivity. Qed.

(** [py_percentage] depends only on the value of the percentage. *)
Lemma py_percentage_Qeq (p1 p2 : Q) : p1 == p2 → py_percentage p1 = py_percentage p2.
  Proof. intros H. unfold py_percentage. by rewrite H. Qed.

(** Two percentages further apart than their rounding errors keep their
    order as floats. *)
Lemma py_percentage_lt (p1 p2 : Q) :
    0 <= p1 → p1 < p2 → (p1 + p2) * (1 # 2 ^ 51) < p2 - p1 →
    F64_val (py_percentage p1) < F64_val (py_percentage p2).
  Proof.
    intros H1 H12 Hgap.
    pose proof (py_percentage_error_core p1 H1) as E1.
    pose proof (py_percentage_error_core p2 ltac:(lra)) as E2.
    apply Qabs_Qle_condition in E1 as [_ E1]. apply Qabs_Qle_condition in E2 as [E2 _].
    change (1 # 2 ^ 51) with (1 # 2251799813685248) in *. lra.
  Qed.

  (** The floats the scripts compute for their percentages are
      well-formed binary64 values: Python's [count / total * 100] of a
      non-negative exact percentage is the float zero or a normal float
      (significand between [2^52] and [2^53]). *)
Theorem py_percentage_wf (p : Q) :
    0 <= p → py_percentage p = mkF64 0 0 ∨ normal (py_percentage p).
  Proof.
    intros Hp. unfold py_percentage, mul100. apply Qle_lteq in Hp as [Hp|Hp].
    - right. apply round_q_normal.
      assert (Hq : 0 < p / 100) by (apply Qlt_shift_div_l; lra).
      pose proof (round_q_error _ (Qlt_le_weak _ _ Hq)) as E. apply Qabs_Qle_condition in E as [E _].
      change (1 # 2 ^ 53) with (1 # 9007199254740992) in E. lra.
    - left. rewrite (round_q_zero (p / 100)) by (rewrite <- Hp; reflexivity). reflexivity.
  Qed.

  (** Python's [count / total * 100], rounded twice in binary64, is
      within a relative error of [2^-51] of the exact percentage. *)
Theorem py_percentage_error (p : Q) :
    0 <= p → Qabs (F64_val (py_percentage p) - p) <= p * (1 # 2 ^ 51).
  Proof. apply py_percentage_error_core. Qed.

  (** The search of [repr] over 1 to 17 significant digits always
      ends with digits for a normal float: its 17 rounds of fuel suffice. *)
Theorem repr_search_terminates (x : F64) : normal x → shortest_digits x ≠ None.
  Proof.
    intros Hx. destruct (repr_digits_total x Hx) as (c & s & E).
    unfold repr_digits in E. by destruct (shortest_digits x).
  Qed.

  (** [repr] round trip on digits: for every normal float the digits [repr]
      writes, read back as a decimal and rounded to nearest, give the same
      float. *)
Theorem py_repr_roundtrip (x : F64) :
    normal x → ∃ c s, repr_digits x = Some (c, s) ∧ round_q (dec_val c s) = x.
  Proof.
    intros Hx. destruct (repr_digits_total x Hx) as (c & s & E).
    exists c, s. split; [done|]. by apply repr_digits_sound.
  Qed.
End Properties.

(** ** Witnesses *)

Section Witnesses.
  Local Open Scope Q_scope.

Lemma normal_third : normal (py_percentage (100 # 3)).
Proof. unfold normal. vm_compute. split; congruence. Qed.

Lemma py_repr_roundtrip_witness :
  normal (py_percentage (100 # 3)) ∧
  ∃ c s, repr_digits (py_percentage (100 # 3)) = Some (c, s) ∧ round_q (dec_val c s) = py_percentage (100 # 3).
Proof. split; [exact normal_third|]. apply py_repr_roundtrip. exact normal_third. Defined.

(** Python prints [1 / 3 * 100] as [33.33333333333333], [{:.2f}] as [33.33]. *)
Example repr_float_third :
  repr_float (py_percentage (100 # 3)) = "33.33333333333333" ∧ format_fixed 2 (py_percentage (100 # 3)) = "33.33".
Proof. split; vm_compute; reflexivity. Qed.
End Witnesses.
