(* ===== verification/FloatText.v ===== *)
(** * FloatText: reading the text of a float back

    What a consumer of the scripts' output does with a percentage is
    [float(s)]: [read_float] models the decimal literals [float] accepts
    that the scripts write (digits, an optional fraction, an optional
    exponent [e+NN] or [e-NN]; no sign, spaces or underscores), as the
    exact rational they denote.  The theorems read back the text of
    Float.v: [repr]'s text gives back the float ([repr_text_roundtrip]),
    and the text of ["{:.kf}"] is the float to within half a unit of its
    last digit. *)
From S2P Require Import Prelude Float.
From stdpp Require Import pretty.
From Stdlib Require Import Ascii Qpower Qabs.

Local Open Scope Z_scope.

(** ** The reader *)

Definition digit_of (c : ascii) : option Z :=
  let n := Z.of_nat (nat_of_ascii c) in
  if (48 <=? n) && (n <=? 57) then Some (n - 48) else None.

(** The leading digits of [s]: [acc] followed by them, their number
    added to [k], and the rest of [s]. *)
Fixpoint read_digits (s : string) (acc : Z) (k : nat) : Z * nat * string :=
  match s with
  | String.String c t =>
      match digit_of c with
      | Some d => read_digits t (acc * 10 + d) (S k)
      | None => (acc, k, s)
      end
  | String.EmptyString => (acc, k, String.EmptyString)
  end.

(** The exponent part: nothing, or [e]/[E], an optional sign and at
    least one digit ending the text. *)
Definition read_exponent (s : string) : option Z :=
  match s with
  | String.EmptyString => Some 0
  | String.String e t =>
      if (e =? "e")%char || (e =? "E")%char then
        let '(sgn, t') := match t with
                          | String.String "-" u => (-1, u)
                          | String.String "+" u => (1, u)
                          | _ => (1, t)
                          end in
        match read_digits t' 0 0 with
        | (v, S _, String.EmptyString) => Some (sgn * v)
        | _ => None
        end
      else None
  end.

(** [float(s)] on an unsigned decimal literal: [int.frac e exp] denotes
    [(int * 10^nf + frac) * 10^(exp - nf)]; at least one digit is
    needed. *)
Definition read_float (s : string) : option Q :=
  let '(ip, ni, r1) := read_digits s 0 0 in
  let '(fp, nf, r2) :=
    match r1 with
    | String.String "." t => read_digits t 0 0
    | _ => (0, O, r1)
    end in
  match read_exponent r2 with
  | Some e => if (ni + nf =? 0)%nat then None
              else Some (dec_val (ip * 10 ^ Z.of_nat nf + fp) (Z.of_nat nf - e))
  | None => None
  end.

(** ** Digit strings *)

Fixpoint is_digits (s : string) : bool :=
  match s with
  | String.String c t => bool_decide (is_Some (digit_of c)) && is_digits t
  | String.EmptyString => true
  end.

(** The value of the digits of [s] after [acc]. *)
Fixpoint dval (acc : Z) (s : string) : Z :=
  match s with
  | String.String c t => dval (acc * 10 + default 0 (digit_of c)) t
  | String.EmptyString => acc
  end.

Section DigitStrings.

Lemma read_digits_app (s1 s2 : string) acc k :
    is_digits s1 = true →
    read_digits (s1 +:+ s2) acc k = read_digits s2 (dval acc s1) (k + String.length s1).
  Proof.
    induction s1 as [|c s1 IH] in acc, k |- *; simpl; [by rewrite Nat.add_0_r|].
    intros [Hc Hs]%andb_true_iff. apply bool_decide_eq_true in Hc as [d Hd].
    rewrite Hd. simpl. rewrite IH by done. f_equal. lia.
  Qed.

Lemma read_digits_all (s : string) acc k :
    is_digits s = true → read_digits s acc k = (dval acc s, (k + String.length s)%nat, "").
  Proof.
    intros H. rewrite <- (string_app_nil_r s) at 1. by rewrite read_digits_app.
  Qed.

Lemma read_digits_stop (c : ascii) (t : string) acc k :
    digit_of c = None → read_digits (String.String c t) acc k = (acc, k, String.String c t).
  Proof. simpl. by intros ->. Qed.

Lemma dval_app acc (s1 s2 : string) : dval acc (s1 +:+ s2) = dval (dval acc s1) s2.
  Proof. induction s1 as [|c s1 IH] in acc |- *; [done|]. rewrite string_app_cons. apply IH. Qed.

Lemma dval_acc acc (s : string) : dval acc s = acc * 10 ^ Z.of_nat (String.length s) + dval 0 s.
  Proof.
    induction s as [|c s IH] in acc |- *; cbn [dval String.length]; [lia|].
    rewrite (IH (acc * 10 + _)), (IH (0 * 10 + _)), Nat2Z.inj_succ, Z.pow_succ_r by lia. lia.
  Qed.

Lemma is_digits_app (s1 s2 : string) : is_digits (s1 +:+ s2) = is_digits s1 && is_digits s2.
  Proof.
    induction s1 as [|c s1 IH]; [done|]. rewrite string_app_cons. simpl. by rewrite IH, andb_assoc.
  Qed.

Lemma zeros_S (m : nat) : zeros (S m) = String.String "0" (zeros m).
  Proof. done. Qed.

Lemma is_digits_zeros (m : nat) : is_digits (zeros m) = true.
  Proof. induction m as [|m IH]; [done|]. rewrite zeros_S. simpl. by rewrite IH. Qed.

Lemma length_zeros (m : nat) : String.length (zeros m) = m.
  Proof. induction m as [|m IH]; [done|]. rewrite zeros_S. simpl. by rewrite IH. Qed.

Lemma dval_zeros acc (m : nat) : dval acc (zeros m) = acc * 10 ^ Z.of_nat m.
  Proof.
    rewrite dval_acc, length_zeros.
    assert (Hz : ∀ j, dval 0 (zeros j) = 0) by (intros j; induction j; rewrite ?zeros_S; simpl; auto).
    rewrite Hz. lia.
  Qed.

Lemma string_app_nil_l (s : string) : "" +:+ s = s.
  Proof. done. Qed.

Lemma string_length_app (s1 s2 : string) :
    String.length (s1 +:+ s2) = (String.length s1 + String.length s2)%nat.
  Proof. induction s1 as [|c s1 IH]; [done|]. rewrite string_app_cons. simpl. by rewrite IH. Qed.

(** [stdpp]'s [pretty_N_char] writes the digit [digit_of] reads. *)
Lemma digit_of_char (d : N) : (d < 10)%N → digit_of (pretty_N_char d) = Some (Z.of_N d).
  Proof.
    intros Hd. assert (d = 0 ∨ d = 1 ∨ d = 2 ∨ d = 3 ∨ d = 4 ∨ d = 5 ∨ d = 6 ∨ d = 7 ∨ d = 8 ∨ d = 9)%N
      as H by lia. by destruct_or! H; subst.
  Qed.

(** [pretty_N_go x s] puts the digits of [x] before [s]. *)
Lemma pretty_N_go_digits (x : N) (s : string) :
    ∃ p, pretty_N_go x s = p +:+ s ∧ is_digits p = true ∧ dval 0 p = Z.of_N x ∧
         (x = 0%N → p = "") ∧ (x ≠ 0%N → p ≠ "" ∧ 10 ^ (Z.of_nat (String.length p) - 1) <= Z.of_N x).
  Proof.
    revert s. induction (N.lt_wf_0 x) as [x _ IH]; intros s.
    destruct (decide (x = 0%N)) as [->|Hx]; [by exists ""|].
    rewrite pretty_N_go_step by lia.
    destruct (IH (x `div` 10)%N ltac:(apply N.div_lt; lia) (String.String (pretty_N_char (x `mod` 10)) s))
      as (p & -> & Hd & Hv & Hz & Hnz).
    exists (p +:+ String.String (pretty_N_char (x `mod` 10)) "").
    rewrite <- string_app_assoc, is_digits_app, dval_app, Hd, Hv, string_length_app. cbn [is_digits dval].
    rewrite digit_of_char by (apply N.mod_lt; lia).
    pose proof (N.div_mod x 10 ltac:(lia)). pose proof (N.mod_lt x 10 ltac:(lia)).
    split_and!; [done|done|simpl; lia|lia|]. intros _. split; [destruct p; discriminate|].
    destruct (decide (x `div` 10 = 0)%N) as [Hq|Hq].
    - rewrite (Hz Hq). simpl. lia.
    - destruct (Hnz Hq) as [Hp Hle]. simpl.
      assert (1 <= Z.of_nat (String.length p)) by (destruct p; [done|simpl; lia]).
      replace (Z.of_nat (String.length p + 1) - 1) with (Z.succ (Z.of_nat (String.length p) - 1)) by lia.
      rewrite Z.pow_succ_r by lia. apply (f_equal Z.of_N) in H. rewrite N2Z.inj_add, N2Z.inj_mul in H.
      pose proof (N2Z.is_nonneg (x `mod` 10)). revert H Hle H2.
      generalize (Z.of_N (x `div` 10)) (Z.of_N (x `mod` 10)) (10 ^ (Z.of_nat (String.length p) - 1)). lia.
  Qed.

(** [digits_of n] for [n >= 0]: at least one digit, and they denote [n]. *)
Lemma digits_of_spec (n : Z) :
    0 <= n → is_digits (digits_of n) = true ∧ dval 0 (digits_of n) = n ∧ (1 <= String.length (digits_of n))%nat.
  Proof.
    intros Hn. unfold digits_of, pretty, pretty_N. case_decide as H0.
    - assert (n = 0) as -> by lia. done.
    - destruct (pretty_N_go_digits (Z.to_N n) "") as (p & -> & Hd & Hv & _ & Hp).
      rewrite string_app_nil_r, Hv, Z2N.id by done.
      destruct p; [by destruct (Hp H0)|]. split_and!; [done|done|simpl; lia].
  Qed.

Lemma pad_left_spec (k : nat) (n : Z) :
    0 <= n → is_digits (pad_left k n) = true ∧ dval 0 (pad_left k n) = n ∧ (1 <= String.length (pad_left k n))%nat.
  Proof.
    intros Hn. destruct (digits_of_spec n Hn) as (Hd & Hv & Hl). unfold pad_left.
    rewrite is_digits_app, is_digits_zeros, dval_app, dval_zeros, Z.mul_0_l, Hd, Hv, string_length_app.
    split_and!; [done|done|lia].
  Qed.

(** [digits_of n] has at most [k >= 1] digits when [n < 10^k]. *)
Lemma digits_of_length (k : nat) (n : Z) :
    (1 <= k)%nat → 0 <= n < 10 ^ Z.of_nat k → (String.length (digits_of n) <= k)%nat.
  Proof.
    intros Hk Hn. unfold digits_of, pretty, pretty_N. case_decide as H0; [simpl; lia|].
    destruct (pretty_N_go_digits (Z.to_N n) "") as (p & -> & _ & _ & _ & Hp).
    rewrite string_app_nil_r. destruct (Hp H0) as [_ Hle]. rewrite Z2N.id in Hle by lia.
    assert (Z.of_nat (String.length p) - 1 < Z.of_nat k); [|lia].
    apply (Z.pow_lt_mono_r_iff 10); lia.
  Qed.

(** [pad_left k n] has exactly [k] digits when [n < 10^k]. *)
Lemma pad_left_length (k : nat) (n : Z) :
    (1 <= k)%nat → 0 <= n < 10 ^ Z.of_nat k → String.length (pad_left k n) = k.
  Proof.
    intros Hk Hn. pose proof (digits_of_length k n Hk Hn). unfold pad_left.
    rewrite string_length_app, length_zeros. lia.
  Qed.

(** ** Substrings *)

Lemma substring_full (s : string) : String.substring 0 (String.length s) s = s.
  Proof. induction s as [|c s IH]; simpl; [done|]. by rewrite IH. Qed.

Lemma substring_split (s : string) (k : nat) :
    (k <= String.length s)%nat → String.substring 0 k s +:+ substring_from k s = s.
  Proof.
    unfold substring_from. induction s as [|c s IH] in k |- *; intros Hk; destruct k; simpl in *; try done.
    - by rewrite substring_full.
    - rewrite string_app_cons, IH by lia. done.
  Qed.
End DigitStrings.

(** ** Reading the texts [layout] writes *)
Section Reading.

Lemma read_digits_end (r : string) acc k :
    (r = "" ∨ ∃ t, r = String.String "e" t) → read_digits r acc k = (acc, k, r).
  Proof. by intros [->|[t ->]]. Qed.

(** [int.frac] followed by nothing or an exponent part. *)
Lemma read_float_point (a b r : string) (e : Z) :
    is_digits a = true → is_digits b = true → (String.length a + String.length b ≠ 0)%nat →
    (r = "" ∨ ∃ t, r = String.String "e" t) → read_exponent r = Some e →
    read_float (a +:+ String.String "." (b +:+ r))
    = Some (dec_val (dval 0 (a +:+ b)) (Z.of_nat (String.length b) - e)).
  Proof.
    intros Ha Hb Hn Hr He. unfold read_float.
    rewrite read_digits_app, read_digits_stop by done. simpl.
    rewrite read_digits_app, read_digits_end by done. simpl. rewrite He.
    rewrite (proj2 (Nat.eqb_neq _ _)) by lia.
    rewrite dval_app, (dval_acc (dval 0 a)). do 2 f_equal; lia.
  Qed.

Lemma read_float_point_end (a b : string) :
    is_digits a = true → is_digits b = true → (String.length a + String.length b ≠ 0)%nat →
    read_float (a +:+ String.String "." b) = Some (dec_val (dval 0 (a +:+ b)) (Z.of_nat (String.length b))).
  Proof.
    intros Ha Hb Hn. rewrite <- (string_app_nil_r b) at 1.
    rewrite (read_float_point a b "" 0) by auto. by rewrite Z.sub_0_r.
  Qed.

(** Digits with no fraction, followed by an exponent part. *)
Lemma read_float_exp (a t : string) (e : Z) :
    is_digits a = true → String.length a ≠ 0%nat → read_exponent (String.String "e" t) = Some e →
    read_float (a +:+ String.String "e" t) = Some (dec_val (dval 0 a) (- e)).
  Proof.
    intros Ha Hn He. unfold read_float.
    rewrite read_digits_app, read_digits_end by eauto. simpl in He |- *. rewrite He.
    rewrite (proj2 (Nat.eqb_neq _ _)) by lia. do 2 f_equal; lia.
  Qed.

(** The exponent part [layout] writes reads back as the exponent. *)
Lemma read_exponent_pad (v : Z) :
    read_exponent ("e" +:+ (if v <? 0 then "-" else "+") +:+ pad_left 2 (Z.abs v)) = Some v.
  Proof.
    destruct (pad_left_spec 2 (Z.abs v)) as (Hd & Hv & Hl); [lia|].
    destruct (v <? 0) eqn:Hs; rewrite !string_app_cons, !string_app_nil_l; unfold read_exponent;
      cbn -[read_digits pad_left]; rewrite read_digits_all by done; cbn -[pad_left];
      destruct (String.length (pad_left 2 (Z.abs v))) as [|l]; try lia; f_equal; lia.
  Qed.

Lemma substring_0_length (s : string) (k : nat) :
    (k <= String.length s)%nat → String.length (String.substring 0 k s) = k.
  Proof.
    induction s as [|c s IH] in k |- *; intros Hk; destruct k; simpl in *; try lia.
    rewrite IH; lia.
  Qed.

(** Cutting a digit string at [k]: two digit strings, the second of
    [length - k] digits. *)
Lemma split_digits (s : string) (k : nat) :
    is_digits s = true → (k <= String.length s)%nat →
    is_digits (String.substring 0 k s) = true ∧ is_digits (substring_from k s) = true ∧
    String.length (substring_from k s) = (String.length s - k)%nat.
  Proof.
    intros Hd Hk. pose proof (substring_split s k Hk) as Hs.
    rewrite <- Hs, is_digits_app in Hd. apply andb_true_iff in Hd as [H1 H2].
    split_and!; [done|done|]. apply (f_equal String.length) in Hs.
    rewrite string_length_app, substring_0_length in Hs by done. lia.
  Qed.

Lemma dec_val_shift (c s k : Z) : 0 <= k → (dec_val (c * 10 ^ k) s == dec_val c (s - k))%Q.
  Proof.
    intros Hk. unfold dec_val. rewrite inject_Z_mult, Qpow10_Z by done.
    replace (- (s - k)) with (- s + k) by lia.
    rewrite Qpower_plus by (unfold Qeq; simpl; lia). ring.
  Qed.

(** Digits alone, as ["{:.0f}"] writes them. *)
Lemma read_float_int (a : string) :
    is_digits a = true → String.length a ≠ 0%nat → read_float a = Some (dec_val (dval 0 a) 0).
  Proof.
    intros Ha Hn. unfold read_float. rewrite read_digits_all by done. simpl.
    rewrite (proj2 (Nat.eqb_neq _ _)) by lia. do 2 f_equal. lia.
  Qed.

Lemma Qeq_refl_Z_arg (c s s' : Z) : s = s' → (dec_val c s == dec_val c s')%Q.
  Proof. by intros ->. Qed.
End Reading.

Section Layout.

(** Every text [layout ds decpt] writes reads back as [ds] with the
    decimal point after [decpt] digits, in each of its four forms. *)
Lemma read_float_layout (ds : string) (decpt : Z) :
    is_digits ds = true → (1 <= String.length ds)%nat →
    ∃ q, read_float (layout ds decpt) = Some q ∧
         (q == dec_val (dval 0 ds) (Z.of_nat (String.length ds) - decpt))%Q.
  Proof.
    intros Hd Hn. unfold layout.
    destruct (_ || _) eqn:E1; [|destruct (decpt <=? 0) eqn:E3; [|destruct (_ <=? decpt) eqn:E4]].
    - destruct (split_digits ds 1 Hd Hn) as (Ha & Hb & Hl). destruct (1 <? _) eqn:E2.
      + eexists; split.
        { rewrite <- (string_app_assoc "."). apply (read_float_point _ (substring_from 1 ds) _ (decpt - 1)); eauto.
          - rewrite substring_0_length; lia.
          - apply read_exponent_pad. }
        rewrite substring_split, Hl by lia. apply Qeq_refl_Z_arg. lia.
      + assert (Hl1 : String.length ds = 1%nat) by (apply Z.ltb_ge in E2; lia).
        eexists; split.
        { apply (read_float_exp _ _ (decpt - 1)); [done| |apply read_exponent_pad].
          rewrite substring_0_length; lia. }
        rewrite <- Hl1, substring_full. apply Qeq_refl_Z_arg. lia.
    - eexists; split.
      { apply (read_float_point_end "0"); [done|by rewrite is_digits_app, is_digits_zeros|simpl; lia]. }
      rewrite dval_app, dval_app, dval_zeros, string_length_app, length_zeros. simpl.
      apply Qeq_refl_Z_arg. lia.
    - eexists; split.
      { rewrite string_app_assoc. apply read_float_point_end; [by rewrite is_digits_app, is_digits_zeros, Hd|done|].
        rewrite string_length_app. lia. }
      rewrite !dval_app, dval_zeros. simpl. change (Z.of_nat (nat_of_ascii "0") - 48) with 0.
      rewrite Z.add_0_r, <- Z.mul_assoc, (Z.mul_comm (10 ^ _) 10), <- Z.pow_succ_r by lia.
      rewrite dec_val_shift by lia. apply Qeq_refl_Z_arg. lia.
    - destruct (split_digits ds (Z.to_nat decpt) Hd) as (Ha & Hb & Hl); [lia|].
      eexists; split.
      { apply read_float_point_end; [done|done|]. rewrite substring_0_length; lia. }
      rewrite substring_split, Hl by lia. apply Qeq_refl_Z_arg. lia.
  Qed.
End Layout.

Section TextRoundTrip.
  Local Open Scope Q_scope.

(** Only a positive rational rounds to a normal float. *)
Lemma round_q_normal_pos (q : Q) : normal (round_q q) → 0 < q.
  Proof.
    intros H. destruct (Z.le_gt_cases (Qnum q) 0) as [Hle|Hgt].
    - unfold round_q in H. rewrite (proj2 (Z.leb_le _ _) Hle) in H. unfold normal in H. simpl in H. lia.
    - unfold Qlt. simpl. lia.
  Qed.

Lemma dec_val_pos_inv (c s : Z) : 0 < dec_val c s → (0 < c)%Z.
  Proof.
    intros H. destruct (Z.lt_ge_cases 0 c) as [|Hc]; [done|]. exfalso.
    unfold dec_val in H. pose proof (Qpow10_pos (- s)).
    assert (inject_Z c <= 0) by (change 0 with (inject_Z 0); by rewrite <- Zle_Qle).
    nra.
  Qed.

(** The text [repr] writes for a normal binary64 value reads back, by
    [float(s)] and rounding to nearest, as that same value: printing a
    percentage and reading it again loses nothing. *)
Theorem repr_text_roundtrip (x : F64) :
    normal x → ∃ q, read_float (repr_float x) = Some q ∧ round_q q = x.
  Proof.
    intros Hx. destruct (repr_digits_total x Hx) as (c & s & E).
    pose proof (repr_digits_sound x c s Hx E) as Hr.
    assert (Hc : (0 < c)%Z) by (apply (dec_val_pos_inv c s), round_q_normal_pos; by rewrite Hr).
    unfold repr_float. rewrite (proj2 (Z.eqb_neq _ _)) by (unfold normal in Hx; lia). rewrite E.
    destruct (digits_of_spec c) as (Hd & Hv & Hl); [lia|].
    destruct (read_float_layout (digits_of c) (Z.of_nat (String.length (digits_of c)) - s) Hd Hl)
      as (q & Hq & Heq).
    exists q. split; [done|]. rewrite Heq, Hv, <- Hr. f_equal. f_equal. lia.
  Qed.
End TextRoundTrip.

Section FixedText.

(** The digits of ["{:.kf}"] for the integer [r] of hundredths (for
    [k = 2]) denote [r * 10^-k]. *)
Lemma read_fixed_digits (k : nat) (r : Z) :
    (0 <= r)%Z →
    ∃ q, read_float (match k with
                     | O => digits_of r
                     | _ => digits_of (r / 10 ^ Z.of_nat k) +:+ "." +:+ pad_left k (r mod 10 ^ Z.of_nat k)
                     end) = Some q ∧ (q == dec_val r (Z.of_nat k))%Q.
  Proof.
    intros Hr. destruct k as [|k'].
    - destruct (digits_of_spec r Hr) as (Hd & Hv & Hl). eexists; split.
      + apply read_float_int; [done|lia].
      + by rewrite Hv.
    - set (k := S k'). assert (Hp : (0 < 10 ^ Z.of_nat k)%Z) by lia.
      destruct (digits_of_spec (r / 10 ^ Z.of_nat k)) as (Hd & Hv & Hl); [apply Z.div_pos; lia|].
      pose proof (Z.mod_pos_bound r (10 ^ Z.of_nat k) Hp) as Hm.
      destruct (pad_left_spec k (r mod 10 ^ Z.of_nat k)) as (Hd' & Hv' & Hl'); [lia|].
      pose proof (pad_left_length k (r mod 10 ^ Z.of_nat k)) as Hlen.
      eexists; split.
      + apply read_float_point_end; [done|done|lia].
      + rewrite dval_app, dval_acc, Hv, Hv', Hlen by lia.
        rewrite (Z.mul_comm (r / _)), <- Z_div_mod_eq_full. reflexivity.
  Qed.

(** The text ["{:.kf}"] writes for a non-negative binary64 value
    reads back, by [float(s)], as a number within half a unit of its
    last decimal of the value: [33.33] for [100/3] is off by at most
    [0.005]. *)
Theorem format_fixed_text_error (k : nat) (x : F64) :
    (0 <= fm x)%Z →
    ∃ q, read_float (format_fixed k x) = Some q ∧
         (Qabs (q - F64_val x) <= (1 # 2) * Qpower (10 # 1) (- Z.of_nat k))%Q.
  Proof.
    intros Hx. unfold format_fixed.
    destruct (scale2 (fm x * 10 ^ Z.of_nat k) 1 (fe x)) as [n d] eqn:E.
    apply scale2_spec in E as [Hd Hv]; [|lia]. rewrite Qmult_1_r in Hv.
    pose proof (Qinj_pos d Hd) as HdQ. pose proof (Qpow2_pos (fe x)) as H2.
    pose proof (Qpow10_pos (- Z.of_nat k)) as HP. pose proof (Qpow10_opp (Z.of_nat k)) as Ho.
    assert (Hn : (0 <= n)%Z).
    { rewrite Zle_Qle, Hv. apply Qmult_le_0_compat; [apply Qmult_le_0_compat|]; [|lra|lra].
      change 0%Q with (inject_Z 0). rewrite <- Zle_Qle. lia. }
    pose proof (round_half_even_spec n d Hd) as Hs.
    assert (Hr : (0 <= round_half_even n d)%Z) by nia.
    destruct (read_fixed_digits k _ Hr) as (q & Hq & Heq). exists q. split; [done|].
    assert (HF : (inject_Z n / inject_Z d == inject_Z (fm x) * Qpower (10 # 1) (Z.of_nat k) * Qpower (2 # 1) (fe x))%Q).
    { rewrite Hv, inject_Z_mult, Qpow10_Z by lia. field. lra. }
    setoid_replace (F64_val x) with (inject_Z n / inject_Z d * Qpower (10 # 1) (- Z.of_nat k))%Q
      using relation Qeq.
    2:{ rewrite HF. unfold F64_val.
        setoid_replace (inject_Z (fm x) * Qpower (10 # 1) (Z.of_nat k) * Qpower (2 # 1) (fe x) * Qpower (10 # 1) (- Z.of_nat k))%Q
          with (inject_Z (fm x) * Qpower (2 # 1) (fe x) * (Qpower (10 # 1) (- Z.of_nat k) * Qpower (10 # 1) (Z.of_nat k)))%Q
          using relation Qeq by ring.
        rewrite Ho. ring. }
    rewrite Heq. unfold dec_val.
    setoid_replace (inject_Z (round_half_even n d) * Qpower (10 # 1) (- Z.of_nat k) - inject_Z n / inject_Z d * Qpower (10 # 1) (- Z.of_nat k))%Q
      with ((inject_Z (round_half_even n d) - inject_Z n / inject_Z d) * Qpower (10 # 1) (- Z.of_nat k))%Q
      using relation Qeq by ring.
    rewrite Qabs_Qmult, (Qabs_pos (Qpower _ _)) by lra.
    apply Qmult_le_compat_r; [by apply round_half_even_Q|lra].
  Qed.
End FixedText.

Section TextWitnesses.
  Local Open Scope Q_scope.

End TextWitnesses.
