(* ===== verification/Latest.v ===== *)
(** * Latest: the most recent answer of each user, and the inner join

    [process_data] in processEvacuate.py (lines 36-46) and
    firstworkingprocessEvacuate.py (lines 24-34): select the rows of a
    step, sort them by [created_at], keep the last row of each user,
    project to [(user_id, answer)], and inner-join the player types with
    the evacuation choices on [user_id].  The sort is any [SortAlg]:
    [sort_values] with its default quicksort does not promise stability,
    so the theorems that need stable tie-breaking assume [StableSortAlg]. *)
From S2P Require Import Prelude SortValues DataFrame.

(** [df['step_name'].isin(steps)]: a missing step is in no list. *)
Definition step_isin (steps : list string) (r : TRow) : bool :=
  match step_name r with Some s => bool_decide (s ∈ steps) | None => false end.

(** [df['step_name'] == s] *)
Definition step_eq (s : string) (r : TRow) : bool := bool_decide (step_name r = Some s).

Definition player_steps : list string := ["player_select"; "playerselect"].

(** Rows ordered by [created_at], NaT last. *)
Definition by_created_at : TRow → TRow → bool := key_le created_at ts_le.

#[export] Instance by_created_at_total : TotalPreB by_created_at := key_le_total created_at ts_le.

Section Latest.
  Context `{SA : SortAlg}.

  (** [df[sel].sort_values('created_at').drop_duplicates('user_id', keep='last')] *)
Definition latest_rows (sel : TRow → bool) (rs : list TRow) : list TRow :=
    drop_duplicates_last user_id (sort_with by_created_at (List.filter sel rs)).

  (** [[['user_id', 'answer']]] of the kept rows. *)
Definition latest_answers (sel : TRow → bool) (rs : list TRow) : list (Cell * Cell) :=
    map (λ r, (user_id r, answer r)) (latest_rows sel rs).

  (** [player_types] (lines 37-38): the steps "player_select" and "playerselect". *)
Definition player_types (rs : list TRow) : list (Cell * Cell) :=
    latest_answers (step_isin player_steps) rs.

  (** [evac_choices] (lines 41-42): the step "evacuate_select". *)
Definition evac_choices (rs : list TRow) : list (Cell * Cell) :=
    latest_answers (step_eq "evacuate_select") rs.
End Latest.

(** A row of the merged frame: [user_id, player_type, evacuate_choice]. *)
Record Merged := mkMerged { m_user_id : Cell; player_type : Cell; evacuate_choice : Cell }.

(** [pd.merge(left, right, on='user_id', how='inner')]: for each left row in
    order, one output row per right row with the same key (pandas matches
    NaN keys with each other). *)
Definition merge_inner (l r : list (Cell * Cell)) : list Merged :=
  flat_map (λ '(u, p),
    map (λ '(_, e), mkMerged u p e) (List.filter (λ '(u', _), bool_decide (u' = u)) r)) l.

(** Lines 44-46 of processEvacuate.py (33-34 of the first version). *)
Definition merge_latest `{SortAlg} (rs : list TRow) : list Merged :=
  merge_inner (player_types rs) (evac_choices rs).

(** ** Latest-answer extraction *)
Section LatestTheory.
  Context `{SA : SortAlg} (sel : TRow → bool).

Lemma sorted_selection_perm rs :
    sort_with by_created_at (List.filter sel rs) ≡ₚ List.filter sel rs.
  Proof. apply sort_with_perm. Qed.

Lemma latest_rows_split rs r :
    In r (latest_rows sel rs) →
    ∃ s1 s2, sort_with by_created_at (List.filter sel rs) = s1 ++ r :: s2 ∧
             Forall (λ y, user_id y ≠ user_id r) s2.
  Proof. apply drop_duplicates_last_In. Qed.

Lemma latest_rows_sound rs r : In r (latest_rows sel rs) → In r rs ∧ sel r = true.
  Proof.
    intros Hr. apply drop_duplicates_last_incl in Hr.
    apply (Permutation_in _ (sorted_selection_perm rs)), filter_In in Hr. done.
  Qed.

  (** At most one latest row per user. *)
Lemma latest_rows_unique rs : NoDup (map user_id (latest_rows sel rs)).
  Proof. apply drop_duplicates_last_NoDup. Qed.

  (** The statement of [latest_rows_max], shared by the lemmas that build on it. *)
Lemma latest_rows_max_core rs r y :
    In r (latest_rows sel rs) → In y rs → sel y = true → user_id y = user_id r →
    ts_le (created_at y) (created_at r) = true.
  Proof.
    intros Hr Hy Hsel Hu.
    destruct (latest_rows_split rs r Hr) as (s1 & s2 & Hs & Hs2).
    assert (In y (s1 ++ r :: s2)) as Hin.
    { rewrite <- Hs. apply (Permutation_in _ (Permutation_sym (sorted_selection_perm rs))).
      by apply filter_In. }
    pose proof (sort_with_sorted by_created_at (List.filter sel rs)) as Hsort.
    rewrite Hs in Hsort. apply in_app_or in Hin as [Hin|[<-|Hin]].
    - apply (StronglySorted_app_1_elem_of _ s1 (r :: s2) y r Hsort); apply list_elem_of_In; [done|by left].
    - apply (tp_refl ts_le).
    - by destruct (proj1 (List.Forall_forall _ _) Hs2 y Hin).
  Qed.

  (** C2: Every selected row of a user is no later than the user's kept row. *)
Theorem latest_rows_max rs r y :
    In r (latest_rows sel rs) → In y rs → sel y = true → user_id y = user_id r →
    ts_le (created_at y) (created_at r) = true.
    Proof. apply latest_rows_max_core. Qed.

  (** Every user with a selected row keeps one. *)
Theorem latest_rows_complete rs y :
    In y rs → sel y = true → ∃ r, In r (latest_rows sel rs) ∧ user_id r = user_id y.
  Proof.
    intros Hy Hsel. apply drop_duplicates_last_complete.
    apply (Permutation_in _ (Permutation_sym (sorted_selection_perm rs))). by apply filter_In.
  Qed.
End LatestTheory.

(** ** Tie-breaking and idempotence need a stable sort *)
Section LatestStable.
  Context {SA : SortAlg} `{!StableSortAlg SA} (sel : TRow → bool).

Definition same_time_user (r y : TRow) : bool :=
    equiv_b by_created_at r y && bool_decide (user_id y = user_id r).

  (** C4: Among the selected rows of a user with the latest timestamp, the
      kept row is the last one in input order. *)
Theorem latest_rows_last_among_max rs r :
    In r (latest_rows sel rs) →
    ∃ l1 l2, List.filter sel rs = l1 ++ r :: l2 ∧
      ∀ y, In y l2 → user_id y = user_id r → ts_le (created_at r) (created_at y) = false.
  Proof.
    intros Hr. destruct (latest_rows_split sel rs r Hr) as (s1 & s2 & Hs & Hs2).
    set (q := λ y : TRow, bool_decide (user_id y = user_id r)).
    assert (List.filter q (List.filter (equiv_b by_created_at r) (List.filter sel rs)) =
            List.filter q (List.filter (equiv_b by_created_at r) s1) ++ [r]) as Hf.
    { rewrite <- (sort_with_stable by_created_at), Hs, !List.filter_app. simpl.
      rewrite (equiv_b_refl by_created_at). simpl.
      assert (q r = true) as Hqr by (unfold q; by apply bool_decide_eq_true_2).
      rewrite Hqr. f_equal. f_equal.
      apply filter_nil_false. intros y Hy. apply filter_In in Hy as [Hy _].
      apply bool_decide_eq_false. by apply (proj1 (List.Forall_forall _ _) Hs2). }
    rewrite filter_filter_andb in Hf.
    destruct (filter_last_split _ _ _ _ Hf) as (l1 & l2 & Hl & Hl2).
    exists l1, l2. split; [done|]. intros y Hy Hu.
    specialize (Hl2 y Hy). unfold q, equiv_b in Hl2. rewrite bool_decide_eq_true_2 in Hl2 by done.
    assert (In y rs ∧ sel y = true) as [Hyr Hys].
    { apply filter_In. rewrite Hl. apply in_or_app. by right; right. }
    pose proof (latest_rows_max_core sel rs r y Hr Hyr Hys Hu) as Hmax.
    unfold by_created_at, key_le in Hl2. rewrite Hmax in Hl2.
    destruct (ts_le (created_at r) (created_at y)); done.
  Qed.

  (** Extracting the latest rows of the latest rows changes nothing. *)
Theorem latest_rows_idempotent rs :
    latest_rows sel (latest_rows sel rs) = latest_rows sel rs.
  Proof.
    unfold latest_rows at 1.
    rewrite filter_true_id by (intros r Hr; by apply (latest_rows_sound sel rs r)).
    rewrite (stable_sort_sorted_id by_created_at).
    - apply drop_duplicates_last_id, latest_rows_unique.
    - eapply sorted_b_sublist; [apply drop_duplicates_last_sublist|].
      apply (sort_with_sorted by_created_at).
  Qed.
End LatestStable.

(** ** The inner join *)
Section Merge.
  Implicit Types (l r : list (Cell * Cell)).

Lemma merge_inner_In l r m :
    In m (merge_inner l r) ↔
      In (m_user_id m, player_type m) l ∧ In (m_user_id m, evacuate_choice m) r.
  Proof.
    unfold merge_inner. rewrite in_flat_map. split.
    - intros ([u p] & Hl & Hm). apply in_map_iff in Hm as ([u' e] & <- & Hf).
      apply filter_In in Hf as [Hr Hk]. apply bool_decide_eq_true in Hk. subst. done.
    - destruct m as [u p e]; simpl. intros [Hl Hr]. exists (u, p). split; [done|].
      apply in_map_iff. exists (u, e). split; [done|]. apply filter_In. split; [done|].
      by apply bool_decide_eq_true.
  Qed.

Lemma merge_inner_users l r u :
    In u (map m_user_id (merge_inner l r)) ↔ In u (map fst l) ∧ In u (map fst r).
  Proof.
    rewrite !in_map_iff. split.
    - intros (m & <- & Hm). apply merge_inner_In in Hm as [Hl Hr].
      split; eexists; split; [|exact Hl| |exact Hr]; done.
    - intros ([[u1 p] [<- Hl]] & [[u2 e] [Hu Hr]]). simpl in Hu. subst u2.
      exists (mkMerged u1 p e). split; [done|]. by apply merge_inner_In.
  Qed.

Lemma filter_key_length_le1 r u :
    NoDup (map fst r) → length (List.filter (λ '(u', _), bool_decide (u' = u)) r) ≤ 1.
  Proof.
    induction r as [|[u' e] r IH]; simpl; [lia|]. intros Hnd. apply NoDup_cons in Hnd as [Hn Hnd].
    case_bool_decide; simpl; [|by apply IH]. subst.
    assert (List.filter (λ '(u'0, _), bool_decide (u'0 = u)) r = []) as ->; [|simpl; lia].
    apply filter_nil_false. intros [u'' e''] Hin. apply bool_decide_eq_false. intros ->.
    apply Hn, list_elem_of_In, in_map_iff. by exists (u, e'').
  Qed.

Lemma NoDup_length_le1 {A} (l : list A) : length l ≤ 1 → NoDup l.
  Proof. destruct l as [|a [|b l]]; simpl; intros; [constructor|apply NoDup_singleton|lia]. Qed.

Lemma merge_inner_unique l r :
    NoDup (map fst l) → NoDup (map fst r) → NoDup (map m_user_id (merge_inner l r)).
  Proof.
    intros Hl Hr. induction l as [|[u p] l IH]; simpl; [constructor|].
    apply NoDup_cons in Hl as [Hn Hl]. rewrite map_app. apply NoDup_app. split_and!.
    - apply NoDup_length_le1. rewrite !length_map. by apply filter_key_length_le1.
    - intros x Hx Hx'. apply list_elem_of_In, in_map_iff in Hx as (m & <- & Hm).
      apply in_map_iff in Hm as ([u' e] & <- & _). simpl in Hx'.
      apply list_elem_of_In, merge_inner_users in Hx' as [Hx' _]. apply Hn. by apply list_elem_of_In.
    - by apply IH.
  Qed.
End Merge.

(** ** The merged frame *)

(** Abstract specification of a latest answer: [a] is the answer of a
    selected row of user [u] that no selected row of [u] postdates. *)
Definition is_latest_answer (sel : TRow → bool) (rs : list TRow) (u a : Cell) : Prop :=
  ∃ r, In r rs ∧ sel r = true ∧ user_id r = u ∧ answer r = a ∧
    ∀ y, In y rs → sel y = true → user_id y = u → ts_le (created_at y) (created_at r) = true.

Section MergeLatest.
  Context `{SA : SortAlg}.

Lemma latest_answers_spec sel rs u a :
    In (u, a) (latest_answers sel rs) → is_latest_answer sel rs u a.
  Proof.
    unfold latest_answers. rewrite in_map_iff. intros (r & Heq & Hr). injection Heq as <- <-.
    destruct (latest_rows_sound sel rs r Hr). exists r. split_and!; try done.
    intros y Hy Hs Hu. by apply (latest_rows_max_core sel rs r y).
  Qed.

Lemma latest_answers_users sel rs u :
    In u (map fst (latest_answers sel rs)) ↔ ∃ y, In y rs ∧ sel y = true ∧ user_id y = u.
  Proof.
    unfold latest_answers. rewrite map_map, in_map_iff. simpl. split.
    - intros (r & <- & Hr). destruct (latest_rows_sound sel rs r Hr). by exists r.
    - intros (y & Hy & Hs & <-). destruct (latest_rows_complete sel rs y Hy Hs) as (r & Hr & Hu).
      by exists r.
  Qed.

Lemma latest_answers_unique sel rs : NoDup (map fst (latest_answers sel rs)).
  Proof. unfold latest_answers. rewrite map_map. apply latest_rows_unique. Qed.

  (** The statement of [merge_latest_correct], shared by the lemmas that build on it. *)
Lemma merge_latest_correct_core rs m :
    In m (merge_latest rs) →
    is_latest_answer (step_isin player_steps) rs (m_user_id m) (player_type m) ∧
    is_latest_answer (step_eq "evacuate_select") rs (m_user_id m) (evacuate_choice m).
  Proof.
    unfold merge_latest. rewrite merge_inner_In. intros [Hp He].
    split; by apply latest_answers_spec.
  Qed.

  (** C1: Each merged row pairs the user's latest player type with the
      user's latest evacuation choice. *)
Theorem merge_latest_correct rs m :
    In m (merge_latest rs) →
    is_latest_answer (step_isin player_steps) rs (m_user_id m) (player_type m) ∧
    is_latest_answer (step_eq "evacuate_select") rs (m_user_id m) (evacuate_choice m).
    Proof. apply merge_latest_correct_core. Qed.

  (** The merged users are exactly those who answered both steps. *)
Theorem merge_latest_users rs u :
    In u (map m_user_id (merge_latest rs)) ↔
      (∃ y, In y rs ∧ step_isin player_steps y = true ∧ user_id y = u) ∧
      (∃ y, In y rs ∧ step_eq "evacuate_select" y = true ∧ user_id y = u).
  Proof. unfold merge_latest, player_types, evac_choices. by rewrite merge_inner_users, !latest_answers_users. Qed.

  (** C3: One merged row per user. *)
Theorem merge_latest_unique rs : NoDup (map m_user_id (merge_latest rs)).
  Proof. apply merge_inner_unique; apply latest_answers_unique. Qed.
End MergeLatest.

(** The scenario of the specification: one player-type row and one
    evacuation row of user u1 merge into one row. *)
Definition scenario_rows : list TRow :=
  [mkRow (Some "u1") NaN NaN NaN (Some "player_select") (Some "Pet Owner") (Some 1%Z);
   mkRow (Some "u1") NaN NaN NaN (Some "evacuate_select") (Some "Yep, evacuate!") (Some 2%Z)].

(** The specification's scenario: a player_select row 'Pet Owner' and an evacuate_select row 'Yep, evacuate!' of user u1 merge into the single row (u1, Pet Owner, Yep, evacuate!). *)
Example merge_latest_scenario :
  @merge_latest insertion_sort_alg scenario_rows =
    [mkMerged (Some "u1") (Some "Pet Owner") (Some "Yep, evacuate!")].
Proof. vm_compute. reflexivity. Qed.

(** ** Concrete runs *)

(** User u1 answers twice at time 3 (a tie) and once at time 1; user u2
    answers once with no timestamp and once at time 5. *)
Definition w_u1_parent : TRow := mkRow (Some "u1") NaN NaN NaN (Some "player_select") (Some "Parent") (Some 3%Z).
Definition w_u1_pet : TRow := mkRow (Some "u1") NaN NaN NaN (Some "playerselect") (Some "Pet Owner") (Some 1%Z).
Definition w_u1_student : TRow := mkRow (Some "u1") NaN NaN NaN (Some "player_select") (Some "Student") (Some 3%Z).
Definition w_u2_nat : TRow := mkRow (Some "u2") NaN NaN NaN (Some "player_select") (Some "Parent") None.
Definition w_u2_pet : TRow := mkRow (Some "u2") NaN NaN NaN (Some "player_select") (Some "Pet Owner") (Some 5%Z).
Definition w_u1_evac : TRow := mkRow (Some "u1") NaN NaN NaN (Some "evacuate_select") (Some "Yep, evacuate!") (Some 4%Z).

Definition witness_rows : list TRow :=
  [w_u1_parent; w_u1_pet; w_u1_student; w_u2_nat; w_u2_pet; w_u1_evac].

Example latest_player_types_run :
  @player_types insertion_sort_alg witness_rows =
    [(Some "u1", Some "Student"); (Some "u2", Some "Parent")].
Proof. vm_compute. reflexivity. Qed.

Lemma latest_rows_max_witness :
  ts_le (created_at w_u1_pet) (created_at w_u1_student) = true.
Proof.
  apply (@latest_rows_max insertion_sort_alg (step_isin player_steps) witness_rows);
    vm_compute; auto 8.
Defined.

Lemma latest_rows_last_among_max_witness :
  ∃ l1 l2, List.filter (step_isin player_steps) witness_rows = l1 ++ w_u1_student :: l2 ∧
    ∀ y, In y l2 → user_id y = user_id w_u1_student →
      ts_le (created_at w_u1_student) (created_at y) = false.
Proof.
  apply (@latest_rows_last_among_max insertion_sort_alg _ (step_isin player_steps) witness_rows).
  vm_compute. auto.
Defined.

Lemma latest_rows_idempotent_witness :
  @latest_rows insertion_sort_alg (step_isin player_steps)
    (@latest_rows insertion_sort_alg (step_isin player_steps) witness_rows) =
  @latest_rows insertion_sort_alg (step_isin player_steps) witness_rows.
Proof. apply (@latest_rows_idempotent insertion_sort_alg _). Defined.

Lemma merge_latest_correct_witness :
  is_latest_answer (step_isin player_steps) witness_rows (Some "u1") (Some "Student") ∧
  is_latest_answer (step_eq "evacuate_select") witness_rows (Some "u1") (Some "Yep, evacuate!").
Proof.
  apply (@merge_latest_correct insertion_sort_alg witness_rows
           (mkMerged (Some "u1") (Some "Student") (Some "Yep, evacuate!"))).
  vm_compute. auto.
Defined.

Lemma latest_rows_complete_witness :
  ∃ r, In r (@latest_rows insertion_sort_alg (step_isin player_steps) witness_rows) ∧
       user_id r = user_id w_u1_pet.
Proof.
  apply (@latest_rows_complete insertion_sort_alg (step_isin player_steps) witness_rows w_u1_pet);
    vm_compute; auto 8.
Defined.
