(* ===== verification/Breakdown.v ===== *)
(** * Breakdown: percentage breakdowns of the answers to prefixed questions

    [calculate_aggregated_answer_percentages] (genetedatefilterprocess.py,
    lines 5-39): the global breakdown of the answers to the questions
    with a given prefix; and [calculate_drought_answer_percentages]
    (geneteprocess.py, lines 4-61): the breakdown per [hashed_user_id]. *)
From S2P Require Import Prelude SortValues DataFrame Float.
From Stdlib Require Import Qabs.
Close Scope Q_scope.

(** [df['question'].astype(str).str.startswith(prefix, na=False)]:
    [astype(str)] turns a NaN question into the string "nan". *)
Definition question_str (c : Cell) : string :=
  match c with Some s => s | None => "nan" end.

Definition startswith {T} (prefix : string) (r : RowT T) : bool :=
  String.prefix prefix (question_str (question r)).

(** The answers of some rows, NaN dropped (what [value_counts] counts). *)
Definition answers_of {T} (rs : list (RowT T)) : list string := omap answer rs.

Definition count_of (a : string) (xs : list string) : nat :=
  count_if (λ b, bool_decide (b = a)) xs.

Section Breakdown.
  Context `{SA : SortAlg}.

  (** [Series.value_counts()]: the distinct values with their counts, by
      decreasing count. *)
Definition value_counts (xs : list string) : list (string * nat) :=
    sort_with (key_le snd nat_ge_b) (map (λ a, (a, count_of a xs)) (pd_unique xs)).

  (** Lines 18-39. *)
Definition calculate_aggregated_answer_percentages {T} (rs : list (RowT T)) (prefix : string)
      : list (string * Q) :=
    match List.filter (startswith prefix) rs with
    | [] => []
    | filtered =>
        let answer_counts := value_counts (answers_of filtered) in
        let total_answers := sum_list (map snd answer_counts) in
        if Nat.eqb total_answers 0 then []
        else sort_with (key_le snd Qge_b)
               (map (λ '(a, c), (a, percentage c total_answers)) answer_counts)
    end.
End Breakdown.

Lemma answers_of_In {T} (rs : list (RowT T)) a :
  In a (answers_of rs) ↔ ∃ r, In r rs ∧ answer r = Some a.
Proof.
  unfold answers_of. rewrite <- list_elem_of_In, list_elem_of_omap.
  by setoid_rewrite list_elem_of_In.
Qed.

Lemma count_of_pos a xs : In a xs → (0 < count_of a xs)%nat.
Proof.
  unfold count_of, count_if. intros Ha.
  assert (In a (List.filter (λ b, bool_decide (b = a)) xs)) as Hf
    by (apply filter_In; split; [done|by apply bool_decide_eq_true]).
  destruct (List.filter _ xs); [done|simpl; lia].
Qed.

(** ** [value_counts] *)
Section ValueCounts.
  Context `{SA : SortAlg}.

Lemma value_counts_perm xs :
    value_counts xs ≡ₚ map (λ a, (a, count_of a xs)) (pd_unique xs).
  Proof. apply sort_with_perm. Qed.

Lemma value_counts_In xs a c :
    In (a, c) (value_counts xs) ↔ In a xs ∧ c = count_of a xs.
  Proof.
    split.
    - intros H. apply (Permutation_in _ (value_counts_perm xs)), in_map_iff in H as (b & Heq & Hb).
      injection Heq as -> ->. split; [|done].
      by rewrite In_pd_unique in Hb.
    - intros [Ha ->]. apply (Permutation_in _ (Permutation_sym (value_counts_perm xs))).
      apply in_map_iff. exists a. split; [done|].
      by rewrite In_pd_unique.
  Qed.

Lemma value_counts_keys_NoDup xs : NoDup (map fst (value_counts xs)).
  Proof.
    rewrite (value_counts_perm xs), map_map. simpl. rewrite map_id. apply NoDup_pd_unique.
  Qed.

  (** The counts add up to the number of non-missing values. *)
Lemma value_counts_total xs : sum_list (map snd (value_counts xs)) = length xs.
  Proof.
    rewrite (sum_list_perm _ _ (Permutation_map snd (value_counts_perm xs))), map_map. simpl.
    apply sum_counts_partition; [apply NoDup_pd_unique|].
    intros x Hx. by rewrite In_pd_unique.
  Qed.

Lemma value_counts_sorted xs : sorted_b (key_le snd nat_ge_b) (value_counts xs).
  Proof. apply (sort_with_sorted (key_le snd nat_ge_b)). Qed.

  (** The shares of the counts of [value_counts] in the number of values
      add up to 100. *)
Lemma value_counts_pct_sum xs :
    length xs ≠ 0 → (Qsum (map (λ ac, percentage ac.2 (length xs)) (value_counts xs)) == 100)%Q.
  Proof.
    intros Hn. rewrite <- (map_map snd (λ c, percentage c (length xs))).
    rewrite Qsum_percentage, value_counts_total by done. by apply percentage_total.
  Qed.
End ValueCounts.

(** ** The global breakdown *)
Section Aggregated.
  Context `{SA : SortAlg} {T : Type}.
  Implicit Types (rs : list (RowT T)).

  (** The answers the breakdown counts: non-missing answers of the rows
      whose question has the prefix. *)
Definition matched_answers rs prefix : list string :=
    answers_of (List.filter (startswith prefix) rs).

Definition percentages_of (counts : list (string * nat)) (total : nat) : list (string * Q) :=
    map (λ '(a, c), (a, percentage c total)) counts.

Lemma aggregated_unfold rs prefix :
    calculate_aggregated_answer_percentages rs prefix =
      let xs := matched_answers rs prefix in
      if Nat.eqb (length xs) 0 then []
      else sort_with (key_le snd Qge_b) (percentages_of (value_counts xs) (length xs)).
  Proof.
    unfold calculate_aggregated_answer_percentages, matched_answers, percentages_of.
    destruct (List.filter (startswith prefix) rs) as [|r t] eqn:Hf; [done|].
    by rewrite value_counts_total.
  Qed.

  (** The exact percentages, before [round_q] rounds each to binary64,
      sum to 100: the step [aggregated_float_sum] bounds the error of. *)
Lemma aggregated_exact_sum_100 rs prefix :
    calculate_aggregated_answer_percentages rs prefix ≠ [] →
    (Qsum (map snd (calculate_aggregated_answer_percentages rs prefix)) == 100)%Q.
  Proof.
    rewrite aggregated_unfold. simpl. set (xs := matched_answers rs prefix).
    destruct (Nat.eqb_spec (length xs) 0) as [|Hn]; [done|]. intros _.
    rewrite (Qsum_perm _ _ (Permutation_map snd (sort_with_perm _ _))).
    unfold percentages_of. rewrite map_map.
    erewrite map_ext with (g := λ p, percentage p.2 (length xs)) by (by intros [a c]).
    by apply value_counts_pct_sum.
  Qed.

  (** The statement of [aggregated_In], shared by the lemmas that build on it. *)
Lemma aggregated_In_core rs prefix a p :
    In (a, p) (calculate_aggregated_answer_percentages rs prefix) ↔
      In a (matched_answers rs prefix) ∧
      p = percentage (count_of a (matched_answers rs prefix)) (length (matched_answers rs prefix)).
  Proof.
    rewrite aggregated_unfold. simpl. set (xs := matched_answers rs prefix).
    destruct (Nat.eqb_spec (length xs) 0) as [Hn|Hn].
    - split; [done|]. intros [Ha _]. destruct xs; [done|discriminate].
    - split.
      + intros H. apply (Permutation_in _ (sort_with_perm _ _)), in_map_iff in H as ([b c] & Heq & Hb).
        injection Heq as <- <-. apply value_counts_In in Hb as [? ->]. done.
      + intros [Ha ->]. apply (Permutation_in _ (Permutation_sym (sort_with_perm _ _))).
        apply in_map_iff. exists (a, count_of a xs). split; [done|]. by apply value_counts_In.
  Qed.

  (** C5: Each answer appears with its count over the matched answers,
      divided by the number of matched answers, times 100. *)
Theorem aggregated_In rs prefix a p :
    In (a, p) (calculate_aggregated_answer_percentages rs prefix) ↔
      In a (matched_answers rs prefix) ∧
      p = percentage (count_of a (matched_answers rs prefix)) (length (matched_answers rs prefix)).
    Proof. apply aggregated_In_core. Qed.

  (** The statement of [aggregated_bounds], shared by the lemmas that build on it. *)
Lemma aggregated_bounds_core rs prefix a p :
    In (a, p) (calculate_aggregated_answer_percentages rs prefix) → (0 < p ∧ p <= 100)%Q.
  Proof.
    intros [Ha ->]%aggregated_In_core. set (xs := matched_answers rs prefix) in *.
    assert (length xs ≠ 0%nat) by (destruct xs; [done|simpl; lia]).
    split; [apply percentage_pos; [by apply count_of_pos|done]|].
    apply percentage_bounds; [apply count_if_le|done].
  Qed.

  (** The exact percentages of the breakdown are non-negative. *)
Lemma aggregated_nonneg rs prefix :
    Forall (λ p, 0 <= p)%Q (map snd (calculate_aggregated_answer_percentages rs prefix)).
  Proof.
    apply Forall_forall. intros p ([a p'] & <- & Hin)%list_elem_of_In%in_map_iff.
    apply aggregated_bounds_core in Hin. simpl. lra.
  Qed.

  (** A list of breakdown percentages adding up to 100 gives binary64
      values adding up to 100 within [100 * 2^-51]. *)
Lemma float_sum_100 {K} (out : list (K * Q)) :
    Forall (λ p, 0 <= p)%Q (map snd out) → (Qsum (map snd out) == 100)%Q →
    (Qabs (Qsum (map (λ kp, F64_val (py_percentage kp.2)) out) - 100) <= 100 * (1 # 2 ^ 51))%Q.
  Proof.
    intros Hn Hs. pose proof (Qsum_py_percentage_error _ Hn) as H.
    rewrite map_map, Hs in H. exact H.
  Qed.

  (** C9: Python's float percentages of the global breakdown, [count /
      total * 100] in binary64, add up to 100 within [100 * 2^-51]
      (exactly, as rationals). *)
Theorem aggregated_float_sum rs prefix :
    calculate_aggregated_answer_percentages rs prefix ≠ [] →
    (Qabs (Qsum (map (λ ap, F64_val (py_percentage ap.2)) (calculate_aggregated_answer_percentages rs prefix)) - 100)
       <= 100 * (1 # 2 ^ 51))%Q.
  Proof. intros Hne. apply float_sum_100; [apply aggregated_nonneg|by apply aggregated_exact_sum_100]. Qed.

  (** C6: Every percentage of the global breakdown is positive and at
      most 100: an answer is listed only when it occurs. *)
Theorem aggregated_bounds rs prefix a p :
    In (a, p) (calculate_aggregated_answer_percentages rs prefix) → (0 < p ∧ p <= 100)%Q.
  Proof. apply aggregated_bounds_core. Qed.

  (** Each answer appears once. *)
Theorem aggregated_unique rs prefix :
    NoDup (map fst (calculate_aggregated_answer_percentages rs prefix)).
  Proof.
    rewrite aggregated_unfold. simpl. destruct Nat.eqb; [constructor|].
    rewrite (sort_with_perm _ _). unfold percentages_of. rewrite map_map.
    erewrite map_ext with (g := fst) by (by intros [a c]). apply value_counts_keys_NoDup.
  Qed.

  (** The rows are in decreasing order of percentage. *)
Theorem aggregated_sorted rs prefix :
    sorted_b (key_le snd Qge_b) (calculate_aggregated_answer_percentages rs prefix).
  Proof.
    rewrite aggregated_unfold. simpl. destruct Nat.eqb; [constructor|].
    apply (sort_with_sorted (key_le snd Qge_b)).
  Qed.
End Aggregated.

(** With a stable sort, the final [sort_values('percentage')] keeps the
    order [value_counts] produced: percentages over one total are
    ordered as the counts. *)
Theorem aggregated_value_counts_order {SA : SortAlg} `{!StableSortAlg SA} {T}
    (rs : list (RowT T)) prefix :
  calculate_aggregated_answer_percentages rs prefix =
    let xs := matched_answers rs prefix in
    if Nat.eqb (length xs) 0 then [] else percentages_of (value_counts xs) (length xs).
Proof.
  rewrite aggregated_unfold. simpl. destruct (Nat.eqb_spec (length (matched_answers rs prefix)) 0) as [|Hn]; [done|].
  apply (stable_sort_sorted_id (key_le snd Qge_b)). unfold percentages_of.
  eapply sorted_b_map; [|apply value_counts_sorted].
  intros [a c1] [b c2] _ _. unfold key_le, nat_ge_b, Qge_b. simpl.
  rewrite Nat.leb_le, Qle_bool_iff. by apply percentage_le_iff.
Qed.

(** The scenario of the specification: two answers A and B to a question
    "Now, drought?" give 50% each. *)
Definition drought_rows : list Row :=
  [mkRow NaN (Some "h1") NaN (Some "Now, drought?") NaN (Some "A") NaN;
   mkRow NaN (Some "h2") NaN (Some "Now, drought?") NaN (Some "B") NaN].

(** The specification's scenario: answers A and B to 'Now, drought?' give the breakdown [(A, 50), (B, 50)]. *)
Example aggregated_drought_scenario :
  map (λ '(a, p), (a, Qred p)) (@calculate_aggregated_answer_percentages insertion_sort_alg _ drought_rows "Now,")
    = [("A", 50%Q); ("B", 50%Q)].
Proof. vm_compute. reflexivity. Qed.

Lemma aggregated_bounds_witness :
  In ("A", percentage 1 2) (@calculate_aggregated_answer_percentages insertion_sort_alg _ drought_rows "Now,") ∧
  (0 < percentage 1 2 ∧ percentage 1 2 <= 100)%Q.
Proof.
  assert (In ("A", percentage 1 2)
    (@calculate_aggregated_answer_percentages insertion_sort_alg _ drought_rows "Now,")) as H
    by (vm_compute; auto).
  split; [exact H|exact (aggregated_bounds _ _ _ _ H)].
Defined.

(** ** The breakdown per user (geneteprocess.py) *)

(** The [(hashed_user_id, answer)] keys of [groupby]; rows with a NaN key
    are dropped ([dropna=True]). *)
Definition user_answer_keys {T} (rs : list (RowT T)) : list (string * string) :=
  omap (λ r, match hashed_user_id r, answer r with
             | Some u, Some a => Some (u, a)
             | _, _ => None
             end) rs.

Definition str_pair_le : string * string → string * string → bool := lex_le String.leb String.leb.

#[export] Instance str_pair_le_total : TotalPreB str_pair_le := lex_le_total _ _.

Definition user_pct_le : string * string * Q → string * string * Q → bool :=
  key_le (λ '(u, _, p), (u, p)) (lex_le String.leb Qge_b).

#[export] Instance user_pct_le_total : TotalPreB user_pct_le := key_le_total _ _.

Section PerUser.
  Context `{SA : SortAlg}.

  (** [groupby(['hashed_user_id', 'answer']).size().reset_index(name='count')]:
      one row per distinct key, keys in sorted order (line 33). *)
Definition groupby_size (ks : list (string * string)) : list ((string * string) * nat) :=
    map (λ k, (k, count_if (λ k', bool_decide (k' = k)) ks)) (sort_with str_pair_le (pd_unique ks)).

  (** [answer_counts.groupby('hashed_user_id')['count'].sum()] (line 37). *)
Definition total_answers_of (counts : list ((string * string) * nat)) (u : string) : nat :=
    sum_list (map snd (List.filter (λ '((u', _), _), bool_decide (u' = u)) counts)).

  (** Lines 25-50: filter, count, merge with the per-user totals (each
      user has one total, so the inner merge attaches it to every count
      row of the user), percentage, and sort by user then by decreasing
      percentage. *)
Definition drought_percentages {T} (rs : list (RowT T)) : list (string * string * Q) :=
    let answer_counts := groupby_size (user_answer_keys (List.filter (startswith "Now,") rs)) in
    let merged := map (λ '((u, a), c), (u, a, percentage c (total_answers_of answer_counts u)))
                      answer_counts in
    sort_with user_pct_le merged.
End PerUser.

(** What a script writes: a message, or a CSV table. *)
Inductive Out (A : Type) := Says (msg : string) | Prints (table : A).
Arguments Says {A} msg.
Arguments Prints {A} table.

(** [calculate_drought_answer_percentages] (lines 10-61); [None] is an
    empty input stream, on which [pd.read_csv] raises [EmptyDataError]. *)
Definition calculate_drought_answer_percentages `{SortAlg} (input : option (Frame Cell))
    : Result (Out (list (string * string * Q))) :=
  match input with
  | None => Err EmptyDataError
  | Some f =>
      let* _ := check_required ["hashed_user_id"; "question"; "answer"] f in
      match List.filter (startswith "Now,") (rows f) with
      | [] => Ok (Says "No questions starting with 'Now,' found in the input.")
      | _ => Ok (Prints (drought_percentages (rows f)))
      end
  end.

(** The global breakdown lists each distinct matched answer once, with
    its percentage (up to the order of the rows). *)
Lemma aggregated_perm_unique `{SortAlg} {T} (rs : list (RowT T)) prefix :
  let xs := matched_answers rs prefix in
  calculate_aggregated_answer_percentages rs prefix ≡ₚ
    map (λ a, (a, percentage (count_of a xs) (length xs))) (pd_unique xs).
Proof.
  rewrite aggregated_unfold. simpl. set (xs := matched_answers rs prefix).
  destruct (Nat.eqb_spec (length xs) 0) as [Hn|Hn].
  - by destruct xs.
  - rewrite sort_with_perm. unfold percentages_of. rewrite value_counts_perm, map_map. done.
Qed.

(** ** From the per-user breakdown to the global one *)
Section PerUserTheory.
  Implicit Types (ks : list (string * string)).

Definition of_user (u : string) (k : string * string) : bool := bool_decide (k.1 = u).

Lemma user_answer_keys_of_user {T} (rs : list (RowT T)) u :
    map snd (List.filter (of_user u) (user_answer_keys rs)) =
      answers_of (List.filter (λ r, bool_decide (hashed_user_id r = Some u)) rs).
  Proof.
    induction rs as [|r t IH]; simpl; [done|].
    destruct (hashed_user_id r) as [u'|], (answer r) as [a|] eqn:Ha; simpl;
      unfold of_user; simpl; repeat case_bool_decide; simplify_eq/=; rewrite ?Ha; simpl; by f_equal.
  Qed.

Lemma count_pair_of_user ks u a :
    count_if (λ k', bool_decide (k' = (u, a))) ks =
      count_of a (map snd (List.filter (of_user u) ks)).
  Proof.
    unfold count_of. induction ks as [|[u' a'] t IH]; [done|].
    rewrite count_if_cons, IH. unfold of_user. simpl.
    destruct (decide (u' = u)) as [->|Hne].
    - rewrite (bool_decide_eq_true_2 (u = u)) by done. simpl. rewrite count_if_cons. f_equal.
      repeat case_bool_decide; congruence.
    - rewrite (bool_decide_eq_false_2 (u' = u)) by done. simpl.
      rewrite (bool_decide_eq_false_2 ((u', a') = (u, a))) by congruence. done.
  Qed.
End PerUserTheory.

Section PerUserTotals.
  Context `{SA : SortAlg}.
  Implicit Types (ks : list (string * string)).

  (** The per-user total is the number of the user's keys. *)
Lemma total_answers_of_groupby ks u :
    total_answers_of (groupby_size ks) u = length (List.filter (of_user u) ks).
  Proof.
    unfold total_answers_of, groupby_size. rewrite filter_map_comm, map_map.
    rewrite (List.filter_ext _ (of_user u)) by (by intros [? ?]).
    rewrite (sum_list_perm _ _ (Permutation_map _ (filter_perm _ _ _ (sort_with_perm _ _)))).
    rewrite <- pd_unique_filter. simpl.
    erewrite map_ext_in.
    { apply sum_counts_partition; [apply NoDup_pd_unique|]. intros x Hx. by apply In_pd_unique. }
    intros k Hk. apply In_pd_unique, filter_In in Hk as [_ Hk]. by apply count_if_eq_filter.
  Qed.
End PerUserTotals.

Section PerUserEquiv.
  Context `{SA : SortAlg}.

  (** The rows of one user in the per-user output, as (answer, percentage). *)
Definition user_rows (u : string) (out : list (string * string * Q)) : list (string * Q) :=
    map (λ '(_, a, p), (a, p)) (List.filter (λ '(u', _, _), bool_decide (u' = u)) out).

Lemma drought_user_rows_keys {T} (rs : list (RowT T)) u :
    let ks := user_answer_keys (List.filter (startswith "Now,") rs) in
    user_rows u (drought_percentages rs) ≡ₚ
      map (λ k, (k.2, percentage (count_if (λ k', bool_decide (k' = k)) ks)
                                 (length (List.filter (of_user u) ks))))
          (pd_unique (List.filter (of_user u) ks)).
  Proof.
    simpl. unfold user_rows, drought_percentages. rewrite sort_with_perm.
    unfold groupby_size at 2. rewrite map_map, filter_map_comm, map_map, sort_with_perm.
    rewrite (List.filter_ext _ (of_user u)) by (by intros [? ?]).
    rewrite <- pd_unique_filter. apply Permutation_refl'. apply map_ext_in.
    intros [u' a] Hk. apply In_pd_unique, filter_In in Hk as [_ Hk].
    unfold of_user in Hk. apply bool_decide_eq_true in Hk. simpl in Hk. subst u'.
    simpl. by rewrite total_answers_of_groupby.
  Qed.

Lemma user_keys_answers (ks : list (string * string)) u :
    let xs := map snd (List.filter (of_user u) ks) in
    map (λ k, (k.2, percentage (count_if (λ k', bool_decide (k' = k)) ks)
                               (length (List.filter (of_user u) ks))))
        (pd_unique (List.filter (of_user u) ks)) =
      map (λ a, (a, percentage (count_of a xs) (length xs))) (pd_unique xs).
  Proof.
    simpl. rewrite pd_unique_map, map_map, length_map.
    - apply map_ext_in. intros [u' a] Hk. apply In_pd_unique, filter_In in Hk as [_ Hk].
      unfold of_user in Hk. apply bool_decide_eq_true in Hk. simpl in Hk. subst u'.
      simpl. by rewrite count_pair_of_user.
    - intros [u1 a1] [u2 a2] H1 H2 Heq. apply filter_In in H1 as [_ H1], H2 as [_ H2].
      unfold of_user in H1, H2. apply bool_decide_eq_true in H1, H2. simpl in *. congruence.
  Qed.

  (** The statement of [drought_percentages_per_user], shared by the lemmas that build on it. *)
Lemma drought_percentages_per_user_core {T} (rs : list (RowT T)) u :
    user_rows u (drought_percentages rs) ≡ₚ
      calculate_aggregated_answer_percentages
        (List.filter (λ r, bool_decide (hashed_user_id r = Some u)) rs) "Now,".
  Proof.
    rewrite drought_user_rows_keys. simpl. rewrite user_keys_answers, aggregated_perm_unique.
    simpl. unfold matched_answers. rewrite user_answer_keys_of_user, filter_comm. done.
  Qed.

  (** C7: For every user, the per-user breakdown of geneteprocess.py is the
      global breakdown of genetedatefilterprocess.py over that user's rows,
      up to the order of the rows. *)
Theorem drought_percentages_per_user {T} (rs : list (RowT T)) u :
    user_rows u (drought_percentages rs) ≡ₚ
      calculate_aggregated_answer_percentages
        (List.filter (λ r, bool_decide (hashed_user_id r = Some u)) rs) "Now,".
    Proof. apply drought_percentages_per_user_core. Qed.
End PerUserEquiv.

Section PerUserCorollaries.
  Context `{SA : SortAlg} {T : Type}.

  (** For each user of the output, the user's percentages add up to 100. *)
Theorem drought_user_sum_100 (rs : list (RowT T)) u :
    user_rows u (drought_percentages rs) ≠ [] →
    (Qsum (map snd (user_rows u (drought_percentages rs))) == 100)%Q.
  Proof.
    intros Hne. pose proof (drought_percentages_per_user_core rs u) as Hp.
    rewrite (Qsum_perm _ _ (Permutation_map snd Hp)). apply aggregated_exact_sum_100.
    intros Hnil. rewrite Hnil in Hp. by apply Permutation_sym, Permutation_nil in Hp.
  Qed.

  (** Python's float percentages of a user, [count / total * 100] in
      binary64, add up to 100 within [100 * 2^-51] (exactly, as
      rationals). *)
Theorem drought_user_float_sum (rs : list (RowT T)) u :
    user_rows u (drought_percentages rs) ≠ [] →
    (Qabs (Qsum (map (λ ap, F64_val (py_percentage ap.2)) (user_rows u (drought_percentages rs))) - 100)
       <= 100 * (1 # 2 ^ 51))%Q.
  Proof.
    intros Hne. pose proof (drought_percentages_per_user_core rs u) as Hp.
    assert (Hne' : calculate_aggregated_answer_percentages (List.filter (λ r, bool_decide (hashed_user_id r = Some u)) rs) "Now," ≠ []).
    { intros Hnil. rewrite Hnil in Hp. by apply Permutation_sym, Permutation_nil in Hp. }
    apply float_sum_100.
    - rewrite (Permutation_map snd Hp). apply aggregated_nonneg.
    - rewrite (Qsum_perm _ _ (Permutation_map snd Hp)). by apply aggregated_exact_sum_100.
  Qed.

  (** Each output row of a user is an answer of that user to a "Now,"
      question with its share among that user's answers. *)
Theorem drought_user_rows_In (rs : list (RowT T)) u a p :
    let xs := matched_answers (List.filter (λ r, bool_decide (hashed_user_id r = Some u)) rs) "Now," in
    In (a, p) (user_rows u (drought_percentages rs)) ↔
      In a xs ∧ p = percentage (count_of a xs) (length xs).
  Proof.
    simpl. rewrite <- aggregated_In_core. split; apply Permutation_in;
      [|symmetry]; apply drought_percentages_per_user_core.
  Qed.

  (** The output is sorted by user, then by decreasing percentage. *)
Theorem drought_percentages_sorted (rs : list (RowT T)) :
    sorted_b user_pct_le (drought_percentages rs).
  Proof. apply (sort_with_sorted user_pct_le). Qed.
End PerUserCorollaries.

(** ** The breakdown computed with Python's floats

    The script's percentage column holds floats and [sort_values] orders
    those.  [calculate_aggregated_float] is the breakdown as Python
    computes it: the binary64 percentages sorted by their value. *)
Definition F64_ge_b (x y : F64) : bool := Qge_b (F64_val x) (F64_val y).

#[export] Instance F64_ge_b_total : TotalPreB F64_ge_b.
Proof.
  split; unfold F64_ge_b.
  - intros a b. apply tp_total.
  - intros a b c. apply tp_trans.
Qed.

Section FloatBreakdown.
  Context `{SA : SortAlg}.

  (** Lines 18-39 with float percentages. *)
Definition calculate_aggregated_float {T} (rs : list (RowT T)) (prefix : string) : list (string * F64) :=
    match List.filter (startswith prefix) rs with
    | [] => []
    | filtered =>
        let answer_counts := value_counts (answers_of filtered) in
        let total_answers := sum_list (map snd answer_counts) in
        if Nat.eqb total_answers 0 then []
        else sort_with (key_le snd F64_ge_b)
               (map (λ '(a, c), (a, py_percentage (percentage c total_answers))) answer_counts)
    end.
End FloatBreakdown.

(** Over one total below [2^50], distinct counts give floats further
    apart than their rounding errors. *)
Lemma percentage_float_lt (c1 c2 t : nat) :
    (c1 < c2)%nat → (c2 ≤ t)%nat → (Z.of_nat t < 2 ^ 50)%Z →
    (F64_val (py_percentage (percentage c1 t)) < F64_val (py_percentage (percentage c2 t)))%Q.
  Proof.
    intros H12 H2t Ht. assert (Ht0 : t ≠ 0%nat) by lia.
    pose proof (Qnat_pos t Ht0) as HT.
    assert (Hm : ∀ c, (Qnat t * percentage c t == 100 * Qnat c)%Q).
    { intros c. unfold percentage. field. intros Hc. lra. }
    assert (Hc : (Qnat c1 + 1 <= Qnat c2)%Q).
    { change 1%Q with (Qnat 1). rewrite <- Qnat_add. apply Qnat_le. lia. }
    assert (Hs : (Qnat c1 + Qnat c2 <= 2 * Qnat t)%Q).
    { pose proof (Qnat_le c1 t ltac:(lia)). pose proof (Qnat_le c2 t H2t). lra. }
    assert (HT50 : (Qnat t < inject_Z (2 ^ 50))%Q) by (unfold Qnat; rewrite <- Zlt_Qlt; lia).
    change (inject_Z (2 ^ 50)) with (1125899906842624 # 1)%Q in HT50.
    pose proof (Qnat_le 0 c1 ltac:(lia)) as H0. change (Qnat 0) with 0%Q in H0.
    apply py_percentage_lt.
    - apply (Qmult_le_l _ _ (Qnat t)); [done|]. rewrite Hm. lra.
    - apply (Qmult_lt_l _ _ (Qnat t)); [done|]. rewrite !Hm. lra.
    - apply (Qmult_lt_l _ _ (Qnat t)); [done|].
      setoid_replace (Qnat t * ((percentage c1 t + percentage c2 t) * (1 # 2 ^ 51)))%Q
        with ((Qnat t * percentage c1 t + Qnat t * percentage c2 t) * (1 # 2 ^ 51))%Q using relation Qeq by ring.
      setoid_replace (Qnat t * (percentage c2 t - percentage c1 t))%Q
        with (Qnat t * percentage c2 t - Qnat t * percentage c1 t)%Q using relation Qeq by ring.
      rewrite !Hm. change (1 # 2 ^ 51)%Q with (1 # 2251799813685248)%Q. lra.
  Qed.

(** Hence the float order of two percentages of one total is the exact
    order. *)
Lemma percentage_float_order (c1 c2 t : nat) :
    (c1 ≤ t)%nat → (c2 ≤ t)%nat → (Z.of_nat t < 2 ^ 50)%Z →
    F64_ge_b (py_percentage (percentage c1 t)) (py_percentage (percentage c2 t)) =
    Qge_b (percentage c1 t) (percentage c2 t).
  Proof.
    intros H1 H2 Ht. unfold F64_ge_b, Qge_b.
    destruct (Nat.lt_trichotomy c1 c2) as [Hlt|[->|Hgt]].
    - pose proof (percentage_float_lt c1 c2 t Hlt H2 Ht).
      assert (¬ (percentage c2 t <= percentage c1 t)%Q) by (rewrite percentage_le_iff; lia).
      destruct (Qle_bool _ _) eqn:E1; [apply Qle_bool_iff in E1; lra|].
      destruct (Qle_bool (percentage c2 t) _) eqn:E2; [apply Qle_bool_iff in E2; done|done].
    - by rewrite !(proj2 (Qle_bool_iff _ _) (Qle_refl _)).
    - pose proof (percentage_float_lt c2 c1 t Hgt H1 Ht).
      rewrite (proj2 (Qle_bool_iff _ _)) by lra.
      rewrite (proj2 (Qle_bool_iff _ _)); [done|]. apply percentage_le_iff; lia.
  Qed.

Section FloatBreakdownTheory.
  Context `{SA : SortAlg}.

Lemma aggregated_float_unfold {T} (rs : list (RowT T)) prefix :
    calculate_aggregated_float rs prefix =
      let xs := matched_answers rs prefix in
      if Nat.eqb (length xs) 0 then []
      else sort_with (key_le snd F64_ge_b)
             (map (λ ap, (ap.1, py_percentage ap.2)) (percentages_of (value_counts xs) (length xs))).
  Proof.
    unfold calculate_aggregated_float, matched_answers, percentages_of.
    destruct (List.filter (startswith prefix) rs) as [|r t] eqn:Hf; [done|].
    rewrite value_counts_total, map_map. cbv zeta.
    destruct (Nat.eqb _ 0); [done|]. f_equal. apply map_ext. by intros [a c].
  Qed.

  (** C8: With a stable sort and fewer than [2^50] matched answers, the
      breakdown Python computes with floats (the percentages rounded to
      binary64 and [sort_values] ordering the floats) is the exact
      breakdown with each percentage rounded: the exact-rational model
      orders the rows as the script does. *)
Theorem aggregated_float_refines `{!StableSortAlg SA} {T} (rs : list (RowT T)) prefix :
    (Z.of_nat (length (matched_answers rs prefix)) < 2 ^ 50)%Z →
    calculate_aggregated_float rs prefix =
      map (λ ap, (ap.1, py_percentage ap.2)) (calculate_aggregated_answer_percentages rs prefix).
  Proof.
    intros Hn. rewrite aggregated_float_unfold, aggregated_unfold. cbv zeta.
    destruct (Nat.eqb _ 0); [done|].
    apply (stable_sort_map (key_le snd Qge_b) (key_le snd F64_ge_b)); [typeclasses eauto..|]. unfold percentages_of.
    intros x y Hx Hy.
    apply in_map_iff in Hx as ([a c] & <- & Ha). apply in_map_iff in Hy as ([b d] & <- & Hb).
    apply value_counts_In in Ha as [_ ->]. apply value_counts_In in Hb as [_ ->]. unfold key_le. simpl.
    apply percentage_float_order; [apply count_if_le|apply count_if_le|done].
  Qed.
End FloatBreakdownTheory.

(** [String.leb] is antisymmetric. *)
Lemma string_leb_antisym (a b : string) : String.leb a b = true → String.leb b a = true → a = b.
  Proof.
    unfold String.leb. intros H1 H2.
    destruct (String.compare a b) eqn:E; [by apply String.compare_eq_iff| |done].
    rewrite String.compare_antisym, E in H2. discriminate.
  Qed.

(** The per-user breakdown as geneteprocess.py computes it: float
    percentages sorted by user, then by decreasing float value. *)
Definition user_pct_le_float : string * string * F64 → string * string * F64 → bool :=
  key_le (λ '(u, _, p), (u, p)) (lex_le String.leb F64_ge_b).

#[export] Instance user_pct_le_float_total : TotalPreB user_pct_le_float := key_le_total _ _.

Section FloatPerUser.
  Context `{SA : SortAlg}.

  (** Lines 25-50 with float percentages. *)
Definition drought_percentages_float {T} (rs : list (RowT T)) : list (string * string * F64) :=
    let answer_counts := groupby_size (user_answer_keys (List.filter (startswith "Now,") rs)) in
    let merged := map (λ '((u, a), c), (u, a, py_percentage (percentage c (total_answers_of answer_counts u))))
                      answer_counts in
    sort_with user_pct_le_float merged.

  (** With a stable sort and fewer than [2^50] keyed answers, the
      per-user breakdown computed with floats is the exact one with its
      percentages rounded. *)
Theorem drought_float_refines `{!StableSortAlg SA} {T} (rs : list (RowT T)) :
    let ks := user_answer_keys (List.filter (startswith "Now,") rs) in
    (Z.of_nat (length ks) < 2 ^ 50)%Z →
    drought_percentages_float rs = map (λ '(u, a, p), (u, a, py_percentage p)) (drought_percentages rs).
  Proof.
    intros ks Hn. unfold drought_percentages_float, drought_percentages. fold ks.
    set (counts := groupby_size ks).
    assert (E : map (λ '((u, a), c), (u, a, py_percentage (percentage c (total_answers_of counts u)))) counts =
                map (λ '(u, a, p), (u, a, py_percentage p))
                    (map (λ '((u, a), c), (u, a, percentage c (total_answers_of counts u))) counts))
      by (rewrite map_map; apply map_ext; by intros [[u a] c]).
    rewrite E. unfold counts.
    apply (stable_sort_map user_pct_le user_pct_le_float); [typeclasses eauto..|].
    intros x y Hx Hy.
    apply in_map_iff in Hx as ([[u1 a1] c1] & <- & H1). apply in_map_iff in Hy as ([[u2 a2] c2] & <- & H2).
    unfold groupby_size in H1, H2.
    apply in_map_iff in H1 as ([v1 b1] & [= <- <- <-] & _). apply in_map_iff in H2 as ([v2 b2] & [= <- <- <-] & _).
    rewrite !total_answers_of_groupby.
    assert (Hle : ∀ u a, count_if (λ k', bool_decide (k' = (u, a))) ks ≤ length (List.filter (of_user u) ks)).
    { intros u a. rewrite count_pair_of_user. unfold count_of. rewrite count_if_le.
      by rewrite length_map. }
    assert (Hlt : ∀ u, (Z.of_nat (length (List.filter (of_user u) ks)) < 2 ^ 50)%Z).
    { intros u. pose proof (List.filter_length_le (of_user u) ks). lia. }
    unfold user_pct_le, user_pct_le_float, key_le, lex_le. simpl.
    destruct (String.leb v1 v2) eqn:E12, (String.leb v2 v1) eqn:E21; simpl; try done.
    pose proof (string_leb_antisym _ _ E12 E21) as ->.
    apply percentage_float_order; [apply Hle|apply Hle|apply Hlt].
  Qed.
End FloatPerUser.

(** ** Concrete runs *)

(** User h1 answers A twice and B once, user h2 answers B; one row of h1
    has no answer, one row is about another question. *)
Definition survey_rows : list Row :=
  [mkRow NaN (Some "h1") (Some "s1") (Some "Now, drought?") NaN (Some "A") NaN;
   mkRow NaN (Some "h1") (Some "s1") (Some "Now, flood?") NaN (Some "B") NaN;
   mkRow NaN (Some "h1") (Some "s2") (Some "Now, drought?") NaN (Some "A") NaN;
   mkRow NaN (Some "h1") (Some "s2") (Some "Now, heat?") NaN NaN NaN;
   mkRow NaN (Some "h2") (Some "s3") (Some "Now, drought?") NaN (Some "B") NaN;
   mkRow NaN (Some "h2") (Some "s3") (Some "First year?") NaN (Some "2009") NaN].

Example drought_percentages_run :
  map (λ '(u, a, p), (u, a, Qred p)) (@drought_percentages insertion_sort_alg _ survey_rows) =
    [("h1", "A", Qred (200 # 3)); ("h1", "B", Qred (100 # 3)); ("h2", "B", 100%Q)].
Proof. vm_compute. reflexivity. Qed.

Lemma aggregated_float_sum_witness :
  @calculate_aggregated_answer_percentages insertion_sort_alg _ survey_rows "Now," ≠ [] ∧
  (Qabs (Qsum (map (λ ap, F64_val (py_percentage ap.2))
     (@calculate_aggregated_answer_percentages insertion_sort_alg _ survey_rows "Now,")) - 100)
     <= 100 * (1 # 2 ^ 51))%Q.
Proof.
  assert (H : @calculate_aggregated_answer_percentages insertion_sort_alg _ survey_rows "Now," ≠ [])
    by (vm_compute; discriminate).
  split; [exact H|exact (aggregated_float_sum _ _ H)].
Defined.

Lemma drought_user_sum_100_witness :
  (Qsum (map snd (user_rows "h1" (@drought_percentages insertion_sort_alg _ survey_rows))) == 100)%Q.
Proof. apply drought_user_sum_100. vm_compute. discriminate. Defined.

Lemma aggregated_value_counts_order_witness :
  @calculate_aggregated_answer_percentages insertion_sort_alg _ survey_rows "Now," =
    (let xs := matched_answers survey_rows "Now," in
     if Nat.eqb (length xs) 0 then [] else percentages_of (@value_counts insertion_sort_alg xs) (length xs)).
Proof. apply (@aggregated_value_counts_order insertion_sort_alg _). Defined.

Lemma aggregated_float_refines_witness :
  (Z.of_nat (length (matched_answers survey_rows "Now,")) < 2 ^ 50)%Z ∧
  @calculate_aggregated_float insertion_sort_alg _ survey_rows "Now," =
    map (λ ap, (ap.1, py_percentage ap.2))
      (@calculate_aggregated_answer_percentages insertion_sort_alg _ survey_rows "Now,").
Proof.
  assert (H : (Z.of_nat (length (matched_answers survey_rows "Now,")) < 2 ^ 50)%Z) by (vm_compute; reflexivity).
  split; [exact H|exact (aggregated_float_refines survey_rows "Now," H)].
Defined.
