(* ===== verification/Conditional.v ===== *)
(** * Conditional: genetedatefilterprocess.py, [process_and_output_percentages]

    Lines 41-144: read the export, drop rows whose [created_at] does not
    parse, keep the rows on or after [--start-date], then print three
    sections: the breakdown of the "Now," questions, the share of "2009"
    among the answers to "First" questions, and the breakdown of the
    "Now," questions restricted to the sessions that answered "2009" to a
    "First" question.  Output is modelled as the list of lines written. *)
From S2P Require Import Prelude SortValues DataFrame Datetime Breakdown.

(** A line of standard output: a message (the trailing newline of each
    [sys.stdout.write] is implicit), a CSV table written by [to_csv], or
    the formatted percentage of line 109. *)
Inductive Line :=
  | Text (s : string)
  | Table (t : list (string * Q))
  | Pct2009 (p : Q).

Section Sets.
  Context {T : Type}.
  Implicit Types (rs : list (RowT T)).

  (** Lines 99 and 119: the rows of the questions starting with "First". *)
Definition first_questions rs : list (RowT T) := List.filter (startswith "First") rs.

Definition answered_2009 (r : RowT T) : bool := bool_decide (answer r = Some "2009").

  (** Line 120: [first_questions_df[... == "2009"]['session_id'].unique()];
      a NaN session is one of the values. *)
Definition sessions_with_2009 rs : list Cell :=
    pd_unique (map session_id (List.filter answered_2009 (first_questions rs))).

  (** Line 127: [df[df['session_id'].isin(sessions)]] ([isin] matches NaN with NaN). *)
Definition filter_sessions (sessions : list Cell) rs : list (RowT T) :=
    List.filter (λ r, bool_decide (session_id r ∈ sessions)) rs.

  (** Lines 104-108. *)
Definition percentage_2009 rs : Q :=
    percentage (count_if answered_2009 (first_questions rs)) (length (first_questions rs)).
End Sets.

Definition hdr_now : string :=
  "--- Overall Percentage of Answers for Questions Starting with 'Now,' (All Data) ---".
Definition msg_no_now : string :=
  "No questions starting with 'Now,' found in the full dataset (after date filter if applied).".
Definition hdr_2009 : string :=
  "--- Overall Percentage of '2009' Answers for Questions Starting with 'First' ---".
Definition msg_no_first : string :=
  "No questions starting with 'First' found in the dataset (after date filter if applied).".
Definition msg_no_first_answers : string := "No answers found for questions starting with 'First'.".
Definition hdr_cond : string :=
  "--- Overall Percentage of Answers for Questions Starting with 'Now,' (Filtered by 'First' = '2009') ---".
Definition msg_no_sessions : string :=
  "No sessions found where answer to a 'First' question was '2009'.".
Definition msg_therefore : string :=
  "Therefore, no filtered percentages for 'Now,' questions can be calculated.".
Definition msg_no_now_filtered : string :=
  "No questions starting with 'Now,' found in the filtered dataset (after date filter if applied).".

Section Sections.
  Context `{SA : SortAlg} {T : Type}.
  Implicit Types (rs : list (RowT T)).

  (** Lines 88-94. *)
Definition section_now rs : list Line :=
    Text hdr_now ::
      match calculate_aggregated_answer_percentages rs "Now," with
      | [] => [Text msg_no_now]
      | t => [Table t]
      end ++ [Text ""].

  (** Lines 98-112. *)
Definition section_2009 rs : list Line :=
    Text hdr_2009 ::
      match first_questions rs with
      | [] => [Text msg_no_first]
      | fq => if Nat.ltb 0 (length fq) then [Pct2009 (percentage_2009 rs)] else [Text msg_no_first_answers]
      end ++ [Text ""].

  (** Lines 116-136. *)
Definition section_conditional rs : list Line :=
    Text hdr_cond ::
      match sessions_with_2009 rs with
      | [] => [Text msg_no_sessions; Text msg_therefore]
      | sessions =>
          match calculate_aggregated_answer_percentages (filter_sessions sessions rs) "Now," with
          | [] => [Text msg_no_now_filtered]
          | t => [Table t]
          end
      end ++ [Text ""].
End Sections.

Definition required_cols_datefilter : list string :=
  ["hashed_user_id"; "question"; "answer"; "session_id"; "created_at"].

(** Line 68: [pd.to_datetime(df['created_at'], errors='coerce')] has a
    tz-aware dtype when the cells carry an offset.  The cells are taken to
    agree on it: the column is aware when a parsed cell carries one. *)
Definition column_aware `{DatetimeParser} (cells : list Cell) : bool :=
  existsb (λ c, match c with
                | Some s => bool_decide (parse_datetime s ≠ None) && has_offset s
                | None => false
                end) cells.

(** Line 78: comparing a tz-aware column with a naive timestamp, or the
    reverse, raises [TypeError]. *)
Definition invalid_comparison (aware : bool) : Fail :=
  TypeError ("Invalid comparison between dtype=" +:+
             (if aware then "datetime64[ns, UTC]" else "datetime64[ns]") +:+ " and Timestamp").

(** Lines 73-84: the optional start date.  [inl] is the early return with
    its message, [inr] the rows kept; [aware] is the kind of the parsed
    column.  Only the [ValueError] of an unparsable date is caught here. *)
Definition apply_start_date `{DatetimeParser} (start_date : option string) (aware : bool)
    (df : list (RowT Z)) : Result (list Line + list (RowT Z)) :=
  match start_date with
  | Some s =>
      if String.eqb s "" then Ok (inr df)
      else match parse_datetime s with
           | None => Err (DateParseError s)
           | Some t =>
               if negb (Bool.eqb (has_offset s) aware) then Err (invalid_comparison aware)
               else match List.filter (λ r, Z.leb t (created_at r)) df with
                    | [] => Ok (inl [Text (String.append "No data found on or after "
                                            (String.append s " after filtering."))])
                    | d => Ok (inr d)
                    end
           end
  | None => Ok (inr df)
  end.

(** [process_and_output_percentages] (lines 41-144); [None] is an empty
    input stream. *)
Definition process_and_output_percentages `{SortAlg} `{DatetimeParser}
    (start_date : option string) (input : option (Frame Cell)) : Result (list Line) :=
  match input with
  | None => Err EmptyDataError
  | Some f =>
      let* _ := check_required required_cols_datefilter f in
      let df := to_datetime_coerce_dropna (rows f) in
      let* d := apply_start_date start_date (column_aware (map created_at (rows f))) df in
      match d with
      | inl msg => Ok msg
      | inr d => Ok (section_now d ++ section_2009 d ++ section_conditional d)
      end
  end.

(** ** The condition set *)
Section ConditionTheory.
  Context {T : Type}.
  Implicit Types (rs : list (RowT T)).

Lemma sessions_with_2009_spec rs s :
    In s (sessions_with_2009 rs) ↔
      ∃ r, In r rs ∧ startswith "First" r = true ∧ answer r = Some "2009" ∧ session_id r = s.
  Proof.
    unfold sessions_with_2009. rewrite In_pd_unique, in_map_iff. split.
    - intros (r & <- & Hr). apply filter_In in Hr as [Hr H2009]. apply filter_In in Hr as [Hr Hf].
      apply bool_decide_eq_true in H2009. by exists r.
    - intros (r & Hr & Hf & H2009 & <-). exists r. split; [done|].
      apply filter_In. split; [by apply filter_In|]. by apply bool_decide_eq_true.
  Qed.

  (** C10: The restricted rows are exactly the rows of a session in which a
      "First" question was answered "2009". *)
Theorem filter_sessions_2009_spec rs r :
    In r (filter_sessions (sessions_with_2009 rs) rs) ↔
      In r rs ∧ ∃ r', In r' rs ∧ startswith "First" r' = true ∧ answer r' = Some "2009" ∧
                      session_id r' = session_id r.
  Proof.
    unfold filter_sessions. rewrite filter_In, bool_decide_eq_true, list_elem_of_In.
    by rewrite sessions_with_2009_spec.
  Qed.

Lemma sessions_with_2009_nil rs :
    sessions_with_2009 rs = [] ↔
      ¬ ∃ r, In r rs ∧ startswith "First" r = true ∧ answer r = Some "2009".
  Proof.
    split.
    - intros Hnil (r & Hr & Hf & H2009).
      assert (In (session_id r) (sessions_with_2009 rs)) as Hin by (apply sessions_with_2009_spec; eauto).
      by rewrite Hnil in Hin.
    - intros Hn. destruct (sessions_with_2009 rs) as [|s ss] eqn:Hs; [done|].
      exfalso. apply Hn. assert (In s (sessions_with_2009 rs)) as Hin by (rewrite Hs; by left).
      apply sessions_with_2009_spec in Hin as (r & ? & ? & ? & _). eauto.
  Qed.
End ConditionTheory.

Section SectionTheory.
  Context `{SA : SortAlg} {T : Type}.
  Implicit Types (rs : list (RowT T)).

  (** The third section reports that no session qualifies exactly when
      no row answers a "First" question with "2009". *)
Theorem section_conditional_no_sessions rs :
    section_conditional rs = [Text hdr_cond; Text msg_no_sessions; Text msg_therefore; Text ""] ↔
      ¬ ∃ r, In r rs ∧ startswith "First" r = true ∧ answer r = Some "2009".
  Proof.
    rewrite <- sessions_with_2009_nil. unfold section_conditional.
    destruct (sessions_with_2009 rs) as [|s ss]; [done|]. split; [|done].
    destruct calculate_aggregated_answer_percentages; simpl; intros H; simplify_eq.
  Qed.

  (** A table in the third section is the "Now," breakdown of the rows
      of the qualifying sessions, and it is never empty. *)
Theorem section_conditional_table rs t :
    In (Table t) (section_conditional rs) →
    t = calculate_aggregated_answer_percentages (filter_sessions (sessions_with_2009 rs) rs) "Now," ∧
    t ≠ [].
  Proof.
    unfold section_conditional. destruct (sessions_with_2009 rs) as [|s ss].
    - simpl. intuition discriminate.
    - destruct calculate_aggregated_answer_percentages as [|p ps] eqn:Ha; simpl;
        intros [H|[H|[H|H]]]; simplify_eq; done.
  Qed.

Lemma section_now_table rs t :
    In (Table t) (section_now rs) → t = calculate_aggregated_answer_percentages rs "Now," ∧ t ≠ [].
  Proof.
    unfold section_now. destruct calculate_aggregated_answer_percentages as [|p ps];
      simpl; intros [H|[H|[H|H]]]; simplify_eq; done.
  Qed.

Lemma section_2009_no_table rs t : ¬ In (Table t) (section_2009 rs).
  Proof.
    unfold section_2009. intros H. destruct (first_questions rs) as [|r fq]; simpl in H;
      [|destruct (Nat.ltb 0 (S (length fq))); simpl in H];
      repeat (destruct H as [H|H]; [discriminate|]); done.
  Qed.

Lemma sections_tables_nonempty rs t :
    In (Table t) (section_now rs ++ section_2009 rs ++ section_conditional rs) → t ≠ [].
  Proof.
    intros Hin. apply in_app_or in Hin as [Hin|Hin]; [by apply section_now_table in Hin as [_ ?]|].
    apply in_app_or in Hin as [Hin|Hin]; [by apply section_2009_no_table in Hin|].
    by apply section_conditional_table in Hin as [_ ?].
  Qed.

  (** The "2009" share is the count of "2009" answers among the "First"
      rows, over their number, times 100, and lies in [0, 100]. *)
Theorem section_2009_pct rs p :
    In (Pct2009 p) (section_2009 rs) →
    p = percentage (count_if answered_2009 (first_questions rs)) (length (first_questions rs)) ∧
    (0 <= p <= 100)%Q.
  Proof.
    unfold section_2009. destruct (first_questions rs) as [|r fq] eqn:Hf; simpl;
      intros H; repeat (destruct H as [H|H]; [try discriminate|]); try done.
    injection H as <-. unfold percentage_2009. rewrite Hf.
    split; [done|]. apply percentage_bounds; [apply count_if_le|simpl; lia].
  Qed.
End SectionTheory.

(** ** The whole run *)
Section Process.
  Context `{SA : SortAlg} `{DP : DatetimeParser}.

  (** Every table the script prints is non-empty: an empty population
      is reported by a message, never by an empty table. *)
Theorem process_tables_nonempty sd input out t :
    process_and_output_percentages sd input = Ok out → In (Table t) out → t ≠ [].
  Proof.
    intros Hrun Hin. unfold process_and_output_percentages in Hrun.
    destruct input as [f|]; [|discriminate]. destruct check_required as [[]|]; [|discriminate].
    destruct apply_start_date as [[msg|d]|] eqn:Hsd; try discriminate; injection Hrun as <-.
    - unfold apply_start_date in Hsd.
      destruct sd as [s|]; [|discriminate]. destruct String.eqb; [discriminate|].
      destruct parse_datetime; [|discriminate]. destruct (negb _); [discriminate|].
      destruct List.filter; [|discriminate].
      injection Hsd as <-. destruct Hin as [H|[]]. discriminate.
    - exact (sections_tables_nonempty d t Hin).
  Qed.

  (** The start date fails when it does not parse, or when its kind
      (naive or with an offset) differs from the column's. *)
Lemma apply_start_date_Err sd aware df e :
    apply_start_date sd aware df = Err e ↔
      ∃ s, sd = Some s ∧ s ≠ "" ∧
        ((parse_datetime s = None ∧ e = DateParseError s) ∨
         (∃ t, parse_datetime s = Some t ∧ has_offset s ≠ aware ∧ e = invalid_comparison aware)).
  Proof.
    unfold apply_start_date. destruct sd as [s|]; [|naive_solver].
    destruct (String.eqb_spec s ""); [naive_solver|].
    destruct (parse_datetime s) eqn:Hp; [|naive_solver].
    destruct (Bool.eqb_spec (has_offset s) aware) as [Ho|Ho]; simpl.
    - split; [by destruct List.filter|]. intros (s0 & [= <-] & _ & [[Hn _]|(t & _ & Hne & _)]); congruence.
    - split; [intros [= <-]; eauto 10|]. intros (s0 & [= <-] & _ & [[Hn _]|(t & _ & _ & ->)]); congruence.
  Qed.

  (** The start date is accepted when absent or empty, or when it parses
      and has the column's kind. *)
Definition start_date_ok (start_date : option string) (aware : bool) : Prop :=
    match start_date with
    | Some s => s = "" ∨ ∃ t, parse_datetime s = Some t ∧ has_offset s = aware
    | None => True
    end.

Lemma apply_start_date_ok sd aware df :
    (∃ x, apply_start_date sd aware df = Ok x) ↔ start_date_ok sd aware.
  Proof.
    unfold apply_start_date, start_date_ok. destruct sd as [s|]; [|naive_solver].
    destruct (String.eqb_spec s ""); [naive_solver|].
    destruct (parse_datetime s) eqn:Hp; [|naive_solver].
    destruct (Bool.eqb_spec (has_offset s) aware); simpl; [destruct List.filter|]; naive_solver.
  Qed.

  (** The run succeeds exactly when the columns are there and the start
      date is accepted. *)
Lemma process_Ok_iff sd f :
    (∃ out, process_and_output_percentages sd (Some f) = Ok out) ↔
    missing_columns required_cols_datefilter (columns f) = [] ∧
    start_date_ok sd (column_aware (map created_at (rows f))).
  Proof.
    unfold process_and_output_percentages, check_required.
    destruct (missing_columns _ (columns f)); [|naive_solver].
    rewrite <- (apply_start_date_ok _ _ (to_datetime_coerce_dropna (rows f))).
    destruct apply_start_date as [[]|]; simpl; naive_solver.
  Qed.

  (** C11: The script fails exactly on an empty input, on missing columns
      (naming them), on a start date that does not parse, and on a start
      date whose kind (naive or with an offset) differs from the parsed
      column's: pandas' [TypeError], which the inner [except ValueError]
      does not catch. *)
Theorem process_error_iff sd input e :
    process_and_output_percentages sd input = Err e ↔
      (input = None ∧ e = EmptyDataError) ∨
      (∃ f, input = Some f ∧ missing_columns required_cols_datefilter (columns f) ≠ [] ∧
            e = MissingColumns (missing_columns required_cols_datefilter (columns f))) ∨
      (∃ f s, input = Some f ∧ missing_columns required_cols_datefilter (columns f) = [] ∧
            sd = Some s ∧ s ≠ "" ∧
            ((parse_datetime s = None ∧ e = DateParseError s) ∨
             (∃ t, parse_datetime s = Some t ∧ has_offset s ≠ column_aware (map created_at (rows f)) ∧
                   e = invalid_comparison (column_aware (map created_at (rows f)))))).
  Proof.
    unfold process_and_output_percentages, check_required.
    destruct input as [f|]; [|naive_solver].
    destruct (missing_columns required_cols_datefilter (columns f)) as [|m ms] eqn:Hm.
    - transitivity (apply_start_date sd (column_aware (map created_at (rows f)))
                      (to_datetime_coerce_dropna (rows f)) = Err e);
        [destruct apply_start_date as [[]|]; [split; discriminate..|split; by intros [= ->]]|].
      rewrite apply_start_date_Err. split; [intros (s & ? & ? & ?); right; right; exists f, s; naive_solver|].
      intros [[? _]|[(f' & [= <-] & Hm' & _)|(f' & s & [= <-] & _ & ? & ? & ?)]]; [done|by rewrite Hm in Hm'|eauto].
    - split; [intros [= <-]; right; left; exists f; by rewrite Hm|].
      intros [[? _]|[(f' & [= <-] & _ & ->)|(f' & ? & [= <-] & Hm' & _)]]; [done|by rewrite Hm|by rewrite Hm in Hm'].
  Qed.

  (** With a start date that parses to [t], the three sections are
      computed over exactly the rows at or after [t]; when there are none
      the run prints one message and stops. *)
Theorem process_start_date sd f s t out :
    sd = Some s → s ≠ "" → parse_datetime s = Some t →
    has_offset s = column_aware (map created_at (rows f)) →
    process_and_output_percentages sd (Some f) = Ok out →
    let d := List.filter (λ r, Z.leb t (created_at r)) (to_datetime_coerce_dropna (rows f)) in
    (d = [] ∧ out = [Text (String.append "No data found on or after " (String.append s " after filtering."))]) ∨
    (d ≠ [] ∧ out = section_now d ++ section_2009 d ++ section_conditional d).
  Proof.
    intros -> Hs Hp Ha. unfold process_and_output_percentages.
    destruct check_required as [[]|]; [|discriminate]. unfold apply_start_date.
    destruct (String.eqb_spec s "") as [->|_]; [done|]. rewrite Hp, Ha, eqb_reflx. simpl.
    destruct List.filter as [|r d]; intros [= <-]; [by left|by right].
  Qed.
End Process.

(** ** Concrete runs *)

Definition survey_frame : Frame Cell :=
  mkFrame required_cols_datefilter
    [mkRow NaN (Some "h1") (Some "s1") (Some "Now, drought?") NaN (Some "A") (Some "2026-01-05 10:00:00");
     mkRow NaN (Some "h1") (Some "s1") (Some "First year?") NaN (Some "2010") (Some "2026-01-05 10:01:00");
     mkRow NaN (Some "h2") (Some "s2") (Some "Now, drought?") NaN (Some "B") (Some "2026-01-06 09:00:00");
     mkRow NaN (Some "h2") (Some "s2") (Some "First year?") NaN (Some "2009") (Some "2026-01-06 09:01:00");
     mkRow NaN (Some "h2") (Some "s2") (Some "Now, flood?") NaN (Some "A") (Some "not a date")].

(** The last row does not parse and is dropped; session s2 answered
    "2009", so the third section counts only its "Now," answer B. *)
Example survey_frame_run :
  match @process_and_output_percentages insertion_sort_alg iso_parser None (Some survey_frame) with
  | Ok out => map (λ l, match l with Table t => Table (map (λ '(a, p), (a, Qred p)) t)
                                    | Pct2009 p => Pct2009 (Qred p) | l => l end) out
  | Err _ => []
  end =
  [Text hdr_now; Table [("A", 50%Q); ("B", 50%Q)]; Text "";
   Text hdr_2009; Pct2009 50%Q; Text "";
   Text hdr_cond; Table [("B", 100%Q)]; Text ""].
Proof. vm_compute. reflexivity. Qed.

Definition late_frame : Frame Cell :=
  mkFrame required_cols_datefilter
    [mkRow NaN (Some "h1") (Some "s1") (Some "Now, drought?") NaN (Some "A") (Some "2026-01-01T23:59:59Z")].

(** With an offset-carrying start date the comparison is between two
    tz-aware instants: midnight of 2 January excludes a row of
    2026-01-01T23:59:59Z and the run prints its single message. *)
Lemma process_start_date_witness :
  let d := List.filter (λ r, Z.leb 1767312000 (created_at r)) (to_datetime_coerce_dropna (rows late_frame)) in
  (d = [] ∧ [Text "No data found on or after 2026-01-02T00:00:00Z after filtering."] =
            [Text (String.append "No data found on or after "
                     (String.append "2026-01-02T00:00:00Z" " after filtering."))]) ∨
  (d ≠ [] ∧ [Text "No data found on or after 2026-01-02T00:00:00Z after filtering."] =
            section_now d ++ section_2009 d ++ section_conditional d).
Proof.
  apply (@process_start_date insertion_sort_alg iso_parser (Some "2026-01-02T00:00:00Z") late_frame
           "2026-01-02T00:00:00Z");
    [reflexivity|discriminate|reflexivity|reflexivity|vm_compute; reflexivity].
Defined.

Definition survey_parsed : list (RowT Z) := to_datetime_coerce_dropna (rows survey_frame).

Definition survey_cond_table : list (string * Q) :=
  @calculate_aggregated_answer_percentages insertion_sort_alg _
    (filter_sessions (sessions_with_2009 survey_parsed) survey_parsed) "Now,".

Lemma section_conditional_table_witness :
  survey_cond_table =
    @calculate_aggregated_answer_percentages insertion_sort_alg _
      (filter_sessions (sessions_with_2009 survey_parsed) survey_parsed) "Now," ∧
  survey_cond_table ≠ [].
Proof.
  apply (@section_conditional_table insertion_sort_alg _ survey_parsed survey_cond_table).
  vm_compute. auto 10.
Defined.

Lemma section_2009_pct_witness :
  percentage_2009 survey_parsed =
    percentage (count_if answered_2009 (first_questions survey_parsed)) (length (first_questions survey_parsed)) ∧
  (0 <= percentage_2009 survey_parsed <= 100)%Q.
Proof.
  apply (section_2009_pct survey_parsed). vm_compute. auto 10.
Defined.

Lemma process_tables_nonempty_witness :
  [("B", percentage 1 1)] ≠ [].
Proof.
  apply (@process_tables_nonempty insertion_sort_alg iso_parser None (Some survey_frame)
           [Text hdr_now; Table [("A", percentage 1 2); ("B", percentage 1 2)]; Text "";
            Text hdr_2009; Pct2009 (percentage 1 2); Text "";
            Text hdr_cond; Table [("B", percentage 1 1)]; Text ""]).
  - vm_compute. reflexivity.
  - simpl. auto 10.
Defined.
