(* ===== verification/Evacuate.v ===== *)
(** * Evacuate: [process_data] of the two evacuation scripts

    processEvacuate.py, lines 12-46: load, parse [created_at] as UTC,
    keep today's rows (UTC calendar day), the rows at or after [--start]
    and at or before [--end], return [None] on an empty window, then
    normalise the answers and merge the latest player types with the
    latest evacuation choices.  firstworkingprocessEvacuate.py, lines
    7-34: the first version, with only a [--today] filter that compares
    the rows' dates with the local calendar day.  Column accesses raise
    [KeyError] in the order the code makes them. *)
From S2P Require Import Prelude SortValues DataFrame Datetime Latest Conditional.

(** The wall clock the scripts read: the current instant and the offset
    of local time from UTC, in seconds. *)
Record Clock := mkClock { now_utc : Z; local_offset : Z }.

(** [Timestamp.date()] of an instant, in days since the epoch (UTC). *)
Definition utc_day (t : Z) : Z := t / 86400.

(** [datetime.now(datetime.timezone.utc).date()] (processEvacuate.py, line 18). *)
Definition today_utc (c : Clock) : Z := utc_day (now_utc c).

(** [datetime.datetime.now().date()] (firstworkingprocessEvacuate.py, line 15). *)
Definition today_local (c : Clock) : Z := utc_day (now_utc c + local_offset c).

(** [df[df['created_at'].dt.date == today]]: NaT has no date. *)
Definition on_day (day : Z) (r : TRow) : bool :=
  match created_at r with Some t => Z.eqb (utc_day t) day | None => false end.

(** [df[df['created_at'] >= start_ts]] and [df[df['created_at'] <= end_ts]]:
    comparisons with NaT are false. *)
Definition at_or_after (s : Z) (r : TRow) : bool :=
  match created_at r with Some t => Z.leb s t | None => false end.

Definition at_or_before (e : Z) (r : TRow) : bool :=
  match created_at r with Some t => Z.leb t e | None => false end.

(** Python truthiness of an optional argument: [None] and "" are false. *)
Definition truthy (o : option string) : option string :=
  match o with Some s => if String.eqb s "" then None else Some s | None => None end.

Section ProcessData.
  Context `{SA : SortAlg} `{DP : DatetimeParser}.

  (** Lines 21-27: an optional bound, parsed with [pd.to_datetime]. *)
Definition bound_filter (arg : option string) (keep : Z → TRow → bool) (df : list TRow)
      : Result (list TRow) :=
    match truthy arg with
    | None => Ok df
    | Some s => match parse_datetime s with
                | None => Err (DateParseError s)
                | Some t => Ok (List.filter (keep t) df)
                end
    end.

  (** Lines 33-46 (and 21-34 of the first version): normalise, extract,
      merge; [answer], [step_name] and [user_id] are read in this order. *)
Definition extract_and_merge (f : Frame Cell) (df : list TRow) : Result (list Merged) :=
    let* _ := get_col "answer" f in
    let df := replace_answers df in
    let* _ := get_col "step_name" f in
    let* _ := get_col "user_id" f in
    Ok (merge_latest df).

  (** [process_data] of processEvacuate.py (lines 12-46). *)
Definition process_data (c : Clock) (only_today : bool) (start_time end_time : option string)
      (f : Frame Cell) : Result (option (list Merged)) :=
    let* _ := get_col "created_at" f in
    let* df := to_datetime_raise (rows f) in
    let df := if only_today then List.filter (on_day (today_utc c)) df else df in
    let* df := bound_filter start_time at_or_after df in
    let* df := bound_filter end_time at_or_before df in
    match df with
    | [] => Ok None
    | _ => let* m := extract_and_merge f df in Ok (Some m)
    end.

  (** [process_data] of firstworkingprocessEvacuate.py (lines 7-34). *)
Definition process_data_first (c : Clock) (only_today : bool) (f : Frame Cell)
      : Result (option (list Merged)) :=
    let* _ := get_col "created_at" f in
    let* df := to_datetime_raise (rows f) in
    if only_today then
      match List.filter (on_day (today_local c)) df with
      | [] => Ok None
      | df' => let* m := extract_and_merge f df' in Ok (Some m)
      end
    else let* m := extract_and_merge f df in Ok (Some m).
End ProcessData.

(** ** The time window as one predicate *)

(** A bound as the code obtains it: absent, or parsed (lines 21-27). *)
Definition parse_bound `{DatetimeParser} (arg : option string) : Result (option Z) :=
  match truthy arg with
  | None => Ok None
  | Some s => match parse_datetime s with None => Err (DateParseError s) | Some t => Ok (Some t) end
  end.

(** The window a row must fall in: on the given day, at or after [lo],
    at or before [hi] (each constraint optional; bounds inclusive). *)
Definition in_window (day lo hi : option Z) (r : TRow) : bool :=
  match day with Some d => on_day d r | None => true end &&
  match lo with Some s => at_or_after s r | None => true end &&
  match hi with Some e => at_or_before e r | None => true end.

Definition bounded (o : option Z) (keep : Z → TRow → bool) (l : list TRow) : list TRow :=
  match o with Some t => List.filter (keep t) l | None => l end.

Lemma window_filters day lo hi (df : list TRow) :
  List.filter (in_window day lo hi) df =
    bounded hi at_or_before (bounded lo at_or_after
      (match day with Some d => List.filter (on_day d) df | None => df end)).
Proof.
  destruct day, lo, hi; simpl; rewrite ?filter_filter_andb;
    try (apply filter_true_id; intros; unfold in_window; done);
    apply List.filter_ext; intros r; unfold in_window; by rewrite ?andb_true_r, ?andb_true_l, ?andb_assoc.
Qed.

(** A row is in the window when its timestamp falls on the day and lies
    between the bounds, both included; a NaT row only when there is no
    constraint at all. *)
Lemma in_window_true day lo hi r :
  in_window day lo hi r = true ↔
    match created_at r with
    | Some t => (∀ d, day = Some d → utc_day t = d) ∧
                (∀ s, lo = Some s → (s ≤ t)%Z) ∧ (∀ e, hi = Some e → (t ≤ e)%Z)
    | None => day = None ∧ lo = None ∧ hi = None
    end.
Proof.
  unfold in_window, on_day, at_or_after, at_or_before.
  destruct (created_at r) as [t|]; destruct day, lo, hi; rewrite ?andb_true_iff, ?Z.eqb_eq, ?Z.leb_le; naive_solver.
Qed.

Section Window.
  Context `{SA : SortAlg} `{DP : DatetimeParser}.

  (** The three successive filters of [process_data] are one window
      filter, applied after both bounds parse. *)
Lemma process_data_window_core c only_today start_time end_time f :
    process_data c only_today start_time end_time f =
      let* _ := get_col "created_at" f in
      let* df := to_datetime_raise (rows f) in
      let* lo := parse_bound start_time in
      let* hi := parse_bound end_time in
      let w := List.filter (in_window (if only_today then Some (today_utc c) else None) lo hi) df in
      match w with
      | [] => Ok None
      | _ => let* m := extract_and_merge f w in Ok (Some m)
      end.
  Proof.
    unfold process_data, bound_filter, parse_bound.
    destruct (get_col "created_at" f) as [[]|]; [|done].
    destruct (to_datetime_raise (rows f)) as [df|]; [|done].
    destruct (truthy start_time) as [s|]; [destruct (parse_datetime s) as [lo|]; [|done]|];
    (destruct (truthy end_time) as [e|]; [destruct (parse_datetime e) as [hi|]; [|done]|]);
    destruct only_today; simpl; rewrite window_filters; reflexivity.
  Qed.

End Window.

Lemma parse_bound_Err `{DatetimeParser} arg e :
  parse_bound arg = Err e → ∃ s, e = DateParseError s ∧ parse_datetime s = None ∧ truthy arg = Some s.
Proof.
  unfold parse_bound. destruct (truthy arg) as [s|]; [|discriminate].
  destruct (parse_datetime s) eqn:Hp; [discriminate|]. intros [= <-]. eauto.
Qed.

Lemma extract_and_merge_Ok `{SortAlg} f w ms :
  extract_and_merge f w = Ok ms ↔
    ("answer" ∈ columns f ∧ "step_name" ∈ columns f ∧ "user_id" ∈ columns f) ∧
    ms = merge_latest (replace_answers w).
Proof.
  unfold extract_and_merge.
  destruct (get_col "answer" f) as [[]|] eqn:Ha; [|apply get_col_Err in Ha as [-> ?]; naive_solver].
  destruct (get_col "step_name" f) as [[]|] eqn:Hs; [|apply get_col_Err in Hs as [-> ?]; naive_solver].
  destruct (get_col "user_id" f) as [[]|] eqn:Hu; [|apply get_col_Err in Hu as [-> ?]; naive_solver].
  apply get_col_Ok in Ha, Hs, Hu. naive_solver.
Qed.

Lemma extract_and_merge_Err `{SortAlg} f w e :
  extract_and_merge f w = Err e →
  ∃ c, e = KeyError c ∧ c ∉ columns f ∧ (c = "answer" ∨ c = "step_name" ∨ c = "user_id").
Proof.
  unfold extract_and_merge.
  destruct (get_col "answer" f) as [[]|] eqn:Ha; [|intros [= <-]; apply get_col_Err in Ha; naive_solver].
  destruct (get_col "step_name" f) as [[]|] eqn:Hs; [|intros [= <-]; apply get_col_Err in Hs; naive_solver].
  destruct (get_col "user_id" f) as [[]|] eqn:Hu; [|intros [= <-]; apply get_col_Err in Hu; naive_solver].
  discriminate.
Qed.

Section ProcessDataTheory.
  Context `{SA : SortAlg} `{DP : DatetimeParser}.

  (** The statement of [process_data_Ok], shared by the lemmas that build on it. *)
Lemma process_data_Ok_core c only_today start_time end_time f res :
    process_data c only_today start_time end_time f = Ok res ↔
      "created_at" ∈ columns f ∧
      ∃ df lo hi, to_datetime_raise (rows f) = Ok df ∧ parse_bound start_time = Ok lo ∧
        parse_bound end_time = Ok hi ∧
        let w := List.filter (in_window (if only_today then Some (today_utc c) else None) lo hi) df in
        (w = [] ∧ res = None) ∨
        (w ≠ [] ∧ ("answer" ∈ columns f ∧ "step_name" ∈ columns f ∧ "user_id" ∈ columns f) ∧
         res = Some (merge_latest (replace_answers w))).
  Proof.
    rewrite process_data_window_core.
    destruct (get_col "created_at" f) as [[]|e] eqn:Hc;
      [apply get_col_Ok in Hc | apply get_col_Err in Hc as [-> Hn]; naive_solver].
    destruct (to_datetime_raise (rows f)) as [df|e]; [|naive_solver].
    destruct (parse_bound start_time) as [lo|e]; [|naive_solver].
    destruct (parse_bound end_time) as [hi|e]; [|naive_solver].
    simpl. destruct (List.filter _ df) as [|r w] eqn:Hw; [naive_solver|].
    destruct (extract_and_merge f (r :: w)) as [ms|e] eqn:He.
    - apply extract_and_merge_Ok in He as [Hcols ->]. split.
      + intros [= <-]. split; [done|]. exists df, lo, hi. split_and!; try done.
        simpl. rewrite Hw. right. done.
      + intros (_ & df' & lo' & hi' & [= <-] & [= <-] & [= <-] & H). simpl in H. rewrite Hw in H.
        destruct H as [[? _]|(_ & _ & ->)]; done.
    - apply extract_and_merge_Err in He as (col & -> & Hcol & Hwhich). split; [discriminate|].
      intros (_ & df' & lo' & hi' & [= <-] & [= <-] & [= <-] & H). simpl in H. rewrite Hw in H.
      destruct H as [[? _]|(_ & (? & ? & ?) & _)]; [done|].
      destruct Hwhich as [-> | [-> | ->]]; contradiction.
  Qed.

  (** C15: [process_data] succeeds exactly when [created_at] is a column, every
      timestamp and bound parses, and, for a non-empty window, the columns
      [answer], [step_name] and [user_id] exist; it then returns [None] on
      an empty window and otherwise the merged latest answers of the rows
      in the window, normalised. *)
Theorem process_data_Ok c only_today start_time end_time f res :
    process_data c only_today start_time end_time f = Ok res ↔
      "created_at" ∈ columns f ∧
      ∃ df lo hi, to_datetime_raise (rows f) = Ok df ∧ parse_bound start_time = Ok lo ∧
        parse_bound end_time = Ok hi ∧
        let w := List.filter (in_window (if only_today then Some (today_utc c) else None) lo hi) df in
        (w = [] ∧ res = None) ∨
        (w ≠ [] ∧ ("answer" ∈ columns f ∧ "step_name" ∈ columns f ∧ "user_id" ∈ columns f) ∧
         res = Some (merge_latest (replace_answers w))).
    Proof. apply process_data_Ok_core. Qed.

  (** C13: The rows [process_data] merges are exactly the rows of the file,
      in file order, whose timestamp lies on today's UTC date when
      [--today] is given, at or after [--start] and at or before [--end]
      (both bounds included); a row whose timestamp is NaT is kept only
      when no filter is given.  It returns [None] when no row is kept. *)
Theorem process_data_kept_rows c only_today start_time end_time f res :
    process_data c only_today start_time end_time f = Ok res →
    ∃ df lo hi w, to_datetime_raise (rows f) = Ok df ∧ parse_bound start_time = Ok lo ∧
      parse_bound end_time = Ok hi ∧ w `sublist_of` df ∧
      (∀ r, r ∈ df → r ∈ w ↔
         match created_at r with
         | Some t => (only_today = true → utc_day t = today_utc c) ∧
                     (∀ s, lo = Some s → (s ≤ t)%Z) ∧ (∀ e, hi = Some e → (t ≤ e)%Z)
         | None => only_today = false ∧ lo = None ∧ hi = None
         end) ∧
      (w = [] → res = None) ∧ (w ≠ [] → res = Some (merge_latest (replace_answers w))).
  Proof.
    intros (_ & df & lo & hi & Hdf & Hlo & Hhi & Hw)%process_data_Ok_core.
    set (w := List.filter _ df) in Hw.
    exists df, lo, hi, w. split_and!; try done; [apply filter_sublist| |naive_solver..].
    intros r Hr. rewrite !list_elem_of_In in Hr |- *. unfold w. rewrite List.filter_In, in_window_true.
    destruct only_today, (created_at r); naive_solver.
  Qed.


  (** Every error names its cause: an absent column, or a timestamp cell
      or bound argument that does not parse. *)
Theorem process_data_Err c only_today start_time end_time f e :
    process_data c only_today start_time end_time f = Err e →
    (∃ col, e = KeyError col ∧ col ∉ columns f) ∨
    (∃ s, e = DateParseError s ∧ parse_datetime s = None ∧
          (In (Some s) (map created_at (rows f)) ∨ truthy start_time = Some s ∨ truthy end_time = Some s)).
  Proof.
    rewrite process_data_window_core.
    destruct (get_col "created_at" f) as [[]|e'] eqn:Hc; [|apply get_col_Err in Hc; naive_solver].
    destruct (to_datetime_raise (rows f)) as [df|e'] eqn:Ht;
      [|intros [= <-]; apply to_datetime_raise_Err in Ht; naive_solver].
    destruct (parse_bound start_time) as [lo|e'] eqn:Hs;
      [|intros [= <-]; apply parse_bound_Err in Hs; naive_solver].
    destruct (parse_bound end_time) as [hi|e'] eqn:He;
      [|intros [= <-]; apply parse_bound_Err in He; naive_solver].
    simpl. destruct (List.filter _ df) as [|r w]; [discriminate|].
    destruct (extract_and_merge f (r :: w)) eqn:Hm; [discriminate|].
    intros [= <-]. apply extract_and_merge_Err in Hm. naive_solver.
  Qed.

  (** After normalisation no merged row reports the player type "Petowner". *)
Theorem process_data_no_petowner c only_today start_time end_time f ms m :
    process_data c only_today start_time end_time f = Ok (Some ms) → In m ms →
    player_type m ≠ Some "Petowner".
  Proof.
    intros Hp Hm. apply process_data_Ok_core in Hp as (_ & df & lo & hi & _ & _ & _ & [[_ ?]|(_ & _ & [= ->])]);
      [done|].
    apply merge_latest_correct_core in Hm as [(r & Hr & _ & _ & <- & _) _].
    by apply replace_answers_no_petowner in Hr.
  Qed.
End ProcessDataTheory.

(** ** Concrete runs *)

Definition evac_cols : list string := ["user_id"; "step_name"; "answer"; "created_at"].

Definition ev_row (u step a t : string) : Row := mkRow (Some u) NaN NaN NaN (Some step) (Some a) (Some t).

Definition evac_frame : Frame Cell :=
  mkFrame evac_cols
    [ev_row "u1" "player_select" "Petowner" "2026-01-01T10:00:00Z";
     ev_row "u1" "evacuate_select" "Yep, evacuate!" "2026-01-01T23:59:59Z";
     ev_row "u1" "player_select" "Parent" "2026-01-02T08:00:00Z"].

Definition clock0 : Clock := mkClock 1767315600 (-18000).

(** Without filters the latest player type (Parent, on 2 January) wins. *)
Example process_data_all :
  @process_data insertion_sort_alg iso_parser clock0 false None None evac_frame =
    Ok (Some [mkMerged (Some "u1") (Some "Parent") (Some "Yep, evacuate!")]).
Proof. vm_compute. reflexivity. Qed.

(** Up to the end of 1 January the answer "Petowner" is normalised. *)
Example process_data_end :
  @process_data insertion_sort_alg iso_parser clock0 false None (Some "2026-01-01T23:59:59") evac_frame =
    Ok (Some [mkMerged (Some "u1") (Some "Pet Owner") (Some "Yep, evacuate!")]).
Proof. vm_compute. reflexivity. Qed.

(** From 2 January the window holds a row but nobody answered both
    steps: the result is an empty merged frame, not [None]. *)
Example process_data_start_no_pairs :
  @process_data insertion_sort_alg iso_parser clock0 false (Some "2026-01-02") None evac_frame =
    Ok (Some []).
Proof. vm_compute. reflexivity. Qed.

Definition late_evac_frame : Frame Cell :=
  mkFrame evac_cols [ev_row "u1" "evacuate_select" "Yep, evacuate!" "2026-01-01T23:59:59Z"].

(** The scenario of the specification: in processEvacuate.py, which
    parses both sides with [utc=True], the start 2026-01-02 excludes a row
    of 2026-01-01T23:59:59Z and the empty window is reported as [None];
    genetedatefilterprocess.py, which parses without [utc=True], fails on
    the same row and date with pandas' [TypeError] (a tz-aware column
    against a naive date), and reports no data only for the start date
    2026-01-02T00:00:00Z. *)
Example process_data_start_scenario :
  @process_data insertion_sort_alg iso_parser clock0 false (Some "2026-01-02") None late_evac_frame =
    Ok None ∧
  @process_and_output_percentages insertion_sort_alg iso_parser (Some "2026-01-02") (Some late_frame) =
    Err (TypeError "Invalid comparison between dtype=datetime64[ns, UTC] and Timestamp") ∧
  @process_and_output_percentages insertion_sort_alg iso_parser (Some "2026-01-02T00:00:00Z") (Some late_frame) =
    Ok [Text "No data found on or after 2026-01-02T00:00:00Z after filtering."].
Proof. split_and!; vm_compute; reflexivity. Qed.

Definition evening_frame : Frame Cell :=
  mkFrame evac_cols
    [ev_row "u1" "player_select" "Parent" "2026-01-01T22:00:00Z";
     ev_row "u1" "evacuate_select" "Yep, evacuate!" "2026-01-01T22:05:00Z"].

(** The two versions disagree on "today": at 01:00 UTC on 2 January, five
    hours west of UTC, the rows of 22:00 UTC on 1 January are today's for
    the first version (local date) and not for processEvacuate.py (UTC). *)
Example today_filters_disagree :
  @process_data insertion_sort_alg iso_parser clock0 true None None evening_frame = Ok None ∧
  @process_data_first insertion_sort_alg iso_parser clock0 true evening_frame =
    Ok (Some [mkMerged (Some "u1") (Some "Parent") (Some "Yep, evacuate!")]).
Proof. split; vm_compute; reflexivity. Qed.

Lemma process_data_Err_witness :
  (∃ col, KeyError "answer" = KeyError col ∧ col ∉ columns (mkFrame ["user_id"; "step_name"; "created_at"] (rows evac_frame))) ∨
  (∃ s, KeyError "answer" = DateParseError s ∧ parse_datetime s = None ∧
        (In (Some s) (map created_at (rows evac_frame)) ∨ truthy None = Some s ∨ truthy None = Some s)).
Proof.
  apply (@process_data_Err insertion_sort_alg iso_parser clock0 false None None
           (mkFrame ["user_id"; "step_name"; "created_at"] (rows evac_frame))).
  vm_compute. reflexivity.
Defined.

Lemma process_data_no_petowner_witness : Some "Pet Owner" ≠ Some "Petowner".
Proof.
  apply (@process_data_no_petowner insertion_sort_alg iso_parser clock0 false None
           (Some "2026-01-01T23:59:59") evac_frame
           [mkMerged (Some "u1") (Some "Pet Owner") (Some "Yep, evacuate!")]
           (mkMerged (Some "u1") (Some "Pet Owner") (Some "Yep, evacuate!")));
    [vm_compute; reflexivity | left; reflexivity].
Defined.

Lemma process_data_kept_rows_witness :
  ∃ df lo hi w, to_datetime_raise (rows evac_frame) = Ok df ∧ parse_bound None = Ok lo ∧
    parse_bound (Some "2026-01-01T23:59:59") = Ok hi ∧ w `sublist_of` df ∧
    (∀ r, r ∈ df → r ∈ w ↔
       match created_at r with
       | Some t => (false = true → utc_day t = today_utc clock0) ∧
                   (∀ s, lo = Some s → (s ≤ t)%Z) ∧ (∀ e, hi = Some e → (t ≤ e)%Z)
       | None => false = false ∧ lo = None ∧ hi = None
       end) ∧
    (w = [] → Some [mkMerged (Some "u1") (Some "Pet Owner") (Some "Yep, evacuate!")] = None) ∧
    (w ≠ [] → Some [mkMerged (Some "u1") (Some "Pet Owner") (Some "Yep, evacuate!")] =
              Some (merge_latest (replace_answers w))).
Proof.
  apply (process_data_kept_rows clock0 false None (Some "2026-01-01T23:59:59") evac_frame).
  vm_compute. reflexivity.
Defined.
