(* ===== verification/Summary.v ===== *)
(** * Summary: summarize_noki.py

    Two modes over the raw CSV (no timestamp parsing): with
    [--filter-question q], [get_unique_answers_for_question] lists the
    distinct non-missing answers to the question [q] in order of first
    appearance; without it, [generate_full_summary] groups the rows by
    [(hashed_user_id, created_at, question)] and joins the distinct answers
    of each group with ", ".  A NaN answer inside a group makes the join
    raise [TypeError]. *)
From S2P Require Import Prelude SortValues DataFrame.
From stdpp Require Import pretty.

(** ** [--filter-question] *)

(** [df[df['question'] == question_text]['answer'].dropna().unique()]
    after the check that both columns exist. *)
Definition get_unique_answers_for_question (f : Frame Cell) (question_text : string)
    : Result (list string) :=
  if bool_decide ("question" ∈ columns f) && bool_decide ("answer" ∈ columns f) then
    Ok (pd_unique (omap answer
          (List.filter (λ r, bool_decide (question r = Some question_text)) (rows f))))
  else Err (MissingColumns ["question"; "answer"]).

(** ** The full summary *)

(** A group key [(hashed_user_id, (created_at, question))]; [groupby]
    drops the rows with a NaN in any key column. *)
Definition SummaryKey := (string * (string * string))%type.

Definition summary_key (r : Row) : option SummaryKey :=
  match hashed_user_id r, created_at r, question r with
  | Some u, Some t, Some q => Some (u, (t, q))
  | _, _, _ => None
  end.

(** The order of the group keys: lexicographic on the three strings. *)
Definition key3_le : SummaryKey → SummaryKey → bool :=
  lex_le String.leb (lex_le String.leb String.leb).

#[export] Instance key3_le_total : TotalPreB key3_le := lex_le_total _ _.

(** The [answer] cells of a group, in row order (NaN kept). *)
Definition group_answers (k : SummaryKey) (rs : list Row) : list Cell :=
  map answer (List.filter (λ r, bool_decide (summary_key r = Some k)) rs).

(** [', '.join(...)] walks its items and raises [TypeError] at the first
    one that is not a string; the message names its position. *)
Definition join_error (i : nat) : Fail :=
  TypeError ("sequence item " +:+ pretty i +:+ ": expected str instance, float found").

Fixpoint join_items (i : nat) (cs : list Cell) : Result (list string) :=
  match cs with
  | [] => Ok []
  | Some s :: cs => match join_items (S i) cs with Ok ss => Ok (s :: ss) | Err e => Err e end
  | None :: _ => Err (join_error i)
  end.

(** [lambda x: ', '.join(x.unique())] *)
Definition join_unique (cs : list Cell) : Result string :=
  match join_items 0 (pd_unique cs) with
  | Ok ss => Ok (String.concat ", " ss)
  | Err e => Err e
  end.

(** A row of the output CSV: the key and the joined answers. *)
Definition SummaryRow := (SummaryKey * string)%type.

(** [sort_values(by=['hashed_user_id', 'created_at'])] *)
Definition user_time_le : SummaryRow → SummaryRow → bool :=
  key_le (λ row : SummaryRow, (row.1.1, row.1.2.1)) (lex_le String.leb String.leb).

#[export] Instance user_time_le_total : TotalPreB user_time_le := key_le_total _ _.

Section FullSummary.
  Context `{SA : SortAlg}.
  Local Open Scope evac_scope.

  (** [groupby(keys)]: the distinct keys in sorted order. *)
Definition summary_groups (rs : list Row) : list SummaryKey :=
    sort_with key3_le (pd_unique (omap summary_key rs)).

Definition summarize_group (rs : list Row) (k : SummaryKey) : Result SummaryRow :=
    let* s := join_unique (group_answers k rs) in Ok (k, s).

  (** [generate_full_summary], lines 57-85: required columns, groupby with
      the join, then the sort by user and timestamp. *)
Definition generate_full_summary (f : Frame Cell) : Result (list SummaryRow) :=
    let* _ := check_required ["hashed_user_id"; "created_at"; "question"; "answer"] f in
    let* out := res_map (summarize_group (rows f)) (summary_groups (rows f)) in
    Ok (sort_with user_time_le out).

  (** What the script writes: the answer lines, or the summary CSV. *)
Inductive SummaryOut :=
  | AnswerLines (answers : list string)
  | SummaryCsv (out : list SummaryRow).

  (** The [__main__] block: [None] stands for an empty stdin, on which
      [pd.read_csv] raises [EmptyDataError]; an empty [--filter-question]
      is falsy and runs the full summary. *)
Definition summarize_main (filter_question : option string) (input : option (Frame Cell))
    : Result SummaryOut :=
    match input with
    | None => Err EmptyDataError
    | Some f =>
        match filter_question with
        | Some q =>
            if String.eqb q "" then let* out := generate_full_summary f in Ok (SummaryCsv out)
            else let* a := get_unique_answers_for_question f q in Ok (AnswerLines a)
        | None => let* out := generate_full_summary f in Ok (SummaryCsv out)
        end
    end.
End FullSummary.

(** ** Joining the distinct answers of a group *)

Lemma map_Some_inj (ss1 ss2 : list string) : map Some ss1 = map Some ss2 → ss1 = ss2.
Proof.
  induction ss1 as [|s1 ss1 IH] in ss2 |- *; destruct ss2; simpl; intros H; try done.
  injection H as -> ?. f_equal. by apply IH.
Qed.

Lemma join_items_Ok i cs ss : join_items i cs = Ok ss ↔ cs = map Some ss.
Proof.
  induction cs as [|[c|] cs IH] in i, ss |- *; simpl.
  - destruct ss; split; intros; simplify_eq; done.
  - destruct (join_items (S i) cs) as [ss'|e] eqn:Hr.
    + apply IH in Hr as ->. split; [by intros [= <-]|].
      destruct ss as [|s ss]; simpl; [done|]. intros [= -> ?%map_Some_inj]. by subst.
    + split; [done|]. destruct ss as [|s ss]; simpl; [done|].
      intros [= -> Hcs]. by rewrite (proj2 (IH _ _) Hcs) in Hr.
  - split; [done|]. by destruct ss.
Qed.

(** The join fails at the first NaN, naming its position. *)
Lemma join_items_Err i cs e :
  join_items i cs = Err e ↔ ∃ j, cs !! j = Some NaN ∧ NaN ∉ take j cs ∧ e = join_error (i + j).
Proof.
  induction cs as [|[c|] cs IH] in i, e |- *; simpl.
  - split; [done|]. intros (j & Hj & _). by rewrite lookup_nil in Hj.
  - transitivity (join_items (S i) cs = Err e); [by destruct (join_items (S i) cs)|].
    rewrite IH. split.
    + intros (j & Hj & Hn & ->). exists (S j). split_and!; [done| |f_equal; lia].
      simpl. intros [?|?]%elem_of_cons; [done|contradiction].
    + intros ([|j] & Hj & Hn & ->); [done|]. exists j. split_and!; [done| |f_equal; lia].
      intros ?; apply Hn; simpl; by right.
  - split; [intros [= <-]; exists 0; rewrite Nat.add_0_r; split_and!; [done|apply not_elem_of_nil|done]|].
    intros ([|j] & Hj & Hn & ->); [by rewrite Nat.add_0_r|].
    exfalso. apply Hn. simpl. apply list_elem_of_here.
Qed.

(** A list of cells without NaN is the list of its strings. *)
Lemma cells_no_nan (cs : list Cell) : NaN ∉ cs → cs = map Some (omap id cs).
Proof.
  induction cs as [|[s|] cs IH]; simpl; intros H; [done| |by destruct H; left].
  f_equal. apply IH. intros ?. apply H. by right.
Qed.

Lemma join_unique_Ok cs s :
  join_unique cs = Ok s ↔ ∃ ss, cs = map Some ss ∧ s = String.concat ", " (pd_unique ss).
Proof.
  unfold join_unique. split.
  - destruct (join_items 0 (pd_unique cs)) as [ss|] eqn:Hr; [|done]. intros [= <-].
    apply join_items_Ok in Hr.
    assert (NaN ∉ cs) as Hn.
    { intros Hin. apply elem_of_pd_unique in Hin. rewrite Hr, list_elem_of_In, in_map_iff in Hin. naive_solver. }
    apply cells_no_nan in Hn. exists (omap id cs). split; [done|]. f_equal.
    rewrite Hn, pd_unique_map in Hr by congruence. symmetry. by apply map_Some_inj.
  - intros (ss & -> & ->). rewrite pd_unique_map by congruence.
    by rewrite (proj2 (join_items_Ok _ _ _) eq_refl).
Qed.

(** The join fails exactly on a group holding a NaN answer, naming the
    position of NaN among the distinct answers. *)
Lemma join_unique_Err cs e :
  join_unique cs = Err e ↔ ∃ j, pd_unique cs !! j = Some NaN ∧ e = join_error j.
Proof.
  unfold join_unique. destruct (join_items 0 (pd_unique cs)) as [ss|e'] eqn:Hr.
  - split; [done|]. intros (j & Hj & _). apply join_items_Ok in Hr.
    rewrite Hr, list_lookup_fmap in Hj. destruct (ss !! j); simpl in Hj; congruence.
  - apply join_items_Err in Hr as (j & Hj & _ & ->).
    split; [intros [= <-]; by exists j|]. intros (j' & Hj' & ->).
    f_equal. f_equal. eapply (NoDup_lookup (pd_unique cs)); [apply NoDup_pd_unique|done|done].
Qed.

Lemma join_unique_NaN cs j : pd_unique cs !! j = Some NaN → NaN ∈ cs.
Proof. intros Hj. apply elem_of_pd_unique. eapply list_elem_of_lookup_2, Hj. Qed.

Lemma join_unique_total cs : NaN ∉ cs → ∃ s, join_unique cs = Ok s.
Proof.
  intros Hn. apply cells_no_nan in Hn. eexists. apply join_unique_Ok. eauto.
Qed.

(** ** The groups and the full summary *)
Section FullSummaryProofs.
  Context `{SA : SortAlg}.

Lemma summarize_group_Ok rs k row :
    summarize_group rs k = Ok row ↔ row.1 = k ∧ join_unique (group_answers k rs) = Ok row.2.
  Proof.
    unfold summarize_group. destruct (join_unique _) as [s|e]; [|naive_solver].
    destruct row as [k' s']. split; [intros [= -> ->]|intros [? [= ->]]; simpl in *; subst]; done.
  Qed.

  (** [groupby] makes one group per key of a row without NaN keys. *)
Lemma In_summary_groups rs k :
    In k (summary_groups rs) ↔ ∃ r, In r rs ∧ summary_key r = Some k.
  Proof.
    unfold summary_groups. rewrite <- list_elem_of_In, (sort_with_perm key3_le _), elem_of_pd_unique.
    rewrite list_elem_of_omap. setoid_rewrite list_elem_of_In. naive_solver.
  Qed.

Lemma NoDup_summary_groups rs : NoDup (summary_groups rs).
  Proof. unfold summary_groups. rewrite (sort_with_perm key3_le _). apply NoDup_pd_unique. Qed.

Lemma generate_full_summary_Ok f out :
    generate_full_summary f = Ok out ↔
    missing_columns ["hashed_user_id"; "created_at"; "question"; "answer"] (columns f) = [] ∧
    ∃ out0, res_map (summarize_group (rows f)) (summary_groups (rows f)) = Ok out0 ∧
            out = sort_with user_time_le out0.
  Proof.
    unfold generate_full_summary, check_required.
    destruct (missing_columns _ _); [|naive_solver].
    destruct (res_map _ _) as [out0|e]; naive_solver.
  Qed.
End FullSummaryProofs.

Section FullSummaryTheorems.
  Context `{SA : SortAlg}.

Lemma summarize_group_Err rs k e :
    summarize_group rs k = Err e ↔ ∃ j, pd_unique (group_answers k rs) !! j = Some NaN ∧ e = join_error j.
  Proof.
    unfold summarize_group. rewrite <- join_unique_Err.
    destruct (join_unique _); naive_solver.
  Qed.

Lemma NaN_group_answers k rs :
    NaN ∈ group_answers k rs ↔ ∃ r, In r rs ∧ summary_key r = Some k ∧ answer r = NaN.
  Proof.
    unfold group_answers. rewrite list_elem_of_In, in_map_iff.
    setoid_rewrite filter_In. setoid_rewrite bool_decide_eq_true. naive_solver.
  Qed.

Lemma res_map_summarize_keys rs ks out0 :
    res_map (summarize_group rs) ks = Ok out0 → map fst out0 = ks.
  Proof.
    rewrite res_map_Ok. induction 1 as [|k row ks out0 Hk _ IH]; simpl; [done|].
    apply summarize_group_Ok in Hk as [-> _]. by rewrite IH.
  Qed.

  (** The order on the group keys refines the order on (user, created_at). *)
Lemma key3_le_user_time (x y : SummaryRow) :
    key3_le x.1 y.1 = true → user_time_le x y = true.
  Proof.
    destruct x as [[u [t q]] s], y as [[u' [t' q']] s'].
    unfold key3_le, user_time_le, key_le, lex_le; simpl.
    destruct (String.leb u u'), (String.leb u' u), (String.leb t t'), (String.leb t' t); done.
  Qed.

  (** C16: A row [(k, s)] is in the full summary iff [k] is the
      (hashed_user_id, created_at, question) of some row with no NaN key,
      and [s] joins with ", " the distinct answers of the rows with key [k]
      in order of first appearance. *)
Theorem generate_full_summary_rows f out k s :
    generate_full_summary f = Ok out →
    In (k, s) out ↔
      (∃ r, In r (rows f) ∧ summary_key r = Some k) ∧
      ∃ ss, group_answers k (rows f) = map Some ss ∧ s = String.concat ", " (pd_unique ss).
  Proof.
    intros (_ & out0 & Hr & ->)%generate_full_summary_Ok.
    rewrite <- list_elem_of_In, (sort_with_perm user_time_le _), list_elem_of_In, (res_map_In _ _ _ _ Hr).
    rewrite <- In_summary_groups, <- join_unique_Ok. setoid_rewrite summarize_group_Ok.
    split; [intros (k' & Hk & Hk' & Hj); simpl in *; by subst|intros [Hk Hj]; eauto].
  Qed.

  (** The full summary has one row per group key. *)
Theorem generate_full_summary_keys_unique f out :
    generate_full_summary f = Ok out → NoDup (map fst out).
  Proof.
    intros (_ & out0 & Hr & ->)%generate_full_summary_Ok.
    rewrite (sort_with_perm user_time_le _), (res_map_summarize_keys _ _ _ Hr).
    apply NoDup_summary_groups.
  Qed.

  (** With a stable sort, [sort_values(by=['hashed_user_id',
      'created_at'])] keeps the groupby order: the summary's keys are the
      group keys in lexicographic (user, created_at, question) order. *)
Theorem generate_full_summary_order `{!StableSortAlg SA} f out :
    generate_full_summary f = Ok out →
    map fst out = summary_groups (rows f) ∧ sorted_b key3_le (map fst out).
  Proof.
    intros (_ & out0 & Hr & ->)%generate_full_summary_Ok.
    pose proof (res_map_summarize_keys _ _ _ Hr) as Hk.
    assert (sorted_b key3_le (map fst out0)) as Hs by (rewrite Hk; apply sort_with_sorted, _).
    rewrite (stable_sort_sorted_id user_time_le); [split; done|].
    apply (sorted_b_comap _ key3_le fst); [|done]. intros ? ? _ _. apply key3_le_user_time.
  Qed.

  (** A group is summarised exactly when its answers hold no NaN. *)
Lemma summarize_group_ok_iff rs k :
    (∃ row, summarize_group rs k = Ok row) ↔ NaN ∉ group_answers k rs.
  Proof.
    split.
    - intros (row & (_ & (ss & Hg & _)%join_unique_Ok)%summarize_group_Ok).
      rewrite Hg, list_elem_of_In, in_map_iff. naive_solver.
    - intros (s & Hs)%join_unique_total. exists (k, s). by apply summarize_group_Ok.
  Qed.

  (** Some group fails exactly when a row with its three keys set has a NaN answer. *)
Lemma summary_groups_NaN rs :
    (∃ k, In k (summary_groups rs) ∧ NaN ∈ group_answers k rs) ↔
    ∃ r, In r rs ∧ summary_key r ≠ None ∧ answer r = NaN.
  Proof.
    setoid_rewrite NaN_group_answers. setoid_rewrite In_summary_groups. split.
    - intros (k & _ & r & ? & ? & ?). exists r. split_and!; [done|congruence|done].
    - intros (r & Hr & Hk & Ha). destruct (summary_key r) as [k|] eqn:Hkr; [|done]. eauto 10.
  Qed.

  (** C17: Errors of [generate_full_summary]: missing columns are named;
      otherwise the groups are joined in key order and the run fails with
      the [TypeError] of [', '.join] at the first group holding a NaN
      answer, the message giving the position of NaN among that group's
      distinct answers. *)
Theorem generate_full_summary_Err f e :
    let missing := missing_columns ["hashed_user_id"; "created_at"; "question"; "answer"] (columns f) in
    generate_full_summary f = Err e ↔
      (missing ≠ [] ∧ e = MissingColumns missing) ∨
      (missing = [] ∧ ∃ pre k post j,
         summary_groups (rows f) = pre ++ k :: post ∧
         (∀ k', In k' pre → NaN ∉ group_answers k' (rows f)) ∧
         pd_unique (group_answers k (rows f)) !! j = Some NaN ∧ e = join_error j).
  Proof.
    unfold generate_full_summary, check_required; cbv zeta.
    destruct (missing_columns _ (columns f)) as [|c m]; [|naive_solver].
    transitivity (res_map (summarize_group (rows f)) (summary_groups (rows f)) = Err e);
      [by destruct (res_map _ _)|].
    rewrite res_map_Err_first. setoid_rewrite summarize_group_Err.
    setoid_rewrite summarize_group_ok_iff. naive_solver.
  Qed.

  (** The full summary is produced exactly when the columns are there and
      no row with its three keys set has a NaN answer. *)
Lemma generate_full_summary_succeeds f :
    (∃ out, generate_full_summary f = Ok out) ↔
    missing_columns ["hashed_user_id"; "created_at"; "question"; "answer"] (columns f) = [] ∧
    ¬ ∃ r, In r (rows f) ∧ summary_key r ≠ None ∧ answer r = NaN.
  Proof.
    setoid_rewrite generate_full_summary_Ok. rewrite <- summary_groups_NaN. split.
    - intros (out & Hm & out0 & Hr & _). split; [done|]. intros (k & Hk & HN).
      destruct (res_map_Ok_elem _ _ _ _ Hr Hk) as [row Hrow].
      by apply (proj1 (summarize_group_ok_iff _ _) (ex_intro _ row Hrow)).
    - intros [Hm Hn].
      destruct (res_map_total (summarize_group (rows f)) (summary_groups (rows f))) as [out0 Hr].
      { intros k Hk. apply summarize_group_ok_iff. intros HN. apply Hn. eauto. }
      eauto.
  Qed.
End FullSummaryTheorems.

(** ** [--filter-question] *)

  (** With both columns present, [--filter-question q] lists without
      repetition exactly the non-missing answers of the rows whose question
      is [q]. *)
Theorem get_unique_answers_spec f q :
  "question" ∈ columns f → "answer" ∈ columns f →
  ∃ l, get_unique_answers_for_question f q = Ok l ∧ NoDup l ∧
       ∀ a, In a l ↔ ∃ r, In r (rows f) ∧ question r = Some q ∧ answer r = Some a.
Proof.
  intros Hq Ha. unfold get_unique_answers_for_question.
  rewrite !bool_decide_eq_true_2 by done. eexists. split_and!; [done|apply NoDup_pd_unique|].
  intros a. rewrite In_pd_unique, <- list_elem_of_In, list_elem_of_omap.
  setoid_rewrite list_elem_of_In. setoid_rewrite filter_In. setoid_rewrite bool_decide_eq_true.
  naive_solver.
Qed.

  (** The answers come in order of first appearance: one more row
      appends its answer when it is an answer to [q] not seen before, and
      changes nothing otherwise. *)
Theorem get_unique_answers_snoc cols rs r q :
  get_unique_answers_for_question (mkFrame cols (rs ++ [r])) q =
  match get_unique_answers_for_question (mkFrame cols rs) q with
  | Ok l =>
      Ok (match answer r with
          | Some a => if bool_decide (question r = Some q) && negb (bool_decide (a ∈ l))
                      then l ++ [a] else l
          | None => l
          end)
  | Err e => Err e
  end.
Proof.
  unfold get_unique_answers_for_question; simpl.
  destruct (_ && _); [f_equal|done].
  rewrite List.filter_app, omap_app. simpl.
  case_bool_decide as Hq; simpl; [|by rewrite app_nil_r; destruct (answer r)].
  destruct (answer r) as [a|]; simpl; [|by rewrite app_nil_r].
  rewrite pd_unique_snoc, (bool_decide_ext _ _ (elem_of_pd_unique _ a)). by case_bool_decide.
Qed.

(** ** Runs *)

Definition noki_cols : list string := ["hashed_user_id"; "created_at"; "question"; "answer"].

Definition nk_row (u t q : Cell) (a : Cell) : Row := mkRow NaN u NaN q NaN a t.

Definition noki_rows : list Row :=
  [nk_row (Some "u1") (Some "2026-01-01T10:00:00Z") (Some "Pet?") (Some "A");
   nk_row (Some "u1") (Some "2026-01-01T10:00:00Z") (Some "Pet?") (Some "B");
   nk_row (Some "u1") (Some "2026-01-01T10:00:00Z") (Some "Pet?") (Some "A");
   nk_row (Some "u2") (Some "2026-01-01T09:00:00Z") (Some "Pet?") (Some "C");
   nk_row (Some "u1") (Some "2026-01-01T08:00:00Z") (Some "Pet?") (Some "D");
   nk_row NaN (Some "2026-01-01T08:00:00Z") (Some "Pet?") (Some "E")].

Definition noki_frame : Frame Cell := mkFrame noki_cols noki_rows.

(** The same export with a group holding a NaN answer. *)
Definition noki_nan_frame : Frame Cell :=
  mkFrame noki_cols (noki_rows ++ [nk_row (Some "u2") (Some "2026-01-01T09:00:00Z") (Some "Pet?") NaN]).

  (** The full summary of a small export: user u1's three answers at
      10:00 join to "A, B", groups come by user then time, and the row with
      no user is left out; with a NaN answer in u2's group the whole summary
      fails with the join's TypeError at item 1 (the NaN after "C"), while [--filter-question] still lists
      the answers, and an empty [--filter-question] runs the full summary. *)
Theorem summarize_scenario :
  @summarize_main insertion_sort_alg None (Some noki_frame) =
    Ok (SummaryCsv [(("u1", ("2026-01-01T08:00:00Z", "Pet?")), "D");
                    (("u1", ("2026-01-01T10:00:00Z", "Pet?")), "A, B");
                    (("u2", ("2026-01-01T09:00:00Z", "Pet?")), "C")]) ∧
  @summarize_main insertion_sort_alg None (Some noki_nan_frame) = Err (TypeError "sequence item 1: expected str instance, float found") ∧
  @summarize_main insertion_sort_alg (Some "Pet?") (Some noki_nan_frame) =
    Ok (AnswerLines ["A"; "B"; "C"; "D"; "E"]) ∧
  @summarize_main insertion_sort_alg (Some "") (Some noki_nan_frame) = Err (TypeError "sequence item 1: expected str instance, float found") ∧
  @summarize_main insertion_sort_alg (Some "Pet?") None = Err EmptyDataError.
Proof. split_and!; vm_compute; reflexivity. Qed.

Lemma get_unique_answers_spec_witness :
  "question" ∈ columns noki_frame ∧ "answer" ∈ columns noki_frame ∧
  ∃ l, get_unique_answers_for_question noki_frame "Pet?" = Ok l ∧ NoDup l ∧
       ∀ a, In a l ↔ ∃ r, In r (rows noki_frame) ∧ question r = Some "Pet?" ∧ answer r = Some a.
Proof.
  assert ("question" ∈ columns noki_frame) as Hq by (simpl; set_solver).
  assert ("answer" ∈ columns noki_frame) as Ha by (simpl; set_solver).
  split; [exact Hq|split; [exact Ha|exact (get_unique_answers_spec noki_frame "Pet?" Hq Ha)]].
Defined.

Definition noki_summary : list SummaryRow :=
  [(("u1", ("2026-01-01T08:00:00Z", "Pet?")), "D");
   (("u1", ("2026-01-01T10:00:00Z", "Pet?")), "A, B");
   (("u2", ("2026-01-01T09:00:00Z", "Pet?")), "C")].

Lemma noki_full_summary : @generate_full_summary insertion_sort_alg noki_frame = Ok noki_summary.
Proof. vm_compute. reflexivity. Qed.

Lemma generate_full_summary_rows_witness :
  @generate_full_summary insertion_sort_alg noki_frame = Ok noki_summary ∧
  (In (("u1", ("2026-01-01T10:00:00Z", "Pet?")), "A, B") noki_summary ↔
    (∃ r, In r (rows noki_frame) ∧ summary_key r = Some ("u1", ("2026-01-01T10:00:00Z", "Pet?"))) ∧
    ∃ ss, group_answers ("u1", ("2026-01-01T10:00:00Z", "Pet?")) (rows noki_frame) = map Some ss ∧
          "A, B" = String.concat ", " (pd_unique ss)).
Proof. split; [exact noki_full_summary|exact (generate_full_summary_rows _ _ _ _ noki_full_summary)]. Defined.

Lemma generate_full_summary_keys_unique_witness :
  @generate_full_summary insertion_sort_alg noki_frame = Ok noki_summary ∧ NoDup (map fst noki_summary).
Proof. split; [exact noki_full_summary|exact (generate_full_summary_keys_unique _ _ noki_full_summary)]. Defined.

Lemma generate_full_summary_order_witness :
  @generate_full_summary insertion_sort_alg noki_frame = Ok noki_summary ∧
  map fst noki_summary = @summary_groups insertion_sort_alg (rows noki_frame) ∧
  sorted_b key3_le (map fst noki_summary).
Proof. split; [exact noki_full_summary|exact (generate_full_summary_order _ _ noki_full_summary)]. Defined.
