(* ===== verification/Csv.v ===== *)
(** * Csv: [DataFrame.to_csv] and a reader for what it writes

    summarize_noki.py prints its summary with
    [summary_df.to_csv(sys.stdout, index=False)] (line 79), and the answer
    column joins the distinct answers with ", ", so most of its cells
    contain the delimiter.  pandas writes through Python's [csv] writer
    with [quoting=QUOTE_MINIMAL] and [lineterminator='\n']: a field is
    quoted exactly when it contains the delimiter, the quote character or
    a character of the line terminator (CPython 3.11's [_csv] writer: a
    bare ['\r'] is written unquoted); a quote inside a quoted field is doubled
    ([doublequote=True]); a record made of one empty field is written as
    two quotes, so that it is not read back as an empty line.

    The reader [read_csv_text] is the RFC 4180 state machine, written as
    one [step] per character over an explicit state; it is the reference
    against which the writer is proved: whatever rows [to_csv] writes,
    the reader gets them back field by field. *)
From S2P Require Import Prelude.
From Stdlib Require Import Ascii.

(** ** Characters *)

Definition dq_char : ascii := ascii_of_nat 34.
Definition lf_char : ascii := ascii_of_nat 10.
Definition comma_char : ascii := ascii_of_nat 44.

Definition str1 (c : ascii) : string := String.String c "".

(** The characters that force quoting under [QUOTE_MINIMAL]: the
    delimiter, the quote character and those of [lineterminator]. *)
Definition special (c : ascii) : bool :=
  bool_decide (c = comma_char) || bool_decide (c = dq_char) || bool_decide (c = lf_char).

(** ** The writer *)

Fixpoint needs_quotes (s : string) : bool :=
  match s with
  | "" => false
  | String.String c s => special c || needs_quotes s
  end.

(** [doublequote=True]: a quote inside a quoted field is written twice. *)
Fixpoint escape_quotes (s : string) : string :=
  match s with
  | "" => ""
  | String.String c s =>
      if bool_decide (c = dq_char) then String.String dq_char (String.String dq_char (escape_quotes s))
      else String.String c (escape_quotes s)
  end.

Definition csv_field (s : string) : string :=
  if needs_quotes s then String.String dq_char (escape_quotes s +:+ str1 dq_char) else s.

(** [csv.writer.writerow]: the fields joined by the delimiter, then the
    line terminator; a lone empty field is quoted. *)
Definition csv_row (fields : list string) : string :=
  match fields with
  | [""] => String.String dq_char (String.String dq_char (str1 lf_char))
  | _ => String.concat (str1 comma_char) (map csv_field fields) +:+ str1 lf_char
  end.

(** [df.to_csv(buf, index=False)]: the header, then one record per row. *)
Definition to_csv (header : list string) (rows : list (list string)) : string :=
  String.concat "" (map csv_row (header :: rows)).

(** ** The reader *)

Inductive RMode := FieldStart | Unquoted | Quoted | QuoteInQuoted.

(** The field being read (its characters reversed), the fields of the
    current record (reversed) and the records read so far (reversed). *)
Record RState := mkRState {
  rmode : RMode; rfield : list ascii; rrecord : list string; rrecords : list (list string) }.

Definition end_field (st : RState) : RState :=
  mkRState FieldStart [] (String.string_of_list_ascii (rev (rfield st)) :: rrecord st) (rrecords st).

Definition end_record (st : RState) : RState :=
  let st' := end_field st in mkRState FieldStart [] [] (rev (rrecord st') :: rrecords st').

Definition add_char (m : RMode) (c : ascii) (st : RState) : RState :=
  mkRState m (c :: rfield st) (rrecord st) (rrecords st).

Definition step (st : RState) (c : ascii) : RState :=
  match rmode st with
  | FieldStart =>
      if bool_decide (c = dq_char) then mkRState Quoted [] (rrecord st) (rrecords st)
      else if bool_decide (c = comma_char) then end_field st
      else if bool_decide (c = lf_char) then
        (* an empty line is an empty record *)
        match rrecord st with
        | [] => mkRState FieldStart [] [] ([] :: rrecords st)
        | _ => end_record st
        end
      else add_char Unquoted c st
  | Unquoted =>
      if bool_decide (c = comma_char) then end_field st
      else if bool_decide (c = lf_char) then end_record st
      else add_char Unquoted c st
  | Quoted =>
      if bool_decide (c = dq_char) then mkRState QuoteInQuoted (rfield st) (rrecord st) (rrecords st)
      else add_char Quoted c st
  | QuoteInQuoted =>
      if bool_decide (c = dq_char) then add_char Quoted c st
      else if bool_decide (c = comma_char) then end_field st
      else if bool_decide (c = lf_char) then end_record st
      else add_char Unquoted c st
  end.

Fixpoint run_reader (st : RState) (s : string) : RState :=
  match s with
  | "" => st
  | String.String c s => run_reader (step st c) s
  end.

(** At the end of the input a pending record is closed. *)
Definition finish (st : RState) : list (list string) :=
  match rmode st, rfield st, rrecord st with
  | FieldStart, [], [] => rev (rrecords st)
  | _, _, _ => rev (rrecords (end_record st))
  end.

Definition reader_init : RState := mkRState FieldStart [] [] [].

Definition read_csv_text (s : string) : list (list string) := finish (run_reader reader_init s).

(** ** The reader on what the writer writes *)

Section Reader.
  Implicit Types (st : RState) (s : string) (r : list string) (rs : list (list string)).

Lemma run_reader_app st s1 s2 : run_reader st (s1 +:+ s2) = run_reader (run_reader st s1) s2.
  Proof. induction s1 as [|c s1 IH] in st |- *; [done|]. rewrite string_app_cons. apply IH. Qed.

Lemma run_reader_cons st c s : run_reader st (String.String c s) = run_reader (step st c) s.
  Proof. done. Qed.

Lemma str1_app c s : str1 c +:+ s = String.String c s.
  Proof. done. Qed.

Lemma special_false c :
    special c = false → c ≠ comma_char ∧ c ≠ dq_char ∧ c ≠ lf_char.
  Proof. unfold special. rewrite !orb_false_iff, !bool_decide_eq_false. tauto. Qed.

  (** Outside quotes a plain character extends the field. *)
Lemma step_plain m c fld r rs :
    m ≠ Quoted → m ≠ QuoteInQuoted → special c = false →
    step (mkRState m fld r rs) c = mkRState Unquoted (c :: fld) r rs.
  Proof.
    intros Hq Hqq (Hc & Hd & Hl)%special_false.
    destruct m; try done; unfold step; simpl; by rewrite !bool_decide_false.
  Qed.

  (** The delimiter ends the field in every state but inside quotes. *)
Lemma step_comma st : rmode st ≠ Quoted → step st comma_char = end_field st.
  Proof. destruct st as [[] fld r rs]; simpl; done. Qed.

  (** The line terminator ends the record, unless it is an empty line. *)
Lemma step_lf st :
    rmode st ≠ Quoted → (rmode st = FieldStart → rrecord st ≠ []) → step st lf_char = end_record st.
  Proof. destruct st as [[] fld [|f r] rs]; simpl; intros ? Hr; try done. by destruct Hr. Qed.

Lemma run_unquoted s fld r rs :
    needs_quotes s = false →
    run_reader (mkRState Unquoted fld r rs) s =
      mkRState Unquoted (rev (String.list_ascii_of_string s) ++ fld) r rs.
  Proof.
    induction s as [|c s IH] in fld |- *; simpl; [done|]. intros [Hc Hs]%orb_false_iff.
    rewrite step_plain by done. rewrite IH by done. by rewrite <- app_assoc.
  Qed.

  (** A doubled quote inside quotes is one quote of the field. *)
Lemma step_escaped_quote fld r rs :
    step (step (mkRState Quoted fld r rs) dq_char) dq_char = mkRState Quoted (dq_char :: fld) r rs.
  Proof. reflexivity. Qed.

  (** Inside quotes, the escaped text reads back as the text. *)
Lemma run_quoted s fld r rs :
    run_reader (mkRState Quoted fld r rs) (escape_quotes s) =
      mkRState Quoted (rev (String.list_ascii_of_string s) ++ fld) r rs.
  Proof.
    induction s as [|c s IH] in fld |- *; simpl; [done|].
    case_bool_decide as Hc; simpl.
    - subst. rewrite step_escaped_quote, IH. by rewrite <- app_assoc.
    - unfold step; simpl. rewrite bool_decide_false by done.
      unfold add_char; simpl. rewrite IH. by rewrite <- app_assoc.
  Qed.

  (** The state the reader is in after a written field. *)
Definition field_mode s : RMode :=
    if needs_quotes s then QuoteInQuoted else match s with "" => FieldStart | _ => Unquoted end.

Lemma run_field s r rs :
    run_reader (mkRState FieldStart [] r rs) (csv_field s) =
      mkRState (field_mode s) (rev (String.list_ascii_of_string s)) r rs.
  Proof.
    unfold csv_field, field_mode. destruct (needs_quotes s) eqn:Hs.
    - simpl. unfold step; simpl. rewrite run_reader_app, run_quoted, app_nil_r. done.
    - destruct s as [|c s']; [done|]. simpl in Hs |- *. apply orb_false_iff in Hs as [Hc Hs].
      rewrite step_plain by done. by rewrite run_unquoted by done.
  Qed.

Lemma field_text s : String.string_of_list_ascii (rev (rev (String.list_ascii_of_string s))) = s.
  Proof. by rewrite rev_involutive, String.string_of_list_ascii_of_string. Qed.

Lemma field_mode_not_quoted s : field_mode s ≠ Quoted.
  Proof. unfold field_mode. by destruct (needs_quotes s), s. Qed.

Lemma field_mode_start s : field_mode s = FieldStart → s = "".
  Proof. unfold field_mode. by destruct (needs_quotes s), s. Qed.

Lemma string_concat_cons2 sep x y l :
    String.concat sep (x :: y :: l) = x +:+ sep +:+ String.concat sep (y :: l).
  Proof. done. Qed.

  (** The fields of a record, written with delimiters and the terminator. *)
Lemma run_fields f fs acc rs :
    (acc ≠ [] ∨ f ≠ "" ∨ fs ≠ []) →
    run_reader (mkRState FieldStart [] acc rs)
      (String.concat (str1 comma_char) (map csv_field (f :: fs)) +:+ str1 lf_char) =
      mkRState FieldStart [] [] ((rev acc ++ f :: fs) :: rs).
  Proof.
    induction fs as [|g fs IH] in f, acc |- *; intros Hne.
    - simpl. rewrite run_reader_app, run_field. simpl.
      rewrite step_lf; simpl; [|apply field_mode_not_quoted|].
      + unfold end_record, end_field; simpl. by rewrite field_text.
      + intros ->%field_mode_start. destruct acc; [naive_solver|done].
    - change (map csv_field (f :: g :: fs)) with (csv_field f :: csv_field g :: map csv_field fs).
      rewrite string_concat_cons2, <- !string_app_assoc, run_reader_app, run_field.
      rewrite str1_app, run_reader_cons, step_comma by apply field_mode_not_quoted.
      unfold end_field; cbn [rmode rfield rrecord rrecords].
      rewrite field_text. etransitivity; [apply (IH g (f :: acc)); by left|]. simpl. by rewrite <- app_assoc.
  Qed.

Lemma run_row fields rs :
    run_reader (mkRState FieldStart [] [] rs) (csv_row fields) = mkRState FieldStart [] [] (fields :: rs).
  Proof.
    destruct fields as [|f fs]; [done|].
    destruct (decide (f = "" ∧ fs = [])) as [[-> ->]|Hne]; [done|].
    assert (csv_row (f :: fs) =
      String.concat (str1 comma_char) (map csv_field (f :: fs)) +:+ str1 lf_char) as ->
      by (destruct f, fs; naive_solver).
    rewrite run_fields; [done|]. right. destruct (decide (f = "")); naive_solver.
  Qed.

Lemma string_concat_nil_cons x l : String.concat "" (x :: l) = x +:+ String.concat "" l.
  Proof. destruct l; simpl; [by rewrite string_app_nil_r|done]. Qed.

Lemma run_rows rows rs :
    run_reader (mkRState FieldStart [] [] rs) (String.concat "" (map csv_row rows)) =
      mkRState FieldStart [] [] (rev rows ++ rs).
  Proof.
    induction rows as [|row rows IH] in rs |- *; [done|].
    rewrite map_cons, string_concat_nil_cons, run_reader_app, run_row, IH. simpl. by rewrite <- app_assoc.
  Qed.
End Reader.

Lemma read_csv_text_to_csv header rows : read_csv_text (to_csv header rows) = header :: rows.
Proof.
  unfold read_csv_text, to_csv, reader_init. rewrite run_rows. simpl.
  unfold finish; cbn. by rewrite app_nil_r, rev_app_distr, rev_involutive.
Qed.

(** Whatever header and rows [to_csv] writes, the CSV reader reads
    back exactly that header and those rows, field by field: quoting of
    fields holding a delimiter, quote or line break, doubled quotes and
    the quoted lone empty field lose nothing, and no row is split or
    merged. *)
Theorem to_csv_roundtrip header rows : read_csv_text (to_csv header rows) = header :: rows.
Proof. apply read_csv_text_to_csv. Qed.
