(* ===== verification/Plots.v ===== *)
(** * Plots: what [generate_plots] draws

    [generate_plots] of processEvacuate.py (lines 48-119) and of
    firstworkingprocessEvacuate.py (lines 36-106) draws three bar charts
    of the merged frame: the player types, the overall evacuation choice,
    and the choice per player type.  Drawing is matplotlib's; what the
    scripts compute is the bars (category, height, colour) and the text
    on each bar (count and percentage).  A chart is modelled as its list
    of bars; the third chart as its table, the heights of its patches in
    matplotlib's order (column by column) and the labels the script
    places by patch-index arithmetic. *)
From S2P Require Import Prelude SortValues DataFrame Float Latest Breakdown.
From stdpp Require Import pretty.

(** ** Constants of processEvacuate.py (lines 7-10) *)
Definition EVAC_ORDER : list string := ["Yep, evacuate!"; "Heck no! dont evacuate"].

Definition COLOR_MAP : list (string * string) :=
  [("Yep, evacuate!", "lightgreen"); ("Heck no! dont evacuate", "coral")].

(** [d[k]] on a dict: [KeyError] when the key is absent. *)
Definition dict_get (d : list (string * string)) (k : string) : Result string :=
  match List.find (λ kv, String.eqb kv.1 k) d with
  | Some kv => Ok kv.2
  | None => Err (KeyError k)
  end.

(** A bar of charts 1 and 2: tick label, height, the percentage printed
    under the count ([None] is pandas' NaN of 0/0), and colour. *)
Record Bar := mkBar { bar_x : string; bar_count : nat; bar_pct : option Q; bar_color : string }.

(** [plot(kind='bar', color=colors)] colours bar [i] with [colors[i]],
    cycling when the list is shorter than the bars. *)
Definition color_at (colors : list string) (i : nat) : string :=
  match colors with
  | [] => "C0"
  | _ => nth (i mod length colors) colors "C0"
  end.

(** [Series.value_counts().reindex(order, fill_value=0)]: one entry per
    element of [order], values outside [order] dropped. *)
Definition reindex (order : list string) (vc : list (string * nat)) : list (string * nat) :=
  map (λ o, (o, default 0 (snd <$> List.find (λ ac, String.eqb ac.1 o) vc))) order.

(** The non-missing values of a merged column. *)
Definition player_type_col (ms : list Merged) : list string := omap player_type ms.
Definition evacuate_choice_col (ms : list Merged) : list string := omap evacuate_choice ms.

Section Charts.
  Context `{SA : SortAlg}.

  (** Chart 1 (lines 54-65; 41-55 of the first version): [counts] and
      [value_counts(normalize=True) * 100], zipped by position. *)
Definition player_breakdown (ms : list Merged) : list Bar :=
    let counts := value_counts (player_type_col ms) in
    let pcts := map (λ '(_, c), percentage c (sum_list (map snd counts))) counts in
    zip_with (λ '(a, v) p, mkBar a v (Some p) "skyblue") counts pcts.

  (** Chart 2 of processEvacuate.py (lines 68-85): counts in [EVAC_ORDER],
      shares of their sum, colours from [COLOR_MAP]. *)
Definition evacuation_overall (ms : list Merged) : Result (list Bar) :=
    let ev_counts := reindex EVAC_ORDER (value_counts (evacuate_choice_col ms)) in
    let total := sum_list (map snd ev_counts) in
    let ev_pcts := map (λ '(_, c), if Nat.eqb total 0 then None else Some (percentage c total)) ev_counts in
    match res_map (dict_get COLOR_MAP) EVAC_ORDER with
    | Ok colors =>
        Ok (imap (λ i '(o, v), mkBar o v (nth i ev_pcts None) (color_at colors i)) ev_counts)
    | Err e => Err e
    end.

  (** Chart 2 of the first version (lines 58-72): [value_counts] order and
      the colours ['coral', 'lightgreen'] by position. *)
Definition evacuation_overall_first (ms : list Merged) : list Bar :=
    let ev_counts := value_counts (evacuate_choice_col ms) in
    let ev_pcts := map (λ '(_, c), percentage c (sum_list (map snd ev_counts))) ev_counts in
    imap (λ i '(a, v), mkBar a v (Some (nth i ev_pcts 0%Q)) (color_at ["coral"; "lightgreen"] i)) ev_counts.
End Charts.

(** ** Chart 3: the choice per player type *)

(** The (player_type, evacuate_choice) pairs [groupby] keeps: rows with a
    NaN in either key are dropped. *)
Definition type_choice_pairs (ms : list Merged) : list (string * string) :=
  omap (λ m, match player_type m, evacuate_choice m with
             | Some p, Some e => Some (p, e)
             | _, _ => None
             end) ms.

Definition pair_count (pc : string * string) (ps : list (string * string)) : nat :=
  count_if (λ x, bool_decide (x = pc)) ps.

(** A frame of counts: row labels, column labels, and one list of counts
    per row (in column order). *)
Record Table := mkTable { t_index : list string; t_columns : list string; t_rows : list (list nat) }.

(** [grouped.iloc[g, c]] *)
Definition iloc (t : Table) (g c : nat) : nat := nth c (nth g (t_rows t) []) 0.

(** [grouped.sum(axis=1)] *)
Definition row_totals (t : Table) : list nat := map sum_list (t_rows t).

(** [grouped.reindex(columns=order, fill_value=0)] *)
Definition reindex_columns (order : list string) (t : Table) : Table :=
  mkTable (t_index t) order
    (map (λ row, map (λ o, match list_find (λ c, c = o) (t_columns t) with
                           | Some (j, _) => nth j row 0
                           | None => 0
                           end) order) (t_rows t)).

(** The heights of the bars of [grouped.plot(kind='bar')] in the order of
    [ax.patches]: matplotlib draws one container per column, each with
    one bar per row. *)
Definition patches (t : Table) : list nat :=
  flat_map (λ j, map (λ row, nth j row 0) (t_rows t)) (seq 0 (length (t_columns t))).

(** A label written on the chart: the patch it is written on, the count
    and the percentage. *)
Definition Label := (nat * nat * Q)%type.

(** The loop of lines 103-116 (86-102 of the first version): the patch
    [i] is read back as row [i % n_groups] and column [i // n_groups];
    [pct] is 0 on a row whose total is 0; bars of height 0 get no text. *)
Definition by_type_labels (t : Table) : list Label :=
  let n_groups := length (t_index t) in
  let totals := row_totals t in
  omap (λ '(i, height),
          let group_idx := i mod n_groups in
          let cat_idx := i / n_groups in
          let count := iloc t group_idx cat_idx in
          let total := nth group_idx totals 0 in
          let pct := if Nat.ltb 0 total then percentage count total else 0%Q in
          if Nat.ltb 0 height then Some (i, count, pct) else None)
       (imap pair (patches t)).

Section Crosstab.
  Context `{SA : SortAlg}.

  (** [df.groupby(['player_type', 'evacuate_choice']).size().unstack(fill_value=0)]:
      rows and columns are the sorted distinct keys. *)
Definition crosstab (ps : list (string * string)) : Table :=
    let idx := sort_with String.leb (pd_unique (map fst ps)) in
    let cols := sort_with String.leb (pd_unique (map snd ps)) in
    mkTable idx cols (map (λ p, map (λ c, pair_count (p, c) ps) cols) idx).

  (** Line 89-91 of processEvacuate.py: the columns forced to [EVAC_ORDER]. *)
Definition by_type_table (ms : list Merged) : Table :=
    reindex_columns EVAC_ORDER (crosstab (type_choice_pairs ms)).

  (** Line 75 of the first version: the columns in sorted order. *)
Definition by_type_table_first (ms : list Merged) : Table :=
    crosstab (type_choice_pairs ms).

  (** The three charts, or nothing on a missing or empty frame (line 50). *)
Record Charts := mkCharts {
    chart_players : list Bar;
    chart_overall : list Bar;
    chart_by_type : Table;
    chart_by_type_colors : list string;
    chart_by_type_labels : list Label
  }.

Definition generate_plots (df : option (list Merged)) : Result (option Charts) :=
    match df with
    | None | Some [] => Ok None
    | Some ms =>
        match evacuation_overall ms, res_map (dict_get COLOR_MAP) EVAC_ORDER with
        | Ok overall, Ok colors =>
            let grouped := by_type_table ms in
            Ok (Some (mkCharts (player_breakdown ms) overall grouped colors (by_type_labels grouped)))
        | Err e, _ | _, Err e => Err e
        end
    end.

  (** The first version: no fixed order, default colours for chart 3. *)
Definition generate_plots_first (df : option (list Merged)) : option Charts :=
    match df with
    | None | Some [] => None
    | Some ms =>
        let grouped := by_type_table_first ms in
        Some (mkCharts (player_breakdown ms) (evacuation_overall_first ms) grouped []
                (by_type_labels grouped))
    end.
End Crosstab.

(** ** The text on the bars

    Each share is a Python float, [count / total * 100] in binary64
    ([py_percentage]), formatted with one decimal; a NaN share (0/0 in
    chart 2) is written [nan]. *)
Definition pct_1f (p : option Q) : string :=
  match p with Some p => format_fixed 1 (py_percentage p) | None => "nan" end.

(** Lines 61-62 and 81-82: [f'{v}\n({p:.1f}%)'] on a bar of charts 1 and 2. *)
Definition bar_text (b : Bar) : string :=
  pretty (bar_count b) +:+ nl +:+ "(" +:+ pct_1f (bar_pct b) +:+ "%)".

(** Line 115: [f'{int(count)}\n({pct:.1f}%)'] on a patch of chart 3. *)
Definition label_text (l : Label) : string :=
  pretty l.1.2 +:+ nl +:+ "(" +:+ format_fixed 1 (py_percentage l.2) +:+ "%)".

(** ** Reading a patch back by its index *)

Section Blocks.
  Context {A : Type} (f : nat → list A) (n : nat).
  Hypothesis Hf : ∀ j, length (f j) = n.

Lemma length_flat_map_blocks s m : length (flat_map f (seq s m)) = m * n.
  Proof.
    induction m as [|m IH] in s |- *; simpl; [done|]. rewrite length_app, Hf, IH. lia.
  Qed.

  (** The [i]-th element of blocks of [n] is element [i mod n] of block
      [i / n]. *)
Lemma nth_flat_map_blocks s m i d :
    i < m * n → nth i (flat_map f (seq s m)) d = nth (i mod n) (f (s + i / n)) d.
  Proof.
    induction m as [|m IH] in s, i |- *; simpl; intros Hi; [lia|].
    destruct (decide (i < n)) as [Hlt|Hge].
    - rewrite app_nth1 by (rewrite Hf; lia).
      by rewrite Nat.mod_small, Nat.div_small, Nat.add_0_r by lia.
    - rewrite app_nth2 by (rewrite Hf; lia). rewrite Hf, IH by lia.
      assert (∃ k, i = k + 1 * n) as [k ->] by (exists (i - n); lia).
      replace (k + 1 * n - n) with k by lia.
      rewrite Nat.Div0.mod_add, Nat.div_add by lia. do 2 f_equal. lia.
  Qed.
End Blocks.

(** A table has one row of counts per row label. *)
Definition table_rows_wf (t : Table) : Prop := length (t_rows t) = length (t_index t).

Lemma length_patches t :
  table_rows_wf t → length (patches t) = length (t_columns t) * length (t_index t).
Proof.
  intros Hw. unfold patches. rewrite (length_flat_map_blocks _ (length (t_index t))); [done|].
  intros j. by rewrite length_map.
Qed.

Lemma nth_map_default_row (j : nat) (rows : list (list nat)) k :
  nth k (map (λ row, nth j row 0) rows) 0 = nth j (nth k rows []) 0.
Proof.
  rewrite <- (map_nth (λ row, nth j row 0) rows []). by destruct j.
Qed.

(** The statement of [patch_index_roundtrip], shared by the lemmas that build on it. *)
Lemma patch_index_roundtrip_core t :
  table_rows_wf t →
  let n := length (t_index t) in
  (∀ g j, g < n → j < length (t_columns t) →
     j * n + g < length (patches t) ∧ nth (j * n + g) (patches t) 0 = iloc t g j) ∧
  (∀ i, i < length (patches t) →
     i mod n < n ∧ i / n < length (t_columns t) ∧
     (i / n) * n + i mod n = i ∧ iloc t (i mod n) (i / n) = nth i (patches t) 0).
Proof.
  intros Hw n. rewrite (length_patches t Hw).
  assert (Hb : ∀ i, i < length (t_columns t) * n →
            nth i (patches t) 0 = iloc t (i mod n) (i / n)).
  { intros i Hi. unfold patches. rewrite (nth_flat_map_blocks _ n) by (done || intros; by rewrite length_map, Hw).
    apply nth_map_default_row. }
  split.
  - intros g j Hg Hj. split; [nia|]. rewrite Hb by nia.
    replace (j * n + g) with (g + j * n) by lia.
    rewrite Nat.Div0.mod_add, Nat.mod_small, Nat.div_add, Nat.div_small by lia. done.
  - intros i Hi. assert (n ≠ 0) by (unfold n in *; nia).
    split_and!; [by apply Nat.mod_upper_bound|apply Nat.Div0.div_lt_upper_bound; lia| |by rewrite Hb].
    rewrite (Nat.div_mod_eq i n) at 3. lia.
Qed.

(** The patch of row [g] and column [j] is patch [j * n_groups + g], and
    patch [i] is read back at row [i mod n_groups], column [i / n_groups]. *)
Theorem patch_index_roundtrip t :
  table_rows_wf t →
  let n := length (t_index t) in
  (∀ g j, g < n → j < length (t_columns t) →
     j * n + g < length (patches t) ∧ nth (j * n + g) (patches t) 0 = iloc t g j) ∧
  (∀ i, i < length (patches t) →
     i mod n < n ∧ i / n < length (t_columns t) ∧
     (i / n) * n + i mod n = i ∧ iloc t (i mod n) (i / n) = nth i (patches t) 0).
Proof. apply patch_index_roundtrip_core. Qed.

Lemma In_imap_pair {A} (l : list A) i x : In (i, x) (imap pair l) ↔ l !! i = Some x.
Proof.
  rewrite <- list_elem_of_In, list_elem_of_lookup. setoid_rewrite list_lookup_imap.
  split; [intros [k Hk]; destruct (l !! k) eqn:E; simpl in Hk; congruence|].
  intros Hi. exists i. by rewrite Hi.
Qed.

(** The labels of chart 3: one per patch of positive height, showing the
    height of that patch and its share of its row's total. *)
Lemma by_type_labels_In t i count pct :
  table_rows_wf t →
  In (i, count, pct) (by_type_labels t) ↔
    i < length (patches t) ∧ count = nth i (patches t) 0 ∧ 0 < count ∧
    pct = (let total := nth (i mod length (t_index t)) (row_totals t) 0 in
           if Nat.ltb 0 total then percentage count total else 0%Q).
Proof.
  intros Hw. destruct (patch_index_roundtrip_core t Hw) as [_ Hrt].
  unfold by_type_labels. rewrite <- list_elem_of_In, list_elem_of_omap.
  setoid_rewrite list_elem_of_In. split.
  - intros ([i' h] & Hl%In_imap_pair & Hf). destruct (Nat.ltb_spec 0 h); [|done]. injection Hf as <- <- <-.
    pose proof (lookup_lt_Some _ _ _ Hl) as Hi. destruct (Hrt i' Hi) as (_ & _ & _ & ->).
    by rewrite (nth_lookup_Some _ _ _ _ Hl).
  - intros (Hi & -> & Hc & ->). destruct (lookup_lt_is_Some_2 _ _ Hi) as [h Hl].
    exists (i, h). split; [by apply In_imap_pair|]. rewrite (nth_lookup_Some _ _ _ _ Hl) in Hc |- *.
    destruct (Hrt i Hi) as (_ & _ & _ & ->). rewrite (nth_lookup_Some _ _ _ _ Hl).
    destruct (Nat.ltb_spec 0 h); [done|lia].
Qed.

(** Labels are written on distinct patches. *)
Lemma map_fst_imap_shift {A} (l : list A) k :
  map fst (imap (λ i x, (k + i, x)) l) = seq k (length l).
Proof.
  induction l as [|x l IH] in k |- *; simpl; [done|]. rewrite Nat.add_0_r. f_equal.
  rewrite <- (IH (S k)). f_equal. apply imap_ext. intros i y _. simpl. f_equal. lia.
Qed.

Lemma sublist_map_omap {A B} (F : A → option B) (π : B → nat) (σ : A → nat) (l : list A) :
  (∀ a b, F a = Some b → π b = σ a) → sublist (map π (omap F l)) (map σ l).
Proof.
  intros HF. induction l as [|a l IH]; simpl; [constructor|].
  destruct (F a) as [b|] eqn:E; simpl; [rewrite (HF _ _ E); by apply sublist_skip|by apply sublist_cons].
Qed.

Lemma by_type_labels_NoDup t : NoDup (by_type_labels t).
Proof.
  apply NoDup_ListNoDup, (NoDup_map_inv (λ l : Label, l.1.1)), NoDup_ListNoDup.
  eapply sublist_NoDup; [|unfold by_type_labels; apply (sublist_map_omap _ _ fst)].
  - rewrite (imap_ext _ (λ i x, (0 + i, x))) by done. rewrite map_fst_imap_shift. apply NoDup_seq.
  - intros [i h] b. simpl. by destruct (Nat.ltb 0 h); [intros [= <-]|].
Qed.

Lemma percentage_zero total : (percentage 0 total == 0)%Q.
Proof. unfold percentage, Qnat. simpl. unfold Qdiv. ring. Qed.

(** ** The table of chart 3 in processEvacuate.py *)

Lemma lookup_map_Some {A B} (f : A → B) (l : list A) g x :
  l !! g = Some x → map f l !! g = Some (f x).
Proof. induction l as [|y l IH] in g |- *; destruct g; simpl; naive_solver. Qed.

Lemma pair_count_absent p c (ps : list (string * string)) :
  c ∉ map snd ps → pair_count (p, c) ps = 0.
Proof.
  intros Hc. unfold pair_count, count_if. rewrite (proj2 (filter_nil_false _ _)); [done|].
  intros [p' c'] Hin. apply bool_decide_eq_false_2. intros [= -> ->].
  apply Hc, list_elem_of_In, in_map_iff. exists (p, c). done.
Qed.

Section ByTypeTable.
  Context `{SA : SortAlg}.

Lemma crosstab_wf ps : table_rows_wf (crosstab ps).
  Proof. unfold table_rows_wf, crosstab; simpl. by rewrite length_map. Qed.

Lemma by_type_table_wf ms : table_rows_wf (by_type_table ms).
  Proof.
    unfold table_rows_wf, by_type_table, reindex_columns; simpl.
    rewrite length_map. apply crosstab_wf.
  Qed.

Lemma by_type_table_columns ms : t_columns (by_type_table ms) = EVAC_ORDER.
  Proof. done. Qed.

  (** The row of a player type in the reindexed table: its count with each
      choice of [EVAC_ORDER], 0 where no row has it. *)
Lemma by_type_table_row ms g p :
    t_index (by_type_table ms) !! g = Some p →
    t_rows (by_type_table ms) !! g =
      Some (map (λ o, pair_count (p, o) (type_choice_pairs ms)) EVAC_ORDER).
  Proof.
    set (ps := type_choice_pairs ms). intros Hg.
    unfold by_type_table, reindex_columns, crosstab in *; cbn [t_index t_rows t_columns] in *.
    rewrite (lookup_map_Some _ _ _ _ (lookup_map_Some _ _ _ _ Hg)). f_equal.
    apply map_ext_in. intros o _.
    destruct (list_find (λ c, c = o) _) as [[j c]|] eqn:Hf.
    - apply list_find_Some in Hf as (Hj & -> & _).
      rewrite (nth_lookup_Some _ _ _ _ (lookup_map_Some _ _ _ _ Hj)). done.
    - symmetry. apply pair_count_absent. intros Ho.
      apply list_find_None in Hf. rewrite Forall_forall in Hf. apply (Hf o); [|done].
      rewrite (sort_with_perm String.leb _), elem_of_pd_unique. done.
  Qed.

Lemma by_type_iloc ms g j p c :
    t_index (by_type_table ms) !! g = Some p → EVAC_ORDER !! j = Some c →
    iloc (by_type_table ms) g j = pair_count (p, c) (type_choice_pairs ms).
  Proof.
    intros Hg Hj. unfold iloc. rewrite (nth_lookup_Some _ _ _ _ (by_type_table_row _ _ _ Hg)).
    apply nth_lookup_Some. by apply (lookup_map_Some (λ o, pair_count (p, o) _)).
  Qed.

Lemma by_type_total ms g p :
    t_index (by_type_table ms) !! g = Some p →
    nth g (row_totals (by_type_table ms)) 0 =
      sum_list (map (λ o, pair_count (p, o) (type_choice_pairs ms)) EVAC_ORDER).
  Proof.
    intros Hg. apply nth_lookup_Some. unfold row_totals.
    by apply lookup_map_Some, by_type_table_row.
  Qed.

Lemma pair_count_le_total p j c ps :
    EVAC_ORDER !! j = Some c →
    pair_count (p, c) ps ≤ sum_list (map (λ o, pair_count (p, o) ps) EVAC_ORDER).
  Proof. destruct j as [|[|]]; simpl; intros; simplify_eq; lia. Qed.

Lemma by_type_labels_char ms i count pct :
    let t := by_type_table ms in
    let n := length (t_index t) in
    let ps := type_choice_pairs ms in
    In (i, count, pct) (by_type_labels t) ↔
      ∃ p c, t_index t !! (i mod n) = Some p ∧ EVAC_ORDER !! (i / n) = Some c ∧
        count = pair_count (p, c) ps ∧ 0 < count ∧
        pct = percentage count (sum_list (map (λ o, pair_count (p, o) ps) EVAC_ORDER)).
  Proof.
    intros t n ps. subst t n ps. pose proof (by_type_table_wf ms) as Hw.
    destruct (patch_index_roundtrip_core _ Hw) as [_ Hrt].
    rewrite (by_type_labels_In _ _ _ _ Hw). rewrite (length_patches _ Hw).
    rewrite by_type_table_columns. split.
    - intros (Hi & -> & Hc & ->). rewrite (length_patches _ Hw) in Hrt.
      destruct (Hrt i Hi) as (Hg & Hj & _ & Heq). rewrite <- Heq in Hc |- *.
      destruct (lookup_lt_is_Some_2 (t_index _) (i mod _) Hg) as [p Hp].
      destruct (lookup_lt_is_Some_2 EVAC_ORDER (i / _) Hj) as [c Hc'].
      exists p, c. rewrite (by_type_iloc _ _ _ _ _ Hp Hc') in Hc |- *.
      rewrite (by_type_total _ _ _ Hp). split_and!; try done.
      pose proof (pair_count_le_total p _ _ (type_choice_pairs ms) Hc').
      cbv zeta. by rewrite (proj2 (Nat.ltb_lt _ _)) by lia.
    - intros (p & c & Hp & Hc' & -> & Hc & ->).
      pose proof (lookup_lt_Some _ _ _ Hp) as Hg. pose proof (lookup_lt_Some _ _ _ Hc') as Hj.
      assert (i < length EVAC_ORDER * length (t_index (by_type_table ms))) as Hi.
      { pose proof (Nat.div_mod_eq i (length (t_index (by_type_table ms)))) as Hdm.
        change (length EVAC_ORDER) with 2 in *. nia. }
      rewrite (length_patches _ Hw) in Hrt. destruct (Hrt i Hi) as (_ & _ & _ & <-).
      rewrite (by_type_iloc _ _ _ _ _ Hp Hc'), (by_type_total _ _ _ Hp). split_and!; try done.
      pose proof (pair_count_le_total p _ _ (type_choice_pairs ms) Hc').
      cbv zeta. by rewrite (proj2 (Nat.ltb_lt _ _)) by lia.
  Qed.

  (** C23: Each number written on chart 3 of processEvacuate.py sits on the bar
      of a player type [p] and a choice [c] of [EVAC_ORDER]: it is the
      number of merged rows with that type and choice, positive, and its
      percentage is that number over the rows of type [p] whose choice is
      in [EVAC_ORDER]. *)
Theorem by_type_labels_spec ms i count pct :
    let t := by_type_table ms in
    let n := length (t_index t) in
    let ps := type_choice_pairs ms in
    In (i, count, pct) (by_type_labels t) ↔
      ∃ p c, t_index t !! (i mod n) = Some p ∧ EVAC_ORDER !! (i / n) = Some c ∧
        count = pair_count (p, c) ps ∧ 0 < count ∧
        pct = percentage count (sum_list (map (λ o, pair_count (p, o) ps) EVAC_ORDER)).
  Proof. apply by_type_labels_char. Qed.

  (** The labels of one player type's bars: one per choice of
      [EVAC_ORDER] that some of its rows have, at patch [j * n + g]. *)
Lemma by_type_group_labels ms g p :
    let n := length (t_index (by_type_table ms)) in
    let ps := type_choice_pairs ms in
    let T := sum_list (map (λ o, pair_count (p, o) ps) EVAC_ORDER) in
    let bar j c := let k := pair_count (p, c) ps in
                   if Nat.ltb 0 k then [(j * n + g, k, percentage k T)] else [] in
    t_index (by_type_table ms) !! g = Some p →
    List.filter (λ l : Label, Nat.eqb (l.1.1 mod n) g) (by_type_labels (by_type_table ms)) ≡ₚ
      bar 0 "Yep, evacuate!" ++ bar 1 "Heck no! dont evacuate".
  Proof.
    intros n ps T bar Hp. pose proof (lookup_lt_Some _ _ _ Hp) as Hg. fold n in Hg.
    assert (Hmod : ∀ j, (j * n + g) mod n = g ∧ (j * n + g) / n = j).
    { intros j. replace (j * n + g) with (g + j * n) by lia.
      rewrite Nat.Div0.mod_add, Nat.mod_small, Nat.div_add, Nat.div_small by lia. done. }
    apply NoDup_Permutation.
    - apply NoDup_ListNoDup, List.NoDup_filter, NoDup_ListNoDup, by_type_labels_NoDup.
    - unfold bar. repeat case_match; simpl; repeat constructor; set_solver by lia.
    - intros [[i count] pct]. rewrite !list_elem_of_In, filter_In, by_type_labels_char.
      fold n. cbn [fst snd]. rewrite Nat.eqb_eq, in_app_iff. unfold bar. split.
      + intros [(p' & c & Hp' & Hc & -> & Hpos & ->) Hi]. rewrite Hi, Hp in Hp'. injection Hp' as <-.
        pose proof (Nat.div_mod_eq i n) as Hdm. rewrite Hi, Nat.mul_comm in Hdm.
        destruct (i / n) as [|[|j]] eqn:Hj; simpl in Hc; simplify_eq; [left|right];
          rewrite (proj2 (Nat.ltb_lt _ _)) by done; by left.
      + assert (Hbar : ∀ j c, EVAC_ORDER !! j = Some c → In (i, count, pct) (bar j c) →
                  (∃ p0 c0, t_index (by_type_table ms) !! (i mod n) = Some p0 ∧
                     EVAC_ORDER !! (i / n) = Some c0 ∧ count = pair_count (p0, c0) ps ∧ 0 < count ∧
                     pct = percentage count (sum_list (map (λ o, pair_count (p0, o) ps) EVAC_ORDER))) ∧
                  i mod n = g).
        { intros j c Hc Hin. destruct (Hmod j) as [H0 H1]. unfold bar in Hin.
          destruct (Nat.ltb_spec 0 (pair_count (p, c) ps)); [|done].
          destruct Hin as [Heq|[]]. injection Heq as <- <- <-. rewrite H0, H1. eauto 10. }
        intros [Hin|Hin]; [by apply (Hbar 0 "Yep, evacuate!")|by apply (Hbar 1 "Heck no! dont evacuate")].
  Qed.

  (** The percentages written on the bars of one player type add up to
      100, when the type has a row whose choice is in [EVAC_ORDER]. *)
Theorem by_type_pct_sum ms g p :
    let t := by_type_table ms in
    let ps := type_choice_pairs ms in
    t_index t !! g = Some p →
    0 < sum_list (map (λ o, pair_count (p, o) ps) EVAC_ORDER) →
    (Qsum (map (λ l : Label, l.2)
             (List.filter (λ l : Label, Nat.eqb (l.1.1 mod length (t_index t)) g)
                (by_type_labels t))) == 100)%Q.
  Proof.
    intros t ps Hp Htot. subst t ps.
    rewrite (Qsum_perm _ _ (Permutation_map _ (by_type_group_labels ms g p Hp))).
    set (c0 := pair_count (p, "Yep, evacuate!") (type_choice_pairs ms)).
    set (c1 := pair_count (p, "Heck no! dont evacuate") (type_choice_pairs ms)).
    set (T := sum_list (map (λ o, pair_count (p, o) (type_choice_pairs ms)) EVAC_ORDER)) in *.
    assert (T = c0 + (c1 + 0)) as HT by done.
    transitivity (Qsum (map (λ c, percentage c T) [c0; c1])).
    - cbv zeta. destruct (Nat.ltb_spec 0 c0), (Nat.ltb_spec 0 c1); simpl;
        try replace c0 with 0 by lia; try replace c1 with 0 by lia;
        rewrite ?percentage_zero; ring.
    - rewrite Qsum_percentage by lia. change (sum_list [c0; c1]) with (c0 + (c1 + 0)).
      rewrite <- HT. apply percentage_total. lia.
  Qed.
End ByTypeTable.

(** ** Charts 1 and 2 *)

Section BarCharts.
  Context `{SA : SortAlg}.

  (** [value_counts().reindex(order, fill_value=0)] is the count of each
      element of [order]. *)
Lemma reindex_value_counts order xs :
    reindex order (value_counts xs) = map (λ o, (o, count_of o xs)) order.
  Proof.
    apply map_ext. intros o. f_equal.
    destruct (List.find _ _) as [[a c]|] eqn:Hf; simpl.
    - apply List.find_some in Hf as [Hin Heq]. apply String.eqb_eq in Heq. simpl in Heq. subst a.
      by apply value_counts_In in Hin as [_ ->].
    - unfold count_of, count_if. symmetry. apply length_zero_iff_nil, filter_nil_false.
      intros a Ha. apply bool_decide_eq_false_2. intros ->.
      assert (In (o, count_of o xs) (value_counts xs)) as Hin by (by apply value_counts_In).
      apply (List.find_none _ _ Hf) in Hin. simpl in Hin. by rewrite String.eqb_refl in Hin.
  Qed.

Lemma zip_with_map_r {A B C} (f : A → B → C) (g : A → B) (l : list A) :
    zip_with f l (map g l) = map (λ x, f x (g x)) l.
  Proof. induction l as [|x l IH]; simpl; [done|]. by rewrite IH. Qed.

  (** The statement of [evacuation_overall_closed], shared by the lemmas that build on it. *)
Lemma evacuation_overall_closed_core ms :
    let xs := evacuate_choice_col ms in
    let yes := count_of "Yep, evacuate!" xs in
    let no := count_of "Heck no! dont evacuate" xs in
    let share c := if Nat.eqb (yes + no) 0 then None else Some (percentage c (yes + no)) in
    evacuation_overall ms =
      Ok [mkBar "Yep, evacuate!" yes (share yes) "lightgreen";
          mkBar "Heck no! dont evacuate" no (share no) "coral"].
  Proof.
    intros xs yes no share. unfold evacuation_overall.
    rewrite reindex_value_counts. cbn -[count_of percentage]. fold xs yes no.
    by rewrite Nat.add_0_r.
  Qed.

  (** C24: Chart 2 of processEvacuate.py in closed form: "Yep, evacuate!" in
      light green on the left, "Heck no! dont evacuate" in coral on the
      right, each with its number of merged rows and its share of the two;
      any other choice is left out, and with none of the two both shares
      are NaN. *)
Theorem evacuation_overall_closed ms :
    let xs := evacuate_choice_col ms in
    let yes := count_of "Yep, evacuate!" xs in
    let no := count_of "Heck no! dont evacuate" xs in
    let share c := if Nat.eqb (yes + no) 0 then None else Some (percentage c (yes + no)) in
    evacuation_overall ms =
      Ok [mkBar "Yep, evacuate!" yes (share yes) "lightgreen";
          mkBar "Heck no! dont evacuate" no (share no) "coral"].
    Proof. apply evacuation_overall_closed_core. Qed.

  (** Chart 1: one sky-blue bar per distinct non-missing player type, with
      its number of merged rows and its share of the non-missing types;
      the shares add up to 100. *)
Theorem player_breakdown_spec ms :
    let xs := player_type_col ms in
    (∀ b, In b (player_breakdown ms) ↔
       In (bar_x b) xs ∧ bar_count b = count_of (bar_x b) xs ∧
       bar_pct b = Some (percentage (bar_count b) (length xs)) ∧ bar_color b = "skyblue") ∧
    NoDup (map bar_x (player_breakdown ms)) ∧
    (xs ≠ [] → (Qsum (omap bar_pct (player_breakdown ms)) == 100)%Q).
  Proof.
    intros xs. unfold player_breakdown. fold xs. rewrite value_counts_total, zip_with_map_r.
    set (F := λ x : string * nat, let '(a, v) := x in mkBar a v (Some (percentage v (length xs))) "skyblue").
    erewrite map_ext with (g := F) by (by intros [a v]).
    split_and!.
    - intros [a v p c]. rewrite in_map_iff. split.
      + intros ([a' v'] & [= <- <- <- <-] & Hin). apply value_counts_In in Hin as [? ->]. done.
      + simpl. intros (Ha & -> & -> & ->). exists (a, count_of a xs). split; [done|].
        by apply value_counts_In.
    - rewrite map_map. erewrite map_ext with (g := fst) by (by intros [a v]).
      apply value_counts_keys_NoDup.
    - intros Hne. assert (length xs ≠ 0) as Hn by (destruct xs; simpl; [done|lia]).
      rewrite <- (value_counts_pct_sum xs Hn).
      enough (omap bar_pct (map F (value_counts xs)) =
              map (λ ac, percentage ac.2 (length xs)) (value_counts xs)) as -> by done.
      induction (value_counts xs) as [|[a v] l IH]; simpl; [done|]. f_equal. apply IH.
  Qed.
End BarCharts.

(** ** [generate_plots] *)

Section GeneratePlots.
  Context `{SA : SortAlg}.

  (** [generate_plots] never raises: it draws nothing exactly on a missing
      or empty frame, and otherwise the three charts, chart 3 coloured
      light green and coral by column. *)
Theorem generate_plots_total df :
    (generate_plots df = Ok None ↔ df = None ∨ df = Some []) ∧
    ∀ ms, df = Some ms → ms ≠ [] →
      ∃ overall, evacuation_overall ms = Ok overall ∧
        generate_plots df =
          Ok (Some (mkCharts (player_breakdown ms) overall (by_type_table ms)
                      ["lightgreen"; "coral"] (by_type_labels (by_type_table ms)))).
  Proof.
    destruct df as [[|m ms]|]; unfold generate_plots.
    - split; [naive_solver|]. intros ? [= <-]. done.
    - rewrite (evacuation_overall_closed_core (m :: ms)).
      change (res_map (dict_get COLOR_MAP) EVAC_ORDER) with (Ok ["lightgreen"; "coral"] : Result (list string)).
      split; [|intros ? [= <-] _; eexists; split; [apply evacuation_overall_closed_core|reflexivity]]. split; [done|]. intros [|]; done.
    - split; [naive_solver|done].
  Qed.
End GeneratePlots.

(** ** The first version's charts *)

Definition mk_merged (p e : string) : Merged := mkMerged (Some "u") (Some p) (Some e).

(** Two evacuation answers out of three. *)
Definition plots_yes_majority : list Merged :=
  [mk_merged "Parent" "Yep, evacuate!"; mk_merged "Student" "Yep, evacuate!";
   mk_merged "Parent" "Heck no! dont evacuate"].

(** Two non-evacuation answers, one evacuation answer and a choice
    outside [EVAC_ORDER]. *)
Definition plots_no_majority : list Merged :=
  [mk_merged "Parent" "Heck no! dont evacuate"; mk_merged "Parent" "Heck no! dont evacuate";
   mk_merged "Student" "Yep, evacuate!"; mk_merged "Parent" "Maybe"].

(** The first version colours chart 2 by rank and orders it by count: when
    most users evacuate, "Yep, evacuate!" is drawn in coral (the colour
    processEvacuate.py gives "Heck no! dont evacuate"); when most do not,
    "Heck no! dont evacuate" is drawn on the left, and its chart 3 puts the
    columns in alphabetical order, "Heck no! dont evacuate" first.
    processEvacuate.py keeps "Yep, evacuate!" on the left in light green
    and drops the choice "Maybe" from charts 2 and 3, so the two
    "Heck no!" answers of the three Parent rows show as 100%. *)
Theorem plots_first_version_scenario :
  map (λ b, (bar_x b, bar_color b)) (@evacuation_overall_first insertion_sort_alg plots_yes_majority) =
    [("Yep, evacuate!", "coral"); ("Heck no! dont evacuate", "lightgreen")] ∧
  @evacuation_overall insertion_sort_alg plots_yes_majority =
    Ok [mkBar "Yep, evacuate!" 2 (Some (percentage 2 3)) "lightgreen";
        mkBar "Heck no! dont evacuate" 1 (Some (percentage 1 3)) "coral"] ∧
  map bar_x (@evacuation_overall_first insertion_sort_alg plots_no_majority) =
    ["Heck no! dont evacuate"; "Yep, evacuate!"; "Maybe"] ∧
  t_columns (@by_type_table_first insertion_sort_alg plots_no_majority) =
    ["Heck no! dont evacuate"; "Maybe"; "Yep, evacuate!"] ∧
  map (λ b, (bar_x b, bar_count b)) (@player_breakdown insertion_sort_alg plots_no_majority) =
    [("Parent", 3); ("Student", 1)] ∧
  map (λ l : Label, (l.1.1, l.1.2, Qred l.2))
      (by_type_labels (@by_type_table insertion_sort_alg plots_no_majority)) =
    [(1, 1, 100%Q); (2, 2, 100%Q)].
Proof. split_and!; vm_compute; reflexivity. Qed.

Lemma patch_index_roundtrip_witness :
  let t := @by_type_table insertion_sort_alg plots_no_majority in
  table_rows_wf t ∧ 2 < length (patches t) ∧
  iloc t (2 mod length (t_index t)) (2 / length (t_index t)) = nth 2 (patches t) 0.
Proof.
  intros t. assert (table_rows_wf t) as Hw by (vm_compute; reflexivity).
  assert (2 < length (patches t)) as Hi by (vm_compute; lia).
  split; [exact Hw|split; [exact Hi|]].
  exact (proj2 (proj2 (proj2 (proj2 (patch_index_roundtrip t Hw) 2 Hi)))).
Defined.

Lemma by_type_pct_sum_witness :
  let t := @by_type_table insertion_sort_alg plots_no_majority in
  let ps := type_choice_pairs plots_no_majority in
  t_index t !! 0 = Some "Parent" ∧
  0 < sum_list (map (λ o, pair_count ("Parent", o) ps) EVAC_ORDER) ∧
  (Qsum (map (λ l : Label, l.2)
           (List.filter (λ l : Label, Nat.eqb (l.1.1 mod length (t_index t)) 0)
              (by_type_labels t))) == 100)%Q.
Proof.
  intros t ps. assert (t_index t !! 0 = Some "Parent") as Hp by (vm_compute; reflexivity).
  assert (0 < sum_list (map (λ o, pair_count ("Parent", o) ps) EVAC_ORDER)) as Ht by (vm_compute; lia).
  split; [exact Hp|split; [exact Ht|exact (by_type_pct_sum _ 0 "Parent" Hp Ht)]].
Defined.

Lemma player_breakdown_spec_witness :
  player_type_col plots_no_majority ≠ [] ∧
  (Qsum (omap bar_pct (@player_breakdown insertion_sort_alg plots_no_majority)) == 100)%Q.
Proof.
  assert (player_type_col plots_no_majority ≠ []) as Hne by (vm_compute; discriminate).
  split; [exact Hne|exact (proj2 (proj2 (player_breakdown_spec plots_no_majority)) Hne)].
Defined.

Lemma generate_plots_total_witness :
  plots_yes_majority ≠ [] ∧
  ∃ overall, @evacuation_overall insertion_sort_alg plots_yes_majority = Ok overall ∧
    @generate_plots insertion_sort_alg (Some plots_yes_majority) =
      Ok (Some (mkCharts (player_breakdown plots_yes_majority) overall (by_type_table plots_yes_majority)
                  ["lightgreen"; "coral"] (by_type_labels (by_type_table plots_yes_majority)))).
Proof.
  assert (plots_yes_majority ≠ []) as Hne by discriminate.
  split; [exact Hne|exact (proj2 (generate_plots_total (Some plots_yes_majority)) _ eq_refl Hne)].
Defined.

(** The text processEvacuate.py writes on the bars: two evacuation
    answers of three give 66.7% and 33.3%, the Parent type splits 50.0%
    and 50.0%, and a frame with no answer of [EVAC_ORDER] writes
    [nan] under its zero counts. *)
Example chart_texts_example :
  map bar_text (@player_breakdown insertion_sort_alg plots_yes_majority) =
    ["2" +:+ nl +:+ "(66.7%)"; "1" +:+ nl +:+ "(33.3%)"] ∧
  match @evacuation_overall insertion_sort_alg plots_yes_majority with
  | Ok bs => map bar_text bs = ["2" +:+ nl +:+ "(66.7%)"; "1" +:+ nl +:+ "(33.3%)"]
  | Err _ => False
  end ∧
  map label_text (by_type_labels (@by_type_table insertion_sort_alg plots_yes_majority)) =
    ["1" +:+ nl +:+ "(50.0%)"; "1" +:+ nl +:+ "(100.0%)"; "1" +:+ nl +:+ "(50.0%)"] ∧
  match @evacuation_overall insertion_sort_alg [mk_merged "Parent" "Maybe"] with
  | Ok bs => map bar_text bs = ["0" +:+ nl +:+ "(nan%)"; "0" +:+ nl +:+ "(nan%)"]
  | Err _ => False
  end.
Proof. split_and!; vm_compute; reflexivity. Qed.

