(* ===== verification/Effects.v ===== *)
(** * Effects: what a script does to the outside world

    The scripts print lines, call an HTTP server, and create and write
    files; Python exceptions abort them unless an [except] clause catches
    them.  A run is modelled as a computation in the monad [Eff]: it
    appends [Event]s to a trace and ends normally or with an exception
    ([Exc]).  The monad is given to stdpp's [MRet]/[MBind] classes, so
    the scripts are written with stdpp's [x ← m; k] notation.  The
    contents of a file after a run, and the lines printed, are read off
    the trace. *)
From S2P Require Import Prelude.

(** ** Events and exceptions *)

(** A header or query parameter of an HTTP request. *)
Definition Field := (string * string)%type.

Inductive Event :=
  | EPrint (line : string)                         (* print(...) *)
  | EPost (url : string)                           (* requests.post *)
  | EGet (url : string) (headers params : list Field) (* requests.get *)
  | EOpen (path : string)                          (* open(path, 'w' / 'wb') truncates *)
  | EWrite (path : string) (data : string)         (* f.write(data) *)
  | ESavefig (path : string)                       (* plt.savefig(path) *)
  | EStdout (data : string)                        (* sys.stdout.write / to_csv(sys.stdout) *)
  | EStderr (data : string).                       (* sys.stderr.write *)

Inductive Exc :=
  | RequestException (msg : string)  (* requests.exceptions.RequestException and subclasses *)
  | AttributeError (msg : string)
  | FileNotFoundError (path : string)
  | PandasError (f : Fail)           (* an error of the data pipeline (Prelude.Fail) *)
  | ParserError (msg : string)       (* pd.errors.ParserError of pd.read_csv *)
  | SystemExit (code : nat).         (* sys.exit(code): a BaseException, not an Exception *)

(** [except Exception] catches every exception but [SystemExit]. *)
Definition is_exception (e : Exc) : bool :=
  match e with SystemExit _ => false | _ => true end.

(** ** The monad *)

Definition Eff (A : Type) : Type := list Event → list Event * (Exc + A).

#[export] Instance eff_ret : MRet Eff := λ A a tr, (tr, inr a).
#[export] Instance eff_bind : MBind Eff := λ A B f m tr,
  match m tr with
  | (tr', inl e) => (tr', inl e)
  | (tr', inr a) => f a tr'
  end.

Definition emit (e : Event) : Eff unit := λ tr, (tr ++ [e], inr tt).

Definition throw {A} (e : Exc) : Eff A := λ tr, (tr, inl e).

(** [try: m except ...]: the handler returns [None] for an exception its
    clauses do not name, which then propagates. *)
Definition catch {A} (m : Eff A) (handler : Exc → option (Eff A)) : Eff A := λ tr,
  match m tr with
  | (tr', inl e) => match handler e with Some h => h tr' | None => (tr', inl e) end
  | res => res
  end.

Definition sys_exit {A} (code : nat) : Eff A := throw (SystemExit code).

(** [for x in l: f(x)] *)
Fixpoint for_each {A} (l : list A) (f : A → Eff unit) : Eff unit :=
  match l with
  | [] => mret tt
  | x :: l => _ ← f x; for_each l f
  end.

(** A run from the empty trace. *)
Definition run {A} (m : Eff A) : list Event * (Exc + A) := m [].

(** ** Reading a trace *)

(** The lines printed. *)
Definition printed (tr : list Event) : list string :=
  omap (λ e, match e with EPrint s => Some s | _ => None end) tr.

(** The contents of [path] after the trace, starting from [init]:
    opening truncates, writing appends. *)
Definition file_after (path : string) (init : option string) (tr : list Event) : option string :=
  foldl (λ st e, match e with
                 | EOpen p => if String.eqb p path then Some "" else st
                 | EWrite p d => if String.eqb p path then Some (default "" st ++ d)%string else st
                 | _ => st
                 end) init tr.

(** What the process writes to standard output: [print] adds a newline. *)
Definition stdout_text (tr : list Event) : string :=
  String.concat "" (omap (λ e, match e with
                               | EPrint s => Some (s +:+ nl)
                               | EStdout s => Some s
                               | _ => None
                               end) tr).

Definition stderr_text (tr : list Event) : string :=
  String.concat "" (omap (λ e, match e with EStderr s => Some s | _ => None end) tr).

(** The exit status of the process: 0 on a normal end, the code of
    [sys.exit], and 1 for an uncaught exception (the traceback). *)
Definition exit_status {A} (res : Exc + A) : nat :=
  match res with
  | inr _ => 0
  | inl (SystemExit n) => n
  | inl _ => 1
  end.

Lemma stderr_text_EStdouts {A} (g : A → string) (xs : list A) :
  stderr_text (map (λ x, EStdout (g x)) xs) = "".
Proof. unfold stderr_text. by induction xs. Qed.

(** Whether the trace touches [path] at all. *)
Definition touches (path : string) (tr : list Event) : bool :=
  existsb (λ e, match e with
                | EOpen p | EWrite p _ | ESavefig p => String.eqb p path
                | _ => false
                end) tr.

(** ** Running the combinators *)

Lemma for_each_emit {A} (l : list A) (ev : A → Event) tr :
  for_each l (λ x, emit (ev x)) tr = (tr ++ map ev l, inr tt).
Proof.
  induction l as [|x l IH] in tr |- *; simpl; [by rewrite app_nil_r|].
  unfold mbind, eff_bind at 1. unfold emit at 1. rewrite IH. by rewrite <- app_assoc.
Qed.

Lemma touches_app path tr1 tr2 : touches path (tr1 ++ tr2) = touches path tr1 || touches path tr2.
Proof. unfold touches. by rewrite existsb_app. Qed.

Lemma emit_run e tr : emit e tr = (tr ++ [e], inr tt).
Proof. done. Qed.

(** [emit] is unfolded only through [emit_run], so that [for_each_emit]
    still applies to a loop of writes. *)
Arguments emit : simpl never.

(** Runs the monad's operations one step at a time. *)
Ltac eff_step :=
  repeat first [ rewrite emit_run
               | rewrite for_each_emit
               | progress (unfold run, catch, mbind, eff_bind, mret, eff_ret, throw; simpl) ].

Lemma printed_map_EWrite path ds : printed (map (EWrite path) ds) = [].
Proof. by induction ds. Qed.

(** The file contents after writing chunks to a file just opened. *)
Lemma file_after_open_writes path init pre ds post :
  (∀ e, In e post → match e with EOpen p | EWrite p _ => p ≠ path | _ => True end) →
  file_after path init (pre ++ [EOpen path] ++ map (EWrite path) ds ++ post) =
    Some (foldr String.append "" ds).
Proof.
  intros Hpost. unfold file_after. rewrite !foldl_app. simpl. rewrite String.eqb_refl.
  assert (∀ s, foldl (λ st e, match e with
                 | EOpen p => if String.eqb p path then Some "" else st
                 | EWrite p d => if String.eqb p path then Some (default "" st ++ d)%string else st
                 | _ => st
                 end) (Some s) (map (EWrite path) ds) = Some (s ++ foldr String.append "" ds)%string) as Hw.
  { induction ds as [|d ds IH]; intros s; simpl; [by rewrite string_app_nil_r|].
    rewrite String.eqb_refl, IH. simpl. by rewrite string_app_assoc. }
  rewrite Hw. simpl. clear Hw.
  generalize (foldr String.append "" ds). induction post as [|e post IH]; intros s; simpl; [done|].
  assert (Hin : ∀ e', In e' post → match e' with EOpen p | EWrite p _ => p ≠ path | _ => True end)
    by (intros; apply Hpost; by right).
  specialize (Hpost e (or_introl eq_refl)).
  destruct e as [| | |p|p d| | |]; simpl; try apply IH; try done;
    rewrite (proj2 (String.eqb_neq _ _) Hpost); by apply IH.
Qed.
