(* ===== verification/SummaryMain.v ===== *)
(** * SummaryMain: summarize_noki.py as a process

    The script as it runs: [process_data_from_stdin] (lines 5-21) reads
    standard input with [pd.read_csv] and turns its errors into a message
    on standard error and [sys.exit(1)]; [get_unique_answers_for_question]
    (lines 23-45) checks its two columns the same way; [generate_full_summary]
    (lines 47-86) wraps the summary in [try] with an [except KeyError] and
    an [except Exception] clause and prints the result with [to_csv]; the
    [__main__] block (lines 91-120) dispatches on [--filter-question].
    Each is an [Eff] computation over the pure model of Summary.v; the
    output text is read off the trace ([stdout_text], [stderr_text]) and
    the exit status off the result ([exit_status]). *)
From S2P Require Import Prelude SortValues DataFrame Summary Csv Effects.
From stdpp Require Import pretty.

(** ** Reading standard input *)

(** What [pd.read_csv(sys.stdin)] makes of the input: nothing to parse,
    a parser error with its message, or a frame.  The tokenizer and
    pandas' type inference are not modelled: the cells are the strings of
    the file. *)
Inductive CsvInput :=
  | NoData
  | Malformed (msg : string)
  | Parsed (f : Frame Cell).

Definition read_csv (inp : CsvInput) : Eff (Frame Cell) :=
  match inp with
  | NoData => throw (PandasError EmptyDataError)
  | Malformed msg => throw (ParserError msg)
  | Parsed f => mret f
  end.

(** [repr] of a string without quotes or backslashes, which is what
    [str] of a [KeyError] shows. *)
Definition py_repr (s : string) : string := "'" +:+ s +:+ "'".

Definition missing_message (m : list string) : string :=
  "Missing expected columns: " +:+ String.concat ", " m.

(** [str(e)] of the exceptions the handlers format. *)
Definition exc_str (e : Exc) : string :=
  match e with
  | PandasError (KeyError c) => py_repr c
  | PandasError (MissingColumns m) => py_repr (missing_message m)
  | PandasError (DateParseError s) => s
  | PandasError (TypeError msg) => msg
  | PandasError EmptyDataError => "No columns to parse from file"
  | ParserError msg | RequestException msg | AttributeError msg => msg
  | FileNotFoundError p => "[Errno 2] No such file or directory: " +:+ py_repr p
  | SystemExit n => pretty n
  end.

Definition msg_empty_input : string := "Error: No data to parse. The input CSV might be empty." +:+ nl.

Definition msg_read_error (what : string) : string :=
  "An unexpected error occurred while reading input: " +:+ what +:+ nl.

Definition msg_filter_columns : string :=
  "Error: 'question' or 'answer' column not found in the input data." +:+ nl.

Definition msg_key_error (what : string) : string :=
  "Error: " +:+ what +:+ ". Please ensure relevant columns exist in your CSV input." +:+ nl.

Definition msg_summary_error (what : string) : string :=
  "An unexpected error occurred during full summary generation: " +:+ what +:+ nl.

(** ** The functions of the script *)

(** Lines 13-21. *)
Definition process_data_from_stdin (inp : CsvInput) : Eff (Frame Cell) :=
  catch (read_csv inp) (λ e,
    match e with
    | PandasError EmptyDataError => Some (_ ← emit (EStderr msg_empty_input); sys_exit 1)
    | _ => if is_exception e then Some (_ ← emit (EStderr (msg_read_error (exc_str e))); sys_exit 1)
           else None
    end).

(** Lines 35-45: the column check writes its message and exits. *)
Definition get_unique_answers_io (df : Frame Cell) (question_text : string) : Eff (list string) :=
  match get_unique_answers_for_question df question_text with
  | Ok answers => mret answers
  | Err _ => _ ← emit (EStderr msg_filter_columns); sys_exit 1
  end.

(** The columns of [summary_df] after [reset_index()], and its rows as
    the fields [to_csv] writes. *)
Definition summary_columns : list string := ["hashed_user_id"; "created_at"; "question"; "answer"].

Definition summary_fields (row : SummaryRow) : list string :=
  [row.1.1; row.1.2.1; row.1.2.2; row.2].

Section Main.
  Context `{SA : SortAlg}.

  (** Lines 57-86: the [KeyError] raised for missing columns and any other
      exception (the [TypeError] of the join) are caught and reported. *)
Definition generate_full_summary_io (df : Frame Cell) : Eff unit :=
    catch (match generate_full_summary df with
           | Ok out => emit (EStdout (to_csv summary_columns (map summary_fields out)))
           | Err e => throw (PandasError e)
           end)
      (λ e,
        match e with
        | PandasError (MissingColumns _) =>
            Some (_ ← emit (EStderr (msg_key_error (exc_str e))); sys_exit 1)
        | _ => if is_exception e then Some (_ ← emit (EStderr (msg_summary_error (exc_str e))); sys_exit 1)
               else None
        end).

  (** [if args.filter_question:] an absent or empty argument is falsy. *)
Definition filter_arg (filter_question : option string) : option string :=
    match filter_question with
    | Some q => if String.eqb q "" then None else Some q
    | None => None
    end.

  (** The [__main__] block, lines 106-120. *)
Definition summarize_noki (filter_question : option string) (inp : CsvInput) : Eff unit :=
    data_frame ← process_data_from_stdin inp;
    match filter_arg filter_question with
    | Some q =>
        answers ← get_unique_answers_io data_frame q;
        for_each answers (λ answer, emit (EPrint answer))
    | None => generate_full_summary_io data_frame
    end.
End Main.

(** ** The outcome of a run, case by case

    [summarize_noki_outcome] is the trace and result of every run, read
    from the pure model: the table the monadic script is proved to
    implement ([summarize_noki_refines]). *)
Definition summarize_noki_outcome `{SortAlg} (filter_question : option string) (inp : CsvInput)
    : list Event * (Exc + unit) :=
  let fail msg := ([EStderr msg], inl (SystemExit 1)) in
  match inp with
  | NoData => fail msg_empty_input
  | Malformed m => fail (msg_read_error m)
  | Parsed f =>
      match filter_arg filter_question with
      | Some q =>
          match get_unique_answers_for_question f q with
          | Ok answers => (map EPrint answers, inr tt)
          | Err _ => fail msg_filter_columns
          end
      | None =>
          match generate_full_summary f with
          | Ok out => ([EStdout (to_csv summary_columns (map summary_fields out))], inr tt)
          | Err (MissingColumns m) => fail (msg_key_error (py_repr (missing_message m)))
          | Err e => fail (msg_summary_error (exc_str (PandasError e)))
          end
      end
  end.

(** What a run succeeds on: a frame, and the columns and answers its mode needs. *)
Definition summarize_noki_ok `{SortAlg} (filter_question : option string) (inp : CsvInput) : Prop :=
  match inp with
  | Parsed f =>
      match filter_arg filter_question with
      | Some _ => "question" ∈ columns f ∧ "answer" ∈ columns f
      | None =>
          missing_columns ["hashed_user_id"; "created_at"; "question"; "answer"] (columns f) = [] ∧
          ¬ ∃ r, In r (rows f) ∧ summary_key r ≠ None ∧ answer r = NaN
      end
  | _ => False
  end.

Section MainTheory.
  Context `{SA : SortAlg}.

Lemma summarize_noki_refines_core q inp :
    run (summarize_noki q inp) = summarize_noki_outcome q inp.
  Proof.
    unfold summarize_noki, summarize_noki_outcome, process_data_from_stdin, read_csv.
    destruct inp as [|m|f]; [eff_step; done|eff_step; done|].
    destruct (filter_arg q) as [q'|]; unfold get_unique_answers_io, generate_full_summary_io; eff_step.
    - destruct (get_unique_answers_for_question f q'); eff_step; done.
    - destruct (generate_full_summary f) as [out|[]]; eff_step; done.
  Qed.

Lemma stdout_text_EPrints answers :
    stdout_text (map EPrint answers) = String.concat "" (map (λ a, a +:+ nl) answers).
  Proof. unfold stdout_text. f_equal. induction answers as [|a l IH]; [done|]. simpl. by f_equal. Qed.

Lemma stderr_text_EPrints answers : stderr_text (map EPrint answers) = "".
  Proof. unfold stderr_text. by induction answers. Qed.

Lemma get_unique_answers_Ok_iff f q :
    (∃ answers, get_unique_answers_for_question f q = Ok answers) ↔
    "question" ∈ columns f ∧ "answer" ∈ columns f.
  Proof.
    unfold get_unique_answers_for_question.
    do 2 case_bool_decide; naive_solver.
  Qed.
End MainTheory.

Lemma app_nonempty_l (s1 s2 : string) : s1 ≠ "" → s1 +:+ s2 ≠ "".
Proof. destruct s1; [done|]. by rewrite string_app_cons. Qed.

Lemma stdout_text_EStdout s : stdout_text [EStdout s] = s.
Proof. done. Qed.

Lemma stderr_text_EStderr s : stderr_text [EStderr s] = s.
Proof. done. Qed.

(** Every message of the script is a non-empty line. *)
Ltac message_nonempty :=
  repeat first [ rewrite stderr_text_EStderr | unfold msg_empty_input, msg_read_error,
                 msg_filter_columns, msg_key_error, msg_summary_error ];
  apply app_nonempty_l; discriminate.

Section MainClaims.
  Context `{SA : SortAlg}.

  (** C18: summarize_noki.py as a process implements the case table
      [summarize_noki_outcome]: an empty or unparsable input is reported
      on stderr with exit status 1; with a non-empty [--filter-question]
      the distinct answers are printed one per line, or the missing-column
      message is written and the run exits with 1; otherwise the summary
      is written with [to_csv], or the [KeyError] (quoted by [str]) or the
      join's [TypeError] is reported with exit status 1. *)
Theorem summarize_noki_refines q inp :
    run (summarize_noki q inp) = summarize_noki_outcome q inp.
  Proof. apply summarize_noki_refines_core. Qed.

  (** C19: Without [--filter-question], when the summary is computed the
      process exits with 0, writes nothing to stderr, and what it prints
      reads back as CSV to the header [hashed_user_id, created_at,
      question, answer] followed by one record per summary row, the joined
      answers in one field although they contain commas. *)
Theorem summarize_noki_csv_output q f out :
    filter_arg q = None → generate_full_summary f = Ok out →
    let '(tr, res) := run (summarize_noki q (Parsed f)) in
    exit_status res = 0 ∧ stderr_text tr = "" ∧
    read_csv_text (stdout_text tr) = summary_columns :: map summary_fields out.
  Proof.
    intros Hq Hs. rewrite summarize_noki_refines_core. unfold summarize_noki_outcome.
    rewrite Hq, Hs. split_and!; [done|done|]. apply read_csv_text_to_csv.
  Qed.

  (** A run exits with status 0 exactly when stdin holds a frame with
      the columns its mode needs and, without [--filter-question], no row
      with its three keys set has a NaN answer; it then writes nothing to
      stderr.  Otherwise it exits with status 1, prints nothing on stdout
      and writes a message to stderr: no run ends with an uncaught
      exception. *)
Theorem summarize_noki_exit q inp :
    let '(tr, res) := run (summarize_noki q inp) in
    (exit_status res = 0 ↔ summarize_noki_ok q inp) ∧
    ((exit_status res = 0 ∧ stderr_text tr = "") ∨
     (exit_status res = 1 ∧ stdout_text tr = "" ∧ stderr_text tr ≠ "")).
  Proof.
    rewrite summarize_noki_refines_core. unfold summarize_noki_outcome, summarize_noki_ok.
    destruct inp as [|m|f]; [split; [done|right; split_and!; [done|done|message_nonempty]]..|].
    destruct (filter_arg q) as [q'|].
    - pose proof (get_unique_answers_Ok_iff f q') as Hiff.
      destruct (get_unique_answers_for_question f q') as [answers|e];
        [split; [naive_solver|left; split; [done|apply stderr_text_EPrints]]|].
      split; [split; [done|intros ?; by destruct (proj2 Hiff)]|].
      right. split_and!; [done|done|message_nonempty].
    - pose proof (generate_full_summary_succeeds f) as Hiff.
      destruct (generate_full_summary f) as [out|[]]; [split; [naive_solver|by left]|..].
      all: split; [split; [done|intros ?; by destruct (proj2 Hiff)]|].
      all: right; split_and!; [done|done|message_nonempty].
  Qed.
End MainClaims.

(** ** Runs on concrete inputs *)

(** The summary of [noki_frame] as printed: the joined answers "A, B"
    hold the delimiter and are quoted. *)
Definition noki_summary_text : string :=
  "hashed_user_id,created_at,question,answer" +:+ nl +:+
  "u1,2026-01-01T08:00:00Z,Pet?,D" +:+ nl +:+
  "u1,2026-01-01T10:00:00Z,Pet?," +:+ str1 dq_char +:+ "A, B" +:+ str1 dq_char +:+ nl +:+
  "u2,2026-01-01T09:00:00Z,Pet?,C" +:+ nl.

Definition no_created_at_frame : Frame Cell :=
  mkFrame ["hashed_user_id"; "question"; "answer"] noki_rows.

Definition header_only_frame : Frame Cell := mkFrame noki_cols [].

  (** Runs of summarize_noki.py: the summary of a small export is
      printed with "A, B" quoted; a NaN answer in u2's group ends the run
      with the [TypeError] message naming item 1 and status 1; a missing
      [created_at] column is reported through [str] of the [KeyError],
      which wraps the message in quotes; [--filter-question] on a frame
      without an [answer] column writes a message that does not say which
      column is missing; a header-only input prints the header alone and
      exits with 0; an empty input exits with 1. *)
Theorem summarize_noki_scenario :
  run (@summarize_noki insertion_sort_alg None (Parsed noki_frame)) =
    ([EStdout noki_summary_text], inr tt) ∧
  run (@summarize_noki insertion_sort_alg None (Parsed noki_nan_frame)) =
    ([EStderr ("An unexpected error occurred during full summary generation: " +:+
               "sequence item 1: expected str instance, float found" +:+ nl)], inl (SystemExit 1)) ∧
  run (@summarize_noki insertion_sort_alg (Some "") (Parsed no_created_at_frame)) =
    ([EStderr ("Error: 'Missing expected columns: created_at'. " +:+
               "Please ensure relevant columns exist in your CSV input." +:+ nl)], inl (SystemExit 1)) ∧
  run (@summarize_noki insertion_sort_alg (Some "Pet?") (Parsed (mkFrame ["question"] noki_rows))) =
    ([EStderr ("Error: 'question' or 'answer' column not found in the input data." +:+ nl)],
     inl (SystemExit 1)) ∧
  run (@summarize_noki insertion_sort_alg None (Parsed header_only_frame)) =
    ([EStdout ("hashed_user_id,created_at,question,answer" +:+ nl)], inr tt) ∧
  run (@summarize_noki insertion_sort_alg (Some "Pet?") NoData) =
    ([EStderr ("Error: No data to parse. The input CSV might be empty." +:+ nl)], inl (SystemExit 1)).
Proof. split_and!; vm_compute; reflexivity. Qed.

Lemma summarize_noki_csv_output_witness :
  filter_arg None = None ∧ @generate_full_summary insertion_sort_alg noki_frame = Ok noki_summary ∧
  let '(tr, res) := run (@summarize_noki insertion_sort_alg None (Parsed noki_frame)) in
  exit_status res = 0 ∧ stderr_text tr = "" ∧
  read_csv_text (stdout_text tr) = summary_columns :: map summary_fields noki_summary.
Proof.
  assert (filter_arg None = None) as Hq by reflexivity.
  split; [exact Hq|split; [exact noki_full_summary|]].
  exact (summarize_noki_csv_output None noki_frame noki_summary Hq noki_full_summary).
Defined.
