(* ===== verification/BreakdownMain.v ===== *)
(** * BreakdownMain: geneteprocess.py and genetedatefilterprocess.py as processes

    Both scripts read standard input with [pd.read_csv], wrap their whole
    body in [try] with [except pd.errors.EmptyDataError] and
    [except Exception], and call [sys.exit(1)] inside the [try] on missing
    columns; genetedatefilterprocess.py has an inner [try] around the
    start-date filter that catches [ValueError] only.  [sys.exit] raises
    [SystemExit], which [except Exception] does not catch.  The bodies are
    [Eff] computations over the pure models of Breakdown.v and
    Conditional.v: the tables and sections those compute are written to
    stdout as the scripts write them, tables through [to_csv].

    The text of a float is the class [FloatFormat]: [float_repr] ([repr],
    what [to_csv] writes) and [float_2f] (["{:.2f}"]) of a percentage
    given as the exact rational of the pure models.  The theorems hold
    for every instance; [py_float_format] is Python's, computing the
    binary64 value of [count / total * 100] and its text (Float.v), and
    the concrete run at the end of the file uses it. *)
From S2P Require Import Prelude SortValues DataFrame Datetime Float Breakdown Conditional Csv Effects SummaryMain.

Class FloatFormat := {
  float_repr : Q → string;
  float_2f : Q → string
}.

(** Python's text of the percentages: [count / total * 100] in binary64
    (Float.v), written by [repr] (what [to_csv] writes for a float
    column) or by ["{:.2f}"]. *)
#[export] Instance py_float_format : FloatFormat := {|
  float_repr p := repr_float (py_percentage p);
  float_2f p := format_fixed 2 (py_percentage p)
|}.

Definition msg_unexpected (what : string) : string := "An unexpected error occurred: " +:+ what +:+ nl.

(** The [except] clauses shared by the two scripts (geneteprocess.py lines
    56-61, genetedatefilterprocess.py lines 139-144). *)
Definition breakdown_handler {A} (e : Exc) : option (Eff A) :=
  match e with
  | PandasError EmptyDataError => Some (_ ← emit (EStderr msg_empty_input); sys_exit 1)
  | _ => if is_exception e then Some (_ ← emit (EStderr (msg_unexpected (exc_str e))); sys_exit 1)
         else None
  end.

(** [sys.exit(1)] after the missing-column message, inside the [try]. *)
Definition require_columns (required : list string) (please : string) (f : Frame Cell) : Eff unit :=
  match missing_columns required (columns f) with
  | [] => mret tt
  | missing =>
      _ ← emit (EStderr ("Error: Missing expected columns: " +:+ String.concat ", " missing +:+
                         ". " +:+ please +:+ nl));
      sys_exit 1
  end.

Section Scripts.
  Context `{SA : SortAlg} `{FF : FloatFormat}.

  (** ** geneteprocess.py *)

Definition drought_columns : list string := ["hashed_user_id"; "answer"; "percentage"].

Definition drought_fields (row : string * string * Q) : list string :=
    let '(u, a, p) := row in [u; a; float_repr p].

Definition please_drought : string :=
    "Please ensure 'hashed_user_id', 'question', and 'answer' columns exist.".

  (** [calculate_drought_answer_percentages], lines 10-61. *)
Definition calculate_drought_answer_percentages_io (inp : CsvInput) : Eff unit :=
    catch
      (df ← read_csv inp;
       _ ← require_columns ["hashed_user_id"; "question"; "answer"] please_drought df;
       match List.filter (startswith "Now,") (rows df) with
       | [] => emit (EStdout ("No questions starting with 'Now,' found in the input." +:+ nl))
       | _ => emit (EStdout (to_csv drought_columns (map drought_fields (drought_percentages (rows df)))))
       end)
      breakdown_handler.

  (** ** genetedatefilterprocess.py *)

Definition please_datefilter : string :=
    "Please ensure 'hashed_user_id', 'question', 'answer', 'session_id', and 'created_at' columns exist.".

  (** One [sys.stdout.write] of a section: a message line, a table written
      by [to_csv], or the formatted share of "2009". *)
Definition line_text (l : Line) : string :=
    match l with
    | Text s => s +:+ nl
    | Table t => to_csv ["answer"; "percentage"] (map (λ '(a, p), [a; float_repr p]) t)
    | Pct2009 p =>
        "Overall percentage of '2009' answers for 'First' questions: " +:+ float_2f p +:+ "%" +:+ nl
    end.

Definition write_lines (ls : list Line) : Eff unit := for_each ls (λ l, emit (EStdout (line_text l))).

Definition msg_invalid_start (s : string) : string :=
    "Error: Invalid start date format: '" +:+ s +:+ "'. Please use YYYY-MM-DD format." +:+ nl.

  (** Lines 73-84: [None] is the early [return] after the message. *)
Definition start_date_filter_io `{DatetimeParser} (start_date : option string) (aware : bool)
      (df : list (RowT Z)) : Eff (option (list (RowT Z))) :=
    match start_date with
    | Some s =>
        if String.eqb s "" then mret (Some df) else
        catch
          (match parse_datetime s with
           | None => throw (PandasError (DateParseError s))
           | Some t =>
               if negb (Bool.eqb (has_offset s) aware) then throw (PandasError (invalid_comparison aware))
               else match List.filter (λ r, Z.leb t (created_at r)) df with
                    | [] => _ ← emit (EStdout ("No data found on or after " +:+ s +:+ " after filtering." +:+ nl));
                            mret None
                    | d => mret (Some d)
                    end
           end)
          (λ e, match e with
                | PandasError (DateParseError _) => Some (_ ← emit (EStderr (msg_invalid_start s)); sys_exit 1)
                | _ => None
                end)
    | None => mret (Some df)
    end.

  (** [process_and_output_percentages], lines 54-144. *)
Definition process_and_output_percentages_io `{DatetimeParser} (start_date : option string)
      (inp : CsvInput) : Eff unit :=
    catch
      (df ← read_csv inp;
       _ ← require_columns required_cols_datefilter please_datefilter df;
       let parsed := to_datetime_coerce_dropna (rows df) in
       kept ← start_date_filter_io start_date (column_aware (map created_at (rows df))) parsed;
       match kept with
       | None => mret tt
       | Some d => write_lines (section_now d ++ section_2009 d ++ section_conditional d)
       end)
      breakdown_handler.
End Scripts.

(** ** The outcome of a run, case by case *)

Definition missing_text (missing : list string) (please : string) : string :=
  "Error: Missing expected columns: " +:+ String.concat ", " missing +:+ ". " +:+ please +:+ nl.

Section Outcomes.
  Context `{SA : SortAlg} `{FF : FloatFormat}.

  (** geneteprocess.py, from the pure model [calculate_drought_answer_percentages]. *)
Definition drought_outcome (inp : CsvInput) : list Event * (Exc + unit) :=
    let fail msg := ([EStderr msg], inl (SystemExit 1)) in
    match inp with
    | NoData => fail msg_empty_input
    | Malformed m => fail (msg_unexpected m)
    | Parsed f =>
        match calculate_drought_answer_percentages (Some f) with
        | Ok (Says m) => ([EStdout (m +:+ nl)], inr tt)
        | Ok (Prints t) => ([EStdout (to_csv drought_columns (map drought_fields t))], inr tt)
        | Err (MissingColumns m) => fail (missing_text m please_drought)
        | Err e => fail (msg_unexpected (exc_str (PandasError e)))
        end
    end.

  (** genetedatefilterprocess.py, from the pure model [process_and_output_percentages]. *)
Definition datefilter_outcome `{DatetimeParser} (start_date : option string) (inp : CsvInput)
      : list Event * (Exc + unit) :=
    let fail msg := ([EStderr msg], inl (SystemExit 1)) in
    match inp with
    | NoData => fail msg_empty_input
    | Malformed m => fail (msg_unexpected m)
    | Parsed f =>
        match process_and_output_percentages start_date (Some f) with
        | Ok lines => (map (λ l, EStdout (line_text l)) lines, inr tt)
        | Err (MissingColumns m) => fail (missing_text m please_datefilter)
        | Err (DateParseError s) => fail (msg_invalid_start s)
        | Err e => fail (msg_unexpected (exc_str (PandasError e)))
        end
    end.
End Outcomes.

Section OutcomeProofs.
  Context `{SA : SortAlg} `{FF : FloatFormat}.

Lemma require_columns_run required please f tr :
    require_columns required please f tr =
      match missing_columns required (columns f) with
      | [] => (tr, inr tt)
      | m => (tr ++ [EStderr (missing_text m please)], inl (SystemExit 1))
      end.
  Proof.
    unfold require_columns, missing_text. destruct (missing_columns required (columns f)); [done|].
    eff_step. done.
  Qed.

Lemma write_lines_run ls tr : write_lines ls tr = (tr ++ map (λ l, EStdout (line_text l)) ls, inr tt).
  Proof. apply for_each_emit. Qed.

Lemma start_date_filter_io_run `{DatetimeParser} sd aware df tr :
    start_date_filter_io sd aware df tr =
      match apply_start_date sd aware df with
      | Ok (inl msgs) => (tr ++ map (λ l, EStdout (line_text l)) msgs, inr None)
      | Ok (inr d) => (tr, inr (Some d))
      | Err (DateParseError s) => (tr ++ [EStderr (msg_invalid_start s)], inl (SystemExit 1))
      | Err e => (tr, inl (PandasError e))
      end.
  Proof.
    unfold start_date_filter_io, apply_start_date. destruct sd as [s|]; [|done].
    destruct (String.eqb s ""); [done|]. destruct (parse_datetime s); [|eff_step; done].
    destruct (negb _); [eff_step; done|].
    destruct List.filter; eff_step; [|done]. by rewrite !string_app_assoc.
  Qed.

Lemma drought_main_refines_core inp :
    run (calculate_drought_answer_percentages_io inp) = drought_outcome inp.
  Proof.
    unfold calculate_drought_answer_percentages_io, drought_outcome, calculate_drought_answer_percentages.
    destruct inp as [|m|f]; [eff_step; done..|].
    unfold check_required. remember (missing_columns _ (columns f)) as m eqn:Hm.
    eff_step. rewrite require_columns_run, <- Hm.
    destruct m; eff_step; [|done].
    destruct List.filter; eff_step; done.
  Qed.

Lemma datefilter_main_refines_core `{DatetimeParser} sd inp :
    run (process_and_output_percentages_io sd inp) = datefilter_outcome sd inp.
  Proof.
    unfold process_and_output_percentages_io, datefilter_outcome, process_and_output_percentages.
    destruct inp as [|m|f]; [eff_step; done..|].
    unfold check_required. remember (missing_columns _ (columns f)) as m eqn:Hm.
    eff_step. rewrite require_columns_run, <- Hm.
    destruct m; eff_step; [|done].
    rewrite start_date_filter_io_run.
    destruct apply_start_date as [[msgs|d]|e] eqn:Ha; eff_step; [done|by rewrite write_lines_run|].
    apply apply_start_date_Err in Ha as (s & _ & _ & [[_ ->]|(t & _ & _ & ->)]); eff_step; done.
  Qed.
End OutcomeProofs.

(** Every message of the two scripts is a non-empty line. *)
Ltac breakdown_message_nonempty :=
  repeat first [ rewrite stderr_text_EStderr
               | unfold missing_text, msg_invalid_start, msg_unexpected, msg_empty_input ];
  apply app_nonempty_l; discriminate.

Section ExitClaims.
  Context `{SA : SortAlg} `{FF : FloatFormat}.

  (** C12: genetedatefilterprocess.py run as a process (the two [try]
      blocks, [sys.exit] inside the outer one, the writes of the three
      sections) computes exactly the case table [datefilter_outcome] read
      from the pure model [process_and_output_percentages]: its lines
      written one by one to stdout, or the message of its error on stderr
      with exit status 1. *)
Theorem datefilter_main_refines `{DatetimeParser} sd inp :
    run (process_and_output_percentages_io sd inp) = datefilter_outcome sd inp.
  Proof. apply datefilter_main_refines_core. Qed.

  (** geneteprocess.py exits with status 0 exactly when stdin holds a
      frame with the columns hashed_user_id, question and answer, and then
      writes nothing to stderr; otherwise it exits with status 1 (an
      empty or unparsable input, or missing columns named in the message),
      prints nothing on stdout and writes a message on stderr. *)
Theorem drought_main_exit inp :
    let '(tr, res) := run (calculate_drought_answer_percentages_io inp) in
    (exit_status res = 0 ↔ ∃ f, inp = Parsed f ∧
       missing_columns ["hashed_user_id"; "question"; "answer"] (columns f) = []) ∧
    ((exit_status res = 0 ∧ stderr_text tr = "") ∨
     (exit_status res = 1 ∧ stdout_text tr = "" ∧ stderr_text tr ≠ "")).
  Proof.
    rewrite drought_main_refines_core. unfold drought_outcome, calculate_drought_answer_percentages, check_required.
    destruct inp as [|m|f]; [split; [naive_solver|right; split_and!; [done|done|breakdown_message_nonempty]]..|].
    destruct (missing_columns _ (columns f)) eqn:Hm; cbn -[missing_columns].
    - destruct List.filter; (split; [naive_solver|by left]).
    - split; [split; [done|intros (f' & [= <-] & Hm'); congruence]|].
      right. split_and!; [done|done|breakdown_message_nonempty].
  Qed.

  (** genetedatefilterprocess.py exits with status 0 exactly when
      stdin holds a frame with the five required columns and the
      [--start-date] is absent, empty, or parses and has the column's kind
      (naive or with an offset); it then writes nothing to stderr, a start
      date after every row giving the "No data found" message.  Otherwise
      it exits with status 1, prints nothing on stdout and writes a
      message on stderr. *)
Theorem datefilter_main_exit `{DatetimeParser} sd inp :
    let '(tr, res) := run (process_and_output_percentages_io sd inp) in
    (exit_status res = 0 ↔ ∃ f, inp = Parsed f ∧
       missing_columns required_cols_datefilter (columns f) = [] ∧
       start_date_ok sd (column_aware (map created_at (rows f)))) ∧
    ((exit_status res = 0 ∧ stderr_text tr = "") ∨
     (exit_status res = 1 ∧ stdout_text tr = "" ∧ stderr_text tr ≠ "")).
  Proof.
    rewrite datefilter_main_refines_core. unfold datefilter_outcome.
    destruct inp as [|m|f]; [split; [naive_solver|right; split_and!; [done|done|breakdown_message_nonempty]]..|].
    pose proof (process_Ok_iff sd f) as Hiff.
    destruct (process_and_output_percentages sd (Some f)) as [lines|[]].
    1: split; [naive_solver|left; split; [done|apply stderr_text_EStdouts]].
    all: split; [split; [done|intros (f' & [= <-] & Hok); by destruct (proj2 Hiff Hok)]|].
    all: right; split_and!; [done|done|breakdown_message_nonempty].
  Qed.
End ExitClaims.

(** ** A run with Python's float text *)

(** Three users answer "Now, drought?" with A, A and B; the first of
    them answers "First year?" with 2009. *)
Definition thirds_frame : Frame Cell :=
  mkFrame ["hashed_user_id"; "session_id"; "question"; "answer"; "created_at"]
    [mkRow NaN (Some "h1") (Some "s1") (Some "Now, drought?") NaN (Some "A") (Some "2026-01-05 10:00:00");
     mkRow NaN (Some "h1") (Some "s1") (Some "First year?") NaN (Some "2009") (Some "2026-01-05 10:01:00");
     mkRow NaN (Some "h2") (Some "s2") (Some "Now, drought?") NaN (Some "A") (Some "2026-01-06 09:00:00");
     mkRow NaN (Some "h2") (Some "s2") (Some "First year?") NaN (Some "2010") (Some "2026-01-06 09:01:00");
     mkRow NaN (Some "h3") (Some "s3") (Some "Now, drought?") NaN (Some "B") (Some "2026-01-07 09:00:00");
     mkRow NaN (Some "h3") (Some "s3") (Some "First year?") NaN (Some "2011") (Some "2026-01-07 09:01:00")].

(** genetedatefilterprocess.py without --start-date on three users
    answering A, A and B, one of whom answered 2009: stdout carries the
    two tables and the share of 2009 with Python's float text
    ([2/3*100] is written 66.66666666666666, [1/3*100] is
    33.33333333333333 and 33.33 with two decimals, 100.0 keeps its
    ".0"), nothing goes to stderr, and the exit status is 0. *)
Theorem datefilter_stdout_scenario :
  let '(tr, res) := run (@process_and_output_percentages_io insertion_sort_alg py_float_format iso_parser
                           None (Parsed thirds_frame)) in
  stdout_text tr =
    "--- Overall Percentage of Answers for Questions Starting with 'Now,' (All Data) ---" +:+ nl +:+
    "answer,percentage" +:+ nl +:+ "A,66.66666666666666" +:+ nl +:+ "B,33.33333333333333" +:+ nl +:+ nl +:+
    "--- Overall Percentage of '2009' Answers for Questions Starting with 'First' ---" +:+ nl +:+
    "Overall percentage of '2009' answers for 'First' questions: 33.33%" +:+ nl +:+ nl +:+
    "--- Overall Percentage of Answers for Questions Starting with 'Now,' (Filtered by 'First' = '2009') ---" +:+ nl +:+
    "answer,percentage" +:+ nl +:+ "A,100.0" +:+ nl +:+ nl ∧
  stderr_text tr = "" ∧ exit_status res = 0.
Proof. vm_compute. split_and!; reflexivity. Qed.
