(* ===== verification/Download.v ===== *)
(** * Download: downloadStorms.py

    [download_noki_data] (lines 20-49) authenticates against the survey
    server, reads a token from the JSON answer, and streams the CSV
    export into [NokiEvacuateOutput.csv]; a
    [requests.exceptions.RequestException] anywhere is caught and
    printed.  The server is an explicit record of what [requests.post]
    and [requests.get] return or raise; the run is an [Eff] computation
    whose trace records the prints, the requests and the file writes in
    order.  The credentials of lines 10-13 are a parameter of the model
    (a Section variable), not a constant of it. *)
From stdpp Require Import pretty.
From S2P Require Import Prelude Effects.

(** ** Configuration (lines 4-18) *)
Definition AUTH_URL : string := "https://fist-noki.iri.columbia.edu/token".
Definition DATA_URL : string := "https://fist-noki.iri.columbia.edu/download_csv".
Definition OUTPUT_FILE : string := "NokiEvacuateOutput.csv".
Definition params : list Field := [("deployment_name", "Scored storms")].

(** ** What the server answers *)

(** A JSON document as [response.json()] returns it: an object whose
    values are strings or [null] ([None]), or anything else. *)
Inductive Json :=
  | JObject (fields : list (string * option string))
  | JOther (type_name : string).

(** The token response: status, reason phrase, final URL, and the body
    parsed as JSON ([inl msg]: not JSON, the decoder's message). *)
Record Response := mkResponse {
  status : Z; reason : string; url : string; body : string + Json }.

(** The streamed CSV response: its chunks, then possibly an error raised
    while iterating ([ChunkedEncodingError], [ConnectionError]). *)
Record Stream := mkStream {
  s_status : Z; s_reason : string; s_url : string;
  chunks : list string; s_error : option string }.

(** [requests.post] and [requests.get]; [inl msg] is a connection error. *)
Record Server := mkServer {
  post_token : list Field → string + Response;
  get_csv : list Field → list Field → string + Stream }.

Section Download.
  Context (payload : list Field) (srv : Server).

(** The [HTTPError] message of [Response.raise_for_status()], if any. *)
Definition status_error (st : Z) (why u : string) : option string :=
    if (400 <=? st)%Z && (st <? 500)%Z then
      Some (pretty st +:+ " Client Error: " +:+ why +:+ " for url: " +:+ u)
    else if (500 <=? st)%Z && (st <? 600)%Z then
      Some (pretty st +:+ " Server Error: " +:+ why +:+ " for url: " +:+ u)
    else None.

(** [Response.raise_for_status()] *)
Definition raise_for_status (st : Z) (why u : string) : Eff unit :=
    match status_error st why u with
    | Some msg => throw (RequestException msg)
    | None => mret tt
    end.

(** [requests.post(AUTH_URL, json=payload)] *)
Definition post : Eff Response :=
    _ ← emit (EPost AUTH_URL);
    match post_token srv payload with
    | inl msg => throw (RequestException msg)
    | inr r => mret r
    end.

(** [requests.get(DATA_URL, headers=headers, params=params, stream=True)] *)
Definition get (headers : list Field) : Eff Stream :=
    _ ← emit (EGet DATA_URL headers params);
    match get_csv srv headers params with
    | inl msg => throw (RequestException msg)
    | inr s => mret s
    end.

(** [d.get(k)] on a JSON object: [None] when the key is absent or null. *)
Definition json_get (fs : list (string * option string)) (k : string) : option string :=
  mjoin (snd <$> List.find (λ kv, String.eqb kv.1 k) fs).

(** [auth_response.json().get('token')]: a body that is not JSON raises
    [JSONDecodeError], a [RequestException]; [.get] on a JSON value that
    is not an object raises [AttributeError]. *)
Definition json_token (r : Response) : Eff (option string) :=
    match body r with
    | inl msg => throw (RequestException msg)
    | inr (JObject fs) => mret (json_get fs "token")
    | inr (JOther ty) => throw (AttributeError ("'" +:+ ty +:+ "' object has no attribute 'get'"))
    end.

(** [if not token:] *)
Definition falsy (token : option string) : bool :=
    match token with None => true | Some t => String.eqb t "" end.

Definition bearer (t : string) : list Field := [("Authorization", "Bearer " +:+ t)].

(** The body of the [try] block, lines 22-46. *)
Definition download_body : Eff unit :=
    _ ← emit (EPrint "Authenticating...");
    auth_response ← post;
    _ ← raise_for_status (status auth_response) (reason auth_response) (url auth_response);
    token ← json_token auth_response;
    match token with
    | Some t =>
        if falsy token then emit (EPrint "Error: Could not find 'token' in response.")
        else
          _ ← emit (EPrint ("Downloading data to " +:+ OUTPUT_FILE +:+ "..."));
          r ← get (bearer t);
          _ ← raise_for_status (s_status r) (s_reason r) (s_url r);
          _ ← emit (EOpen OUTPUT_FILE);
          _ ← for_each (chunks r) (λ chunk, emit (EWrite OUTPUT_FILE chunk));
          _ ← match s_error r with Some msg => throw (RequestException msg) | None => mret tt end;
          emit (EPrint "Download complete.")
    | None => emit (EPrint "Error: Could not find 'token' in response.")
    end.

(** [download_noki_data]: only [RequestException] is caught. *)
Definition download_noki_data : Eff unit :=
    catch download_body (λ e,
      match e with
      | RequestException msg => Some (emit (EPrint ("An error occurred: " +:+ msg)))
      | _ => None
      end).
End Download.

(** ** The outcome of a run, case by case

    [download_outcome] lists, for each answer of the server, the trace and
    the result of a run: the specification the monadic code is proved to
    implement ([download_refines]). *)
Definition msg_no_token : string := "Error: Could not find 'token' in response.".
Definition msg_downloading : string := "Downloading data to " +:+ OUTPUT_FILE +:+ "...".
Definition msg_error (m : string) : string := "An error occurred: " +:+ m.

Definition download_outcome (payload : list Field) (srv : Server) : list Event * (Exc + unit) :=
  let pre := [EPrint "Authenticating..."; EPost AUTH_URL] in
  let failed tr m := (tr ++ [EPrint (msg_error m)], inr tt) in
  match post_token srv payload with
  | inl m => failed pre m
  | inr r =>
      match status_error (status r) (reason r) (url r) with
      | Some m => failed pre m
      | None =>
          match body r with
          | inl m => failed pre m
          | inr (JOther ty) => (pre, inl (AttributeError ("'" +:+ ty +:+ "' object has no attribute 'get'")))
          | inr (JObject fs) =>
              match json_get fs "token" with
              | Some t =>
                  if String.eqb t "" then (pre ++ [EPrint msg_no_token], inr tt)
                  else
                    let pre' := pre ++ [EPrint msg_downloading; EGet DATA_URL (bearer t) params] in
                    match get_csv srv (bearer t) params with
                    | inl m => failed pre' m
                    | inr st =>
                        match status_error (s_status st) (s_reason st) (s_url st) with
                        | Some m => failed pre' m
                        | None =>
                            let written := pre' ++ [EOpen OUTPUT_FILE] ++ map (EWrite OUTPUT_FILE) (chunks st) in
                            match s_error st with
                            | Some m => failed written m
                            | None => (written ++ [EPrint "Download complete."], inr tt)
                            end
                        end
                    end
              | None => (pre ++ [EPrint msg_no_token], inr tt)
              end
          end
      end
  end.

(** ** What a run does *)

Section DownloadTheory.
  Context (payload : list Field) (srv : Server).

Lemma status_error_None st why u : status_error st why u = None ↔ ¬ (400 ≤ st < 600)%Z.
  Proof.
    unfold status_error.
    destruct (Z.leb_spec 400 st), (Z.ltb_spec st 500), (Z.leb_spec 500 st), (Z.ltb_spec st 600);
      simpl; split; (done || lia).
  Qed.

Lemma raise_for_status_ok st why u : (st < 400)%Z → raise_for_status st why u = mret tt.
  Proof.
    intros Hst. unfold raise_for_status.
    by rewrite (proj2 (status_error_None st why u)) by lia.
  Qed.

  (** The prefix of every run that reaches the data request. *)
Definition download_prefix (t : string) : list Event :=
    [EPrint "Authenticating..."; EPost AUTH_URL;
     EPrint ("Downloading data to " +:+ OUTPUT_FILE +:+ "..."); EGet DATA_URL (bearer t) params].

  (** A run whose token request succeeds with the token [t] and whose data
      request answers with a status below 400 and the chunks [cs]. *)
Lemma download_stream r fs t s :
    post_token srv payload = inr r → (status r < 400)%Z → body r = inr (JObject fs) →
    json_get fs "token" = Some t → t ≠ "" →
    get_csv srv (bearer t) params = inr s → (s_status s < 400)%Z →
    run (download_noki_data payload srv) =
      (download_prefix t ++ [EOpen OUTPUT_FILE] ++ map (EWrite OUTPUT_FILE) (chunks s) ++
         [EPrint (match s_error s with
                  | None => "Download complete."
                  | Some msg => "An error occurred: " +:+ msg
                  end)], inr tt).
  Proof.
    intros Hp Hst Hb Ht Hne Hg Hst'.
    unfold download_noki_data, download_body, post, get, json_token, falsy.
    eff_step. rewrite Hp. eff_step. rewrite raise_for_status_ok by done. eff_step.
    rewrite Hb, Ht, (proj2 (String.eqb_neq _ _) Hne). eff_step.
    rewrite Hg. eff_step. rewrite raise_for_status_ok by done. eff_step.
    destruct (s_error s); eff_step; done.
  Qed.

  (** A successful run: the three progress lines, the requests in order
      (the data request carries the token as a bearer header), and the
      output file holds exactly the downloaded chunks. *)
Theorem download_complete r fs t s init :
    post_token srv payload = inr r → (status r < 400)%Z → body r = inr (JObject fs) →
    json_get fs "token" = Some t → t ≠ "" →
    get_csv srv (bearer t) params = inr s → (s_status s < 400)%Z → s_error s = None →
    let (tr, res) := run (download_noki_data payload srv) in
    res = inr tt ∧
    tr = download_prefix t ++ [EOpen OUTPUT_FILE] ++ map (EWrite OUTPUT_FILE) (chunks s) ++
           [EPrint "Download complete."] ∧
    printed tr = ["Authenticating..."; "Downloading data to " +:+ OUTPUT_FILE +:+ "...";
                  "Download complete."] ∧
    file_after OUTPUT_FILE init tr = Some (foldr String.append "" (chunks s)).
  Proof.
    intros Hp Hst Hb Ht Hne Hg Hst' He.
    rewrite (download_stream _ _ _ _ Hp Hst Hb Ht Hne Hg Hst'), He.
    split_and!; [done|done| |].
    - unfold printed. rewrite !omap_app. simpl. by rewrite printed_map_EWrite.
    - rewrite (app_assoc _ [EOpen OUTPUT_FILE]), <- app_assoc. apply file_after_open_writes.
      intros e [<-|[]]. done.
  Qed.

  (** C28: When the stream breaks after the chunks [cs], the error is caught
      and printed, but [NokiEvacuateOutput.csv] was already truncated and
      keeps the partial download: whatever it held before is lost. *)
Theorem download_partial_file r fs t s msg init :
    post_token srv payload = inr r → (status r < 400)%Z → body r = inr (JObject fs) →
    json_get fs "token" = Some t → t ≠ "" →
    get_csv srv (bearer t) params = inr s → (s_status s < 400)%Z → s_error s = Some msg →
    let (tr, res) := run (download_noki_data payload srv) in
    res = inr tt ∧ last (printed tr) = Some ("An error occurred: " +:+ msg) ∧
    file_after OUTPUT_FILE init tr = Some (foldr String.append "" (chunks s)).
  Proof.
    intros Hp Hst Hb Ht Hne Hg Hst' He.
    rewrite (download_stream _ _ _ _ Hp Hst Hb Ht Hne Hg Hst'), He.
    split_and!; [done| |].
    - unfold printed. rewrite !omap_app. simpl. rewrite printed_map_EWrite. done.
    - rewrite (app_assoc _ [EOpen OUTPUT_FILE]), <- app_assoc. apply file_after_open_writes.
      intros e [<-|[]]. done.
  Qed.


  (** The statement of [download_refines], shared by the lemmas that build on it. *)
Lemma download_refines_core : run (download_noki_data payload srv) = download_outcome payload srv.
  Proof.
    unfold download_outcome, download_noki_data, download_body, post, get, json_token, falsy,
      raise_for_status, msg_error, msg_no_token, msg_downloading.
    destruct (post_token srv payload) as [m|r]; eff_step; [done|].
    destruct (status_error (status r) (reason r) (url r)); eff_step; [done|].
    destruct (body r) as [m|[fs|ty]]; eff_step; [done| |done].
    destruct (json_get fs "token") as [t|]; eff_step; [|done].
    destruct (String.eqb t ""); eff_step; [done|].
    destruct (get_csv srv (bearer t) params) as [m|st]; eff_step; [done|].
    destruct (status_error (s_status st) (s_reason st) (s_url st)); eff_step; [done|].
    destruct (s_error st); eff_step; done.
  Qed.

  (** C27: The monadic [download_noki_data] computes exactly the case table
      [download_outcome]. *)
Theorem download_refines : run (download_noki_data payload srv) = download_outcome payload srv.
    Proof. apply download_refines_core. Qed.

  (** [NokiEvacuateOutput.csv] is opened only after the token request
      answered a JSON object with a non-empty token [t] and a status that
      [raise_for_status] accepts, and the data request, sent with the
      header "Authorization: Bearer t", answered with an accepted status. *)
Theorem download_file_guard :
    touches OUTPUT_FILE (run (download_noki_data payload srv)).1 = true →
    ∃ r fs t s, post_token srv payload = inr r ∧ ¬ (400 ≤ status r < 600)%Z ∧
      body r = inr (JObject fs) ∧ json_get fs "token" = Some t ∧ t ≠ "" ∧
      get_csv srv (bearer t) params = inr s ∧ ¬ (400 ≤ s_status s < 600)%Z.
  Proof.
    rewrite download_refines_core. unfold download_outcome.
    destruct (post_token srv payload) as [m|r]; [done|].
    destruct (status_error (status r) _ _) eqn:Hs; [done|].
    destruct (body r) as [m|[fs|ty]] eqn:Hb; [done| |done].
    destruct (json_get fs "token") as [t|] eqn:Ht; [|done].
    destruct (String.eqb_spec t ""); [done|].
    destruct (get_csv srv (bearer t) params) as [m|st] eqn:Hg; [simpl; done|].
    destruct (status_error (s_status st) _ _) eqn:Hs'; [simpl; done|].
    intros _. apply status_error_None in Hs, Hs'. exists r, fs, t, st. done.
  Qed.

  (** The only exception that escapes [download_noki_data] is the
      [AttributeError] of [.get] on a token response whose JSON body is not
      an object. *)
Theorem download_uncaught e :
    (run (download_noki_data payload srv)).2 = inl e ↔
    ∃ r ty, post_token srv payload = inr r ∧ ¬ (400 ≤ status r < 600)%Z ∧
      body r = inr (JOther ty) ∧ e = AttributeError ("'" +:+ ty +:+ "' object has no attribute 'get'").
  Proof.
    rewrite download_refines_core. unfold download_outcome. split.
    - destruct (post_token srv payload) as [m|r]; [done|].
      destruct (status_error (status r) _ _) eqn:Hs; [done|].
      destruct (body r) as [m|[fs|ty]] eqn:Hb; [done| |].
      + repeat case_match; done.
      + intros [= <-]. apply status_error_None in Hs. eauto 10.
    - intros (r & ty & -> & Hs & Hb & ->). by rewrite (proj2 (status_error_None (status r) (reason r) (url r)) Hs), Hb.
  Qed.
End DownloadTheory.

(** ** Concrete servers *)

Definition token_answer : Response :=
  mkResponse 200 "OK" AUTH_URL (inr (JObject [("token", Some "abc123")])).

Definition csv_stream (err : option string) : Stream :=
  mkStream 200 "OK" DATA_URL ["user_id,step_name,answer,created_at"; "u1,player_select,Parent,2026-01-01"] err.

(** A server that sends the whole export, and one whose stream breaks. *)
Definition server_ok : Server := mkServer (λ _, inr token_answer) (λ _ _, inr (csv_stream None)).
Definition server_broken : Server :=
  mkServer (λ _, inr token_answer) (λ _ _, inr (csv_stream (Some "Connection broken"))).

Lemma download_complete_witness :
  let (tr, res) := run (download_noki_data [] server_ok) in
  res = inr tt ∧
  tr = download_prefix "abc123" ++ [EOpen OUTPUT_FILE] ++ map (EWrite OUTPUT_FILE) (chunks (csv_stream None)) ++
         [EPrint "Download complete."] ∧
  printed tr = ["Authenticating..."; "Downloading data to " +:+ OUTPUT_FILE +:+ "..."; "Download complete."] ∧
  file_after OUTPUT_FILE (Some "old") tr = Some (foldr String.append "" (chunks (csv_stream None))).
Proof.
  apply (download_complete [] server_ok token_answer [("token", Some "abc123")] "abc123" (csv_stream None));
    (reflexivity || (vm_compute; congruence)).
Defined.

Lemma download_partial_file_witness :
  let (tr, res) := run (download_noki_data [] server_broken) in
  res = inr tt ∧ last (printed tr) = Some ("An error occurred: " +:+ "Connection broken") ∧
  file_after OUTPUT_FILE (Some "old") tr = Some (foldr String.append "" (chunks (csv_stream (Some "Connection broken")))).
Proof.
  apply (download_partial_file [] server_broken token_answer [("token", Some "abc123")] "abc123"
           (csv_stream (Some "Connection broken")) "Connection broken");
    (reflexivity || (vm_compute; congruence)).
Defined.

Lemma download_file_guard_witness :
  touches OUTPUT_FILE (run (download_noki_data [] server_ok)).1 = true ∧
  ∃ r fs t s, post_token server_ok [] = inr r ∧ ¬ (400 ≤ status r < 600)%Z ∧
    body r = inr (JObject fs) ∧ json_get fs "token" = Some t ∧ t ≠ "" ∧
    get_csv server_ok (bearer t) params = inr s ∧ ¬ (400 ≤ s_status s < 600)%Z.
Proof.
  assert (touches OUTPUT_FILE (run (download_noki_data [] server_ok)).1 = true) as H by (vm_compute; reflexivity).
  split; [exact H|exact (download_file_guard [] server_ok H)].
Defined.
