(* ===== verification/Report.v ===== *)
(** * Report: the HTML report and the [__main__] blocks of the evacuation scripts

    [create_html_report] of processEvacuate.py (lines 121-142) writes
    [evacuation_results.html] whose title carries the time window; the
    first version's (firstworkingprocessEvacuate.py, lines 108-139)
    writes a fixed [plots_summary.html].  The [__main__] blocks (lines
    144-170, and 141-150 of the first version) run [process_data],
    [generate_plots] and the report, then print a success message.  They
    are [Eff] computations: the PNG files of [plt.savefig], the report
    file and the printed lines are events of the trace. *)
From S2P Require Import Prelude SortValues DataFrame Datetime Latest Evacuate Plots Effects SummaryMain.

(** A double quote, which the HTML attributes and some messages contain. *)
Definition dq : string := String.String (Ascii.ascii_of_nat 34) String.EmptyString.

(** [s or d] on an optional command-line string. *)
Definition or_default (o : option string) (d : string) : string :=
  match truthy o with Some s => s | None => d end.

(** [time_info], lines 123-125. *)
Definition time_info (start end_ : option string) (only_today : bool) : string :=
  if only_today then " (Today)"
  else match truthy start, truthy end_ with
       | None, None => ""
       | _, _ => " (Range: " +:+ or_default start "Min" +:+ " to " +:+ or_default end_ "Max" +:+ ")"
       end.

(** The lines of the f-string of lines 127-140 (its first line is empty:
    the string starts with a newline). *)
Definition report_lines (time_info : string) : list string :=
  ["";
   "    <html>";
   "    <head><title>Analysis Summary</title>";
   "    <style>body{font-family:Arial; text-align:center; padding:20px;} .box{border:1px solid #ccc; padding:20px; border-radius:10px;} img{max-width:90%; margin:20px;}</style>";
   "    </head>";
   "    <body>";
   ("        <div class=" +:+ dq +:+ "box" +:+ dq +:+ ">");
   ("            <h1>Hurricane Evacuation Report" +:+ time_info +:+ "</h1>");
   ("            <hr><h2>1. Player Distribution</h2><img src=" +:+ dq +:+ "player_breakdown.png" +:+ dq +:+ ">");
   ("            <hr><h2>2. Overall Evacuation</h2><img src=" +:+ dq +:+ "evacuation_overall.png" +:+ dq +:+ ">");
   ("            <hr><h2>3. Detailed Breakdown</h2><img src=" +:+ dq +:+ "evacuation_by_type.png" +:+ dq +:+ ">");
   "        </div>";
   "    </body>";
   "    </html>"].

Definition report_html (time_info : string) : string := String.concat nl (report_lines time_info).

Definition REPORT_FILE : string := "evacuation_results.html".

(** [create_html_report(start, end, only_today)] *)
Definition create_html_report (start end_ : option string) (only_today : bool) : Eff unit :=
  _ ← emit (EOpen REPORT_FILE);
  emit (EWrite REPORT_FILE (report_html (time_info start end_ only_today))).

(** The fixed page of the first version, lines 109-137. *)
Definition report_lines_first : list string :=
  ["";
   "    <html>";
   "    <head>";
   "        <title>Evacuation Analysis Summary</title>";
   "        <style>";
   "            body { font-family: Arial, sans-serif; margin: 40px; text-align: center; background-color: #f4f4f4; }";
   "            .container { background-color: white; padding: 20px; border-radius: 10px; box-shadow: 0 0 10px rgba(0,0,0,0.1); display: inline-block; }";
   "            h1 { color: #333; }";
   "            img { margin: 20px; border: 1px solid #ddd; border-radius: 5px; max-width: 90%; }";
   "            hr { border: 0; border-top: 1px solid #eee; margin: 40px 0; }";
   "        </style>";
   "    </head>";
   "    <body>";
   ("        <div class=" +:+ dq +:+ "container" +:+ dq +:+ ">");
   "            <h1>Hurricane Evacuation Survey Results</h1>";
   "            <p>Analysis based on the most recent response for each user.</p>";
   "            <hr>";
   "            <h2>1. Player Type Distribution</h2>";
   ("            <img src=" +:+ dq +:+ "player_breakdown.png" +:+ dq +:+ ">");
   "            <hr>";
   "            <h2>2. Overall Evacuation Choice</h2>";
   ("            <img src=" +:+ dq +:+ "evacuation_overall.png" +:+ dq +:+ ">");
   "            <hr>";
   "            <h2>3. Evacuation Choice by Player Type</h2>";
   ("            <img src=" +:+ dq +:+ "evacuation_by_type.png" +:+ dq +:+ ">");
   "        </div>";
   "    </body>";
   "    </html>";
   "    "].

Definition REPORT_FILE_FIRST : string := "plots_summary.html".

Definition create_html_report_first : Eff unit :=
  _ ← emit (EOpen REPORT_FILE_FIRST);
  emit (EWrite REPORT_FILE_FIRST (String.concat nl report_lines_first)).

(** The three chart files, in the order [generate_plots] saves them. *)
Definition CHART_FILES : list string :=
  ["player_breakdown.png"; "evacuation_overall.png"; "evacuation_by_type.png"].

(** [generate_plots(df)] as its effects: nothing on an empty frame,
    otherwise the three [savefig] calls. *)
Definition save_charts (charts : Result (option Charts)) : Eff unit :=
  match charts with
  | Err e => throw (PandasError e)
  | Ok None => mret tt
  | Ok (Some _) => for_each CHART_FILES (λ p, emit (ESavefig p))
  end.

(** [print("=" * 50)] *)
Fixpoint repeat_string (n : nat) (s : string) : string :=
  match n with 0 => "" | S n => s +:+ repeat_string n s end.

Definition rule : string := repeat_string 50 "=".

(** Lines 157-170. *)
Definition success_lines : list string :=
  [nl +:+ rule;
   "SUCCESS: Analysis Complete";
   rule;
   "Output files generated:";
   "  - player_breakdown.png";
   "  - evacuation_overall.png";
   "  - evacuation_by_type.png";
   "  - evacuation_results.html";
   nl +:+ "To filter by date/time, use the following options:";
   "  --today            : Only include responses from today.";
   "  --start " +:+ dq +:+ "YYYY-MM-DD" +:+ dq +:+ ": Include responses from this date onwards.";
   "  --end " +:+ dq +:+ "YYYY-MM-DD" +:+ dq +:+ "  : Include responses up until this date.";
   "Note: Date strings also accept times (e.g., " +:+ dq +:+ "2026-01-01 12:00:00" +:+ dq +:+ ").";
   rule].

Definition INPUT_FILE : string := "NokiEvacuateOutput.csv".

Definition msg_no_data : string := "Warning: No data found for the specified timeframe.".

Section Main.
  Context `{SA : SortAlg} `{DP : DatetimeParser}.

  (** The [__main__] block of processEvacuate.py: [None] is a missing
      input file, on which [pd.read_csv] (line 14) raises
      [FileNotFoundError]; an empty or malformed file raises the
      [EmptyDataError] or [ParserError] of [read_csv].  None of them is
      caught. *)
Definition evac_main (c : Clock) (today : bool) (start end_ : option string)
    (input : option CsvInput) : Eff unit :=
    match input with
    | None => throw (FileNotFoundError INPUT_FILE)
    | Some inp =>
        f ← read_csv inp;
        match process_data c today start end_ f with
        | Err e => throw (PandasError e)
        | Ok None => emit (EPrint msg_no_data)
        | Ok (Some data) =>
            _ ← save_charts (generate_plots (Some data));
            _ ← create_html_report start end_ today;
            for_each success_lines (λ l, emit (EPrint l))
        end
    end.

  (** The [__main__] block of the first version, whose [pd.read_csv]
      (line 9) raises the same errors; the message of an empty day is
      printed by its [process_data] (line 18), the only case in which it
      returns [None]. *)
Definition evac_main_first (c : Clock) (today : bool) (input : option CsvInput) : Eff unit :=
    match input with
    | None => throw (FileNotFoundError INPUT_FILE)
    | Some inp =>
        f ← read_csv inp;
        match process_data_first c today f with
        | Err e => throw (PandasError e)
        | Ok None => emit (EPrint ("No responses found for today (" +:+ date_str (today_local c) +:+ ")."))
        | Ok (Some data) =>
            _ ← save_charts (Ok (generate_plots_first (Some data)));
            _ ← create_html_report_first;
            emit (EPrint "Success! Created: player_breakdown.png, evacuation_overall.png, evacuation_by_type.png, and plots_summary.html")
        end
    end.
End Main.

(** ** What the [__main__] block of processEvacuate.py does *)

Section MainTheory.
  Context `{SA : SortAlg} `{DP : DatetimeParser}.

  (** A parsed input file is handed on unchanged. *)
Lemma read_csv_Parsed {A} (f : Frame Cell) (k : Frame Cell → Eff A) :
    (x ← read_csv (Parsed f); k x) = k f.
  Proof. reflexivity. Qed.

Lemma save_charts_generate_plots data :
    save_charts (generate_plots (Some data)) =
      if bool_decide (data = []) then mret tt else for_each CHART_FILES (λ p, emit (ESavefig p)).
  Proof.
    destruct data as [|m ms]; [done|]. unfold save_charts.
    destruct (proj2 (generate_plots_total (Some (m :: ms))) (m :: ms) eq_refl ltac:(done)) as (ov & _ & ->).
    done.
  Qed.

  (** The statement of [evac_main_Ok], shared by the lemmas that build on it. *)
Lemma evac_main_Ok_core c today start end_ f data :
    process_data c today start end_ f = Ok (Some data) →
    run (evac_main c today start end_ (Some (Parsed f))) =
      ((if bool_decide (data = []) then [] else map ESavefig CHART_FILES) ++
       [EOpen REPORT_FILE; EWrite REPORT_FILE (report_html (time_info start end_ today))] ++
       map EPrint success_lines, inr tt).
  Proof.
    intros Hp. unfold evac_main. rewrite read_csv_Parsed, Hp, save_charts_generate_plots.
    unfold create_html_report. case_bool_decide; eff_step; done.
  Qed.

  (** C25: When [process_data] returns a frame, the run saves the three charts
      unless the frame is empty, writes the report whose title carries the
      time window, and prints the success message listing the three PNG
      files and the report. *)
Theorem evac_main_Ok c today start end_ f data :
    process_data c today start end_ f = Ok (Some data) →
    run (evac_main c today start end_ (Some (Parsed f))) =
      ((if bool_decide (data = []) then [] else map ESavefig CHART_FILES) ++
       [EOpen REPORT_FILE; EWrite REPORT_FILE (report_html (time_info start end_ today))] ++
       map EPrint success_lines, inr tt).
    Proof. apply evac_main_Ok_core. Qed.

  (** C26: The run of processEvacuate.py ends in an exception exactly when
      the input file is missing ([FileNotFoundError]), empty
      ([EmptyDataError]), malformed (the [ParserError] of [pd.read_csv])
      or [process_data] fails on it (its error); none of them is caught,
      and nothing is printed or written before it. *)
Theorem evac_main_Err c today start end_ input e :
    ((run (evac_main c today start end_ input)).2 = inl e ↔
      (input = None ∧ e = FileNotFoundError INPUT_FILE) ∨
      (input = Some NoData ∧ e = PandasError EmptyDataError) ∨
      (∃ m, input = Some (Malformed m) ∧ e = ParserError m) ∨
      (∃ f fe, input = Some (Parsed f) ∧ process_data c today start end_ f = Err fe ∧ e = PandasError fe)) ∧
    ((run (evac_main c today start end_ input)).2 = inl e → (run (evac_main c today start end_ input)).1 = []).
  Proof.
    destruct input as [[|m|f]|].
    - (* empty file *) unfold evac_main, read_csv. eff_step. naive_solver.
    - (* malformed file *) unfold evac_main, read_csv. eff_step. naive_solver.
    - destruct (process_data c today start end_ f) as [[data|]|fe] eqn:Hp.
      + rewrite (evac_main_Ok_core _ _ _ _ _ _ Hp). split; [split; [done|]|done].
        intros [[? _]|[[? _]|[(? & ? & _)|(f' & fe & [= <-] & Hfe & _)]]]; congruence.
      + unfold evac_main. rewrite read_csv_Parsed, Hp. eff_step. split; [split; [done|]|done].
        intros [[? _]|[[? _]|[(? & ? & _)|(f' & fe & [= <-] & Hfe & _)]]]; congruence.
      + unfold evac_main. rewrite read_csv_Parsed, Hp. eff_step. split; [split|done].
        * intros [= <-]. right; right; right. eauto.
        * intros [[? _]|[[? _]|[(? & ? & _)|(f' & fe' & [= <-] & Hfe & ->)]]]; congruence.
    - (* missing file *) unfold evac_main. eff_step. naive_solver.
  Qed.
End MainTheory.

(** ** Runs *)

Definition old_frame : Frame Cell :=
  mkFrame evac_cols [ev_row "u1" "evacuate_select" "Yep, evacuate!" "2025-12-31T12:00:00Z"].

(** From 2 January the window of [evac_frame] holds one row but no user
    answered both steps: processEvacuate.py saves no chart, yet writes the
    report and prints the success message listing the three PNG files.
    The first version, asked for today's answers on a day without any,
    prints the local date. *)
Theorem evac_main_scenarios :
  let (tr, res) := run (@evac_main insertion_sort_alg iso_parser clock0 false (Some "2026-01-02") None (Some (Parsed evac_frame))) in
  res = inr tt ∧ In "SUCCESS: Analysis Complete" (printed tr) ∧ In "  - player_breakdown.png" (printed tr) ∧
  touches "player_breakdown.png" tr = false ∧ touches REPORT_FILE tr = true ∧
  run (@evac_main_first insertion_sort_alg iso_parser clock0 true (Some (Parsed old_frame))) =
    ([EPrint "No responses found for today (2026-01-01)."], inr tt).
Proof. vm_compute. split_and!; try reflexivity; tauto. Qed.

Lemma evac_main_Ok_witness :
  @process_data insertion_sort_alg iso_parser clock0 false None None evac_frame =
    Ok (Some [mkMerged (Some "u1") (Some "Parent") (Some "Yep, evacuate!")]) ∧
  run (@evac_main insertion_sort_alg iso_parser clock0 false None None (Some (Parsed evac_frame))) =
    ((if bool_decide ([mkMerged (Some "u1") (Some "Parent") (Some "Yep, evacuate!")] = []) then []
      else map ESavefig CHART_FILES) ++
     [EOpen REPORT_FILE; EWrite REPORT_FILE (report_html (time_info None None false))] ++
     map EPrint success_lines, inr tt).
Proof.
  assert (@process_data insertion_sort_alg iso_parser clock0 false None None evac_frame =
    Ok (Some [mkMerged (Some "u1") (Some "Parent") (Some "Yep, evacuate!")])) as Hp by (vm_compute; reflexivity).
  split; [exact Hp|exact (evac_main_Ok _ _ _ _ _ _ Hp)].
Defined.
