(* ===== verification/Args.v ===== *)
(** * Args: the command lines of the scripts

    Four scripts read options: processEvacuate.py ([--today],
    [--start], [--end]) and its first version ([--today]),
    genetedatefilterprocess.py ([--start-date]) and summarize_noki.py
    ([--filter-question]); geneteprocess.py and downloadStorms.py read
    none.  Each [__main__] block builds an [argparse.ArgumentParser],
    declares its options with [add_argument] (repository code: the
    [Parser] values below) and calls [parser.parse_args()] on
    [sys.argv[1:]] before anything else.

    [parse_args] is argparse's algorithm (CPython 3.11,
    [Lib/argparse.py]) for what the scripts declare: optionals only, no
    positionals, the actions [store] (one argument, [type=str]),
    [store_true] and the automatic [-h/--help], [allow_abbrev] and the
    prefix character ['-'] at their defaults.  An argument is classified
    as [_parse_optional] does (an option, [--opt=value], a unique prefix
    of a long option, a [-hX] tail, or a value: a negative number or a
    string with a space), then the options are consumed left to right as
    [consume_optional] does; strings no option consumes are the
    "unrecognized arguments" error.  [parse_args_io] writes the outcome:
    the help text and exit status 0, or the usage line, the error and
    exit status 2.  Help texts are the formatter's output at 80 columns
    (no terminal, [COLUMNS] unset). *)
From S2P Require Import Prelude SortValues DataFrame Datetime Evacuate Effects Float Csv SummaryMain BreakdownMain Report.
From Stdlib Require Import Ascii.

(** ** Characters and strings *)


(** The double quote, which a string literal of this file cannot hold. *)
Definition dq_char : ascii := ascii_of_nat 34.
Definition dq : string := String.String dq_char "".

Definition is_digit (c : ascii) : bool := let n := nat_of_ascii c in (48 <=? n) && (n <=? 57).

Fixpoint all_digits (s : string) : bool :=
  match s with String.EmptyString => true | String.String c t => is_digit c && all_digits t end.

(** [s.split(c, 1)] when [s] holds [c]. *)
Fixpoint split_char (c : ascii) (s : string) : option (string * string) :=
  match s with
  | String.EmptyString => None
  | String.String d t =>
      if (d =? c)%char then Some ("", t)
      else match split_char c t with Some (a, b) => Some (String.String d a, b) | None => None end
  end.

Fixpoint has_char (c : ascii) (s : string) : bool :=
  match s with String.EmptyString => false | String.String d t => (d =? c)%char || has_char c t end.

(** [\d+] or [\d*\.\d+] on the whole of [s] (ASCII digits). *)
Definition num_body (s : string) : bool :=
  match split_char "." s with
  | None => negb (String.eqb s "") && all_digits s
  | Some (a, b) => all_digits a && negb (String.eqb b "") && all_digits b
  end.

Fixpoint drop_last_nl (s : string) : option string :=
  match s with
  | String.EmptyString => None
  | String.String c String.EmptyString => if nat_of_ascii c =? 10 then Some "" else None
  | String.String c t => (String.String c) <$> drop_last_nl t
  end.

(** [_negative_number_matcher]: [^-\d+$|^-\d*\.\d+$], where [$] also
    matches before a final newline. *)
Definition negnum (s : string) : bool :=
  match s with
  | String.String c t =>
      (c =? "-")%char &&
      (num_body t || match drop_last_nl t with Some t' => num_body t' | None => false end)
  | String.EmptyString => false
  end.

Definition hex_digit (n : nat) : ascii := ascii_of_nat (if n <? 10 then 48 + n else 87 + n).

(** One character of Python's [repr] of a string quoted with [q]. *)
Definition repr_char (q c : ascii) : string :=
  let n := nat_of_ascii c in
  if (c =? "\")%char then "\\"
  else if (c =? q)%char then String.String "\" (String.String q "")
  else if n =? 9 then "\t" else if n =? 10 then "\n" else if n =? 13 then "\r"
  else if (n <? 32) || (n =? 127) then
    "\x" +:+ String.String (hex_digit (n / 16)) (String.String (hex_digit (n mod 16)) "")
  else String.String c "".

(** [repr(s)] (the [%r] of argparse's messages): single quotes unless
    [s] holds one and no double quote; bytes above 127 are copied. *)
Definition py_repr_str (s : string) : string :=
  let q := if has_char "'" s && negb (has_char dq_char s) then dq_char else "'"%char in
  String.String q (String.concat "" (map (repr_char q) (String.list_ascii_of_string s)) +:+ String.String q "").

Definition ascii_upper (c : ascii) : ascii :=
  let n := nat_of_ascii c in if (97 <=? n) && (n <=? 122) then ascii_of_nat (n - 32) else c.

Definition str_upper (s : string) : string := String.string_of_list_ascii (map ascii_upper (String.list_ascii_of_string s)).

(** [option_string.lstrip('-').replace('-', '_')] *)
Fixpoint lstrip_dash (s : string) : string :=
  match s with String.String c t => if (c =? "-")%char then lstrip_dash t else s | _ => s end.

Definition dash_to_us (s : string) : string :=
  String.string_of_list_ascii (map (λ c, if (c =? "-")%char then "_"%char else c) (String.list_ascii_of_string s)).

(** ** Parsers *)

Inductive Kind := StoreTrue | Store | Help.

Record Action := mkAction { a_opts : list string; a_dest : string; a_kind : Kind }.

(** [add_argument(o, ...)] of a long option: [dest] is [o] without its
    dashes, inner dashes made underscores. *)
Definition long_opt (o : string) (k : Kind) : Action := mkAction [o] (dash_to_us (lstrip_dash o)) k.

(** The action [add_help=True] registers first. *)
Definition help_action : Action := mkAction ["-h"; "--help"] "help" Help.

Record Parser := mkParser { p_prog : string; p_help : string; p_options : list Action }.

Definition actions (p : Parser) : list Action := help_action :: p_options p.

(** [_option_string_actions], in registration order. *)
Definition opt_table (p : Parser) : list (string * Action) :=
  flat_map (λ a, map (λ o, (o, a)) (a_opts a)) (actions p).

Definition lookup_opt (p : Parser) (o : string) : option Action :=
  snd <$> List.find (λ oa, String.eqb oa.1 o) (opt_table p).

(** [_has_negative_number_optionals] *)
Definition has_neg_opts (p : Parser) : bool := existsb (λ oa, negnum oa.1) (opt_table p).

(** ** Values *)

(** What [parse_args] stores: [True]/[False], a string, [None], or the
    empty list [store] keeps for an explicit ["--"] ([--start=--]:
    [_get_values] removes the ["--"] and returns the list left). *)
Inductive ArgVal := VBool (b : bool) | VStr (s : string) | VNone | VEmptyList.

Definition Namespace := list (string * ArgVal).

Definition default_of (a : Action) : option (string * ArgVal) :=
  match a_kind a with
  | StoreTrue => Some (a_dest a, VBool false)
  | Store => Some (a_dest a, VNone)
  | Help => None
  end.

Definition defaults (p : Parser) : Namespace := omap default_of (actions p).

(** [setattr(namespace, dest, value)] *)
Definition ns_set (d : string) (v : ArgVal) (ns : Namespace) : Namespace :=
  map (λ kv, if String.eqb kv.1 d then (kv.1, v) else kv) ns.

Definition ns_get (ns : Namespace) (d : string) : ArgVal :=
  default VNone (snd <$> List.find (λ kv, String.eqb kv.1 d) ns).

(** [args.today] *)
Definition ns_bool (ns : Namespace) (d : string) : bool :=
  match ns_get ns d with VBool b => b | _ => false end.

(** [args.start] as the scripts use it: every use is a truth test
    ([if start_time:], [start or end], [start or 'Min']), under which
    [None] and the empty list behave alike. *)
Definition ns_str (ns : Namespace) (d : string) : option string :=
  match ns_get ns d with VStr s => Some s | _ => None end.

(** ** Classifying the arguments ([_parse_optional]) *)

(** An argument is a value ([CA]), the separator ["--"] ([CSep]), or an
    option string ([CO]): its action ([None] for an unknown option), the
    option string matched and the explicit argument, if any. *)
Inductive Cls := CA | CSep | CO (oa : option Action) (os : string) (ex : option string).

(** [_get_option_tuples]: the long options [s] (before any ['=']) is a
    prefix of, or for [-xREST] the option [-x] with [REST]. *)
Definition option_tuples (p : Parser) (s : string) : list (Action * string * option string) :=
  match s with
  | String.String c1 (String.String c2 rest) =>
      if (c2 =? "-")%char then
        let '(pre, ex) := match split_char "=" s with Some (a, b) => (a, Some b) | None => (s, None) end in
        omap (λ oa, if String.prefix pre oa.1 then Some (oa.2, oa.1, ex) else None) (opt_table p)
      else
        omap (λ oa, if String.eqb oa.1 (String.String c1 (String.String c2 "")) then Some (oa.2, oa.1, Some rest)
                    else if String.prefix s oa.1 then Some (oa.2, oa.1, None) else None) (opt_table p)
  | _ => []
  end.

Definition msg_ambiguous (s : string) (ts : list (Action * string * option string)) : string :=
  "ambiguous option: " +:+ s +:+ " could match " +:+ String.concat ", " (map (λ t, t.1.2) ts).

(** [inl] is the error [_parse_optional] raises; [inr None] a value. *)
Definition parse_optional (p : Parser) (s : string) : string + option (option Action * string * option string) :=
  match s with
  | String.EmptyString => inr None
  | String.String c _ =>
      if negb (c =? "-")%char then inr None else
      match lookup_opt p s with
      | Some a => inr (Some (Some a, s, None))
      | None =>
          if String.length s =? 1 then inr None else
          match match split_char "=" s with
                | Some (o, e) => (λ a, (Some a, o, Some e)) <$> lookup_opt p o
                | None => None
                end with
          | Some t => inr (Some t)
          | None =>
              match option_tuples p s with
              | [] => if negnum s && negb (has_neg_opts p) then inr None
                      else if has_char " " s then inr None
                      else inr (Some (None, s, None))
              | [(a, o, e)] => inr (Some (Some a, o, e))
              | ts => inl (msg_ambiguous s ts)
              end
          end
      end
  end.

(** The loop of [_parse_known_args] building the pattern: everything
    after the first ["--"] is a value. *)
Fixpoint classify (p : Parser) (args : list string) : string + list (string * Cls) :=
  match args with
  | [] => inr []
  | s :: rest =>
      if String.eqb s "--" then inr ((s, CSep) :: map (λ x, (x, CA)) rest)
      else match parse_optional p s with
           | inl m => inl m
           | inr r =>
               match classify p rest with
               | inl m => inl m
               | inr l => inr ((s, match r with None => CA | Some (oa, os, ex) => CO oa os ex end) :: l)
               end
           end
  end.

(** ** Consuming the options ([consume_optional]) *)

Definition arg_error (a : Action) (msg : string) : string :=
  "argument " +:+ String.concat "/" (a_opts a) +:+ ": " +:+ msg.

Definition msg_ignored (a : Action) (x : string) : string :=
  arg_error a ("ignored explicit argument " +:+ py_repr_str x).

(** The value a flag stores ([store_true]: [True]; help: none). *)
Definition flag_value (a : Action) : ArgVal :=
  match a_kind a with StoreTrue => VBool true | _ => VNone end.

(** An option with no explicit argument: [store] takes the next
    argument if it is a value (the [bool] says it was taken). *)
Definition opt_noexp (a : Action) (rest : list (string * Cls)) : string + (list (Action * ArgVal) * bool) :=
  match a_kind a with
  | Store => match rest with
             | (v, CA) :: _ => inr ([(a, VStr v)], true)
             | _ => inl (arg_error a "expected one argument")
             end
  | _ => inr ([(a, flag_value a)], false)
  end.

(** An option with the explicit argument [x]: [store] keeps it (an
    explicit ["--"] is removed, leaving the empty list); a flag spelled
    [-fX] is followed by the flag [-X] when there is one, and any other
    explicit argument of a flag is an error. *)
Fixpoint opt_exp (p : Parser) (a : Action) (os x : string) (rest : list (string * Cls))
    : string + (list (Action * ArgVal) * bool) :=
  match a_kind a with
  | Store => inr ([(a, if String.eqb x "--" then VEmptyList else VStr x)], false)
  | _ =>
      match x, os with
      | String.String x0 t, String.String c0 (String.String c1 _) =>
          if negb (c1 =? "-")%char then
            let os' := String.String c0 (String.String x0 "") in
            match lookup_opt p os' with
            | Some a' =>
                match (match t with String.EmptyString => opt_noexp a' rest | _ => opt_exp p a' os' t rest end) with
                | inr (acts, used) => inr ((a, flag_value a) :: acts, used)
                | inl m => inl m
                end
            | None => inl (msg_ignored a x)
            end
          else inl (msg_ignored a x)
      | _, _ => inl (msg_ignored a x)
      end
  end.

(** [take_action] of each action of one option string, in order; help
    prints and exits at once ([None]). *)
Fixpoint apply_acts (acts : list (Action * ArgVal)) (ns : Namespace) : option Namespace :=
  match acts with
  | [] => Some ns
  | (a, v) :: r => match a_kind a with Help => None | _ => apply_acts r (ns_set (a_dest a) v ns) end
  end.

Inductive Known := KDone (ns : Namespace) (extras : list string) | KHelp | KErr (msg : string).

(** The consuming loop: values, the separator and unknown options go to
    the extras in order. *)
Fixpoint consume (p : Parser) (l : list (string * Cls)) (ns : Namespace) (extras : list string) : Known :=
  match l with
  | [] => KDone ns extras
  | (s, CO (Some a) os ex) :: rest =>
      match (match ex with None => opt_noexp a rest | Some x => opt_exp p a os x rest end) with
      | inl m => KErr m
      | inr (acts, used) =>
          match apply_acts acts ns with
          | None => KHelp
          | Some ns' =>
              match used, rest with
              | true, _ :: r => consume p r ns' extras
              | _, _ => consume p rest ns' extras
              end
          end
      end
  | (s, _) :: rest => consume p rest ns (extras ++ [s])
  end.

(** [parse_known_args] *)
Definition parse_known (p : Parser) (argv : list string) : Known :=
  match classify p argv with
  | inl m => KErr m
  | inr l => consume p l (defaults p) []
  end.

Inductive Parsed := ArgsOk (ns : Namespace) | ArgsHelp | ArgsError (msg : string).

(** [parse_args]: left-over strings are an error. *)
Definition parse_args (p : Parser) (argv : list string) : Parsed :=
  match parse_known p argv with
  | KDone ns [] => ArgsOk ns
  | KDone _ extras => ArgsError ("unrecognized arguments: " +:+ String.concat " " extras)
  | KHelp => ArgsHelp
  | KErr m => ArgsError m
  end.

(** ** Writing the outcome *)

(** [format_usage]: the first option string of each action, with the
    metavariable [DEST] of a [store]. *)
Definition usage_part (a : Action) : string :=
  let o := default "" (head (a_opts a)) in
  match a_kind a with
  | Store => "[" +:+ o +:+ " " +:+ str_upper (a_dest a) +:+ "]"
  | _ => "[" +:+ o +:+ "]"
  end.

Definition usage (p : Parser) : string :=
  "usage: " +:+ p_prog p +:+ " " +:+ String.concat " " (map usage_part (actions p)) +:+ nl.

(** [parser.parse_args()] as the script runs it: help on stdout then
    [sys.exit(0)]; an error is the usage line and the message on stderr
    then [sys.exit(2)]. *)
Definition parse_args_io (p : Parser) (argv : list string) : Eff Namespace :=
  match parse_args p argv with
  | ArgsOk ns => mret ns
  | ArgsHelp => _ ← emit (EStdout (p_help p)); sys_exit 0
  | ArgsError m =>
      _ ← emit (EStderr (usage p));
      _ ← emit (EStderr (p_prog p +:+ ": error: " +:+ m +:+ nl));
      sys_exit 2
  end.

(** ** The scripts' parsers *)

Definition lines (ls : list string) : string := String.concat "" (map (λ l, l +:+ nl) ls).

(** processEvacuate.py, lines 145-148. *)
Definition evac_parser : Parser := {|
  p_prog := "processEvacuate.py";
  p_options := [long_opt "--today" StoreTrue; long_opt "--start" Store; long_opt "--end" Store];
  p_help := lines
    ["usage: processEvacuate.py [-h] [--today] [--start START] [--end END]";
     ""; "Analyze evacuation data."; ""; "options:";
     "  -h, --help     show this help message and exit";
     "  --today        Filter for today only";
     "  --start START  Start time (e.g., " +:+ dq +:+ "2026-01-01" +:+ dq +:+ ")";
     "  --end END      End time (e.g., " +:+ dq +:+ "2026-01-09 23:59:59" +:+ dq +:+ ")"] |}.

(** firstworkingprocessEvacuate.py, lines 142-143. *)
Definition first_parser : Parser := {|
  p_prog := "firstworkingprocessEvacuate.py";
  p_options := [long_opt "--today" StoreTrue];
  p_help := lines
    ["usage: firstworkingprocessEvacuate.py [-h] [--today]";
     ""; "Analyze evacuation survey data."; ""; "options:";
     "  -h, --help  show this help message and exit";
     "  --today     Only show responses from today"] |}.

(** genetedatefilterprocess.py, lines 149-161. *)
Definition datefilter_parser : Parser := {|
  p_prog := "genetedatefilterprocess.py";
  p_options := [long_opt "--start-date" Store];
  p_help := lines
    ["usage: genetedatefilterprocess.py [-h] [--start-date START_DATE]";
     ""; "Calculate percentage of answers for specific questions, optionally filtered by";
     "a start date."; ""; "options:";
     "  -h, --help            show this help message and exit";
     "  --start-date START_DATE";
     "                        Optional: Start date (YYYY-MM-DD) to include data";
     "                        from. Only data on or after this date will be";
     "                        processed."] |}.

(** summarize_noki.py, lines 93-104. *)
Definition summarize_parser : Parser := {|
  p_prog := "summarize_noki.py";
  p_options := [long_opt "--filter-question" Store];
  p_help := lines
    ["usage: summarize_noki.py [-h] [--filter-question FILTER_QUESTION]";
     ""; "Summarize answers from CSV data, or extract specific answers based on a";
     "question."; ""; "options:";
     "  -h, --help            show this help message and exit";
     "  --filter-question FILTER_QUESTION";
     "                        Output unique answers for a specific question. The";
     "                        question text should be provided in quotes (e.g.,";
     "                        --filter-question " +:+ dq +:+ "What would the game be about?" +:+ dq +:+ ")."] |}.

(** ** The scripts run from their command line *)

Section Cli.
  Context `{SA : SortAlg} `{DP : DatetimeParser} `{FF : FloatFormat}.

  (** processEvacuate.py, lines 144-151: the options, then [process_data]
      and the rest of the [__main__] block ([evac_main]). *)
Definition evac_cli (c : Clock) (argv : list string) (input : option CsvInput) : Eff unit :=
    args ← parse_args_io evac_parser argv;
    evac_main c (ns_bool args "today") (ns_str args "start") (ns_str args "end") input.

  (** firstworkingprocessEvacuate.py, lines 141-146. *)
Definition evac_first_cli (c : Clock) (argv : list string) (input : option CsvInput) : Eff unit :=
    args ← parse_args_io first_parser argv;
    evac_main_first c (ns_bool args "today") input.

  (** genetedatefilterprocess.py, lines 147-166. *)
Definition datefilter_cli (argv : list string) (inp : CsvInput) : Eff unit :=
    args ← parse_args_io datefilter_parser argv;
    process_and_output_percentages_io (ns_str args "start_date") inp.

  (** summarize_noki.py, lines 91-106, then the block [summarize_noki]
      models (stdin is read after the options). *)
Definition summarize_cli (argv : list string) (inp : CsvInput) : Eff unit :=
    args ← parse_args_io summarize_parser argv;
    summarize_noki (ns_str args "filter_question") inp.
End Cli.

(** ** Well-formed parsers and namespaces *)

Definition opt_name (a : Action) : string := default "" (head (a_opts a)).

(** A long option string: ["--"], at least one more character, no ['=']. *)
Definition is_long (o : string) : bool :=
  String.prefix "--" o && negb (String.length o <=? 2) && negb (has_char "=" o).

(** What [add_argument] of the scripts guarantees: distinct option
    strings and destinations, one long option string per action, and no
    second help action. *)
Record parser_wf (p : Parser) : Prop := {
  wf_keys : NoDup (map fst (opt_table p));
  wf_dests : NoDup (map a_dest (p_options p));
  wf_long : Forall (λ a, ∃ o, a_opts a = [o] ∧ is_long o = true ∧ a_kind a ≠ Help) (p_options p)
}.

(** The values an action can leave in the namespace: [store] never
    stores the string ["--"] (an explicit ["--"] is the empty list). *)
Definition fits (k : Kind) (v : ArgVal) : bool :=
  match k, v with
  | StoreTrue, VBool _ => true
  | Store, VNone | Store, VEmptyList => true
  | Store, VStr s => negb (String.eqb s "--")
  | _, _ => false
  end.

Definition ns_of (opts : list Action) (y : string → ArgVal) : Namespace :=
  map (λ a, (a_dest a, y (a_dest a))) opts.

(** A namespace of [p]: one entry per option, in order, of its kind. *)
Definition ns_wf (p : Parser) (ns : Namespace) : Prop :=
  ns = ns_of (p_options p) (ns_get ns) ∧
  Forall (λ a, fits (a_kind a) (ns_get ns (a_dest a)) = true) (p_options p).

(** The canonical command line of a namespace: each flag that is set,
    each string as [--opt=value]. *)
Definition unparse_opt (a : Action) (v : ArgVal) : list string :=
  match a_kind a, v with
  | StoreTrue, VBool true => [opt_name a]
  | Store, VStr s => [opt_name a +:+ "=" +:+ s]
  | Store, VEmptyList => [opt_name a +:+ "=--"]
  | _, _ => []
  end.

Definition unparse (p : Parser) (ns : Namespace) : list string :=
  flat_map (λ a, unparse_opt a (ns_get ns (a_dest a))) (p_options p).

(** ** Lookups *)
Section Lookups.

Lemma find_key_unique {V} (t : list (string * V)) (k : string) (v : V) :
    NoDup (map fst t) → (k, v) ∈ t → List.find (λ kv, String.eqb kv.1 k) t = Some (k, v).
  Proof.
    induction t as [|[k' v'] t IH]; simpl; [by intros _ ?%elem_of_nil|].
    intros [Hk Hnd]%NoDup_cons [[= -> ->]|Hin]%elem_of_cons; [by rewrite String.eqb_refl|].
    destruct (String.eqb_spec k' k) as [->|]; [|by apply IH].
    destruct Hk. apply list_elem_of_fmap. by exists (k, v).
  Qed.

Lemma find_key_none {V} (t : list (string * V)) (k : string) :
    k ∉ map fst t → List.find (λ kv, String.eqb kv.1 k) t = None.
  Proof.
    intros Hk. destruct List.find as [[k' v']|] eqn:E; [|done].
    apply List.find_some in E as [Hin Heq%String.eqb_eq]. simpl in Heq; subst.
    destruct Hk. apply list_elem_of_fmap. exists (k, v'). split; [done|]. by apply list_elem_of_In.
  Qed.

Lemma opt_table_in (p : Parser) (a : Action) (o : string) :
    a ∈ actions p → o ∈ a_opts a → (o, a) ∈ opt_table p.
  Proof.
    intros Ha Ho. unfold opt_table. apply list_elem_of_In, in_flat_map.
    exists a. split; [by apply list_elem_of_In|]. apply list_elem_of_In, list_elem_of_fmap. by exists o.
  Qed.

Lemma lookup_opt_in (p : Parser) (a : Action) (o : string) :
    NoDup (map fst (opt_table p)) → a ∈ actions p → o ∈ a_opts a → lookup_opt p o = Some a.
  Proof. intros Hnd Ha Ho. unfold lookup_opt. rewrite (find_key_unique _ o a); [done|done|by apply opt_table_in]. Qed.

Lemma lookup_opt_some (p : Parser) (o : string) (a : Action) :
    lookup_opt p o = Some a → (o, a) ∈ opt_table p.
  Proof.
    unfold lookup_opt. destruct List.find as [[k a']|] eqn:E; simpl; [|done]. intros [= <-].
    apply List.find_some in E as [Hin Heq%String.eqb_eq]. simpl in Heq; subst. by apply list_elem_of_In.
  Qed.

Lemma opt_table_actions (p : Parser) (o : string) (a : Action) :
    (o, a) ∈ opt_table p → a ∈ actions p ∧ o ∈ a_opts a.
  Proof.
    unfold opt_table. intros Hin%list_elem_of_In. apply in_flat_map in Hin as (b & Hb & Ho).
    apply list_elem_of_In, list_elem_of_fmap in Ho as (o' & [= -> ->] & Ho').
    split; [by apply list_elem_of_In|done].
  Qed.

Lemma ns_get_of (opts : list Action) (y : string → ArgVal) (a : Action) :
    NoDup (map a_dest opts) → a ∈ opts → ns_get (ns_of opts y) (a_dest a) = y (a_dest a).
  Proof.
    intros Hnd Ha. unfold ns_get. rewrite (find_key_unique _ _ (y (a_dest a))); [done| |].
    - unfold ns_of. by rewrite map_map.
    - apply list_elem_of_fmap. by exists a.
  Qed.
End Lookups.

(** ** Option strings *)
Section OptionStrings.

Lemma has_char_app (c : ascii) (s1 s2 : string) : has_char c (s1 +:+ s2) = has_char c s1 || has_char c s2.
  Proof. induction s1 as [|d s1 IH]; [done|]. rewrite string_app_cons. simpl. by rewrite IH, orb_assoc. Qed.

Lemma split_char_app (c : ascii) (s1 s2 : string) :
    has_char c s1 = false → split_char c (s1 +:+ String.String c s2) = Some (s1, s2).
  Proof.
    induction s1 as [|d s1 IH]; [intros _; simpl; by rewrite Ascii.eqb_refl|].
    intros [Hd Hs]%orb_false_iff. rewrite string_app_cons. simpl. by rewrite Hd, IH.
  Qed.

Lemma is_long_inv (o : string) :
    is_long o = true → ∃ r, o = String.String "-" (String.String "-" r) ∧ r ≠ "" ∧ has_char "=" o = false.
  Proof.
    unfold is_long. intros [[Hp Hl]%andb_true_iff He]%andb_true_iff.
    apply negb_true_iff in He. apply negb_true_iff, Nat.leb_gt in Hl.
    apply String.prefix_correct in Hp.
    destruct o as [|c1 [|c2 r]]; simpl in Hp, Hl; try lia. injection Hp as -> ->.
    exists r. split_and!; [done| |done]. intros ->. simpl in Hl. lia.
  Qed.

(** The option strings of a well-formed parser: ['-'] and at least one
    more character, no ['=']. *)
Lemma key_shape (p : Parser) (k : string) (a : Action) :
    parser_wf p → (k, a) ∈ opt_table p →
    (∃ r, k = String.String "-" r ∧ r ≠ "") ∧ has_char "=" k = false.
  Proof.
    intros Hwf Hin. apply opt_table_actions in Hin as [Ha Hk]. unfold actions in Ha.
    apply elem_of_cons in Ha as [->|Ha].
    - simpl in Hk. apply elem_of_cons in Hk as [->|Hk]; [split; [by eexists|done]|].
      apply elem_of_cons in Hk as [->|Hk%elem_of_nil]; [split; [by eexists|done]|done].
    - destruct Hwf as [_ _ Hlong]. rewrite Forall_forall in Hlong.
      destruct (Hlong a Ha) as (o & Ho & Hl & _).
      rewrite Ho in Hk. apply elem_of_cons in Hk as [->|Hk%elem_of_nil]; [|done].
      destruct (is_long_inv o Hl) as (r & -> & Hr & He). split; [by eexists|done].
  Qed.
End OptionStrings.

(** ** Classifying well-formed command lines *)
Section Classify.
  Context (p : Parser) (Hwf : parser_wf p).

Lemma parse_optional_key (k : string) (a : Action) :
    (k, a) ∈ opt_table p → parse_optional p k = inr (Some (Some a, k, None)).
  Proof.
    intros Hin. destruct (key_shape p k a Hwf Hin) as [(r & -> & _) _].
    apply opt_table_actions in Hin as [Ha Hk].
    unfold parse_optional. rewrite (lookup_opt_in p a) by (done || apply Hwf). reflexivity.
  Qed.

Lemma option_of_wf (a : Action) :
    a ∈ p_options p → ∃ o r, a_opts a = [o] ∧ o = String.String "-" (String.String "-" r) ∧ r ≠ "" ∧
                            has_char "=" o = false ∧ a_kind a ≠ Help.
  Proof.
    intros Ha. destruct Hwf as [_ _ Hlong]. rewrite Forall_forall in Hlong.
    destruct (Hlong a Ha) as (o & Ho & Hl & Hk). destruct (is_long_inv o Hl) as (r & Hr & Hr' & He).
    by exists o, r.
  Qed.

Lemma parse_optional_explicit (a : Action) (o v : string) :
    a ∈ p_options p → a_opts a = [o] → parse_optional p (o +:+ "=" +:+ v) = inr (Some (Some a, o, Some v)).
  Proof.
    intros Ha Ho. destruct (option_of_wf a Ha) as (o' & r & Ho' & -> & _ & He & _).
    rewrite Ho in Ho'. injection Ho' as ->.
    assert (Hnone : lookup_opt p (String.String "-" (String.String "-" r) +:+ "=" +:+ v) = None).
    { unfold lookup_opt. rewrite find_key_none; [done|].
      intros ([k b] & Hk & Hin)%list_elem_of_fmap. simpl in Hk. subst k.
      destruct (key_shape _ _ _ Hwf Hin) as [_ Hk]. rewrite !has_char_app, He in Hk. by simpl in Hk. }
    assert (Hlook : lookup_opt p (String.String "-" (String.String "-" r)) = Some a).
    { apply lookup_opt_in; [apply Hwf|unfold actions; by apply elem_of_cons; right|rewrite Ho; by left]. }
    unfold parse_optional. rewrite Hnone.
    change ("=" +:+ v) with (String.String "=" v). rewrite split_char_app by done. rewrite Hlook.
    rewrite !string_app_cons. reflexivity.
  Qed.

Lemma classify_cons_opt (s : string) (rest : list string) (oa : option Action) (os : string) (ex : option string) :
    s ≠ "--" → parse_optional p s = inr (Some (oa, os, ex)) →
    classify p (s :: rest) = match classify p rest with inl m => inl m | inr l => inr ((s, CO oa os ex) :: l) end.
  Proof. intros Hs Hp. cbn [classify]. by rewrite (proj2 (String.eqb_neq _ _) Hs), Hp. Qed.
End Classify.

(** The classified form of [unparse_opt]. *)
Definition cls_opt (a : Action) (v : ArgVal) : list (string * Cls) :=
  match a_kind a, v with
  | StoreTrue, VBool true => [(opt_name a, CO (Some a) (opt_name a) None)]
  | Store, VStr s => [(opt_name a +:+ "=" +:+ s, CO (Some a) (opt_name a) (Some s))]
  | Store, VEmptyList => [(opt_name a +:+ "=--", CO (Some a) (opt_name a) (Some "--"))]
  | _, _ => []
  end.

Section Unparse.
  Context (p : Parser) (Hwf : parser_wf p).

Lemma classify_unparse (L : list Action) (g : Action → ArgVal) :
    L ⊆ p_options p →
    classify p (flat_map (λ a, unparse_opt a (g a)) L) = inr (flat_map (λ a, cls_opt a (g a)) L).
  Proof.
    induction L as [|a L IH]; intros HL; [done|]. cbn [flat_map].
    assert (Ha : a ∈ p_options p) by (apply HL; by left).
    assert (IH' := IH ltac:(intros x Hx; apply HL; by right)).
    destruct (option_of_wf p Hwf a Ha) as (o & r & Ho & Hor & Hr & He & Hk).
    assert (Hname : opt_name a = o) by (unfold opt_name; by rewrite Ho).
    assert (Hkey : parse_optional p o = inr (Some (Some a, o, None))).
    { apply parse_optional_key; [done|]. apply opt_table_in; [by apply elem_of_cons; right|rewrite Ho; by left]. }
    assert (Hne : ∀ t, o +:+ t ≠ "--").
    { intros t. subst o. rewrite !string_app_cons. intros [= Hx]. destruct r; [done|]. discriminate. }
    unfold unparse_opt at 1. unfold cls_opt at 1. rewrite Hname.
    destruct (a_kind a), (g a) as [[]| | |]; cbn [app]; try done.
    - rewrite classify_cons_opt with (oa := Some a) (os := o) (ex := None), IH'; [done| |done].
      rewrite <- (string_app_nil_r o). apply Hne.
    - rewrite classify_cons_opt with (oa := Some a) (os := o) (ex := Some s), IH'; [done|apply Hne|].
      by apply parse_optional_explicit.
    - rewrite classify_cons_opt with (oa := Some a) (os := o) (ex := Some "--"), IH'; [done|apply Hne|].
      by apply (parse_optional_explicit p Hwf a o "--").
  Qed.
End Unparse.

(** ** Consuming well-formed command lines *)

Definition fupd (y : string → ArgVal) (d : string) (v : ArgVal) : string → ArgVal :=
  λ k, if String.eqb k d then v else y k.

(** Does [unparse_opt] write the value? *)
Definition emitted (k : Kind) (v : ArgVal) : bool :=
  match k, v with
  | StoreTrue, VBool true | Store, VStr _ | Store, VEmptyList => true
  | _, _ => false
  end.

Definition dflt (k : Kind) : ArgVal := match k with StoreTrue => VBool false | _ => VNone end.

(** The namespace after the options [L] have set the values [g]. *)
Definition upd_all (L : list Action) (g : Action → ArgVal) (y : string → ArgVal) : string → ArgVal :=
  fold_left (λ y a, if emitted (a_kind a) (g a) then fupd y (a_dest a) (g a) else y) L y.

Section Consume.

Lemma ns_set_of (opts : list Action) (y : string → ArgVal) (d : string) (v : ArgVal) :
    ns_set d v (ns_of opts y) = ns_of opts (fupd y d v).
  Proof.
    unfold ns_set, ns_of, fupd. rewrite map_map. apply map_ext. intros a. simpl.
    by destruct (String.eqb (a_dest a) d).
  Qed.

Lemma ns_get_map (opts : list Action) (f : Action → ArgVal) (b : Action) :
    NoDup (map a_dest opts) → b ∈ opts → ns_get (map (λ a, (a_dest a, f a)) opts) (a_dest b) = f b.
  Proof.
    intros Hnd Hb. unfold ns_get. rewrite (find_key_unique _ _ (f b)); [done| |].
    - by rewrite map_map.
    - apply list_elem_of_fmap. by exists b.
  Qed.

Lemma fits_not_emitted (k : Kind) (v : ArgVal) :
    k ≠ Help → fits k v = true → emitted k v = false → v = dflt k.
  Proof. destruct k, v as [[]| | |]; done. Qed.

Lemma upd_all_cons (a : Action) (L : list Action) (g : Action → ArgVal) (y : string → ArgVal) :
    upd_all (a :: L) g y = upd_all L g (if emitted (a_kind a) (g a) then fupd y (a_dest a) (g a) else y).
  Proof. done. Qed.

Lemma upd_all_notin (L : list Action) (g : Action → ArgVal) (y : string → ArgVal) (k : string) :
    k ∉ map a_dest L → upd_all L g y k = y k.
  Proof.
    induction L as [|a L IH] in y |- *; [done|]. intros [Hk HL]%not_elem_of_cons.
    rewrite upd_all_cons, IH by done.
    destruct emitted; [|done]. unfold fupd. by rewrite (proj2 (String.eqb_neq _ _) Hk).
  Qed.

Lemma upd_all_in (L : list Action) (g : Action → ArgVal) (y : string → ArgVal) (a : Action) :
    NoDup (map a_dest L) → a ∈ L →
    upd_all L g y (a_dest a) = if emitted (a_kind a) (g a) then g a else y (a_dest a).
  Proof.
    induction L as [|b L IH] in y |- *; [by intros _ ?%elem_of_nil|].
    cbn [map]. intros [Hb Hnd]%NoDup_cons [->|Ha]%elem_of_cons; rewrite upd_all_cons.
    - rewrite upd_all_notin by done. destruct emitted; [|done]. unfold fupd. by rewrite String.eqb_refl.
    - rewrite IH by done. destruct (emitted (a_kind a) (g a)); [done|].
      destruct emitted; [|done]. unfold fupd. rewrite (proj2 (String.eqb_neq _ _)); [done|].
      intros Heq. destruct Hb. rewrite <- Heq. apply list_elem_of_fmap. by exists a.
  Qed.

Lemma opt_exp_store (p : Parser) (a : Action) (os x : string) (rest : list (string * Cls)) :
    a_kind a = Store → opt_exp p a os x rest = inr ([(a, if String.eqb x "--" then VEmptyList else VStr x)], false).
  Proof. intros Ek. destruct x; simpl; by rewrite Ek. Qed.

Lemma consume_cls (p : Parser) (opts L : list Action) (g : Action → ArgVal) (y : string → ArgVal)
    (extras : list string) :
    Forall (λ a, a_kind a ≠ Help ∧ fits (a_kind a) (g a) = true) L →
    consume p (flat_map (λ a, cls_opt a (g a)) L) (ns_of opts y) extras
    = KDone (ns_of opts (upd_all L g y)) extras.
  Proof.
    induction L as [|a L IH] in y |- *; [done|]. intros [[Hk Hf] HL]%Forall_cons.
    cbn [flat_map]. rewrite upd_all_cons. unfold cls_opt at 1, emitted at 1.
    destruct (a_kind a) eqn:Ek, (g a) as [[]| | |] eqn:Eg; cbn [app]; try done; try by apply IH.
    - cbn [consume]. unfold opt_noexp. rewrite Ek. cbn [apply_acts]. rewrite Ek, ns_set_of.
      unfold flag_value. rewrite Ek. by apply IH.
    - cbn [consume]. rewrite opt_exp_store by done. cbn [apply_acts]. rewrite Ek.
      assert (Hs : String.eqb s "--" = false) by (simpl in Hf; by apply negb_true_iff).
      rewrite Hs, ns_set_of. by apply IH.
    - cbn [consume]. rewrite opt_exp_store by done. cbn [apply_acts]. rewrite Ek, ns_set_of. by apply IH.
  Qed.
End Consume.

Lemma omap_default_of (L : list Action) :
    Forall (λ a, a_kind a ≠ Help) L → omap default_of L = map (λ a, (a_dest a, dflt (a_kind a))) L.
  Proof.
    induction L as [|a L IH]; [done|]. intros [Hk HL]%Forall_cons.
    change (omap default_of (a :: L)) with
      (match default_of a with Some y => y :: omap default_of L | None => omap default_of L end).
    unfold default_of at 1. cbn [map]. rewrite IH by done. by destruct (a_kind a).
  Qed.

Lemma defaults_map (p : Parser) :
    parser_wf p → defaults p = map (λ a, (a_dest a, dflt (a_kind a))) (p_options p).
  Proof.
    intros Hwf. transitivity (omap default_of (p_options p)); [reflexivity|].
    apply omap_default_of. destruct Hwf as [_ _ Hlong]. eapply Forall_impl; [done|]. naive_solver.
  Qed.

(** The defaults of a well-formed parser, as a namespace. *)
Lemma defaults_wf (p : Parser) :
    parser_wf p → defaults p = ns_of (p_options p) (ns_get (defaults p)).
  Proof.
    intros Hwf. rewrite (defaults_map p Hwf). unfold ns_of. apply map_ext_in. intros a Ha%list_elem_of_In.
    f_equal. symmetry. apply ns_get_map; [apply Hwf|done].
  Qed.

Lemma defaults_get (p : Parser) (a : Action) :
    parser_wf p → a ∈ p_options p → ns_get (defaults p) (a_dest a) = dflt (a_kind a).
  Proof. intros Hwf Ha. rewrite (defaults_map p Hwf). apply ns_get_map; [apply Hwf|done]. Qed.

(** ** The command line of a namespace reads back *)
Section RoundTrip.

(** For every well-formed parser (distinct long options, as the
    scripts' [add_argument] calls make) and every namespace it can
    return, the canonical command line of the namespace ([--flag] for a
    set flag, [--opt=value] for a string) is parsed by [parse_args] back
    into that namespace. *)
Theorem parse_args_unparse (p : Parser) (ns : Namespace) :
    parser_wf p → ns_wf p ns → parse_args p (unparse p ns) = ArgsOk ns.
  Proof.
    intros Hwf [Hns Hfit]. unfold parse_args, parse_known, unparse.
    rewrite (classify_unparse p Hwf (p_options p) (λ a, ns_get ns (a_dest a))) by done.
    assert (Hk : ∀ a, a ∈ p_options p → a_kind a ≠ Help).
    { intros a Ha. by destruct (option_of_wf p Hwf a Ha) as (? & ? & _ & _ & _ & _ & ?). }
    rewrite (defaults_wf p Hwf), consume_cls.
    2: { rewrite Forall_forall in Hfit |- *. intros a Ha. split; [by apply Hk|by apply Hfit]. }
    cbn. f_equal. transitivity (ns_of (p_options p) (ns_get ns)); [|by rewrite <- Hns]. unfold ns_of. apply map_ext_in. intros a Ha%list_elem_of_In. f_equal.
    rewrite upd_all_in by (done || apply Hwf). destruct emitted eqn:Ee; [done|].
    change (omap default_of (p_options p)) with (defaults p).
    rewrite defaults_get by done. symmetry. apply fits_not_emitted; [by apply Hk| |done].
    rewrite Forall_forall in Hfit. by apply Hfit.
  Qed.
End RoundTrip.

(** ** The scripts' parsers are well formed *)

Ltac solve_parser_wf :=
  constructor;
  [ apply (bool_decide_unpack _ (dec := NoDup_dec _)); vm_compute; exact I
  | apply (bool_decide_unpack _ (dec := NoDup_dec _)); vm_compute; exact I
  | repeat (apply Forall_cons; split; [eexists; split_and!; [reflexivity|reflexivity|discriminate]|]);
    constructor ].

Lemma evac_parser_wf : parser_wf evac_parser.
Proof. solve_parser_wf. Qed.

Lemma first_parser_wf : parser_wf first_parser.
Proof. solve_parser_wf. Qed.

Lemma datefilter_parser_wf : parser_wf datefilter_parser.
Proof. solve_parser_wf. Qed.

Lemma summarize_parser_wf : parser_wf summarize_parser.
Proof. solve_parser_wf. Qed.

(** ** Help comes first *)

Lemma parse_args_help_first (p : Parser) (argv : list string) (l : list (string * Cls)) :
    parser_wf p → classify p argv = inr l → parse_args p ("-h" :: argv) = ArgsHelp.
  Proof.
    intros Hwf Hc. unfold parse_args, parse_known.
    rewrite (classify_cons_opt p "-h" argv (Some help_action) "-h" None), Hc; [done|done|].
    apply parse_optional_key; [done|]. apply opt_table_in; by left.
  Qed.

(** The run of a script whose parser asks for help. *)
Lemma parse_args_io_help {A} (p : Parser) (argv : list string) (k : Namespace → Eff A) :
    parse_args p argv = ArgsHelp →
    run (args ← parse_args_io p argv; k args) = ([EStdout (p_help p)], inl (SystemExit 0)).
  Proof. intros H. unfold parse_args_io. by rewrite H. Qed.

(** The canonical command line of a well-formed namespace reaches the
    script's code with that namespace, nothing printed. *)
Lemma parse_args_io_unparse {A} (p : Parser) (ns : Namespace) (k : Namespace → Eff A) :
    parser_wf p → ns_wf p ns → (args ← parse_args_io p (unparse p ns); k args) = k ns.
Proof. intros Hwf Hns. unfold parse_args_io. by rewrite (parse_args_unparse p ns Hwf Hns). Qed.

(** The namespace entry of a [store] option given [--opt=s] or absent. *)
Definition store_val (o : option string) : ArgVal := from_option VStr VNone o.

Lemma store_val_fits (o : option string) :
    o ≠ Some "--" → fits Store (store_val o) = true.
Proof. destruct o as [s|]; [|done]. intros Hs. apply negb_true_iff, String.eqb_neq. congruence. Qed.

Section CliTheorems.
  Context `{SA : SortAlg} `{DP : DatetimeParser} `{FF : FloatFormat}.

(** Every prefix of [--start-date] from [--s] on names it (argparse's
    [allow_abbrev]). *)
Lemma datefilter_prefix (k : nat) :
    3 ≤ k ≤ 12 →
    parse_optional datefilter_parser (String.substring 0 k "--start-date")
    = inr (Some (Some (long_opt "--start-date" Store), "--start-date", None)).
  Proof.
    intros Hk. assert (k = 3 ∨ k = 4 ∨ k = 5 ∨ k = 6 ∨ k = 7 ∨ k = 8 ∨ k = 9 ∨ k = 10 ∨ k = 11 ∨ k = 12)
      as H by lia. destruct_or! H; subst; vm_compute; reflexivity.
  Qed.

(** C22: genetedatefilterprocess.py run as [--start D] (or any prefix of
    [--start-date] from [--s] on, followed by a value [D]) filters from
    [D] exactly as [--start-date D] does: argparse completes the unique
    prefix. *)
Theorem datefilter_start_abbrev (k : nat) (v : string) (inp : CsvInput) :
    3 ≤ k ≤ 12 → parse_optional datefilter_parser v = inr None →
    datefilter_cli [String.substring 0 k "--start-date"; v] inp
    = process_and_output_percentages_io (Some v) inp.
  Proof.
    intros Hk Hv. pose proof (datefilter_prefix k Hk) as Hpre.
    assert (Hne : ∀ s, parse_optional datefilter_parser s ≠ parse_optional datefilter_parser "--" → s ≠ "--").
    { by intros s Hs ->. }
    assert (Hp : parse_args datefilter_parser [String.substring 0 k "--start-date"; v]
                 = ArgsOk [("start_date", VStr v)]).
    { unfold parse_args, parse_known.
      rewrite (classify_cons_opt datefilter_parser _ [v] (Some (long_opt "--start-date" Store)) "--start-date" None);
        [|apply Hne; rewrite Hpre; vm_compute; discriminate|exact Hpre].
      cbn [classify]. rewrite (proj2 (String.eqb_neq v "--")), Hv;
        [reflexivity|apply Hne; rewrite Hv; vm_compute; discriminate]. }
    unfold datefilter_cli, parse_args_io. rewrite Hp. reflexivity.
  Qed.
(** C20: processEvacuate.py run as [--today] (when [today] holds),
    [--start=S] and [--end=E] (each when given, in this order) runs the
    [__main__] block with exactly these values: [args.today],
    [args.start] and [args.end] are read from the destinations the
    options declare. *)
Theorem evac_cli_refines (c : Clock) (today : bool) (start end_ : option string) (input : option CsvInput) :
    start ≠ Some "--" → end_ ≠ Some "--" →
    evac_cli c ((if today then ["--today"] else []) ++
                from_option (λ s, ["--start=" +:+ s]) [] start ++
                from_option (λ s, ["--end=" +:+ s]) [] end_) input
    = evac_main c today start end_ input.
  Proof.
    intros Hs He.
    set (ns := [("today", VBool today); ("start", store_val start); ("end", store_val end_)]).
    assert (Hns : ns_wf evac_parser ns).
    { split; [by destruct start, end_|]. repeat constructor; cbn; by apply store_val_fits. }
    assert (Hu : unparse evac_parser ns = (if today then ["--today"] else []) ++
                from_option (λ s, ["--start=" +:+ s]) [] start ++
                from_option (λ s, ["--end=" +:+ s]) [] end_).
    { by destruct today, start, end_. }
    unfold evac_cli. rewrite <- Hu, (parse_args_io_unparse _ _ _ evac_parser_wf Hns).
    by destruct start, end_.
  Qed.

(** C21: summarize_noki.py run as [--filter-question=Q] (or with no
    option) summarizes the answers to [Q] (or all questions): the
    value reaches [summarize_noki] through [args.filter_question]. *)
Theorem summarize_cli_refines (q : option string) (inp : CsvInput) :
    q ≠ Some "--" →
    summarize_cli (from_option (λ s, ["--filter-question=" +:+ s]) [] q) inp = summarize_noki q inp.
  Proof.
    intros Hq.
    set (ns := [("filter_question", store_val q)]).
    assert (Hns : ns_wf summarize_parser ns).
    { split; [by destruct q|]. repeat constructor; cbn; by apply store_val_fits. }
    assert (Hu : unparse summarize_parser ns = from_option (λ s, ["--filter-question=" +:+ s]) [] q).
    { by destruct q. }
    unfold summarize_cli. rewrite <- Hu, (parse_args_io_unparse _ _ _ summarize_parser_wf Hns).
    by destruct q.
  Qed.
End CliTheorems.

Section Witnesses.

Lemma datefilter_start_abbrev_witness :
  3 ≤ 7 ≤ 12 ∧ parse_optional datefilter_parser "2026-01-02" = inr None ∧
  datefilter_cli (SA := insertion_sort_alg) (DP := iso_parser) (FF := py_float_format)
    [String.substring 0 7 "--start-date"; "2026-01-02"] NoData
  = process_and_output_percentages_io (SA := insertion_sort_alg) (FF := py_float_format) (H := iso_parser)
      (Some "2026-01-02") NoData.
Proof.
  assert (Hv : parse_optional datefilter_parser "2026-01-02" = inr None) by (vm_compute; reflexivity).
  split; [lia|]. split; [exact Hv|]. apply datefilter_start_abbrev; [lia|exact Hv].
Defined.
Lemma evac_cli_refines_witness :
  evac_cli (SA := insertion_sort_alg) (DP := iso_parser) clock0
    ((if true then ["--today"] else []) ++ from_option (λ s, ["--start=" +:+ s]) [] (Some "2026-01-01") ++
     from_option (λ s, ["--end=" +:+ s]) [] None) (Some NoData)
  = evac_main (SA := insertion_sort_alg) (DP := iso_parser) clock0 true (Some "2026-01-01") None (Some NoData).
Proof. apply evac_cli_refines; discriminate. Defined.

Lemma summarize_cli_refines_witness :
  summarize_cli (SA := insertion_sort_alg)
    (from_option (λ s, ["--filter-question=" +:+ s]) [] (Some "Pet?")) NoData
  = summarize_noki (SA := insertion_sort_alg) (Some "Pet?") NoData.
Proof. apply summarize_cli_refines; discriminate. Defined.

End Witnesses.
